(** * VRM exporter: weight normalisation, JSON access, container layout

    A shallow embedding of the serialization core of the VRM add-on
    ([io_scene_vrm/vrm_types.py] and [io_scene_vrm/misc/glb_factory.py]).
    Python exceptions are an explicit result type, [float] values are IEEE 754
    binary64 numbers given by the Standard Library's [spec_float], byte
    strings are lists of bytes (integers below 256), and ordered
    dictionaries are association lists. *)

From Stdlib Require Import ZArith List Bool String Ascii Lia DecimalString.
From Stdlib Require Import Sorted Permutation.
From Stdlib Require Import SpecFloat.
Import ListNotations.

Set Warnings "-register-all".

Local Open Scope Z_scope.

(** ** Python run-time: exceptions and results *)

Module Py.

Inductive exn : Type :=
| ZeroDivisionError
| OverflowError
| IndexError
| KeyError (key : string)
| ValueError
| TypeError
| StopIteration
| StructError
| RuntimeError
| UnboundLocalError
| AttributeError
| Exception (message : string).

Inductive result (A : Type) : Type :=
| Ok (a : A)
| Raise (e : exn).

Arguments Ok {A} a.
Arguments Raise {A} e.

Definition bind {A B : Type} (r : result A) (k : A -> result B) : result B :=
  match r with
  | Ok a => k a
  | Raise e => Raise e
  end.

Definition is_ok {A : Type} (r : result A) : bool :=
  match r with
  | Ok _ => true
  | Raise _ => false
  end.

(** [for x in l] over a fallible body, collecting the values. *)
Fixpoint mapM {A B : Type} (f : A -> result B) (l : list A) : result (list B) :=
  match l with
  | [] => Ok []
  | x :: l' =>
      bind (f x) (fun y => bind (mapM f l') (fun ys => Ok (y :: ys)))
  end.

(** A [for] loop threading an accumulator through a fallible body. *)
Fixpoint foldM {A B : Type} (f : B -> A -> result B) (l : list A) (b : B)
  : result B :=
  match l with
  | [] => Ok b
  | x :: l' => bind (f b x) (fun b' => foldM f l' b')
  end.

(** [seq[i]] on a Python list: negative indices count from the end,
    anything outside raises [IndexError]. *)
Definition getitem {A : Type} (l : list A) (i : Z) : result A :=
  let n := Z.of_nat (List.length l) in
  let j := if i <? 0 then i + n else i in
  if (0 <=? j) && (j <? n) then
    match nth_error l (Z.to_nat j) with
    | Some x => Ok x
    | None => Raise IndexError
    end
  else Raise IndexError.

End Py.

Import Py.

Notation "x <- c ;; k" := (Py.bind c (fun x => k))
  (at level 61, c at next level, right associativity).

(** ** Python floats: IEEE 754 binary64 *)

Module Float.

Definition prec : Z := 53.
Definition emax : Z := 1024.

Definition float : Type := spec_float.

Definition of_Z (z : Z) : float := binary_normalize prec emax z 0 false.

(** The float [m * 2^e], rounded if it has to be. *)
Definition dyadic (m e : Z) : float := binary_normalize prec emax m e false.

Definition zero : float := S754_zero false.
Definition one : float := Eval vm_compute in of_Z 1.

(** [sys.float_info.epsilon], the gap between 1.0 and the next float: 2^-52. *)
Definition epsilon : float := Eval vm_compute in SFldexp prec emax one (-52).

(** The literals [0.5] and [0.9]. *)
Definition half : float := Eval vm_compute in SFldexp prec emax one (-1).
Definition nine_tenths : float :=
  Eval vm_compute in SFdiv prec emax (of_Z 9) (of_Z 10).

Definition add (x y : float) : float := SFadd prec emax x y.
Definition sub (x y : float) : float := SFsub prec emax x y.
Definition mul (x y : float) : float := SFmul prec emax x y.
Definition abs (x : float) : float := SFabs x.
Definition neg (x : float) : float := SFopp x.

Definition ltb (x y : float) : bool := SFltb x y.
Definition leb (x y : float) : bool := SFleb x y.
Definition eqb (x y : float) : bool := SFeqb x y.
Definition gtb (x y : float) : bool := SFltb y x.
Definition geb (x y : float) : bool := SFleb y x.

(** The place of a float that is not NaN in the order of the floats:
    class (infinities, negative, zero, positive), then exponent, then
    mantissa, compared in this order. *)
Definition rank (x : float) : Z * Z * Z :=
  match x with
  | S754_infinity true => (-2, 0, 0)
  | S754_finite true m e => (-1, - e, - Zpos m)
  | S754_zero _ => (0, 0, 0)
  | S754_finite false m e => (1, e, Zpos m)
  | S754_infinity false => (2, 0, 0)
  | S754_nan => (3, 0, 0)
  end.

Definition rank_lt (a b : Z * Z * Z) : Prop :=
  fst (fst a) < fst (fst b)
  \/ (fst (fst a) = fst (fst b)
      /\ (snd (fst a) < snd (fst b)
          \/ (snd (fst a) = snd (fst b) /\ snd a < snd b))).

(** A float in the canonical form of binary64. *)
Definition valid (x : float) : bool := valid_binary prec emax x.

Definition is_zero (x : float) : bool :=
  match x with S754_zero _ => true | _ => false end.
Definition is_nan (x : float) : bool :=
  match x with S754_nan => true | _ => false end.
Definition is_inf (x : float) : bool :=
  match x with S754_infinity _ => true | _ => false end.
Definition is_finite (x : float) : bool :=
  match x with S754_zero _ | S754_finite _ _ _ => true | _ => false end.

(** The integer nearest to a finite float, ties to the even one. *)
Definition nearest_even (s : bool) (m : positive) (e : Z) : Z :=
  if 0 <=? e then cond_Zopp s (Zpos m * 2 ^ e)
  else
    let d := 2 ^ (- e) in
    let q := Zpos m / d in
    let r := Zpos m mod d in
    cond_Zopp s
      (match 2 * r ?= d with
       | Lt => q
       | Gt => q + 1
       | Eq => if Z.even q then q else q + 1
       end).

(** [round(x)]: [ValueError] on NaN, [OverflowError] on an infinity. *)
Definition round (x : float) : result Z :=
  match x with
  | S754_zero _ => Ok 0
  | S754_finite s m e => Ok (nearest_even s m e)
  | S754_infinity _ => Raise OverflowError
  | S754_nan => Raise ValueError
  end.

(** [math.floor(x)]. *)
Definition floor (x : float) : result Z :=
  match x with
  | S754_zero _ => Ok 0
  | S754_finite s m e =>
      if 0 <=? e then Ok (cond_Zopp s (Zpos m * 2 ^ e))
      else Ok (cond_Zopp s (Zpos m) / 2 ^ (- e))
  | S754_infinity _ => Raise OverflowError
  | S754_nan => Raise ValueError
  end.

(** [x / y] on Python floats raises on a zero divisor. *)
Definition div (x y : float) : result float :=
  if is_zero y then Raise ZeroDivisionError else Ok (SFdiv prec emax x y).

(** [sum(l)]: the built-in starts from the integer 0 and adds from the left. *)
Definition sum (l : list float) : float := fold_left add l zero.

(** The exact sum of finite floats as an integer mantissa at the least
    exponent of the summands. *)
Definition exponent_of (x : float) : option Z :=
  match x with S754_finite _ _ e => Some e | _ => None end.

Definition min_exponent (l : list float) : Z :=
  fold_left (fun acc x => match exponent_of x with
                          | Some e => Z.min acc e
                          | None => acc
                          end) l 0.

Definition mantissa_at (e0 : Z) (x : float) : Z :=
  match x with
  | S754_finite s m e => cond_Zopp s (Z.shiftl (Zpos m) (e - e0))
  | _ => 0
  end.

Definition exact_sum (l : list float) : float :=
  let e0 := min_exponent l in
  binary_normalize prec emax
    (fold_left (fun acc x => acc + mantissa_at e0 x) l 0) e0 false.

(** [math.fsum(l)]: the correctly rounded sum.  Infinities and NaN are
    summed apart; opposite infinities raise [ValueError], a sum that leaves
    the range raises [OverflowError]. *)
Definition fsum (l : list float) : result float :=
  match filter (fun x => negb (is_finite x)) l with
  | [] =>
      match exact_sum l with
      | S754_infinity _ => Raise OverflowError
      | s => Ok s
      end
  | special =>
      if is_nan (fold_left add (filter is_inf l) zero) then Raise ValueError
      else Ok (fold_left add special zero)
  end.

(** [struct.unpack("<f", struct.pack("<f", x))]: round to binary32 (to
    nearest, ties to even) and widen again; a finite value beyond the
    binary32 range raises [OverflowError]. *)
Definition to_binary32 (x : float) : float :=
  match x with
  | S754_finite s m e => binary_round 24 128 s m e
  | _ => x
  end.

Definition of_binary32 (x : spec_float) : float :=
  match x with
  | S754_finite s m e => binary_round prec emax s m e
  | _ => x
  end.

Definition round_trip_f32 (x : float) : result float :=
  match x, to_binary32 x with
  | S754_finite _ _ _, S754_infinity _ => Raise OverflowError
  | _, y => Ok (of_binary32 y)
  end.

End Float.

Import Float.

(** ** JSON values *)

Inductive json : Type :=
| JNull
| JBool (b : bool)
| JInt (z : Z)
| JFloat (x : float)
| JStr (s : string)
| JList (items : list json)
| JDict (entries : list (string * json)).

(** Dictionaries with keys compared by [eqb], in insertion order. *)
Module Assoc.

Section WithKey.

Context {K V : Type}.
Variable eqb : K -> K -> bool.

(** [d.get(k)]: the entry whose stored key equals [k]. *)
Fixpoint get (d : list (K * V)) (k : K) : option V :=
  match d with
  | [] => None
  | (k', v) :: d' => if eqb k' k then Some v else get d' k
  end.

(** [d[k] = v]: overwrite in place, or append at the end. *)
Fixpoint set (d : list (K * V)) (k : K) (v : V) : list (K * V) :=
  match d with
  | [] => [(k, v)]
  | (k', v') :: d' =>
      if eqb k' k then (k', v) :: d' else (k', v') :: set d' k v
  end.

End WithKey.

End Assoc.

(** Ordered dictionaries with string keys. *)
Module Dict.

Definition t (V : Type) : Type := list (string * V).

Fixpoint get {V : Type} (d : t V) (k : string) : option V :=
  match d with
  | [] => None
  | (k', v) :: d' => if String.eqb k k' then Some v else get d' k
  end.

Definition mem {V : Type} (d : t V) (k : string) : bool :=
  match get d k with Some _ => true | None => false end.

(** [d[k] = v]: overwrite in place, or append at the end. *)
Fixpoint set {V : Type} (d : t V) (k : string) (v : V) : t V :=
  match d with
  | [] => [(k, v)]
  | (k', v') :: d' =>
      if String.eqb k k' then (k', v) :: d' else (k', v') :: set d' k v
  end.

Definition update {V : Type} (d other : t V) : t V :=
  fold_left (fun acc kv => set acc (fst kv) (snd kv)) other d.

(** [d[k]], raising [KeyError] on a missing key. *)
Definition getitem {V : Type} (d : t V) (k : string) : result V :=
  match get d k with
  | Some v => Ok v
  | None => Raise (KeyError k)
  end.

End Dict.

(** ** [vrm_types.py] *)

Module vrm_types.

(** An element of the [attrs] path: a list index or a dictionary key. *)
Inductive attr : Type :=
| AInt (i : Z)
| AStr (s : string).

(** [nested_json_value_getter(json, attrs, default)].  The argument [json]
    is [None] when it is [JNull]; [attrs.pop(0)] raises [IndexError] on an
    empty path. *)
Fixpoint nested_json_value_getter
    (j : json) (attrs : list attr) (default : json) {struct attrs}
  : result json :=
  match j with
  | JNull => Ok default
  | _ =>
      match attrs with
      | [] => Raise IndexError
      | a :: attrs' =>
          match j, a with
          | JList l, AInt i =>
              if (0 <? Z.of_nat (List.length l)) && (Z.of_nat (List.length l) <? i) then
                match attrs' with
                | [] => Py.getitem l i
                | _ => x <- Py.getitem l i ;;
                       nested_json_value_getter x attrs' default
                end
              else Ok default
          | JDict d, AStr s =>
              if Dict.mem d s then
                match attrs' with
                | [] => Dict.getitem d s
                | _ => x <- Dict.getitem d s ;;
                       nested_json_value_getter x attrs' default
                end
              else Ok default
          | _, _ => Ok default
          end
      end
  end.

(** The inner [to_gl_float]: four values through [struct] format ["<ffff"]. *)
Definition to_gl_float (array4 : list float) : result (list float) :=
  match array4 with
  | [a; b; c; d] =>
      a' <- round_trip_f32 a ;;
      b' <- round_trip_f32 b ;;
      c' <- round_trip_f32 c ;;
      d' <- round_trip_f32 d ;;
      Ok [a'; b'; c'; d']
  | _ => Raise StructError
  end.

(** One round of the [for _ in range(10)] loop; [None] stands for [break]. *)
Definition normalize_step (weights : list float)
  : result (option (list float)) :=
  quotients <- mapM (fun i => w <- Py.getitem weights i ;;
                              Float.div w (Float.sum weights))
                    [0; 1; 2; 3] ;;
  next_weights <- to_gl_float quotients ;;
  s <- fsum weights ;;
  s' <- fsum next_weights ;;
  let error := Float.abs (Float.sub one s) in
  let next_error := Float.abs (Float.sub one s') in
  if Float.geb error epsilon && Float.gtb error next_error
  then Ok (Some next_weights)
  else Ok None.

Fixpoint normalize_loop (rounds : nat) (weights : list float)
  : result (list float) :=
  match rounds with
  | O => Ok weights
  | S rounds' =>
      r <- normalize_step weights ;;
      match r with
      | Some next_weights => normalize_loop rounds' next_weights
      | None => Ok weights
      end
  end.

Definition normalize_weights_compatible_with_gl_float (weights : list float)
  : result (list float) :=
  if Float.ltb (Float.abs (Float.sub (Float.sum weights) one)) epsilon
  then Ok weights
  else
    weights' <- to_gl_float weights ;;
    normalize_loop 10 weights'.

(** The binary32 value nearest to a float, ties to even, as a float
    again: the rounding of IEEE 754, with the precision of 24 bits and the
    exponents of binary32, then the exact widening to binary64. *)
Definition nearest_binary32 (x : float) : float :=
  match x with
  | S754_finite s m e =>
      match binary_round 24 128 s m e with
      | S754_finite s' m' e' => binary_round 53 1024 s' m' e'
      | y => y
      end
  | _ => x
  end.

(** [abs(1 - math.fsum(weights))]: how far the weights are from summing to
    one, as the loop measures it. *)
Definition sum_error (weights : list float) : result float :=
  s <- fsum weights ;; Ok (Float.abs (Float.sub one s)).

(** The value reached from [j] by looking up the keys of [path] one after
    the other, if every step is a dictionary that has the key. *)
Fixpoint lookup_path (j : json) (path : list string) : option json :=
  match path with
  | [] => Some j
  | s :: path' =>
      match j with
      | JDict d =>
          match Dict.get d s with
          | Some v => lookup_path v path'
          | None => None
          end
      | _ => None
      end
  end.

(** [Gltf.TEXTURE_INPUT_NAMES]. *)
Definition TEXTURE_INPUT_NAMES : list string :=
  ["color_texture"; "normal"; "emissive_texture"; "occlusion_texture"]%string.

(** The tables of [MaterialMtoon]: glTF-side key, shader input name. *)
Module MaterialMtoon.

Definition version : Z := 32.

Definition float_props_exchange_dic : list (string * option string) :=
  [("_MToonVersion", None);
   ("_Cutoff", Some "CutoffRate");
   ("_BumpScale", Some "BumpScale");
   ("_ReceiveShadowRate", Some "ReceiveShadowRate");
   ("_ShadeShift", Some "ShadeShift");
   ("_ShadeToony", Some "ShadeToony");
   ("_RimLightingMix", Some "RimLightingMix");
   ("_RimFresnelPower", Some "RimFresnelPower");
   ("_RimLift", Some "RimLift");
   ("_ShadingGradeRate", Some "ShadingGradeRate");
   ("_LightColorAttenuation", Some "LightColorAttenuation");
   ("_IndirectLightIntensity", Some "IndirectLightIntensity");
   ("_OutlineWidth", Some "OutlineWidth");
   ("_OutlineScaledMaxDistance", Some "OutlineScaleMaxDistance");
   ("_OutlineLightingMix", Some "OutlineLightingMix");
   ("_UvAnimScrollX", Some "UV_Scroll_X");
   ("_UvAnimScrollY", Some "UV_Scroll_Y");
   ("_UvAnimRotation", Some "UV_Scroll_Rotation");
   ("_DebugMode", None);
   ("_BlendMode", None);
   ("_OutlineWidthMode", Some "OutlineWidthMode");
   ("_OutlineColorMode", Some "OutlineColorMode");
   ("_CullMode", None);
   ("_OutlineCullMode", None);
   ("_SrcBlend", None);
   ("_DstBlend", None);
   ("_ZWrite", None);
   ("_IsFirstSetup", None)]%string.

Definition texture_kind_exchange_dic : list (string * string) :=
  [("_MainTex", "MainTexture");
   ("_ShadeTexture", "ShadeTexture");
   ("_BumpMap", "NomalmapTexture");
   ("_ReceiveShadowTexture", "ReceiveShadow_Texture");
   ("_ShadingGradeTexture", "ShadingGradeTexture");
   ("_EmissionMap", "Emission_Texture");
   ("_SphereAdd", "SphereAddTexture");
   ("_RimTexture", "RimTexture");
   ("_OutlineWidthTexture", "OutlineWidthTexture");
   ("_UvAnimMaskTexture", "UV_Animation_Mask_Texture")]%string.

Definition vector_base_props_exchange_dic : list (string * string) :=
  [("_Color", "DiffuseColor");
   ("_ShadeColor", "ShadeColor");
   ("_EmissionColor", "EmissionColor");
   ("_RimColor", "RimColor");
   ("_OutlineColor", "OutlineColor")]%string.

Definition vector_props_exchange_dic : list (string * string) :=
  Dict.update (Dict.update [] vector_base_props_exchange_dic)
              texture_kind_exchange_dic.

Definition keyword_list : list string :=
  ["_NORMALMAP"; "_ALPHATEST_ON"; "_ALPHABLEND_ON"; "_ALPHAPREMULTIPLY_ON";
   "MTOON_OUTLINE_WIDTH_WORLD"; "MTOON_OUTLINE_WIDTH_SCREEN";
   "MTOON_OUTLINE_COLOR_FIXED"; "MTOON_OUTLINE_COLOR_MIXED";
   "MTOON_DEBUG_NORMAL"; "MTOON_DEBUG_LITSHADERATE"]%string.

End MaterialMtoon.

(** The tables of [HumanBones]. *)
Module HumanBones.

Definition center_req : list string :=
  ["hips"; "spine"; "chest"; "neck"; "head"]%string.
Definition left_leg_req : list string :=
  ["leftUpperLeg"; "leftLowerLeg"; "leftFoot"]%string.
Definition left_arm_req : list string :=
  ["leftUpperArm"; "leftLowerArm"; "leftHand"]%string.
Definition right_leg_req : list string :=
  ["rightUpperLeg"; "rightLowerLeg"; "rightFoot"]%string.
Definition right_arm_req : list string :=
  ["rightUpperArm"; "rightLowerArm"; "rightHand"]%string.

Definition requires : list string :=
  (center_req ++ left_leg_req ++ right_leg_req ++ left_arm_req
   ++ right_arm_req)%list.

Definition left_arm_def : list string :=
  ["leftShoulder";
   "leftThumbProximal"; "leftThumbIntermediate"; "leftThumbDistal";
   "leftIndexProximal"; "leftIndexIntermediate"; "leftIndexDistal";
   "leftMiddleProximal"; "leftMiddleIntermediate"; "leftMiddleDistal";
   "leftRingProximal"; "leftRingIntermediate"; "leftRingDistal";
   "leftLittleProximal"; "leftLittleIntermediate"; "leftLittleDistal"]%string.

Definition right_arm_def : list string :=
  ["rightShoulder";
   "rightThumbProximal"; "rightThumbIntermediate"; "rightThumbDistal";
   "rightIndexProximal"; "rightIndexIntermediate"; "rightIndexDistal";
   "rightMiddleProximal"; "rightMiddleIntermediate"; "rightMiddleDistal";
   "rightRingProximal"; "rightRingIntermediate"; "rightRingDistal";
   "rightLittleProximal"; "rightLittleIntermediate"; "rightLittleDistal"]%string.

Definition center_def : list string := ["upperChest"; "jaw"]%string.
Definition left_leg_def : list string := ["leftToes"%string].
Definition right_leg_def : list string := ["rightToes"%string].

Definition defines : list string :=
  (["leftEye"; "rightEye"]%string ++ center_def ++ left_leg_def
   ++ right_leg_def ++ left_arm_def ++ right_arm_def)%list.

(** [hierarchy]: child and parent. *)
Definition hierarchy : list (string * string) :=
  [("leftEye", "head"); ("rightEye", "head"); ("jaw", "head");
   ("head", "neck"); ("neck", "upperChest"); ("upperChest", "chest");
   ("chest", "spine"); ("spine", "hips");
   ("rightShoulder", "chest"); ("rightUpperArm", "rightShoulder");
   ("rightLowerArm", "rightUpperArm"); ("rightHand", "rightLowerArm");
   ("rightThumbProximal", "rightHand");
   ("rightThumbIntermediate", "rightThumbProximal");
   ("rightThumbDistal", "rightThumbIntermediate");
   ("rightIndexProximal", "rightHand");
   ("rightIndexIntermediate", "rightIndexProximal");
   ("rightIndexDistal", "rightIndexIntermediate");
   ("rightMiddleProximal", "rightHand");
   ("rightMiddleIntermediate", "rightMiddleProximal");
   ("rightMiddleDistal", "rightMiddleIntermediate");
   ("rightRingProximal", "rightHand");
   ("rightRingIntermediate", "rightRingProximal");
   ("rightRingDistal", "rightRingIntermediate");
   ("rightLittleProximal", "rightHand");
   ("rightLittleIntermediate", "rightLittleProximal");
   ("rightLittleDistal", "rightLittleIntermediate");
   ("leftShoulder", "chest"); ("leftUpperArm", "leftShoulder");
   ("leftLowerArm", "leftUpperArm"); ("leftHand", "leftLowerArm");
   ("leftThumbProximal", "leftHand");
   ("leftThumbIntermediate", "leftThumbProximal");
   ("leftThumbDistal", "leftThumbIntermediate");
   ("leftIndexProximal", "leftHand");
   ("leftIndexIntermediate", "leftIndexProximal");
   ("leftIndexDistal", "leftIndexIntermediate");
   ("leftMiddleProximal", "leftHand");
   ("leftMiddleIntermediate", "leftMiddleProximal");
   ("leftMiddleDistal", "leftMiddleIntermediate");
   ("leftRingProximal", "leftHand");
   ("leftRingIntermediate", "leftRingProximal");
   ("leftRingDistal", "leftRingIntermediate");
   ("leftLittleProximal", "leftHand");
   ("leftLittleIntermediate", "leftLittleProximal");
   ("leftLittleDistal", "leftLittleIntermediate");
   ("leftUpperLeg", "hips"); ("leftLowerLeg", "leftUpperLeg");
   ("leftFoot", "leftLowerLeg"); ("leftToes", "leftFoot");
   ("rightUpperLeg", "hips"); ("rightLowerLeg", "rightUpperLeg");
   ("rightFoot", "rightLowerLeg"); ("rightToes", "rightFoot")]%string.

End HumanBones.

End vrm_types.


Import vrm_types.

(** ** Byte strings and the [struct] module *)

Module Struct.

Definition bytes : Type := list Byte.byte.

Definition byte_of_Z (z : Z) : Byte.byte :=
  match Byte.of_N (Z.to_N (z mod 256)) with
  | Some b => b
  | None => Byte.x00
  end.

Definition Z_of_byte (b : Byte.byte) : Z := Z.of_N (Byte.to_N b).

(** A bytes literal such as [b"glTF"]. *)
Definition literal (s : string) : bytes := list_byte_of_string s.

Definition len (b : bytes) : Z := Z.of_nat (List.length b).

(** Little-endian unsigned integers of [width] bytes. *)
Fixpoint le_bytes (width : nat) (n : Z) : bytes :=
  match width with
  | O => []
  | S w => byte_of_Z n :: le_bytes w (n / 256)
  end.

Fixpoint le_value (b : bytes) : Z :=
  match b with
  | [] => 0
  | x :: b' => Z_of_byte x + 256 * le_value b'
  end.

(** [struct.pack("<I", n)]: four bytes; [struct.error] outside [0, 2^32). *)
Definition pack_I (n : Z) : result bytes :=
  if (0 <=? n) && (n <? 2 ^ 32) then Ok (le_bytes 4 n) else Raise StructError.

(** [struct.pack("<H", n)]: two bytes; [struct.error] outside [0, 2^16). *)
Definition pack_H (n : Z) : result bytes :=
  if (0 <=? n) && (n <? 2 ^ 16) then Ok (le_bytes 2 n) else Raise StructError.

(** [struct.pack("<HHHH", *joints)]. *)
Definition pack_HHHH (l : list Z) : result bytes :=
  match l with
  | [a; b; c; d] =>
      a' <- pack_H a ;; b' <- pack_H b ;; c' <- pack_H c ;; d' <- pack_H d ;;
      Ok (a' ++ b' ++ c' ++ d')
  | _ => Raise StructError
  end.

(** The binary32 bit pattern of a float already rounded to binary32. *)
Definition bits_of_binary32 (x : spec_float) : Z :=
  match x with
  | S754_zero s => if s then 2 ^ 31 else 0
  | S754_infinity s => (if s then 2 ^ 31 else 0) + 255 * 2 ^ 23
  | S754_nan => 255 * 2 ^ 23 + 2 ^ 22
  | S754_finite s m e =>
      (if s then 2 ^ 31 else 0) +
      (if 2 ^ 23 <=? Zpos m then (e + 150) * 2 ^ 23 + (Zpos m - 2 ^ 23)
       else Zpos m)
  end.

(** [struct.pack("<f", x)]. *)
Definition pack_f (x : float) : result bytes :=
  match x, to_binary32 x with
  | S754_finite _ _ _, S754_infinity _ => Raise OverflowError
  | _, y => Ok (le_bytes 4 (bits_of_binary32 y))
  end.

(** [struct.pack("<ffff", *weights)]. *)
Definition pack_ffff (l : list float) : result bytes :=
  match l with
  | [a; b; c; d] =>
      a' <- pack_f a ;; b' <- pack_f b ;; c' <- pack_f c ;; d' <- pack_f d ;;
      Ok (a' ++ b' ++ c' ++ d')
  | _ => Raise StructError
  end.

(** [struct.pack("<" + "f" * n, *l)]. *)
Definition pack_floats (n : nat) (l : list float) : result bytes :=
  if Nat.eqb (List.length l) n
  then bs <- mapM pack_f l ;; Ok (List.concat bs)
  else Raise StructError.

End Struct.

Import Struct.

(** ** [misc/glb_factory.py] *)

Module glb_factory.

Definition json_floats (l : list float) : json := JList (map JFloat l).

(** [GlbObj.axis_blender_to_glb]:
    [[vec3[i] * t for i, t in zip([0, 2, 1], [-1, 1, 1])]]. *)
Definition axis_blender_to_glb (vec3 : list float) : result (list float) :=
  mapM (fun it : Z * Z =>
          x <- Py.getitem vec3 (fst it) ;;
          Ok (Float.mul x (of_Z (snd it))))
       (combine [0; 2; 1] [-1; 1; 1]).

(** The conversion as the specification words it: the axes reordered as
    [X, Z, Y] and the new Y component negated. *)
Definition axis_reorder_negating_new_y (vec3 : list float)
  : result (list float) :=
  mapM (fun it : Z * Z =>
          x <- Py.getitem vec3 (fst it) ;;
          Ok (Float.mul x (of_Z (snd it))))
       (combine [0; 2; 1] [1; -1; 1]).

(** A bone of the armature, with the link to its parent. *)
Inductive Bone : Type :=
  mkBone (name : string) (head_local : list float)
         (parent : option Bone) (children : list string).

Definition bone_name (b : Bone) : string :=
  let 'mkBone n _ _ _ := b in n.
Definition bone_head_local (b : Bone) : list float :=
  let 'mkBone _ h _ _ := b in h.
Definition bone_parent (b : Bone) : option Bone :=
  let 'mkBone _ _ p _ := b in p.
Definition bone_children (b : Bone) : list string :=
  let 'mkBone _ _ _ c := b in c.

(** The inner [bone_to_node] of [armature_to_node_and_scenes_dic]. *)
Definition bone_to_node (bone_id_dic : Dict.t Z) (b_bone : Bone)
  : result (Dict.t json) :=
  let parent_head_local :=
    match bone_parent b_bone with
    | Some p => bone_head_local p
    | None => [zero; zero; zero]
    end in
  relative <- mapM (fun i => h <- Py.getitem (bone_head_local b_bone) i ;;
                             p <- Py.getitem parent_head_local i ;;
                             Ok (Float.sub h p))
                   [0; 1; 2] ;;
  translation <- axis_blender_to_glb relative ;;
  children <- mapM (fun ch => Dict.getitem bone_id_dic ch)
                   (bone_children b_bone) ;;
  let node := [("name", JStr (bone_name b_bone));
               ("translation", json_floats translation)]%string in
  match children with
  | [] => Ok node
  | _ => Ok (node ++ [("children", JList (map JInt children))]%string)
  end.

(** *** Skin weights of one vertex ([mesh_to_bin_and_dic]) *)

Definition repr_Z (z : Z) : string := NilZero.string_of_int (Z.to_int z).

(** [l.index(x)]; [None] stands for [ValueError]. *)
Fixpoint list_index (l : list Z) (x : Z) : option Z :=
  match l with
  | [] => None
  | y :: l' => if y =? x then Some 0 else option_map Z.succ (list_index l' x)
  end.

(** [GlbObj.joint_id_from_node_name_solver]; [skins] lists the ["joints"]
    of the entries of [json_dic["skins"]].  The value comes with the line
    printed, if any. *)
Definition joint_id_from_node_name_solver
    (skins : list (list Z)) (node_name : string) (node_id_dic : Dict.t Z)
  : result (Z * list string) :=
  let missing := (-1, [node_name ++ " bone may be not exist"]%string) in
  match Dict.get node_id_dic node_name with
  | None => Ok missing
  | Some node_id =>
      match skins with
      | [] => Raise IndexError
      | joints :: _ =>
          match list_index joints node_id with
          | Some i => Ok (i, [])
          | None => Ok missing
          end
      end
  end.

(** An element of [vertex.groups]. *)
Record VertexGroupElement : Type := mkVertexGroupElement {
  group : Z;
  weight : float
}.

(** What the skinning of a vertex reads from the mesh and the export. *)
Record SkinEnv : Type := mkSkinEnv {
  mesh_name : string;
  v_group_name_dic : list string;
  node_id_dic : Dict.t Z;
  skins : list (list Z);
  armature_data : Dict.t string;
  node_names : list string
}.

(** A group element that refers to one of the vertex groups of the mesh. *)
Definition valid_group (env : SkinEnv) (g : VertexGroupElement) : Prop :=
  0 <= group g < Z.of_nat (List.length (v_group_name_dic env)).

(** The two lines printed about the weights of a vertex. *)
Definition truncated_message (env : SkinEnv) (vert_index : Z) : string :=
  ("Joints on vertex id:" ++ repr_Z vert_index ++ " in: "
   ++ mesh_name env ++ " are truncated")%string.

Definition no_weight_message (env : SkinEnv) (vert_index : Z) : string :=
  ("No weight on vertex id:" ++ repr_Z vert_index ++ " in: "
   ++ mesh_name env)%string.

(** [v_group_name_dic[i]], a dictionary over [0 .. len-1]. *)
Definition group_name (env : SkinEnv) (i : Z) : result string :=
  if (0 <=? i) && (i <? Z.of_nat (List.length (v_group_name_dic env))) then
    match nth_error (v_group_name_dic env) (Z.to_nat i) with
    | Some n => Ok n
    | None => Raise (KeyError (repr_Z i))
    end
  else Raise (KeyError (repr_Z i)).

(** The [for v_group in ...groups] loop. *)
Fixpoint gather_weights (env : SkinEnv) (groups : list VertexGroupElement)
  : result (list (float * Z) * list string) :=
  match groups with
  | [] => Ok ([], [])
  | v_group :: rest =>
      name <- group_name env (group v_group) ;;
      r <- joint_id_from_node_name_solver (skins env) name (node_id_dic env) ;;
      rest' <- gather_weights env rest ;;
      let joint_id := fst r in
      let log := (snd r ++ snd rest')%list in
      if joint_id =? -1 then Ok (fst rest', log)
      else if Float.ltb (weight v_group) epsilon then Ok (fst rest', log)
      else Ok ((weight v_group, joint_id) :: fst rest', log)
  end.

(** [while len(l) < 4: l.append((0.0, 0))]. *)
Definition pad_to_4 (l : list (float * Z)) : list (float * Z) :=
  l ++ repeat (zero, 0) (4 - List.length l).

(** [a < b] on (weight, joint) tuples: the first differing component
    decides. *)
Definition tuple_lt (a b : float * Z) : bool :=
  if negb (Float.eqb (fst a) (fst b)) then Float.ltb (fst a) (fst b)
  else if negb (snd a =? snd b) then snd a <? snd b
  else false.

(** A pair whose weight is a number; [a] comes before [b] in a list
    sorted by descending weight. *)
Definition weight_not_nan (p : float * Z) : Prop := is_nan (fst p) = false.

Definition weight_ge (a b : float * Z) : Prop :=
  Float.leb (fst b) (fst a) = true.

(** [a <= b] on tuples, as the sort sees it: [b] is not less than [a]. *)
Definition tuple_le (a b : float * Z) : Prop := tuple_lt b a = false.

(** Stable insertion: [x] goes before the first element greater than it. *)
Fixpoint insert_sorted (x : float * Z) (l : list (float * Z))
  : list (float * Z) :=
  match l with
  | [] => [x]
  | y :: l' => if tuple_lt x y then x :: y :: l' else y :: insert_sorted x l'
  end.

Definition sort_ascending (l : list (float * Z)) : list (float * Z) :=
  fold_left (fun acc x => insert_sorted x acc) l [].

(** [l.sort(reverse=True)]: reverse, sort stably, reverse again.  Any
    stable sort gives this list when no weight is NaN. *)
Definition sort_reverse (l : list (float * Z)) : list (float * Z) :=
  rev (sort_ascending (rev l)).

(** Lines 1125-1152: gather, pad, sort, truncate. *)
Definition resolve_weights
    (env : SkinEnv) (vert_index : Z) (groups : list VertexGroupElement)
  : result (list (float * Z) * list string) :=
  g <- gather_weights env groups ;;
  let l := sort_reverse (pad_to_4 (fst g)) in
  if (4 <? List.length l)%nat then
    Ok (firstn 4 l, (snd g ++ [truncated_message env vert_index])%list)
  else Ok (l, snd g).

(** [next(index for index, node in enumerate(nodes) if node["name"] == n)]. *)
Fixpoint find_node_index (names : list string) (n : string) : option Z :=
  match names with
  | [] => None
  | x :: names' =>
      if String.eqb x n then Some 0
      else option_map Z.succ (find_node_index names' n)
  end.

(** Lines 1125-1167: the weights (before normalisation) and joints bound
    to a vertex, with the lines printed. *)
Definition bind_vertex
    (env : SkinEnv) (vert_index : Z) (groups : list VertexGroupElement)
  : result ((list float * list Z) * list string) :=
  r <- resolve_weights env vert_index groups ;;
  let weights := map fst (fst r) in
  let joints := map snd (fst r) in
  if Float.ltb (Float.sum weights) epsilon then
    hips_bone_name <- Dict.getitem (armature_data env) "hips" ;;
    match find_node_index (node_names env) hips_bone_name with
    | None => Raise StopIteration
    | Some hips_bone_index =>
        Ok (([one; zero; zero; zero], [hips_bone_index; 0; 0; 0]),
            (snd r ++ [no_weight_message env vert_index])%list)
    end
  else Ok ((weights, joints), snd r).

(** Lines 1124-1175: the bytes appended to [joints_bin] and [weights_bin]. *)
Definition skin_vertex
    (env : SkinEnv) (vert_index : Z) (groups : list VertexGroupElement)
  : result ((bytes * bytes) * list string) :=
  b <- bind_vertex env vert_index groups ;;
  normalized_weights <-
    normalize_weights_compatible_with_gl_float (fst (fst b)) ;;
  joints_bytes <- pack_HHHH (snd (fst b)) ;;
  weights_bytes <- pack_floats 4 normalized_weights ;;
  Ok ((joints_bytes, weights_bytes), snd b).


(** *** The loop over triangle corners ([mesh_to_bin_and_dic]) *)

Definition vec3 : Type := (float * float * float)%type.

Definition vec3_list (v : vec3) : list float :=
  let '(x, y, z) := v in [x; y; z].

(** A component of the tuple [vertex_key]. *)
Inductive key_item : Type :=
| KFloat (x : float)
| KInt (z : Z).

(** [x == z] for a float and an integer: equality of the exact values. *)
Definition float_eq_Z (x : float) (z : Z) : bool :=
  match x with
  | S754_zero _ => z =? 0
  | S754_finite s m e =>
      if 0 <=? e then cond_Zopp s (Zpos m * 2 ^ e) =? z
      else (Zpos m mod 2 ^ (- e) =? 0)
           && (cond_Zopp s (Zpos m / 2 ^ (- e)) =? z)
  | _ => false
  end.

Definition key_item_eqb (a b : key_item) : bool :=
  match a, b with
  | KFloat x, KFloat y => Float.eqb x y
  | KInt x, KInt y => x =? y
  | KFloat x, KInt z => float_eq_Z x z
  | KInt z, KFloat x => float_eq_Z x z
  end.

(** [==] on tuples, which is how a dictionary compares its keys. *)
Fixpoint key_eqb (a b : list key_item) : bool :=
  match a, b with
  | [], [] => true
  | x :: a', y :: b' => key_item_eqb x y && key_eqb a' b'
  | _, _ => false
  end.

(** A face corner: what the loop body reads from [loop], [loop.vert] and
    [face].  [loop_uv] holds [loop[uv_layer].uv] for each UV layer of the
    mesh, [loop_normal] the normal chosen for the corner, [shape_co] the
    position of the vertex in each shape key after the basis. *)
Record Loop : Type := mkLoop {
  loop_uv : list (float * float);
  loop_normal : vec3;
  vert_index : Z;
  vert_co : vec3;
  vert_groups : list VertexGroupElement;
  shape_co : list vec3;
  material_index : Z
}.

Record MeshEnv : Type := mkMeshEnv {
  skin_env : SkinEnv;
  is_skin_mesh : bool;
  uv_layer_count : nat;
  shape_count : nat;
  morph_normal_diff_dic : list (list (list float));
  material_slot_dic : list string;
  mat_id_dic : Dict.t Z;
  mesh_vrm_version : string
}.

Definition min_max_t : Type := (list float * list float)%type.

Record MeshState : Type := mkMeshState {
  unique_vertex_id : Z;
  unique_vertex_dic : list (list key_item * Z);
  primitive_index_bin_dic : list (Z * bytes);
  primitive_index_vertex_count : list (Z * Z);
  texcoord_bins : list bytes;
  shape_pos_bin_dic : list bytes;
  shape_normal_bin_dic : list bytes;
  shape_min_max_dic : list min_max_t;
  joints_bin : bytes;
  weights_bin : bytes;
  position_bin : bytes;
  position_min_max : min_max_t;
  normal_bin : bytes;
  printed : list string
}.

(** The inner [min_max]: component-wise running bounds. *)
Definition min_max (minmax : min_max_t) (position : list float)
  : result min_max_t :=
  lo <- mapM (fun i => p <- Py.getitem position i ;;
                       m <- Py.getitem (fst minmax) i ;;
                       Ok (if Float.ltb p m then p else m)) [0; 1; 2] ;;
  hi <- mapM (fun i => p <- Py.getitem position i ;;
                       m <- Py.getitem (snd minmax) i ;;
                       Ok (if Float.gtb p m then p else m)) [0; 1; 2] ;;
  Ok (lo, hi).

(** [loop[uv_layer].uv] for the layer at position [i]. *)
Definition layer_uv (loop : Loop) (i : nat) : result (float * float) :=
  match nth_error (loop_uv loop) i with
  | Some uv => Ok uv
  | None => Raise (KeyError (repr_Z (Z.of_nat i)))
  end.

(** [uv_list]: both coordinates of every UV layer, in layer order. *)
Definition uv_list (env : MeshEnv) (loop : Loop) : result (list float) :=
  uvs <- mapM (layer_uv loop) (seq 0 (uv_layer_count env)) ;;
  Ok (flat_map (fun uv : float * float => [fst uv; snd uv]) uvs).

(** [vertex_key]: the tuple of the items of [uv_list], those of
    [vert_normal], and [loop.vert.index]. *)
Definition vertex_key (env : MeshEnv) (loop : Loop) : result (list key_item) :=
  uvl <- uv_list env loop ;;
  Ok (map KFloat uvl ++ map KFloat (vec3_list (loop_normal loop))
      ++ [KInt (vert_index loop)]).

(** [mat_id_dic[material_slot_dic[face.material_index]]]. *)
Definition material_id (env : MeshEnv) (loop : Loop) : result Z :=
  let i := material_index loop in
  if (0 <=? i) && (i <? Z.of_nat (List.length (material_slot_dic env))) then
    match nth_error (material_slot_dic env) (Z.to_nat i) with
    | Some n => Dict.getitem (mat_id_dic env) n
    | None => Raise (KeyError (repr_Z i))
    end
  else Raise (KeyError (repr_Z i)).

(** [d[k] += v] on a dictionary keyed by integers. *)
Definition add_at {V : Type} (plus : V -> V -> V) (d : list (Z * V)) (k : Z)
    (v : V) : result (list (Z * V)) :=
  match Assoc.get Z.eqb d k with
  | Some old => Ok (Assoc.set Z.eqb d k (plus old v))
  | None => Raise (KeyError (repr_Z k))
  end.

(** Append an index to the primitive of the corner's material. *)
Definition push_index (env : MeshEnv) (st : MeshState) (loop : Loop) (id : Z)
  : result (list (Z * bytes) * list (Z * Z)) :=
  m <- material_id env loop ;;
  packed <- pack_I id ;;
  bins <- add_at (@app Byte.byte) (primitive_index_bin_dic st) m packed ;;
  m' <- material_id env loop ;;
  counts <- add_at Z.add (primitive_index_vertex_count st) m' 1 ;;
  Ok (bins, counts).

(** [zip]-like update of the buffers kept per UV layer or per shape key. *)
Fixpoint append_each (bins : list bytes) (chunks : list bytes) : list bytes :=
  match bins, chunks with
  | b :: bins', c :: chunks' => (b ++ c) :: append_each bins' chunks'
  | _, _ => bins
  end.

(** The texture coordinates of the corner, one packed pair per layer. *)
Definition texcoord_chunks (env : MeshEnv) (loop : Loop) : result (list bytes) :=
  mapM (fun i => uv <- layer_uv loop i ;;
                 pack_floats 2 [fst uv; Float.sub one (snd uv)])
       (seq 0 (uv_layer_count env)).

(** The morph data of the corner for the shape key at position [i]:
    position delta, normal delta (legacy schema only) and new bounds. *)
Definition shape_chunk (env : MeshEnv) (st : MeshState) (loop : Loop) (i : nat)
  : result (bytes * bytes * min_max_t) :=
  match nth_error (shape_co loop) i, nth_error (shape_min_max_dic st) i with
  | Some co, Some mm =>
      delta <- mapM (fun k => a <- Py.getitem (vec3_list co) k ;;
                              b <- Py.getitem (vec3_list (vert_co loop)) k ;;
                              Ok (Float.sub a b)) [0; 1; 2] ;;
      morph_pos <- axis_blender_to_glb delta ;;
      pos_bytes <- pack_floats 3 morph_pos ;;
      normal_bytes <-
        (if String.prefix "0." (mesh_vrm_version env) then
           match nth_error (morph_normal_diff_dic env) i with
           | Some diffs =>
               d <- Py.getitem diffs (vert_index loop) ;;
               n <- axis_blender_to_glb d ;;
               pack_floats 3 n
           | None => Raise (KeyError (repr_Z (Z.of_nat i)))
           end
         else Ok []) ;;
      mm' <- min_max mm morph_pos ;;
      Ok (pos_bytes, normal_bytes, mm')
  | _, _ => Raise (KeyError (repr_Z (Z.of_nat i)))
  end.

(** One pass of the body of [for loop in face.loops]; the value returned
    beside the state is the vertex index written to the index buffer. *)
Definition corner_step (env : MeshEnv) (st : MeshState) (loop : Loop)
  : result (MeshState * Z) :=
  key <- vertex_key env loop ;;
  match Assoc.get key_eqb (unique_vertex_dic st) key with
  | Some cached_vert_id =>
      idx <- push_index env st loop cached_vert_id ;;
      Ok (mkMeshState (unique_vertex_id st) (unique_vertex_dic st)
            (fst idx) (snd idx) (texcoord_bins st) (shape_pos_bin_dic st)
            (shape_normal_bin_dic st) (shape_min_max_dic st)
            (joints_bin st) (weights_bin st) (position_bin st)
            (position_min_max st) (normal_bin st) (printed st),
          cached_vert_id)
  | None =>
      let dic := (unique_vertex_dic st ++ [(key, unique_vertex_id st)])%list in
      tex <- texcoord_chunks env loop ;;
      shapes <- mapM (shape_chunk env st loop) (seq 0 (shape_count env)) ;;
      skin <-
        (if is_skin_mesh env then
           skin_vertex (skin_env env) (vert_index loop) (vert_groups loop)
         else Ok (([], []), [])) ;;
      vert_location <- axis_blender_to_glb (vec3_list (vert_co loop)) ;;
      pos_bytes <- pack_floats 3 vert_location ;;
      mm <- min_max (position_min_max st) vert_location ;;
      normal <- axis_blender_to_glb (vec3_list (loop_normal loop)) ;;
      normal_bytes <- pack_floats 3 normal ;;
      idx <- push_index env st loop (unique_vertex_id st) ;;
      Ok (mkMeshState (unique_vertex_id st + 1) dic
            (fst idx) (snd idx)
            (append_each (texcoord_bins st) tex)
            (append_each (shape_pos_bin_dic st)
               (map (fun c : bytes * bytes * min_max_t => fst (fst c)) shapes))
            (append_each (shape_normal_bin_dic st)
               (map (fun c : bytes * bytes * min_max_t => snd (fst c)) shapes))
            (map (fun c : bytes * bytes * min_max_t => snd c) shapes)
            (joints_bin st ++ fst (fst skin))
            (weights_bin st ++ snd (fst skin))
            (position_bin st ++ pos_bytes) mm
            (normal_bin st ++ normal_bytes)
            (printed st ++ snd skin)%list,
          unique_vertex_id st)
  end.

(** The loops over [bm.faces] and [face.loops], flattened: the corners in
    iteration order, with the index written for each. *)
Fixpoint corners_loop (env : MeshEnv) (st : MeshState) (loops : list Loop)
  : result (MeshState * list Z) :=
  match loops with
  | [] => Ok (st, [])
  | loop :: rest =>
      r <- corner_step env st loop ;;
      r' <- corners_loop env (fst r) rest ;;
      Ok (fst r', snd r :: snd r')
  end.

(** The slots the loop hands out, as a function of the keys of the corners
    alone: the slot stored for an equal key, or else the next free one. *)
Fixpoint assign_slots (dic : list (list key_item * Z)) (next : Z)
    (keys : list (list key_item)) : list Z :=
  match keys with
  | [] => []
  | k :: keys' =>
      match Assoc.get key_eqb dic k with
      | Some v => v :: assign_slots dic next keys'
      | None => next :: assign_slots (dic ++ [(k, next)]) (next + 1) keys'
      end
  end.

(** Which components of a key are floats. *)
Definition key_signature (k : list key_item) : list bool :=
  map (fun x => match x with KFloat _ => true | KInt _ => false end) k.

(** The layout of the keys of a mesh: two floats per UV layer and three
    for the normal, then the integer index. *)
Definition mesh_signature (env : MeshEnv) : list bool :=
  (repeat true (2 * uv_layer_count env + 3) ++ [false])%list.

(** The dictionary of vertex keys fits the counter: its keys have the
    layout [sig], its slots are below the counter, and two entries with the
    same slot or with equal keys are one entry. *)
Definition dic_ok (sig : list bool) (dic : list (list key_item * Z))
    (next : Z) : Prop :=
  Forall (fun e => key_signature (fst e) = sig /\ snd e < next) dic
  /\ (forall e1 e2, In e1 dic -> In e2 dic ->
        snd e1 = snd e2 \/ key_eqb (fst e1) (fst e2) = true -> e1 = e2).

(** Two corners have the same key: equal coordinates in every UV layer
    of the mesh, equal normals, equal index of the source vertex, where
    floats are compared by [==]. *)
Definition uv_eqb (a b : float * float) : bool :=
  Float.eqb (fst a) (fst b) && Float.eqb (snd a) (snd b).

Definition vec3_eqb (a b : vec3) : bool :=
  Float.eqb (fst (fst a)) (fst (fst b))
  && Float.eqb (snd (fst a)) (snd (fst b))
  && Float.eqb (snd a) (snd b).

Definition same_corner_key (env : MeshEnv) (a b : Loop) : bool :=
  forallb (fun i => match nth_error (loop_uv a) i, nth_error (loop_uv b) i with
                    | Some x, Some y => uv_eqb x y
                    | _, _ => false
                    end)
          (seq 0 (uv_layer_count env))
  && vec3_eqb (loop_normal a) (loop_normal b)
  && (vert_index a =? vert_index b).

(** [sys.float_info.max]. *)
Definition float_max : float := Eval vm_compute in SFmax_float prec emax.

(** The buffers as they are before the first corner. *)
Definition initial_state (env : MeshEnv) : result MeshState :=
  ids <- mapM (fun n => Dict.getitem (mat_id_dic env) n)
              (material_slot_dic env) ;;
  let fmax := float_max in
  let fmin := Float.neg float_max in
  let bounds := ([fmax; fmax; fmax], [fmin; fmin; fmin]) in
  Ok (mkMeshState 0 []
        (fold_left (fun d k => Assoc.set Z.eqb d k []) ids [])
        (fold_left (fun d k => Assoc.set Z.eqb d k 0) ids [])
        (repeat [] (uv_layer_count env))
        (repeat [] (shape_count env))
        (repeat [] (shape_count env))
        (repeat bounds (shape_count env))
        [] [] [] bounds [] []).

(** The arguments of the [GlbBin] made for the indices of each material
    (lines 1193-1206): material, bytes and count, for the materials whose
    index bytes are not empty. *)
Definition primitive_glbs_dic (st : MeshState) : result (list (Z * bytes * Z)) :=
  mapM (fun e : Z * bytes =>
          match Assoc.get Z.eqb (primitive_index_vertex_count st) (fst e) with
          | Some count => Ok (fst e, snd e, count)
          | None => Raise (KeyError (repr_Z (fst e)))
          end)
       (filter (fun e : Z * bytes =>
                  match snd e with [] => false | _ => true end)
               (primitive_index_bin_dic st)).

(** *** What the buffers of a mesh are expected to satisfy *)

(** The buffers read with [unique_vertex_id] as element count hold that
    many elements: 12 bytes for a position, a normal or a morph delta,
    8 for a texture coordinate, 8 for the joints and 16 for the weights
    of a vertex. *)
Definition buffers_match (env : MeshEnv) (st : MeshState) : Prop :=
  let n := unique_vertex_id st in
  len (position_bin st) = 12 * n
  /\ len (normal_bin st) = 12 * n
  /\ List.length (texcoord_bins st) = uv_layer_count env
  /\ Forall (fun b => len b = 8 * n) (texcoord_bins st)
  /\ List.length (shape_pos_bin_dic st) = shape_count env
  /\ Forall (fun b => len b = 12 * n) (shape_pos_bin_dic st)
  /\ List.length (shape_normal_bin_dic st) = shape_count env
  /\ Forall (fun b => len b = if String.prefix "0." (mesh_vrm_version env)
                              then 12 * n else 0)
            (shape_normal_bin_dic st)
  /\ len (joints_bin st) = (if is_skin_mesh env then 8 * n else 0)
  /\ len (weights_bin st) = (if is_skin_mesh env then 16 * n else 0).

(** The slots written for the corners whose face has material [m], in the
    order of the corners. *)
Definition material_slots (env : MeshEnv) (loops : list Loop) (slots : list Z)
    (m : Z) : list Z :=
  map snd
    (filter (fun c : Loop * Z =>
               match material_id env (fst c) with
               | Ok m' => m' =? m
               | Raise _ => false
               end)
            (combine loops slots)).

(** A box with three coordinates in each corner, none of them NaN. *)
Definition box_ok (minmax : min_max_t) : Prop :=
  List.length (fst minmax) = 3%nat /\ List.length (snd minmax) = 3%nat
  /\ Forall (fun x => is_nan x = false) (fst minmax)
  /\ Forall (fun x => is_nan x = false) (snd minmax).

(** The second box contains the first. *)
Definition box_widens (a b : min_max_t) : Prop :=
  Forall2 (fun x y => Float.leb x y = true) (fst b) (fst a)
  /\ Forall2 (fun x y => Float.leb x y = true) (snd a) (snd b).

(** A box given by its lower and upper corner contains a point. *)
Definition within_bounds (minmax : min_max_t) (position : list float) : Prop :=
  Forall2 (fun lo p => Float.leb lo p = true) (fst minmax) position
  /\ Forall2 (fun p hi => Float.leb p hi = true) position (snd minmax).


(** *** Materials ([material_to_dic]) *)

(** The constants of [gl_constants.GlConstants] that the materials use. *)
Record GlConstants : Type := mkGlConstants {
  NEAREST : Z;
  LINEAR : Z;
  REPEAT : Z;
  CLAMP_TO_EDGE : Z
}.

(** The node behind the vector input of an image node. *)
Record MappingNode : Type := mkMappingNode {
  mapping_type : string;
  mapping_translation : list json;
  mapping_scale : list json;
  mapping_inputs : Dict.t (list json)
}.

(** [socket.links[0].from_node]: the default values of its outputs and,
    for an image node, the image name and sampling settings.
    [vector_source] is [inputs[0].links[0].from_node], absent when one of
    the two indices is out of range. *)
Record LinkedNode : Type := mkLinkedNode {
  outputs : list json;
  image : option string;
  interpolation : string;
  extension : string;
  vector_source : option MappingNode
}.

Record Socket : Type := mkSocket {
  default_value : json;
  links : list LinkedNode
}.

(** A shader node, seen through [node.inputs]. *)
Definition ShaderNode : Type := Dict.t Socket.

(** A material.  [vrm_shader] is the custom property of that name;
    [surface_links] lists the nodes linked to the ["Surface"] input of the
    first output node of the node tree, if the tree has an output node.
    [mat_id] stands for the datablock that the object wraps: two material
    objects are equal, for [==] and so for [in], when they wrap the same
    datablock, whatever their names. *)
Record Material : Type := mkMaterial {
  mat_name : string;
  blend_method : string;
  alpha_threshold : float;
  use_backface_culling : bool;
  vrm_shader : option string;
  surface_links : option (list ShaderNode);
  mat_id : Z
}.

Definition pair_eqb (a b : Z * Z) : bool :=
  (fst a =? fst b) && (snd a =? snd b).

(** [sampler_dic], [texture_dic] and their counters. *)
Record TexState : Type := mkTexState {
  sampler_dic : list (Z * Z * Z);
  texture_dic : list (Z * Z * Z);
  sampler_count : Z;
  texture_count : Z
}.

Definition texture_ref : Type := (string * Z * Z)%type.

(** The inner [add_texture(image_name, wrap_type, filter_type)]. *)
Definition add_texture (image_id_dic : Dict.t Z) (st : TexState)
    (tex : texture_ref) : result (Z * TexState) :=
  let image_name := fst (fst tex) in
  let sampler_key := (snd (fst tex), snd tex) in
  let st1 :=
    match Assoc.get pair_eqb (sampler_dic st) sampler_key with
    | Some _ => st
    | None =>
        mkTexState
          (Assoc.set pair_eqb (sampler_dic st) sampler_key (sampler_count st))
          (texture_dic st) (sampler_count st + 1) (texture_count st)
    end in
  image_id <- Dict.getitem image_id_dic image_name ;;
  match Assoc.get pair_eqb (sampler_dic st1) sampler_key with
  | None => Raise (KeyError "sampler")
  | Some sampler =>
      let texture_key := (image_id, sampler) in
      let st2 :=
        match Assoc.get pair_eqb (texture_dic st1) texture_key with
        | Some _ => st1
        | None =>
            mkTexState (sampler_dic st1)
              (Assoc.set pair_eqb (texture_dic st1) texture_key
                 (texture_count st1))
              (sampler_count st1) (texture_count st1 + 1)
        end in
      match Assoc.get pair_eqb (texture_dic st2) texture_key with
      | Some t => Ok (t, st2)
      | None => Raise (KeyError "texture")
      end
  end.

(** The inner [apply_texture_and_sampler_to_dic]. *)
Definition apply_texture_and_sampler_to_dic (st : TexState)
    (json_dic : Dict.t json) : Dict.t json :=
  let d1 :=
    if 0 <? sampler_count st then
      Dict.set json_dic "samplers"
        (JList (map (fun e : Z * Z * Z =>
                       let sampler := fst e in
                       JDict [("magFilter", JInt (snd sampler));
                              ("minFilter", JInt (snd sampler));
                              ("wrapS", JInt (fst sampler));
                              ("wrapT", JInt (fst sampler))]%string)
                    (sampler_dic st)))
    else json_dic in
  if 0 <? texture_count st then
    Dict.set d1 "textures"
      (JList (map (fun e : Z * Z * Z =>
                     let tex := fst e in
                     JDict [("sampler", JInt (snd tex));
                            ("source", JInt (fst tex))]%string)
                  (texture_dic st)))
  else d1.

(** [d[k][i]] on the document written: the entry at position [i] of the
    list stored under [k]. *)
Definition json_item (d : Dict.t json) (k : string) (i : Z) : option json :=
  match Dict.get d k with
  | Some (JList l) => if i <? 0 then None else nth_error l (Z.to_nat i)
  | _ => None
  end.

(** A dictionary that numbers its keys: no key occurs twice and the value
    of the entry at position [i] is [i]. *)
Definition numbered (d : list (Z * Z * Z)) : Prop :=
  NoDup (map fst d)
  /\ forall (i : nat) (e : Z * Z * Z),
       nth_error d i = Some e -> snd e = Z.of_nat i.

(** The bookkeeping of samplers and textures is consistent: both
    dictionaries number their keys and the counters are their sizes. *)
Definition tex_ok (st : TexState) : Prop :=
  numbered (sampler_dic st) /\ numbered (texture_dic st)
  /\ sampler_count st = Z.of_nat (List.length (sampler_dic st))
  /\ texture_count st = Z.of_nat (List.length (texture_dic st)).

(** A later state of the bookkeeping: entries are only added at the end. *)
Definition tex_extends (st st' : TexState) : Prop :=
  (exists l, sampler_dic st' = (sampler_dic st ++ l)%list)
  /\ (exists l, texture_dic st' = (texture_dic st ++ l)%list).

(** [v[i]] on a value read from the host: an array of numbers. *)
Definition json_index (v : json) (i : Z) : result json :=
  match v with
  | JList l => Py.getitem l i
  | _ => Raise TypeError
  end.

(** [0.5 if transparency_cutoff is None else transparency_cutoff]. *)
Definition cutoff_or_default (transparency_cutoff : json) : json :=
  match transparency_cutoff with
  | JNull => JFloat half
  | _ => transparency_cutoff
  end.

Section Materials.

Variable gl : GlConstants.
Variable image_id_dic : Dict.t Z.
(** [bpy.app.version[1]]. *)
Variable blender_version_minor : Z.

Definition texture_index_entry (index : Z) : json :=
  JDict [("index", JInt index); ("texCoord", JInt 0)]%string.

(** The inner [pbr_fallback].  Deleting an entry of the dictionary being
    iterated makes the iteration raise [RuntimeError]. *)
Definition pbr_fallback (st : TexState) (b_mat : Material)
    (base_color metalness roughness : json)
    (base_color_texture metallic_roughness_texture : option texture_ref)
    (transparent_method : string) (transparency_cutoff : json)
    (unlit doublesided : bool) : result (Dict.t json * TexState) :=
  let is_none := fun v => match v with JNull => true | _ => false end in
  if is_none base_color || is_none metalness || is_none roughness
  then Raise RuntimeError
  else
    let pbr0 := [("baseColorFactor", base_color);
                 ("metallicFactor", metalness);
                 ("roughnessFactor", roughness)]%string in
    r1 <- match base_color_texture with
          | Some tex =>
              t <- add_texture image_id_dic st tex ;;
              Ok (Dict.set pbr0 "baseColorTexture" (texture_index_entry (fst t)),
                  snd t)
          | None => Ok (pbr0, st)
          end ;;
    r2 <- match metallic_roughness_texture with
          | Some tex =>
              t <- add_texture image_id_dic (snd r1) tex ;;
              Ok (Dict.set (fst r1) "metallicRoughnessTexture"
                    (texture_index_entry (fst t)), snd t)
          | None => Ok r1
          end ;;
    let d0 := [("name", JStr (mat_name b_mat));
               ("pbrMetallicRoughness", JDict (fst r2))]%string in
    let d1 := Dict.set d0 "alphaMode" (JStr transparent_method) in
    let d2 :=
      if String.eqb transparent_method "MASK" then
        Dict.set d1 "alphaCutoff" (cutoff_or_default transparency_cutoff)
      else d1 in
    let d3 :=
      if unlit then
        Dict.set d2 "extensions" (JDict [("KHR_materials_unlit", JDict [])]%string)
      else d2 in
    Ok (Dict.set d3 "doubleSided" (JBool doublesided), snd r2).

(** The inner [get_texture_name_and_sampler_type]. *)
Definition get_texture_name_and_sampler_type (shader_node : ShaderNode)
    (input_socket_name : string) : result (option texture_ref) :=
  match Dict.get shader_node input_socket_name with
  | None => Ok None
  | Some socket =>
      match links socket with
      | [] => Ok None
      | from_node :: _ =>
          match image from_node with
          | None => Raise AttributeError
          | Some tex_name =>
              let filter_type :=
                if String.eqb (interpolation from_node) "Closest"
                then NEAREST gl else LINEAR gl in
              let wrap_type :=
                if String.eqb (extension from_node) "REPEAT"
                then REPEAT gl else CLAMP_TO_EDGE gl in
              Ok (Some (tex_name, wrap_type, filter_type))
          end
      end
  end.

(** The value behind a socket: that of the linked node, or the default. *)
Definition socket_value (socket : Socket) : result json :=
  match links socket with
  | [] => Ok (default_value socket)
  | from_node :: _ => Py.getitem (outputs from_node) 0
  end.

(** The inner [get_float_value]; [JNull] is [None]. *)
Definition get_float_value (shader_node : ShaderNode)
    (input_socket_name : string) : result json :=
  match Dict.get shader_node input_socket_name with
  | None => Ok JNull
  | Some socket => socket_value socket
  end.

(** The inner [get_rgba_val]. *)
Definition get_rgba_val (shader_node : ShaderNode)
    (input_socket_name : string) : result json :=
  match Dict.get shader_node input_socket_name with
  | None => Ok JNull
  | Some socket =>
      items <- mapM (fun i => v <- socket_value socket ;; json_index v i)
                    [0; 1; 2; 3] ;;
      Ok (JList items)
  end.

(** The opacity mode of a material as [pbr_fallback] takes it. *)
Definition transparency_of (b_mat : Material) : string * json :=
  if String.eqb (blend_method b_mat) "OPAQUE" then ("OPAQUE"%string, JNull)
  else if String.eqb (blend_method b_mat) "CLIP"
  then ("MASK"%string, JFloat (alpha_threshold b_mat))
  else ("BLEND"%string, JNull).

(** [round(v)] and [floor(v)] on a number read from the host. *)
Definition json_round (v : json) : result Z :=
  match v with
  | JFloat x => Float.round x
  | JInt z => Ok z
  | JBool b => Ok (if b then 1 else 0)
  | _ => Raise TypeError
  end.

Definition json_floor (v : json) : result Z :=
  match v with
  | JFloat x => Float.floor x
  | JInt z => Ok z
  | JBool b => Ok (if b then 1 else 0)
  | _ => Raise TypeError
  end.

(** [v >= 0.5]. *)
Definition json_ge_half (v : json) : result bool :=
  match v with
  | JFloat x => Ok (Float.geb x half)
  | JInt z => Ok (1 <=? z)
  | JBool b => Ok b
  | _ => Raise TypeError
  end.

(** The float properties of the toon shader: the loop over
    [float_props_exchange_dic], giving [mtoon_float_dic],
    [outline_width_mode] and [outline_color_mode]. *)
Definition float_props_step (node : ShaderNode)
    (acc : Dict.t json * Z * Z) (kv : string * option string)
  : result (Dict.t json * Z * Z) :=
  match snd kv with
  | None => Ok acc
  | Some float_prop =>
      float_val <- get_float_value node float_prop ;;
      match float_val with
      | JNull => Ok acc
      | _ =>
          let float_key := fst kv in
          let d := Dict.set (fst (fst acc)) float_key float_val in
          r1 <- (if String.eqb float_key "_OutlineWidthMode" then
                   r <- json_round float_val ;;
                   let m := Z.min (Z.max r 0) 2 in
                   Ok (Dict.set d float_key (JInt m), m)
                 else Ok (d, snd (fst acc))) ;;
          r2 <- (if String.eqb float_key "_OutlineColorMode" then
                   r <- json_round float_val ;;
                   let m := Z.min (Z.max r 0) 1 in
                   Ok (Dict.set (fst r1) float_key (JInt m), m)
                 else Ok (fst r1, snd acc)) ;;
          Ok (fst r2, snd r1, snd r2)
      end
  end.

(** The inner [outline_keyword_set]. *)
Definition outline_keyword_set (keyword_map : Dict.t json)
    (width_world width_screen color_fixed color_mixed : bool) : Dict.t json :=
  let k1 :=
    if width_world
    then Dict.set keyword_map "MTOON_OUTLINE_WIDTH_WORLD" (JBool width_world)
    else if width_screen
    then Dict.set keyword_map "MTOON_OUTLINE_WIDTH_SCREEN" (JBool width_screen)
    else keyword_map in
  if color_fixed
  then Dict.set k1 "MTOON_OUTLINE_COLOR_FIXED" (JBool color_fixed)
  else if color_mixed
  then Dict.set k1 "MTOON_OUTLINE_COLOR_MIXED" (JBool color_mixed)
  else k1.

Definition outline_keywords (outline_width_mode outline_color_mode : Z)
  : Dict.t json :=
  if outline_width_mode <? 1 then outline_keyword_set [] false false false false
  else if outline_width_mode <? 2 then
    if outline_color_mode <? 1 then outline_keyword_set [] true false true false
    else outline_keyword_set [] true false false true
  else if 2 <=? outline_width_mode then
    if outline_color_mode <? 1 then outline_keyword_set [] false true true false
    else outline_keyword_set [] false true false true
  else [].

(** [list(dict.fromkeys(l))] and [l.remove(x)]. *)
Fixpoint unique (l : list string) (seen : list string) : list string :=
  match l with
  | [] => []
  | x :: l' =>
      if existsb (String.eqb x) seen then unique l' seen
      else x :: unique l' (x :: seen)
  end.

Fixpoint remove_first (x : string) (l : list string) : list string :=
  match l with
  | [] => []
  | y :: l' => if String.eqb y x then l' else y :: remove_first x l'
  end.

Definition vec_props : list string :=
  fold_left (fun acc v => if existsb (String.eqb v) acc
                          then remove_first v acc else acc)
            (map snd MaterialMtoon.texture_kind_exchange_dic)
            (unique (map snd MaterialMtoon.vector_props_exchange_dic) []).

Definition vector_props_step (node : ShaderNode) (acc : Dict.t json)
    (kv : string * string) : result (Dict.t json) :=
  if existsb (String.eqb (snd kv)) vec_props then
    vector_val <- get_rgba_val node (snd kv) ;;
    match vector_val with
    | JNull => Ok acc
    | _ => Ok (Dict.set acc (fst kv) vector_val)
    end
  else Ok acc.

Definition uv_default : json := JList [JInt 0; JInt 0; JInt 1; JInt 1].

(** The offset and scale read from the node that feeds the main texture. *)
Definition main_texture_transform (from_node : LinkedNode) : result json :=
  match vector_source from_node with
  | Some uv_offset_scaling_node =>
      if String.eqb (mapping_type uv_offset_scaling_node) "MAPPING'" then
        if blender_version_minor =? 80 then
          a <- Py.getitem (mapping_translation uv_offset_scaling_node) 0 ;;
          b <- Py.getitem (mapping_translation uv_offset_scaling_node) 1 ;;
          c <- Py.getitem (mapping_scale uv_offset_scaling_node) 0 ;;
          d <- Py.getitem (mapping_scale uv_offset_scaling_node) 1 ;;
          Ok (JList [a; b; c; d])
        else
          loc <- Dict.getitem (mapping_inputs uv_offset_scaling_node) "Location" ;;
          a <- Py.getitem loc 0 ;;
          loc' <- Dict.getitem (mapping_inputs uv_offset_scaling_node) "Location" ;;
          b <- Py.getitem loc' 1 ;;
          sc <- Dict.getitem (mapping_inputs uv_offset_scaling_node) "Scale" ;;
          c <- Py.getitem sc 0 ;;
          sc' <- Dict.getitem (mapping_inputs uv_offset_scaling_node) "Scale" ;;
          d <- Py.getitem sc' 1 ;;
          Ok (JList [a; b; c; d])
      else Ok uv_default
  | None => Ok uv_default
  end.

(** What the loop over [texture_kind_exchange_dic] keeps. *)
Record TextureLoop : Type := mkTextureLoop {
  mtoon_texture_dic : Dict.t json;
  mtoon_vector_dic : Dict.t json;
  maintex : option texture_ref;
  use_normalmap : bool;
  tex_state : TexState
}.

Definition texture_props_step (node : ShaderNode) (acc : TextureLoop)
    (kv : string * string) : result TextureLoop :=
  let texture_key := fst kv in
  let texture_prop := snd kv in
  tex <- get_texture_name_and_sampler_type node texture_prop ;;
  match tex with
  | None => Ok acc
  | Some t =>
      added <- add_texture image_id_dic (tex_state acc) t ;;
      let textures := Dict.set (mtoon_texture_dic acc) texture_key
                        (JInt (fst added)) in
      let vectors := Dict.set (mtoon_vector_dic acc) texture_key uv_default in
      if String.eqb texture_prop "MainTexture" then
        socket <- Dict.getitem node texture_prop ;;
        from_node <- Py.getitem (links socket) 0 ;;
        transform <- main_texture_transform from_node ;;
        Ok (mkTextureLoop textures (Dict.set vectors texture_key transform)
              (Some t) (use_normalmap acc) (snd added))
      else if String.eqb texture_prop "NomalmapTexture" then
        Ok (mkTextureLoop textures vectors (maintex acc) true (snd added))
      else
        Ok (mkTextureLoop textures vectors (maintex acc) (use_normalmap acc)
              (snd added))
  end.

(** What the inner [material_prop_setter] writes for a blend method:
    [_BlendMode], [_SrcBlend], [_DstBlend], [_ZWrite], the alpha-test
    keyword, [renderQueue] and the render type tag. *)
Definition material_props (b_mat : Material)
  : (Z * Z * Z * Z) * bool * Z * string :=
  if String.eqb (blend_method b_mat) "OPAQUE"
  then ((0, 1, 0, 1), false, -1, "Opaque"%string)
  else if String.eqb (blend_method b_mat) "CLIP"
  then ((1, 1, 0, 1), true, 2450, "TransparentCutout"%string)
  else ((2, 5, 10, 0), false, 3000, "Transparent"%string).

(** An entry of the property block of the newer schema: a constant, a
    [.get] on one of the three property dictionaries, or one of the
    entries computed apart. *)
Inductive mt_source : Type :=
| MtConst (v : json)
| MtFloat (key : string)
| MtVector (key : string)
| MtTexture (key : string)
| MtRenderMode
| MtCullMode
| MtOutlineWidthMode
| MtOutlineColorMode
| MtUvOffset
| MtUvScale.

Definition mt_prop_entries : list (string * mt_source) :=
  [("version", MtConst (JStr "3.2"));
   ("renderMode", MtRenderMode);
   ("cullMode", MtCullMode);
   ("renderQueueOffsetNumber", MtConst (JInt 0));
   ("litFactor", MtVector "_Color");
   ("litMultiplyTexture", MtTexture "_MainTex");
   ("shadeFactor", MtVector "_ShadeColor");
   ("shadeMultiplyTexture", MtTexture "_ShadeTexture");
   ("cutoutThresholdFactor", MtFloat "_Cutoff");
   ("shadingShiftFactor", MtFloat "_ShadeShift");
   ("shadingToonyFactor", MtFloat "_ShadeToony");
   ("shadowReceiveMultiplierFactor", MtFloat "_ReceiveShadowRate");
   ("shadowReceiveMultiplierMultiplyTexture", MtTexture "_ReceiveShadowTexture");
   ("litAndShadeMixingMultiplierFactor", MtFloat "_ShadingGradeRate");
   ("litAndShadeMixingMultiplierMultiplyTexture", MtTexture "_ShadingGradeTexture");
   ("lightColorAttenuationFactor", MtFloat "_LightColorAttenuation");
   ("giIntensityFactor", MtFloat "_IndirectLightIntensity");
   ("normalTexture", MtTexture "_BumpMap");
   ("normalScaleFactor", MtFloat "_BumpScale");
   ("emissionFactor", MtVector "_EmissionColor");
   ("emissionMultiplyTexture", MtTexture "_EmissionMap");
   ("additiveTexture", MtTexture "_SphereAdd");
   ("rimFactor", MtVector "_RimColor");
   ("rimMultiplyTexture", MtTexture "_RimTexture");
   ("rimLightingMixFactor", MtFloat "_RimLightingMix");
   ("rimFresnelPowerFactor", MtFloat "_RimFresnelPower");
   ("rimLiftFactor", MtFloat "_RimLift");
   ("outlineWidthMode", MtOutlineWidthMode);
   ("outlineWidthFactor", MtVector "_OutlineColor");
   ("outlineWidthMultiplyTexture", MtTexture "_OutlineWidthTexture");
   ("outlineScaledMaxDistanceFactor", MtFloat "_OutlineScaledMaxDistance");
   ("outlineColorMode", MtOutlineColorMode);
   ("outlineFactor", MtFloat "_OutlineWidth");
   ("outlineLightingMixFactor", MtFloat "OutlineLightingMix");
   ("mainTextureLeftBottomOriginOffset", MtUvOffset);
   ("mainTextureLeftBottomOriginScale", MtUvScale);
   ("uvAnimationMaskTexture", MtTexture "_UvAnimMaskTexture");
   ("uvAnimationScrollXSpeedFactor", MtFloat "_UvAnimScrollX");
   ("uvAnimationScrollYSpeedFactor", MtFloat "_UvAnimScrollY");
   ("uvAnimationRotationSpeedFactor", MtFloat "_UvAnimRotation")]%string.

Definition get_or_none (d : Dict.t json) (k : string) : json :=
  match Dict.get d k with
  | Some v => v
  | None => JNull
  end.

(** [x == 0] and [x == 1] on a stored number. *)
Definition json_is_int (v : json) (n : Z) : bool :=
  match v with
  | JInt z => z =? n
  | JFloat x => float_eq_Z x n
  | JBool b => (if b then 1 else 0) =? n
  | _ => false
  end.

Definition mt_value (b_mat : Material)
    (floats vectors textures : Dict.t json) (src : mt_source) : result json :=
  match src with
  | MtConst v => Ok v
  | MtFloat k => Ok (get_or_none floats k)
  | MtVector k => Ok (get_or_none vectors k)
  | MtTexture k => Ok (get_or_none textures k)
  | MtRenderMode =>
      let blendmode := get_or_none floats "_BlendMode" in
      Ok (JStr (if json_is_int blendmode 0 then "opaque"
                else if json_is_int blendmode 1 then "cutout"
                else "transparent"))
  | MtCullMode =>
      if use_backface_culling b_mat then
        Ok (JBool (match Dict.get floats "_CullMode" with
                   | Some (JStr c) => String.eqb c "back"
                   | _ => false
                   end))
      else Ok (JStr "off")
  | MtOutlineWidthMode =>
      i <- json_floor (match Dict.get floats "_OutlineWidthMode" with
                       | Some v => v
                       | None => JInt 0
                       end) ;;
      Py.getitem [JStr "none"; JStr "worldCoordinates";
                  JStr "screenCoordinates"] i
  | MtOutlineColorMode =>
      i <- json_floor (match Dict.get floats "_OutlineLightingMix" with
                       | Some v => v
                       | None => JInt 0
                       end) ;;
      Py.getitem [JStr "fixedColor"; JStr "mixedLighting"] i
  | MtUvOffset =>
      match get_or_none vectors "_MainTex" with
      | JNull => Ok (JList [JInt 0; JInt 0])
      | JList l => Ok (JList (firstn 2 l))
      | _ => Raise TypeError
      end
  | MtUvScale =>
      match get_or_none vectors "_MainTex" with
      | JNull => Ok (JList [JInt 1; JInt 1])
      | JList l => Ok (JList (firstn 2 (skipn 2 l)))
      | _ => Raise TypeError
      end
  end.

(** [mtoon_ext_dic["properties"]]: every entry in turn, then the entries
    that are [None] removed. *)
Definition mt_properties (b_mat : Material)
    (floats vectors textures : Dict.t json) : result (Dict.t json) :=
  entries <- mapM (fun e : string * mt_source =>
                     v <- mt_value b_mat floats vectors textures (snd e) ;;
                     Ok (fst e, v))
                  mt_prop_entries ;;
  Ok (filter (fun e : string * json =>
                match snd e with JNull => false | _ => true end)
             entries).

(** The message of the exception raised without a schema version. *)
Definition no_version : exn := Exception "vrm version is None".

(** The inner [make_mtoon_unversioned_extension_dic]: the vendor block
    and the core entry of a toon-shaded material. *)
Definition make_mtoon_unversioned_extension_dic
    (version : option string) (st : TexState) (b_mat : Material)
    (mtoon_shader_node : ShaderNode)
  : result (Dict.t json * Dict.t json * TexState) :=
  fl <- foldM (float_props_step mtoon_shader_node)
              MaterialMtoon.float_props_exchange_dic ([], 0, 0) ;;
  let outline_width_mode := snd (fst fl) in
  let outline_color_mode := snd fl in
  let keyword_map := outline_keywords outline_width_mode outline_color_mode in
  vectors <- foldM (vector_props_step mtoon_shader_node)
                   MaterialMtoon.vector_props_exchange_dic [] ;;
  tl <- foldM (texture_props_step mtoon_shader_node)
              MaterialMtoon.texture_kind_exchange_dic
              (mkTextureLoop [] vectors None false st) ;;
  let '(blend, alphatest, render_queue, render_type) := material_props b_mat in
  let '(blend_mode, src_blend, dst_blend, z_write) := blend in
  let f1 := Dict.set (fst (fst fl)) "_BlendMode" (JInt blend_mode) in
  let f2 := Dict.set f1 "_SrcBlend" (JInt src_blend) in
  let f3 := Dict.set f2 "_DstBlend" (JInt dst_blend) in
  let f4 := Dict.set f3 "_ZWrite" (JInt z_write) in
  let k1 := if alphatest
            then Dict.set keyword_map "_ALPHATEST_ON" (JBool alphatest)
            else keyword_map in
  let tag_map := [("RenderType", JStr render_type)]%string in
  let f5 := if String.eqb (blend_method b_mat) "CLIP"
            then Dict.set f4 "_Cutoff" (JFloat (alpha_threshold b_mat))
            else f4 in
  let k2 := Dict.set k1 "_ALPHABLEND_ON"
              (JBool (negb (String.eqb (blend_method b_mat) "OPAQUE"
                            || String.eqb (blend_method b_mat) "CLIP"))) in
  let k3 := Dict.set k2 "_ALPHAPREMULTIPLY_ON" (JBool false) in
  let f6 := Dict.set f5 "_MToonVersion" (JInt MaterialMtoon.version) in
  let f7 := Dict.set f6 "_CullMode"
              (JInt (if use_backface_culling b_mat then 2 else 0)) in
  let f8 := Dict.set f7 "_OutlineCullMode" (JInt 1) in
  let mtoon_float_dic := Dict.set f8 "_DebugMode" (JInt 0) in
  let k4 := Dict.set k3 "MTOON_DEBUG_NORMAL" (JBool false) in
  let k5 := Dict.set k4 "MTOON_DEBUG_LITSHADERATE" (JBool false) in
  let keyword_map := if use_normalmap tl
                     then Dict.set k5 "_NORMALMAP" (JBool true) else k5 in
  let mtoon_dic :=
    [("name", JStr (mat_name b_mat));
     ("shader", JStr "VRM/MToon");
     ("keywordMap", JDict keyword_map);
     ("tagMap", JDict tag_map);
     ("floatProperties", JDict mtoon_float_dic);
     ("vectorProperties", JDict (mtoon_vector_dic tl));
     ("textureProperties", JDict (mtoon_texture_dic tl));
     ("renderQueue", JInt render_queue)]%string in
  let transparency := transparency_of b_mat in
  base_color <- Dict.getitem (mtoon_vector_dic tl) "_Color" ;;
  pbr <- pbr_fallback (tex_state tl) b_mat base_color (JInt 0)
           (JFloat nine_tenths) (maintex tl) None
           (fst transparency) (snd transparency)
           true (negb (use_backface_culling b_mat)) ;;
  match version with
  | None => Raise no_version
  | Some vrm_version =>
      if String.prefix "1." vrm_version then
        props <- mt_properties b_mat mtoon_float_dic (mtoon_vector_dic tl)
                   (mtoon_texture_dic tl) ;;
        extensions <- Dict.getitem (fst pbr) "extensions" ;;
        match extensions with
        | JDict ext =>
            Ok (mtoon_dic,
                Dict.set (fst pbr) "extensions"
                  (JDict (Dict.set ext "VRMC_materials_mtoon"
                            (JDict [("properties", JDict props)]%string))),
                snd pbr)
        | _ => Raise AttributeError
        end
      else Ok (mtoon_dic, fst pbr, snd pbr)
  end.

(** The inner [pbr_tex_add] of [make_gltf_mat_dic]. *)
Definition pbr_tex_add (gltf_shader_node : ShaderNode)
    (acc : Dict.t json * TexState * list string) (names : string * string)
  : result (Dict.t json * TexState * list string) :=
  img <- get_texture_name_and_sampler_type gltf_shader_node (snd names) ;;
  match img with
  | Some tex =>
      t <- add_texture image_id_dic (snd (fst acc)) tex ;;
      Ok (Dict.set (fst (fst acc)) (fst names) (texture_index_entry (fst t)),
          snd t, snd acc)
  | None => Ok (fst acc, (snd acc ++ [snd names])%list)
  end.

(** The inner [make_gltf_mat_dic]; the last component lists the lines
    printed. *)
Definition make_gltf_mat_dic (st : TexState) (b_mat : Material)
    (gltf_shader_node : ShaderNode)
  : result (Dict.t json * Dict.t json * TexState * list string) :=
  let gltf_dic :=
    [("name", JStr (mat_name b_mat));
     ("shader", JStr "VRM_USE_GLTFSHADER");
     ("keywordMap", JDict []);
     ("tagMap", JDict []);
     ("floatProperties", JDict []);
     ("vectorProperties", JDict []);
     ("textureProperties", JDict [])]%string in
  let transparency := transparency_of b_mat in
  base_color <- get_rgba_val gltf_shader_node "base_Color" ;;
  metalness <- get_float_value gltf_shader_node "metallic" ;;
  roughness <- get_float_value gltf_shader_node "roughness" ;;
  base_color_texture <-
    get_texture_name_and_sampler_type gltf_shader_node "color_texture" ;;
  metallic_roughness_texture <-
    get_texture_name_and_sampler_type gltf_shader_node
      "metallic_roughness_texture" ;;
  unlit_value <- get_float_value gltf_shader_node "unlit" ;;
  unlit <- json_ge_half unlit_value ;;
  pbr <- pbr_fallback st b_mat base_color metalness roughness
           base_color_texture metallic_roughness_texture
           (fst transparency) (snd transparency)
           unlit (negb (use_backface_culling b_mat)) ;;
  added <- foldM (pbr_tex_add gltf_shader_node)
                 [("normalTexture", "normal");
                  ("emissiveTexture", "emissive_texture");
                  ("occlusionTexture", "occlusion_texture")]%string
                 (fst pbr, snd pbr, []) ;;
  emissive <- get_rgba_val gltf_shader_node "emissive_color" ;;
  match emissive with
  | JList l =>
      Ok (gltf_dic,
          Dict.set (fst (fst added)) "emissiveFactor" (JList (firstn 3 l)),
          snd (fst added), snd added)
  | _ => Raise TypeError
  end.

(** The inner [make_transzw_mat_dic]. *)
Definition make_transzw_mat_dic (st : TexState) (b_mat : Material)
    (transzw_shader_node : ShaderNode)
  : result (Dict.t json * Dict.t json * TexState) :=
  color_tex <-
    get_texture_name_and_sampler_type transzw_shader_node "Main_Texture" ;;
  r <- match color_tex with
       | Some tex =>
           t <- add_texture image_id_dic st tex ;;
           Ok ([("_MainTex", JInt (fst t))]%string,
               [("_MainTex", uv_default)]%string, snd t)
       | None => Ok ([], [], st)
       end ;;
  let '(textures, vectors, st1) := r in
  let zw_dic :=
    [("name", JStr (mat_name b_mat));
     ("shader", JStr "VRM/UnlitTransparentZWrite");
     ("renderQueue", JInt 2600);
     ("keywordMap", JDict []);
     ("tagMap", JDict [("RenderType", JStr "Transparent")]);
     ("floatProperties", JDict []);
     ("vectorProperties", JDict vectors);
     ("textureProperties", JDict textures)]%string in
  pbr <- pbr_fallback st1 b_mat
           (JList [JInt 1; JInt 1; JInt 1; JInt 1]) (JInt 0)
           (JFloat nine_tenths) color_tex None "BLEND" (JFloat half)
           true false ;;
  Ok (zw_dic, fst pbr, snd pbr).

End Materials.

(** *** The export state and its stages *)

(** The state of one export, [GlbObj].  The collector of binary runs
    ([GlbBinCollection]) is kept abstract in [C]; [mesh_materials] holds
    [mesh.data.materials] for each exported mesh object. *)
Record GlbObj (C : Type) : Type := mkGlbObj {
  vrm_version : option string;
  json_dic : Dict.t json;
  bin : bytes;
  glb_bin_collector : C;
  mesh_materials : list (list Material);
  result_bytes : option bytes
}.

Arguments mkGlbObj {C}.
Arguments vrm_version {C}.
Arguments json_dic {C}.
Arguments bin {C}.
Arguments glb_bin_collector {C}.
Arguments mesh_materials {C}.
Arguments result_bytes {C}.

Definition dquote : string := String (ascii_of_nat 34) EmptyString.

(** The opacity mapping of the specification, read on a core material
    entry: OPAQUE gives alphaMode OPAQUE and no alphaCutoff, CLIP gives MASK
    with the alpha threshold as alphaCutoff, anything else gives BLEND and
    no alphaCutoff. *)
Definition opacity_mapping (b_mat : Material) (pbr_dic : Dict.t json) : Prop :=
  if String.eqb (blend_method b_mat) "OPAQUE" then
    Dict.get pbr_dic "alphaMode" = Some (JStr "OPAQUE")
    /\ Dict.get pbr_dic "alphaCutoff" = None
  else if String.eqb (blend_method b_mat) "CLIP" then
    Dict.get pbr_dic "alphaMode" = Some (JStr "MASK")
    /\ Dict.get pbr_dic "alphaCutoff" = Some (JFloat (alpha_threshold b_mat))
  else
    Dict.get pbr_dic "alphaMode" = Some (JStr "BLEND")
    /\ Dict.get pbr_dic "alphaCutoff" = None.

(** [v["name"]] on an entry of a list of the document. *)
Definition json_name (v : json) : option json :=
  match v with
  | JDict d => Dict.get d "name"
  | _ => None
  end.

(** The three shader kinds that [material_to_dic] translates. *)
Definition supported_shader (shader : string) : bool :=
  String.eqb shader "MToon_unversioned" || String.eqb shader "GLTF"
  || String.eqb shader "TRANSPARENT_ZWRITE".

(** The message raised for a shader that is not supported. *)
Definition unsupported_shader (shader : string) : exn :=
  Exception ("VRM doesn't support " ++ dquote ++ shader ++ dquote
             ++ " shader.")%string.

(** [used_materials] (lines 804-808): [if mat not in used_materials:
    used_materials.append(mat)] over the materials of the meshes.  The
    test compares the material objects, not their names. *)
Definition used_materials (meshes : list (list Material)) : list Material :=
  fold_left
    (fun used mat =>
       if existsb (fun m => mat_id m =? mat_id mat) used
       then used else (used ++ [mat])%list)
    (List.concat meshes) [].

(** The variables of the loop over [used_materials]: the two lists
    built, the texture bookkeeping, the shader node last found for each
    kind (the names stay bound from one material to the next), and the
    lines printed. *)
Record MaterialLoop : Type := mkMaterialLoop {
  glb_material_list : list json;
  vrm_material_props_list : list json;
  loop_tex_state : TexState;
  mtoon_shader_node : option ShaderNode;
  gltf_shader_node : option ShaderNode;
  zw_shader_node : option ShaderNode;
  loop_printed : list string
}.

(** The search for the output node: [links[0].from_node] of its surface
    input; without an output node the name keeps its earlier value. *)
Definition surface_node (b_mat : Material) (previous : option ShaderNode)
  : result ShaderNode :=
  match surface_links b_mat with
  | Some [] => Raise IndexError
  | Some (node :: _) => Ok node
  | None =>
      match previous with
      | Some node => Ok node
      | None => Raise UnboundLocalError
      end
  end.

Section Stages.

Context {C : Type}.

Variable gl : GlConstants.
Variable blender_version_minor : Z.
(** [GlbBinCollection.image_bins] as (name, image_id) pairs,
    [GlbBinCollection.pack_all], and
    [json.dumps(...).encode("utf-8")]. *)
Variable image_bins : C -> list (string * Z).
Variable pack_all : C -> Dict.t json * bytes.
Variable json_dumps : Dict.t json -> bytes.

(** The body of [for b_mat in used_materials]. *)
Definition material_step (version : option string) (image_id_dic : Dict.t Z)
    (acc : MaterialLoop) (b_mat : Material) : result MaterialLoop :=
  shader <- match vrm_shader b_mat with
            | Some s => Ok s
            | None => Raise (KeyError "vrm_shader")
            end ;;
  if String.eqb shader "MToon_unversioned" then
    node <- surface_node b_mat (mtoon_shader_node acc) ;;
    r <- make_mtoon_unversioned_extension_dic gl image_id_dic
           blender_version_minor version (loop_tex_state acc) b_mat node ;;
    Ok (mkMaterialLoop
          (glb_material_list acc ++ [JDict (snd (fst r))])
          (vrm_material_props_list acc ++ [JDict (fst (fst r))])
          (snd r) (Some node) (gltf_shader_node acc) (zw_shader_node acc)
          (loop_printed acc))
  else if String.eqb shader "GLTF" then
    node <- surface_node b_mat (gltf_shader_node acc) ;;
    r <- make_gltf_mat_dic gl image_id_dic (loop_tex_state acc) b_mat node ;;
    Ok (mkMaterialLoop
          (glb_material_list acc ++ [JDict (snd (fst (fst r)))])
          (vrm_material_props_list acc ++ [JDict (fst (fst (fst r)))])
          (snd (fst r)) (mtoon_shader_node acc) (Some node)
          (zw_shader_node acc) (loop_printed acc ++ snd r))
  else if String.eqb shader "TRANSPARENT_ZWRITE" then
    node <- surface_node b_mat (zw_shader_node acc) ;;
    r <- make_transzw_mat_dic gl image_id_dic (loop_tex_state acc) b_mat node ;;
    Ok (mkMaterialLoop
          (glb_material_list acc ++ [JDict (snd (fst r))])
          (vrm_material_props_list acc ++ [JDict (fst (fst r))])
          (snd r) (mtoon_shader_node acc) (gltf_shader_node acc) (Some node)
          (loop_printed acc))
  else Raise (unsupported_shader shader).

Definition material_loop_start : MaterialLoop :=
  mkMaterialLoop [] [] (mkTexState [] [] 0 0) None None None [].

(** [GlbObj.material_to_dic]. *)
Definition material_to_dic (self : GlbObj C) : result (GlbObj C) :=
  let image_id_dic := Dict.update [] (image_bins (glb_bin_collector self)) in
  done <- foldM (material_step (vrm_version self) image_id_dic)
                (used_materials (mesh_materials self)) material_loop_start ;;
  let d1 := apply_texture_and_sampler_to_dic (loop_tex_state done)
              (json_dic self) in
  let d2 := Dict.set d1 "materials" (JList (glb_material_list done)) in
  match vrm_version self with
  | None => Raise no_version
  | Some v =>
      let d3 :=
        if String.prefix "0." v then
          Dict.set d2 "extensions"
            (JDict [("VRM", JDict [("materialProperties",
                                    JList (vrm_material_props_list done))])]%string)
        else d2 in
      Ok (mkGlbObj (vrm_version self) d3 (bin self) (glb_bin_collector self)
            (mesh_materials self) (result_bytes self))
  end.

(** The chunk tag [b"BIN\x00"]. *)
Definition tag_BIN : bytes :=
  literal (String "B" (String "I" (String "N"
             (String (ascii_of_nat 0) EmptyString)))).

(** [GlbObj.finalize]. *)
Definition finalize (self : GlbObj C) : result (GlbObj C) :=
  let '(bin_json, bin0) := pack_all (glb_bin_collector self) in
  let json_dic' := Dict.update (json_dic self) bin_json in
  ver <- pack_I 2 ;;
  let magic := literal "glTF" ++ ver in
  let json_str := json_dumps json_dic' in
  let json_str :=
    if negb (len json_str mod 4 =? 0)
    then json_str ++ repeat Byte.x20 (Z.to_nat (4 - len json_str mod 4))
    else json_str in
  json_size <- pack_I (len json_str) ;;
  let bin1 :=
    if negb (len bin0 mod 4 =? 0)
    then bin0 ++ repeat Byte.x00 (Z.to_nat (4 - len bin0 mod 4))
    else bin0 in
  bin_size <- pack_I (len bin1) ;;
  total_size <- pack_I (len json_str + len bin1 + 28) ;;
  Ok (mkGlbObj (vrm_version self) json_dic' bin1 (glb_bin_collector self)
        (mesh_materials self)
        (Some (magic ++ total_size ++ json_size ++ literal "JSON" ++ json_str
               ++ bin_size ++ tag_BIN ++ bin1))).

(** The stages of the export that are not modelled further: they read the
    host's scene. *)
Variable image_to_bin : GlbObj C -> result (GlbObj C).
Variable armature_to_node_and_scenes_dic : GlbObj C -> result (GlbObj C).
Variable mesh_to_bin_and_dic : GlbObj C -> result (GlbObj C).
Variable gltf_meta_to_dic : GlbObj C -> result (GlbObj C).
Variable vrm_meta_to_dic : GlbObj C -> result (GlbObj C).

(** [GlbObj.convert_bpy2glb]. *)
Definition convert_bpy2glb (self : GlbObj C) (version : string)
  : result (option bytes) :=
  let self0 := mkGlbObj (Some version) (json_dic self) (bin self)
                 (glb_bin_collector self) (mesh_materials self)
                 (result_bytes self) in
  self1 <- image_to_bin self0 ;;
  self2 <- armature_to_node_and_scenes_dic self1 ;;
  self3 <- material_to_dic self2 ;;
  self4 <- mesh_to_bin_and_dic self3 ;;
  let self5 := mkGlbObj (vrm_version self4)
                 (Dict.set (json_dic self4) "scene" (JInt 0)) (bin self4)
                 (glb_bin_collector self4) (mesh_materials self4)
                 (result_bytes self4) in
  self6 <- gltf_meta_to_dic self5 ;;
  self7 <- vrm_meta_to_dic self6 ;;
  self8 <- finalize self7 ;;
  Ok (result_bytes self8).

(** [ExportVRM.execute] of the add-on: the status returned and the bytes
    written to [filepath], if any.  [glb_obj] is [None] when building the
    [GlbObj] raised [ValidationError]. *)
Definition execute (filepath : string) (glb_obj : option (GlbObj C))
  : result (string * option bytes) :=
  if String.eqb filepath EmptyString then Ok ("CANCELLED"%string, None)
  else
    match glb_obj with
    | None => Ok ("CANCELLED"%string, None)
    | Some obj =>
        vrm_bin <- convert_bpy2glb obj "0.0" ;;
        match vrm_bin with
        | None => Ok ("CANCELLED"%string, None)
        | Some b => Ok ("FINISHED"%string, Some b)
        end
    end.

End Stages.

(** *** Parts of [mesh_to_bin_and_dic] and [vrm_meta_to_dic] *)

(** [{name: i for i, name in enumerate(names)}], as written for
    [bone_id_dic], [mat_id_dic], [node_id_dic] and [node_name_id_dic]:
    a name that comes again takes the later index and keeps its place. *)
Fixpoint enumerate_from (i : Z) (names : list string) (d : Dict.t Z)
  : Dict.t Z :=
  match names with
  | [] => d
  | n :: names' => enumerate_from (i + 1) names' (Dict.set d n i)
  end.

Definition enumerate_dic (names : list string) : Dict.t Z :=
  enumerate_from 0 names [].

(** The test made for each humanoid bone (lines 1415-1419 and 1445-1449):
    the armature has a property of this name, its value is not empty and
    names a node.  [data] holds the string properties of the armature. *)
Definition human_bone_node (data : Dict.t string)
    (node_name_id_dic : Dict.t Z) (humanbone : string) : option Z :=
  match Dict.get data humanbone with
  | Some name =>
      if String.eqb name EmptyString then None
      else Dict.get node_name_id_dic name
  | None => None
  end.

(** The armature names a node for a humanoid bone: the property of the
    bone's name holds a name that is not empty, and [node] is the last
    position at which the list of nodes has this name. *)
Definition names_node (data : Dict.t string) (node_names : list string)
    (humanbone : string) (node : Z) : Prop :=
  exists name : string,
    Dict.get data humanbone = Some name /\ name <> EmptyString
    /\ 0 <= node /\ nth_error node_names (Z.to_nat node) = Some name
    /\ ~ In name (skipn (S (Z.to_nat node)) node_names).

(** [humanoid["humanBones"]] of the 0.x schema: a list. *)
Definition vrm0_human_bones (data : Dict.t string) (node_names : list string)
  : list json :=
  let node_name_id_dic := enumerate_dic node_names in
  flat_map
    (fun humanbone =>
       match human_bone_node data node_name_id_dic humanbone with
       | Some node =>
           [JDict [("bone", JStr humanbone); ("node", JInt node);
                   ("useDefaultValues", JBool true)]%string]
       | None => []
       end)
    (HumanBones.requires ++ HumanBones.defines).

(** [humanoid["humanBones"]] of the 1.x schema: a dictionary. *)
Definition vrm1_human_bones (data : Dict.t string) (node_names : list string)
  : Dict.t json :=
  let node_name_id_dic := enumerate_dic node_names in
  fold_left
    (fun d humanbone =>
       match human_bone_node data node_name_id_dic humanbone with
       | Some node =>
           Dict.set d humanbone (JDict [("node", JInt node)]%string)
       | None => d
       end)
    (HumanBones.requires ++ HumanBones.defines) [].

(** [z >= x] and [x >= z] for a whole number and a float, decided on the
    exact values as the interpreter does. *)
Definition Z_geb_float (z : Z) (x : float) : bool :=
  match x with
  | S754_zero _ => 0 <=? z
  | S754_finite s m e =>
      if 0 <=? e then cond_Zopp s (Zpos m * 2 ^ e) <=? z
      else cond_Zopp s (Zpos m) <=? z * 2 ^ (- e)
  | S754_infinity s => s
  | S754_nan => false
  end.

Definition float_geb_Z (x : float) (z : Z) : bool :=
  match x with
  | S754_zero _ => z <=? 0
  | S754_finite s m e =>
      if 0 <=? e then z <=? cond_Zopp s (Zpos m * 2 ^ e)
      else z * 2 ^ (- e) <=? cond_Zopp s (Zpos m)
  | S754_infinity s => negb s
  | S754_nan => false
  end.

(** [z >= v] and [v >= z] for a value parsed from JSON. *)
Definition int_ge_json (z : Z) (v : json) : result bool :=
  match v with
  | JInt y => Ok (y <=? z)
  | JFloat x => Ok (Z_geb_float z x)
  | JBool b => Ok ((if b then 1 else 0) <=? z)
  | _ => Raise TypeError
  end.

Definition json_ge_int (v : json) (z : Z) : result bool :=
  match v with
  | JInt y => Ok (z <=? y)
  | JFloat x => Ok (float_geb_Z x z)
  | JBool b => Ok (z <=? (if b then 1 else 0))
  | _ => Raise TypeError
  end.

(** The inner [clamp] of [vrm_meta_to_dic], with the whole-number bounds
    of its two calls; the flag tells that the line about the weight is
    printed. *)
Definition clamp (min_val : Z) (val : json) (max_val : Z)
  : result (json * bool) :=
  above <- int_ge_json max_val val ;;
  if above then
    below <- json_ge_int val min_val ;;
    if below then Ok (val, false) else Ok (JInt min_val, true)
  else Ok (JInt max_val, true).

(** [v * 100]: a number is multiplied, a string or a list is repeated. *)
Definition json_times_100 (v : json) : result json :=
  match v with
  | JInt z => Ok (JInt (z * 100))
  | JFloat x => Ok (JFloat (Float.mul x (of_Z 100)))
  | JBool b => Ok (JInt (if b then 100 else 0))
  | JStr t => Ok (JStr (String.concat EmptyString (repeat t 100)))
  | JList l => Ok (JList (List.concat (repeat l 100)))
  | _ => Raise TypeError
  end.

(** [bind["weight"]] as it is rewritten (lines 1528-1532). *)
Definition bind_weight (version : string) (weight : json)
  : result (json * bool) :=
  if String.prefix "0." version then
    scaled <- json_times_100 weight ;;
    clamp 0 scaled 100
  else clamp 0 weight 1.

(** [collider["offset"]] (lines 1565-1583): the place of the empty
    relative to the armature and to the head of its bone, converted; the
    0.x schema stores it by axis and negates z once more. *)
Definition collider_offset (version : string)
    (world armature_location head_local : list float) : result json :=
  empty_offset_pos <-
    mapM (fun i => w <- Py.getitem world i ;;
                   a <- Py.getitem armature_location i ;;
                   h <- Py.getitem head_local i ;;
                   Ok (Float.sub (Float.sub w a) h))
         [0; 1; 2] ;;
  converted <- axis_blender_to_glb empty_offset_pos ;;
  if String.prefix "0." version then
    match converted with
    | [x; y; z] =>
        Ok (JDict [("x", JFloat x); ("y", JFloat y);
                   ("z", JFloat (Float.mul z (of_Z (-1))))]%string)
    | _ => Raise (KeyError "z")
    end
  else Ok (json_floats converted).

(** [zip] over three references to one iterator of [v]: the items three
    by three; what is left over at the end is dropped. *)
Fixpoint triples (v : list float) : list vec3 :=
  match v with
  | a :: b :: c :: v' => (a, b, c) :: triples v'
  | _ => []
  end.

(** [GlbObj.fetch_morph_vertex_normal_difference]; [key_blocks] gives the
    name and [normals_vertex_get()] of each shape key. *)
Definition fetch_morph_vertex_normal_difference
    (key_blocks : list (string * list float)) (reference_key_name : string)
  : result (Dict.t (list (list float))) :=
  let vert_base_normal_dic := Dict.update [] key_blocks in
  foldM (fun morph_normal_diff_dic (kv : string * list float) =>
           if String.eqb (fst kv) reference_key_name
           then Ok morph_normal_diff_dic
           else
             base <- Dict.getitem vert_base_normal_dic reference_key_name ;;
             let values :=
               map (fun p : vec3 * vec3 =>
                      let '((m0, m1, m2), (b0, b1, b2)) := p in
                      [Float.sub m0 b0; Float.sub m1 b1; Float.sub m2 b2])
                   (combine (triples (snd kv)) (triples base)) in
             Ok (Dict.set morph_normal_diff_dic (fst kv) values))
        vert_base_normal_dic [].

(** *** The nodes and skins of the armature
    ([armature_to_node_and_scenes_dic]) *)

(** A bone with the bones below it, as [bone.children] gives them. *)
Inductive BoneTree : Type :=
  BoneNode (name : string) (head_local : list float)
           (children : list BoneTree).

Definition tree_name (t : BoneTree) : string :=
  let 'BoneNode n _ _ := t in n.
Definition tree_head (t : BoneTree) : list float :=
  let 'BoneNode _ h _ := t in h.
Definition tree_children (t : BoneTree) : list BoneTree :=
  let 'BoneNode _ _ c := t in c.

(** The bone as [bone_to_node] reads it. *)
Definition tree_bone (parent : option Bone) (t : BoneTree) : Bone :=
  mkBone (tree_name t) (tree_head t) parent
         (map tree_name (tree_children t)).

(** [list(bone.children)], each child with the bone it hangs on. *)
Definition child_entries (b : Bone) (t : BoneTree) : list (Bone * BoneTree) :=
  map (fun c => (b, c)) (tree_children t).

(** The number of bones of a tree and of a list of trees. *)
Fixpoint tree_size (t : BoneTree) : nat :=
  match t with
  | BoneNode _ _ children =>
      S ((fix sizes (l : list BoneTree) : nat :=
            match l with
            | [] => 0%nat
            | c :: l' => (tree_size c + sizes l')%nat
            end) children)
  end.

Definition forest_size (l : list BoneTree) : nat :=
  fold_right (fun t n => (tree_size t + n)%nat) 0%nat l.

(** [l.pop()]: the last item and the list without it. *)
Definition pop {A : Type} (l : list A) : option (A * list A) :=
  match rev l with
  | [] => None
  | x :: r => Some (x, rev r)
  end.

(** [human_bone_node_names] (lines 155-163): the bones that the armature
    names for the humanoid bones.  [data] holds the string properties of
    the armature, [bone_names] the names of [armature.data.bones]. *)
Definition human_bone_node_names (data : Dict.t string)
    (bone_names : list string) : list string :=
  flat_map
    (fun human_bone =>
       match Dict.get data human_bone with
       | Some name =>
           if String.eqb name EmptyString then []
           else if existsb (String.eqb name) bone_names then [name] else []
       | None => []
       end)
    (HumanBones.requires ++ HumanBones.defines).

(** What the loop over the bones below a root changes: [nodes], the
    joints of the skin and [has_human_bone]. *)
Record SkinLoop : Type := mkSkinLoop {
  loop_nodes : list (Dict.t json);
  loop_joints : list Z;
  loop_has_human_bone : bool
}.

(** [while bone_children: ...] (lines 179-185).  Each pass takes a bone
    off the list for good, so the loop ends within as many passes as
    there are bones on the list and below them; [fuel] is this bound and
    is never used up when it is at least that number. *)
Fixpoint walk_children (fuel : nat) (bone_id_dic : Dict.t Z)
    (names : list string) (bone_children : list (Bone * BoneTree))
    (acc : SkinLoop) : result SkinLoop :=
  match pop bone_children with
  | None => Ok acc
  | Some (entry, rest) =>
      match fuel with
      | O => Raise RuntimeError
      | S fuel' =>
          let child := tree_bone (Some (fst entry)) (snd entry) in
          node <- bone_to_node bone_id_dic child ;;
          joint <- Dict.getitem bone_id_dic (bone_name child) ;;
          walk_children fuel' bone_id_dic names
            (rest ++ child_entries child (snd entry))
            (mkSkinLoop
               (loop_nodes acc ++ [node])
               (loop_joints acc ++ [joint])
               (if existsb (String.eqb (bone_name child)) names
                then true else loop_has_human_bone acc))
      end
  end.

(** [bone_id_dic[node["name"]]], the key of the sort. *)
Definition node_key (bone_id_dic : Dict.t Z) (node : Dict.t json)
  : result Z :=
  match Dict.get node "name" with
  | Some (JStr n) => Dict.getitem bone_id_dic n
  | _ => Raise (KeyError "name")
  end.

(** [sorted(l, key=...)], on the items paired with their keys: stable,
    ascending. *)
Fixpoint insert_keyed {A : Type} (x : Z * A) (l : list (Z * A))
  : list (Z * A) :=
  match l with
  | [] => [x]
  | y :: l' => if fst x <? fst y then x :: y :: l' else y :: insert_keyed x l'
  end.

Definition sort_keyed {A : Type} (l : list (Z * A)) : list (Z * A) :=
  fold_left (fun acc x => insert_keyed x acc) l [].

(** [nodes], [scene] and [skins]; a skin is kept as its joints and its
    skeleton. *)
Record ArmatureLoop : Type := mkArmatureLoop {
  arm_nodes : list (Dict.t json);
  arm_scene : list Z;
  arm_skins : list (list Z * Z)
}.

(** The body of [for bone in self.armature.data.bones] for a bone
    without parent (lines 169-188). *)
Definition root_step (bone_id_dic : Dict.t Z) (names : list string)
    (acc : ArmatureLoop) (root : BoneTree) : result ArmatureLoop :=
  let bone := tree_bone None root in
  let has_human_bone := existsb (String.eqb (bone_name bone)) names in
  root_bone_id <- Dict.getitem bone_id_dic (bone_name bone) ;;
  node <- bone_to_node bone_id_dic bone ;;
  walked <- walk_children (forest_size (tree_children root)) bone_id_dic
              names (child_entries bone root)
              (mkSkinLoop (arm_nodes acc ++ [node]) [root_bone_id]
                          has_human_bone) ;;
  keys <- mapM (node_key bone_id_dic) (loop_nodes walked) ;;
  let nodes := map snd (sort_keyed (combine keys (loop_nodes walked))) in
  Ok (mkArmatureLoop nodes (arm_scene acc ++ [root_bone_id])
        (if loop_has_human_bone walked
         then (arm_skins acc ++ [(loop_joints walked, root_bone_id)])%list
         else arm_skins acc)).

(** Lines 128-188: [roots] lists the bones without parent in the order of
    [armature.data.bones], each with the bones below it. *)
Definition armature_nodes (bone_names : list string) (roots : list BoneTree)
    (data : Dict.t string) : result ArmatureLoop :=
  let bone_id_dic := enumerate_dic bone_names in
  let names := human_bone_node_names data bone_names in
  foldM (root_step bone_id_dic names) roots (mkArmatureLoop [] [] []).

(** [armature.data.bones[name].head_local]. *)
Fixpoint tree_find (n : string) (t : BoneTree) : option (list float) :=
  match t with
  | BoneNode m h children =>
      if String.eqb m n then Some h
      else
        (fix find_in (l : list BoneTree) : option (list float) :=
           match l with
           | [] => None
           | c :: l' =>
               match tree_find n c with
               | Some x => Some x
               | None => find_in l'
               end
           end) children
  end.

Fixpoint forest_find (n : string) (l : list BoneTree)
  : option (list float) :=
  match l with
  | [] => None
  | t :: l' =>
      match tree_find n t with
      | Some x => Some x
      | None => forest_find n l'
      end
  end.

(** The sixteen floats of [inv_matrix], packed, for one joint (lines
    195-216). *)
Definition inverse_bind_matrix (head_local : list float) : result bytes :=
  bone_glb_world_pos <- axis_blender_to_glb head_local ;;
  p0 <- Py.getitem bone_glb_world_pos 0 ;;
  p1 <- Py.getitem bone_glb_world_pos 1 ;;
  p2 <- Py.getitem bone_glb_world_pos 2 ;;
  pack_floats 16
    [one; zero; zero; zero;
     zero; one; zero; zero;
     zero; zero; one; zero;
     Float.neg p0; Float.neg p1; Float.neg p2; one].

(** [skin_invert_matrix_bin] of a skin (lines 191-216). *)
Definition skin_invert_matrix_bin (nodes : list (Dict.t json))
    (roots : list BoneTree) (joints : list Z) : result bytes :=
  foldM (fun bin node_id =>
           node <- Py.getitem nodes node_id ;;
           bone_name <- match Dict.get node "name" with
                        | Some (JStr n) => Ok n
                        | _ => Raise (KeyError "name")
                        end ;;
           head <- match forest_find bone_name roots with
                   | Some h => Ok h
                   | None => Raise (KeyError bone_name)
                   end ;;
           matrix <- inverse_bind_matrix head ;;
           Ok (bin ++ matrix)%list)
        joints [].

(** The order in which the loop comes to the bones of a tree: a bone,
    then the trees below it from the last child to the first. *)
Fixpoint visit (t : BoneTree) : list string :=
  match t with
  | BoneNode n _ children =>
      n :: (fix visits (l : list BoneTree) : list string :=
              match l with
              | [] => []
              | c :: l' => (visits l' ++ visit c)%list
              end) children
  end.

(** The heads of the bones of a tree, in the order of [visit]. *)
Fixpoint visit_heads (t : BoneTree) : list (list float) :=
  match t with
  | BoneNode _ h children =>
      h :: (fix heads (l : list BoneTree) : list (list float) :=
              match l with
              | [] => []
              | c :: l' => (heads l' ++ visit_heads c)%list
              end) children
  end.

(** [node["name"]]. *)
Definition node_name (node : Dict.t json) : option json :=
  Dict.get node "name".

(** A node with its key in the sort: [bone_to_node] made the node from a
    bone, and the key is the index that [bone_id_dic] has for the bone. *)
Definition node_of_bone (bone_id_dic : Dict.t Z) (p : Z * Dict.t json)
  : Prop :=
  exists b : Bone,
    bone_to_node bone_id_dic b = Ok (snd p)
    /\ Dict.get bone_id_dic (bone_name b) = Some (fst p).

(** What holds of [nodes] between two roots: the nodes are those of the
    bones [visited] so far, in ascending order of their indices. *)
Definition nodes_sorted (bone_id_dic : Dict.t Z) (visited : list string)
    (nodes : list (Dict.t json)) : Prop :=
  exists keyed : list (Z * Dict.t json),
    nodes = map snd keyed
    /\ StronglySorted (fun a b => fst a <= fst b) keyed
    /\ Forall (node_of_bone bone_id_dic) keyed
    /\ Permutation (map (fun p => node_name (snd p)) keyed)
                   (map (fun n => Some (JStr n)) visited).

(** A root with a bone that the armature names for a humanoid bone. *)
Definition has_human_bone (names : list string) (root : BoneTree) : bool :=
  existsb (fun n => existsb (String.eqb n) names) (visit root).

(** The indices stored under ["children"] in a node. *)
Definition node_children (node : Dict.t json) : list json :=
  match Dict.get node "children" with
  | Some (JList l) => l
  | _ => []
  end.

End glb_factory.

Import glb_factory.

(** * Verification *)

(** Success of a bind, read backwards. *)
Ltac bind_as H x E :=
  match type of H with
  | Py.bind ?c _ = Ok _ =>
      destruct c as [x |] eqn:E; cbn [Py.bind] in H; [|discriminate H]
  end.

Ltac bind_ok H :=
  match type of H with
  | Py.bind ?c _ = Ok _ =>
      let E := fresh "E" in
      destruct c eqn:E; cbn [Py.bind] in H; [|discriminate H]
  end.

(** ** [vrm_types.py] *)

Section NormalizeWeights.

(** The first test of the function decides alone when it holds. *)
Lemma normalize_within_epsilon (weights : list float) :
  Float.ltb (Float.abs (Float.sub (Float.sum weights) one)) epsilon = true ->
  normalize_weights_compatible_with_gl_float weights = Ok weights.
Proof.
  intros H. unfold normalize_weights_compatible_with_gl_float.
  now rewrite H.
Qed.

(** C1: a 4-tuple of weights whose sum is within machine epsilon of 1 is
    returned unchanged, and the six inputs of the test suite give the
    listed outputs: [1,0,0,0] and [2,0,0,0] give [1,0,0,0], [1,3,0,0]
    gives [0.25,0.75,0,0], [2,2,2,2] gives four times 0.25, [0,0,0,eps]
    gives [0,0,0,1] and [0,eps,0,eps] gives [0,0.5,0,0.5]. *)
Theorem normalize_weights_unchanged_and_examples :
  (forall a b c d : float,
      Float.ltb (Float.abs (Float.sub (Float.sum [a; b; c; d]) one)) epsilon
      = true ->
      normalize_weights_compatible_with_gl_float [a; b; c; d] = Ok [a; b; c; d])
  /\ normalize_weights_compatible_with_gl_float [of_Z 1; of_Z 0; of_Z 0; of_Z 0]
     = Ok [of_Z 1; of_Z 0; of_Z 0; of_Z 0]
  /\ normalize_weights_compatible_with_gl_float [of_Z 2; of_Z 0; of_Z 0; of_Z 0]
     = Ok [of_Z 1; of_Z 0; of_Z 0; of_Z 0]
  /\ normalize_weights_compatible_with_gl_float [of_Z 1; of_Z 3; of_Z 0; of_Z 0]
     = Ok [dyadic 1 (-2); dyadic 3 (-2); of_Z 0; of_Z 0]
  /\ normalize_weights_compatible_with_gl_float [of_Z 2; of_Z 2; of_Z 2; of_Z 2]
     = Ok [dyadic 1 (-2); dyadic 1 (-2); dyadic 1 (-2); dyadic 1 (-2)]
  /\ normalize_weights_compatible_with_gl_float [of_Z 0; of_Z 0; of_Z 0; epsilon]
     = Ok [of_Z 0; of_Z 0; of_Z 0; of_Z 1]
  /\ normalize_weights_compatible_with_gl_float [of_Z 0; epsilon; of_Z 0; epsilon]
     = Ok [of_Z 0; dyadic 1 (-1); of_Z 0; dyadic 1 (-1)].
Proof.
  split.
  - intros a b c d H. now apply normalize_within_epsilon.
  - repeat split; vm_compute; reflexivity.
Qed.

Lemma normalize_weights_unchanged_witness :
  normalize_weights_compatible_with_gl_float [dyadic 1 (-1); dyadic 1 (-2); dyadic 1 (-2); zero]
  = Ok [dyadic 1 (-1); dyadic 1 (-2); dyadic 1 (-2); zero].
Proof.
  apply (proj1 normalize_weights_unchanged_and_examples).
  vm_compute. reflexivity.
Defined.

(** C9: on [0,0,0,0] the sum is 0, which is not within epsilon of 1, and
    the division of the first weight by the sum raises
    [ZeroDivisionError]. *)
Theorem normalize_weights_zero_division :
  Float.ltb (Float.abs (Float.sub (Float.sum [zero; zero; zero; zero]) one))
            epsilon = false
  /\ Float.sum [zero; zero; zero; zero] = zero
  /\ normalize_weights_compatible_with_gl_float [zero; zero; zero; zero] = Raise ZeroDivisionError.
Proof.
  repeat split; vm_compute; reflexivity.
Qed.

End NormalizeWeights.

Section NestedGetter.

Lemma getitem_beyond {A : Type} (l : list A) (i : Z) :
  Z.of_nat (List.length l) <= i -> Py.getitem l i = Raise IndexError.
Proof.
  intros H. unfold Py.getitem.
  destruct (i <? 0) eqn:E; [apply Z.ltb_lt in E; lia|].
  replace (i <? Z.of_nat (List.length l)) with false
    by (symmetry; apply Z.ltb_ge; lia).
  now rewrite andb_false_r.
Qed.

(** Whenever the list branch is entered, the index is out of range. *)
Lemma nested_getter_list_beyond (l : list json) (i : Z) (rest : list attr)
    (default : json) :
  l <> [] -> Z.of_nat (List.length l) < i ->
  nested_json_value_getter (JList l) (AInt i :: rest) default
  = Raise IndexError.
Proof.
  intros Hl Hi. simpl.
  assert (Hpos : (0 <? Z.of_nat (List.length l)) = true).
  { apply Z.ltb_lt. destruct l; [congruence | simpl; lia]. }
  rewrite Hpos. simpl.
  replace (Z.of_nat (List.length l) <? i) with true
    by (symmetry; apply Z.ltb_lt; lia).
  rewrite (getitem_beyond l i) by lia.
  destruct rest; reflexivity.
Qed.

(** C10: the list branch is guarded by [0 < len(json) < attr].  For a
    non-empty list and an index within it the function returns the default
    and not the element; for some non-empty list and an index above the
    length it raises [IndexError]. *)
Theorem nested_getter_list_branch :
  (forall (l : list json) (i : Z) (rest : list attr) (default : json),
      l <> [] -> 0 <= i < Z.of_nat (List.length l) ->
      nested_json_value_getter (JList l) (AInt i :: rest) default = Ok default)
  /\ (exists (l : list json) (i : Z) (default : json),
         l <> [] /\ Z.of_nat (List.length l) < i
         /\ nested_json_value_getter (JList l) [AInt i] default
            = Raise IndexError).
Proof.
  split.
  - intros l i rest default Hl Hi. simpl.
    replace (Z.of_nat (List.length l) <? i) with false
      by (symmetry; apply Z.ltb_ge; lia).
    now rewrite andb_false_r.
  - exists [JInt 10; JInt 20], 3, JNull.
    split; [discriminate | split; [simpl; lia | reflexivity]].
Qed.

Lemma nested_getter_list_branch_witness :
  nested_json_value_getter (JList [JInt 10; JInt 20]) [AInt 1] (JStr "none")
  = Ok (JStr "none").
Proof.
  apply (proj1 nested_getter_list_branch); [discriminate | simpl; lia].
Defined.

End NestedGetter.

(** ** Coordinate conversion and nodes *)

Section AxisConversion.

Lemma digits_shift52 (m : positive) :
  Zpos (digits2_pos (Pos.mul m 4503599627370496))
  = Zpos (digits2_pos m) + 52.
Proof.
  rewrite Pos.mul_comm. cbn [Pos.mul digits2_pos]. lia.
Qed.

Lemma shr_52 (m : positive) :
  iter_pos shr_1 52
    (Build_shr_record (Zpos (Pos.mul m 4503599627370496)) false false)
  = Build_shr_record (Zpos m) false false.
Proof.
  rewrite Pos.mul_comm. reflexivity.
Qed.

(** Rounding [m * 2^52 * 2^(e-52)] gives back the canonical [m * 2^e]. *)
Lemma round_aux_unit (s : bool) (m : positive) (e : Z) :
  bounded prec emax m e = true ->
  binary_round_aux prec emax s (Zpos (Pos.mul m 4503599627370496))
    (e + -52) loc_Exact
  = S754_finite s m e.
Proof.
  unfold prec, emax. intros Hb. unfold bounded, canonical_mantissa in Hb.
  apply andb_prop in Hb. destruct Hb as [Hc He].
  apply Z.eqb_eq in Hc. apply Z.leb_le in He.
  unfold binary_round_aux, shr_fexp.
  cbn [Zdigits2 shr_record_of_loc].
  rewrite digits_shift52.
  replace (Zpos (digits2_pos m) + 52 + (e + -52))
    with (Zpos (digits2_pos m) + e) by lia.
  rewrite Hc.
  replace (e - (e + -52)) with 52 by lia.
  unfold shr at 1. rewrite shr_52.
  cbn [shr_m loc_of_shr_record round_nearest_even Zdigits2].
  replace (e + -52 + 52) with e by lia.
  rewrite Hc. rewrite Z.sub_diag. cbn [shr shr_m].
  replace (e <=? 1024 - 53) with true by (symmetry; apply Z.leb_le; lia).
  reflexivity.
Qed.

Lemma mul_one (x : float) :
  Float.valid x = true -> Float.mul x (of_Z 1) = x.
Proof.
  destruct x as [[] | [] | | s m e]; intros Hv; try reflexivity.
  change (Float.mul (S754_finite s m e) (of_Z 1))
    with (binary_round_aux prec emax (xorb s false)
            (Zpos (Pos.mul m 4503599627370496)) (e + -52) loc_Exact).
  rewrite round_aux_unit by exact Hv. now rewrite xorb_false_r.
Qed.

Lemma mul_minus_one (x : float) :
  Float.valid x = true -> Float.mul x (of_Z (-1)) = Float.neg x.
Proof.
  destruct x as [[] | [] | | s m e]; intros Hv; try reflexivity.
  change (Float.mul (S754_finite s m e) (of_Z (-1)))
    with (binary_round_aux prec emax (xorb s true)
            (Zpos (Pos.mul m 4503599627370496)) (e + -52) loc_Exact).
  rewrite round_aux_unit by exact Hv. now rewrite xorb_true_r.
Qed.

(** The conversion of a 3-vector, with the products left as they are. *)
Lemma axis_blender_to_glb_products (x y z : float) :
  axis_blender_to_glb [x; y; z]
  = Ok [Float.mul x (of_Z (-1)); Float.mul z (of_Z 1); Float.mul y (of_Z 1)].
Proof. reflexivity. Qed.

(** The claim C3 as it is stated fails: on (1, 2, 3) the code gives
    (-1, 3, 2), which is neither (1, -3, 2), the axes reordered with the new
    Y negated, nor (1, 3, -2). *)
Lemma axis_negates_new_y_counterexample :
  axis_blender_to_glb [of_Z 1; of_Z 2; of_Z 3]
  = Ok [of_Z (-1); of_Z 3; of_Z 2]
  /\ axis_blender_to_glb [of_Z 1; of_Z 2; of_Z 3]
     <> axis_reorder_negating_new_y [of_Z 1; of_Z 2; of_Z 3]
  /\ axis_blender_to_glb [of_Z 1; of_Z 2; of_Z 3]
     <> Ok [of_Z 1; of_Z 3; of_Z (-2)].
Proof.
  repeat split; vm_compute; congruence.
Qed.

(** C3, amended: the conversion of a 3-vector (x, y, z) of floats is
    (-x, z, y): Y and Z are swapped and the X component is negated.  The
    translation of a node is this conversion applied to the head of the
    bone minus the head of its parent, or minus (0, 0, 0) for a bone
    without parent. *)
Theorem axis_conversion_negates_x :
  (forall x y z : float,
      Float.valid x = true -> Float.valid y = true -> Float.valid z = true ->
      axis_blender_to_glb [x; y; z] = Ok [Float.neg x; z; y])
  /\ (forall (bone_id_dic : Dict.t Z) (name : string) (hx hy hz : float)
             (parent : option Bone) (children : list string)
             (px py pz : float) (node : Dict.t json),
         match parent with
         | Some p => bone_head_local p = [px; py; pz]
         | None => [px; py; pz] = [zero; zero; zero]
         end ->
         bone_to_node bone_id_dic (mkBone name [hx; hy; hz] parent children)
         = Ok node ->
         exists translation,
           axis_blender_to_glb
             [Float.sub hx px; Float.sub hy py; Float.sub hz pz]
           = Ok translation
           /\ translation
              = [Float.mul (Float.sub hx px) (of_Z (-1));
                 Float.mul (Float.sub hz pz) (of_Z 1);
                 Float.mul (Float.sub hy py) (of_Z 1)]
           /\ Dict.get node "translation" = Some (json_floats translation)).
Proof.
  split.
  - intros x y z Hx Hy Hz. rewrite axis_blender_to_glb_products.
    now rewrite mul_minus_one, !mul_one.
  - intros bone_id_dic name hx hy hz parent children px py pz node Hp H.
    eexists. split; [apply axis_blender_to_glb_products|]. split; [reflexivity|].
    unfold bone_to_node in H.
    cbn [bone_parent bone_head_local bone_name bone_children] in H.
    assert (Hh : match parent with
                 | Some p => bone_head_local p
                 | None => [zero; zero; zero]
                 end = [px; py; pz]).
    { destruct parent; [exact Hp | now symmetry]. }
    rewrite Hh in H. clear Hh Hp.
    change (mapM _ [0; 1; 2])
      with (Ok [Float.sub hx px; Float.sub hy py; Float.sub hz pz]) in H.
    cbn [Py.bind] in H. rewrite axis_blender_to_glb_products in H.
    cbn [Py.bind] in H.
    destruct (mapM _ children) as [ids | e]; [|discriminate].
    cbn [Py.bind] in H.
    destruct ids; inversion H; reflexivity.
Qed.

Lemma axis_conversion_negates_x_witness :
  axis_blender_to_glb [of_Z 1; of_Z 2; of_Z 3]
  = Ok [Float.neg (of_Z 1); of_Z 3; of_Z 2].
Proof.
  apply (proj1 axis_conversion_negates_x); reflexivity.
Defined.

End AxisConversion.

(** ** The container: [struct] and [finalize] *)

Section Container.

Lemma Z_of_byte_of_Z (z : Z) : Z_of_byte (byte_of_Z z) = z mod 256.
Proof.
  unfold Z_of_byte, byte_of_Z.
  assert (Hb : 0 <= z mod 256 < 256) by (apply Z.mod_pos_bound; lia).
  destruct (Byte.of_N (Z.to_N (z mod 256))) as [b |] eqn:E.
  - apply Byte.to_of_N in E. rewrite E. lia.
  - apply Byte.of_N_None_iff in E. lia.
Qed.

Lemma le_bytes_length (w : nat) (n : Z) : List.length (le_bytes w n) = w.
Proof.
  revert n. induction w as [| w IH]; intros n; simpl; [reflexivity|].
  now rewrite IH.
Qed.

(** Decoding the little-endian bytes of a number in range gives it back. *)
Lemma le_value_le_bytes (w : nat) (n : Z) :
  0 <= n < 256 ^ Z.of_nat w -> le_value (le_bytes w n) = n.
Proof.
  revert n. induction w as [| w IH]; intros n Hn.
  - simpl in *. lia.
  - cbn [le_bytes le_value]. rewrite Z_of_byte_of_Z.
    rewrite Nat2Z.inj_succ, Z.pow_succ_r in Hn by lia.
    rewrite IH.
    + pose proof (Z.div_mod n 256). lia.
    + split; [apply Z.div_pos; lia|].
      apply Z.div_lt_upper_bound; lia.
Qed.

Lemma pack_I_ok (n : Z) (b : bytes) :
  pack_I n = Ok b -> 0 <= n < 2 ^ 32 /\ b = le_bytes 4 n.
Proof.
  unfold pack_I. destruct ((0 <=? n) && (n <? 2 ^ 32)) eqn:E; [|discriminate].
  intros H. inversion H. apply andb_prop in E. destruct E as [E1 E2].
  apply Z.leb_le in E1. apply Z.ltb_lt in E2. auto.
Qed.

Lemma pack_I_in_range (n : Z) :
  0 <= n < 2 ^ 32 -> pack_I n = Ok (le_bytes 4 n).
Proof.
  intros [H1 H2]. unfold pack_I.
  apply Z.leb_le in H1. apply Z.ltb_lt in H2. now rewrite H1, H2.
Qed.

Lemma len_app (a b : bytes) : len (a ++ b) = len a + len b.
Proof. unfold len. rewrite length_app. lia. Qed.

Lemma len_nonneg (a : bytes) : 0 <= len a.
Proof. unfold len. lia. Qed.

(** The padding of both chunks: at most three bytes, up to a multiple
    of 4. *)
Lemma padded_multiple_of_4 (fill : Byte.byte) (b : bytes) :
  let padded :=
    if negb (len b mod 4 =? 0)
    then b ++ repeat fill (Z.to_nat (4 - len b mod 4)) else b in
  len padded mod 4 = 0
  /\ exists k : nat, (k < 4)%nat /\ padded = b ++ repeat fill k.
Proof.
  pose proof (len_nonneg b) as Hn.
  pose proof (Z.mod_pos_bound (len b) 4 ltac:(lia)) as Hm.
  destruct (len b mod 4 =? 0) eqn:E; cbn [negb].
  - apply Z.eqb_eq in E. split; [exact E|].
    exists 0%nat. split; [lia|]. cbn [repeat]. now rewrite app_nil_r.
  - apply Z.eqb_neq in E. split.
    + rewrite len_app. unfold len at 2. rewrite repeat_length.
      rewrite Z2Nat.id by lia.
      pose proof (Z.div_mod (len b) 4 ltac:(lia)) as Hd.
      replace (len b + (4 - len b mod 4)) with ((len b / 4 + 1) * 4) by lia.
      apply Z.mod_mul. lia.
    + exists (Z.to_nat (4 - len b mod 4)). split; [lia | reflexivity].
Qed.

Lemma skipn_length_app {A : Type} (a b : list A) :
  skipn (List.length a) (a ++ b) = b.
Proof. induction a as [| x a IH]; [reflexivity | exact IH]. Qed.

Lemma firstn_4_le_bytes (n : Z) (rest : bytes) :
  firstn 4 (le_bytes 4 n ++ rest) = le_bytes 4 n.
Proof. reflexivity. Qed.

(** C2: the encoder's output is the magic, the version 2 and the total
    length, then the JSON chunk (length, tag, text padded with spaces) and
    the binary chunk (length, tag, bytes padded with zeros); both chunk
    bodies have a length that is a multiple of 4, and the total length
    field, like the two chunk length fields, holds the actual length: padded
    JSON length + padded binary length + 28.  The encoder returns whenever
    that total fits the 32-bit length field. *)
Theorem finalize_container_layout :
  forall (C : Type) (pack_all : C -> Dict.t json * bytes)
         (json_dumps : Dict.t json -> bytes) (self : GlbObj C),
    let json_text :=
      json_dumps (Dict.update (json_dic self)
                    (fst (pack_all (glb_bin_collector self)))) in
    let blob := snd (pack_all (glb_bin_collector self)) in
    (len json_text + len blob + 34 < 2 ^ 32 ->
     exists self', finalize pack_all json_dumps self = Ok self')
    /\ (forall self' : GlbObj C,
           finalize pack_all json_dumps self = Ok self' ->
           exists (json_chunk bin_chunk out : bytes) (kj kb : nat),
             result_bytes self' = Some out
             /\ out = literal "glTF" ++ le_bytes 4 2 ++ le_bytes 4 (len out)
                      ++ le_bytes 4 (len json_chunk) ++ literal "JSON"
                      ++ json_chunk
                      ++ le_bytes 4 (len bin_chunk) ++ tag_BIN ++ bin_chunk
             /\ json_chunk = json_text ++ repeat Byte.x20 kj
             /\ bin_chunk = blob ++ repeat Byte.x00 kb
             /\ (kj < 4)%nat /\ (kb < 4)%nat
             /\ len json_chunk mod 4 = 0 /\ len bin_chunk mod 4 = 0
             /\ len out = len json_chunk + len bin_chunk + 28
             /\ le_value (firstn 4 (skipn 8 out)) = len out
             /\ le_value (firstn 4 (skipn 12 out)) = len json_chunk
             /\ le_value
                  (firstn 4 (skipn (20 + List.length json_chunk) out))
                = len bin_chunk).
Proof.
  intros C pack_all json_dumps self json_text blob.
  unfold finalize.
  destruct (pack_all (glb_bin_collector self)) as [bin_json bin0] eqn:Epack.
  cbn [fst snd] in json_text, blob.
  fold json_text. change bin0 with blob.
  destruct (padded_multiple_of_4 Byte.x20 json_text)
    as [Hj4 [kj [Hkj Hjpad]]].
  destruct (padded_multiple_of_4 Byte.x00 blob) as [Hb4 [kb [Hkb Hbpad]]].
  set (json_chunk := if negb (len json_text mod 4 =? 0)
                     then json_text ++ repeat Byte.x20
                            (Z.to_nat (4 - len json_text mod 4))
                     else json_text) in *.
  set (bin_chunk := if negb (len blob mod 4 =? 0)
                    then blob ++ repeat Byte.x00
                           (Z.to_nat (4 - len blob mod 4))
                    else blob) in *.
  change (pack_I 2) with (Ok (le_bytes 4 2)). cbn [Py.bind].
  assert (Hlj : len json_chunk = len json_text + Z.of_nat kj).
  { rewrite Hjpad, len_app. unfold len at 2. now rewrite repeat_length. }
  assert (Hlb : len bin_chunk = len blob + Z.of_nat kb).
  { rewrite Hbpad, len_app. unfold len at 2. now rewrite repeat_length. }
  pose proof (len_nonneg json_text) as Hnj.
  pose proof (len_nonneg blob) as Hnb.
  split.
  - intros Hfit.
    rewrite (pack_I_in_range (len json_chunk)) by lia. cbn [Py.bind].
    rewrite (pack_I_in_range (len bin_chunk)) by lia. cbn [Py.bind].
    rewrite (pack_I_in_range (len json_chunk + len bin_chunk + 28)) by lia.
    cbn [Py.bind]. eexists. reflexivity.
  - intros self' H.
    destruct (pack_I (len json_chunk)) as [json_size | e] eqn:E1;
      [|discriminate].
    cbn [Py.bind] in H.
    destruct (pack_I (len bin_chunk)) as [bin_size | e] eqn:E2;
      [|discriminate].
    cbn [Py.bind] in H.
    destruct (pack_I (len json_chunk + len bin_chunk + 28))
      as [total_size | e] eqn:E3; [|discriminate].
    cbn [Py.bind] in H. inversion H as [Hself]. clear H Hself.
    apply pack_I_ok in E1, E2, E3.
    destruct E1 as [R1 ->]. destruct E2 as [R2 ->]. destruct E3 as [R3 ->].
    cbn [result_bytes].
    set (out := (literal "glTF" ++ le_bytes 4 2)
                ++ le_bytes 4 (len json_chunk + len bin_chunk + 28)
                ++ le_bytes 4 (len json_chunk) ++ literal "JSON" ++ json_chunk
                ++ le_bytes 4 (len bin_chunk) ++ tag_BIN ++ bin_chunk).
    assert (Hout : len out = len json_chunk + len bin_chunk + 28).
    { assert (H4 : forall n, len (le_bytes 4 n) = 4).
      { intros n. unfold len. now rewrite le_bytes_length. }
      unfold out. rewrite !len_app, !H4.
      change (len (literal "glTF")) with 4.
      change (len (literal "JSON")) with 4.
      change (len tag_BIN) with 4. lia. }
    exists json_chunk, bin_chunk, out, kj, kb.
    split; [reflexivity|].
    split; [rewrite Hout; unfold out; now rewrite <- app_assoc|].
    split; [exact Hjpad|]. split; [exact Hbpad|].
    split; [exact Hkj|]. split; [exact Hkb|].
    split; [exact Hj4|]. split; [exact Hb4|].
    split; [exact Hout|].
    assert (P256 : 256 ^ Z.of_nat 4 = 2 ^ 32) by reflexivity.
    split; [|split].
    + rewrite Hout. unfold out.
      change (skipn 8 ((literal "glTF" ++ le_bytes 4 2) ++ ?r)) with r.
      rewrite firstn_4_le_bytes. apply le_value_le_bytes. lia.
    + unfold out.
      change (skipn 12 ((literal "glTF" ++ le_bytes 4 2) ++ le_bytes 4 ?t ++ ?r))
        with r.
      rewrite firstn_4_le_bytes. apply le_value_le_bytes. lia.
    + unfold out.
      change (skipn (20 + List.length json_chunk)
                ((literal "glTF" ++ le_bytes 4 2) ++ le_bytes 4 ?t
                 ++ le_bytes 4 ?j ++ literal "JSON" ++ json_chunk ++ ?r))
        with (skipn (List.length json_chunk) (json_chunk ++ r)).
      rewrite skipn_length_app, firstn_4_le_bytes.
      apply le_value_le_bytes. lia.
Qed.

End Container.

Lemma finalize_container_layout_witness :
  exists self',
    finalize (fun _ : unit => ([], [Byte.x01])) (fun _ => literal "{}")
      (mkGlbObj None [] [] tt [] None) = Ok self'.
Proof.
  apply (proj1 (finalize_container_layout unit
                  (fun _ : unit => ([], [Byte.x01])) (fun _ => literal "{}")
                  (mkGlbObj None [] [] tt [] None))).
  vm_compute. reflexivity.
Defined.

(** ** Skin weights of a vertex *)

Section SkinWeights.

Variable env : SkinEnv.

Lemma group_name_ok (i : Z) :
  0 <= i < Z.of_nat (List.length (v_group_name_dic env)) ->
  exists n, group_name env i = Ok n.
Proof.
  intros [H1 H2]. unfold group_name.
  apply Z.leb_le in H1. pose proof H2 as H2'. apply Z.ltb_lt in H2.
  rewrite H1, H2. cbn [andb].
  destruct (nth_error (v_group_name_dic env) (Z.to_nat i)) eqn:E.
  - now eexists.
  - apply nth_error_None in E. lia.
Qed.

Lemma solver_ok (name : string) :
  skins env <> [] ->
  exists r, joint_id_from_node_name_solver (skins env) name (node_id_dic env)
            = Ok r.
Proof.
  intros Hs. unfold joint_id_from_node_name_solver.
  destruct (Dict.get (node_id_dic env) name); [|now eexists].
  destruct (skins env) as [| joints rest]; [congruence|].
  destruct (list_index joints z); now eexists.
Qed.

(** With valid group indices and a skin, gathering does not fail. *)
Lemma gather_weights_ok (groups : list VertexGroupElement) :
  skins env <> [] -> Forall (valid_group env) groups ->
  exists r, gather_weights env groups = Ok r.
Proof.
  intros Hs Hg. induction Hg as [| g groups Hv _ IH].
  - now eexists.
  - cbn [gather_weights].
    destruct (group_name_ok _ Hv) as [n ->]. cbn [Py.bind].
    destruct (solver_ok n Hs) as [r ->]. cbn [Py.bind].
    destruct IH as [r' ->]. cbn [Py.bind].
    destruct (fst r =? -1); [now eexists|].
    destruct (Float.ltb (weight g) epsilon); now eexists.
Qed.

(** Weights below epsilon never reach the list. *)
Lemma gather_weights_all_dropped (groups : list VertexGroupElement) r :
  Forall (fun g => Float.ltb (weight g) epsilon = true) groups ->
  gather_weights env groups = Ok r -> fst r = [].
Proof.
  intros Hw. revert r. induction Hw as [| g groups Hlt _ IH]; intros r H.
  - now inversion H.
  - cbn [gather_weights] in H.
    destruct (group_name env (group g)); [|discriminate]. cbn [Py.bind] in H.
    destruct (joint_id_from_node_name_solver _ _ _) as [s |]; [|discriminate].
    cbn [Py.bind] in H.
    destruct (gather_weights env groups) as [r' |]; [|discriminate].
    cbn [Py.bind] in H. rewrite Hlt in H.
    specialize (IH r' eq_refl).
    destruct (fst s =? -1); inversion H; exact IH.
Qed.

(** What the fallback of lines 1154-1167 writes.  A vertex of a skinned
    mesh whose groups all weigh less than machine epsilon gets the weights
    [1,0,0,0] and the joints [i,0,0,0], where i is the position, in the
    list of nodes, of the node named by the armature's ["hips"] entry; the
    line "No weight on vertex id..." is printed last, and the vertex is
    exported (8 bytes of joints, 16 bytes of weights) instead of failing.
    The number i is a position among the nodes, whereas the joints of the
    other vertices are positions among the joints of the skin. *)
Theorem zero_weight_vertex_gets_hips_node_index :
  forall (vert_index : Z) (groups : list VertexGroupElement)
         (hips_bone_name : string) (hips_bone_index : Z),
    skins env <> [] ->
    Forall (valid_group env) groups ->
    Forall (fun g => Float.ltb (weight g) epsilon = true) groups ->
    Dict.get (armature_data env) "hips" = Some hips_bone_name ->
    find_node_index (node_names env) hips_bone_name = Some hips_bone_index ->
    exists log,
      bind_vertex env vert_index groups
      = Ok (([one; zero; zero; zero], [hips_bone_index; 0; 0; 0]),
            (log ++ [no_weight_message env vert_index])%list)
      /\ (hips_bone_index < 2 ^ 16 ->
          exists joints_bytes weights_bytes,
            skin_vertex env vert_index groups
            = Ok ((joints_bytes, weights_bytes),
                  (log ++ [no_weight_message env vert_index])%list)
            /\ pack_HHHH [hips_bone_index; 0; 0; 0] = Ok joints_bytes
            /\ pack_floats 4 [one; zero; zero; zero] = Ok weights_bytes
            /\ List.length joints_bytes = 8%nat
            /\ List.length weights_bytes = 16%nat).
Proof.
  intros vert_index groups hips_bone_name hips_bone_index Hs Hv Hw Hh Hn.
  destruct (gather_weights_ok groups Hs Hv) as [r Hr].
  pose proof (gather_weights_all_dropped groups r Hw Hr) as Hnil.
  exists (snd r).
  assert (Hb : bind_vertex env vert_index groups
               = Ok (([one; zero; zero; zero], [hips_bone_index; 0; 0; 0]),
                     (snd r ++ [no_weight_message env vert_index])%list)).
  { unfold bind_vertex, resolve_weights. rewrite Hr. cbn [Py.bind].
    rewrite Hnil.
    change (sort_reverse (pad_to_4 []))
      with [(zero, 0); (zero, 0); (zero, 0); (zero, 0)].
    cbn [List.length Nat.ltb Nat.leb Py.bind fst snd map].
    change (Float.ltb (Float.sum [zero; zero; zero; zero]) epsilon) with true.
    cbv iota. unfold Dict.getitem. rewrite Hh. cbn [Py.bind].
    rewrite Hn. reflexivity. }
  split; [exact Hb|].
  intros Hlt. unfold skin_vertex. rewrite Hb. cbn [Py.bind fst snd].
  change (normalize_weights_compatible_with_gl_float [one; zero; zero; zero])
    with (Ok [one; zero; zero; zero]).
  cbn [Py.bind].
  assert (H0 : 0 <= hips_bone_index).
  { clear - Hn. revert hips_bone_index Hn.
    induction (node_names env) as [| x names IH]; intros i Hn;
      [discriminate|].
    cbn [find_node_index] in Hn. destruct (String.eqb x hips_bone_name).
    - inversion Hn. lia.
    - destruct (find_node_index names hips_bone_name) as [j |];
        [|discriminate].
      inversion Hn. specialize (IH j eq_refl). lia. }
  assert (Hp : pack_HHHH [hips_bone_index; 0; 0; 0]
               = Ok (le_bytes 2 hips_bone_index ++ le_bytes 2 0
                     ++ le_bytes 2 0 ++ le_bytes 2 0)).
  { unfold pack_HHHH, pack_H.
    apply Z.leb_le in H0. apply Z.ltb_lt in Hlt. rewrite H0, Hlt.
    reflexivity. }
  rewrite Hp. cbn [Py.bind].
  change (pack_floats 4 [one; zero; zero; zero])
    with (Ok (le_bytes 4 (bits_of_binary32 (to_binary32 one))
              ++ le_bytes 4 0 ++ le_bytes 4 0 ++ le_bytes 4 0 ++ [])).
  cbn [Py.bind]. do 2 eexists.
  split; [reflexivity|]. split; [reflexivity|]. split; [reflexivity|].
  split; reflexivity.
Qed.

End SkinWeights.

(** ** The order of floats and of (weight, joint) tuples *)

Section FloatOrder.

Ltac order_case :=
  split; intros ?H;
  try discriminate; try reflexivity; try lia; try (exfalso; lia);
  try (inversion H; lia); try (inversion H; subst; reflexivity);
  try (subst; reflexivity).

Lemma ltb_rank (x y : float) :
  is_nan x = false -> is_nan y = false ->
  (Float.ltb x y = true <-> rank_lt (rank x) (rank y)).
Proof.
  unfold Float.ltb, SFltb, rank_lt.
  destruct x as [[] | [] | | [] mx ex]; destruct y as [[] | [] | | [] my ey];
    try discriminate; intros _ _; cbn [SFcompare rank fst snd];
    try (now order_case).
  - destruct (Z.compare_spec ex ey) as [E | E | E]; try (now order_case).
    subst ey. fold (Pos.compare mx my).
    destruct (Pos.compare_spec mx my) as [F | F | F]; cbn [CompOpp];
      order_case.
  - destruct (Z.compare_spec ex ey) as [E | E | E]; try (now order_case).
    subst ey. fold (Pos.compare mx my).
    destruct (Pos.compare_spec mx my) as [F | F | F]; order_case.
Qed.

Lemma eqb_rank (x y : float) :
  is_nan x = false -> is_nan y = false ->
  (Float.eqb x y = true <-> rank x = rank y).
Proof.
  unfold Float.eqb, SFeqb.
  destruct x as [[] | [] | | [] mx ex]; destruct y as [[] | [] | | [] my ey];
    try discriminate; intros _ _; cbn [SFcompare rank];
    try (now order_case).
  - destruct (Z.compare_spec ex ey) as [E | E | E]; try (now order_case).
    subst ey. fold (Pos.compare mx my).
    destruct (Pos.compare_spec mx my) as [F | F | F]; cbn [CompOpp];
      order_case.
  - destruct (Z.compare_spec ex ey) as [E | E | E]; try (now order_case).
    subst ey. fold (Pos.compare mx my).
    destruct (Pos.compare_spec mx my) as [F | F | F]; order_case.
Qed.

Lemma leb_rank (x y : float) :
  is_nan x = false -> is_nan y = false ->
  (Float.leb x y = true <-> ~ rank_lt (rank y) (rank x)).
Proof.
  intros Hx Hy.
  pose proof (ltb_rank x y Hx Hy) as Hl.
  pose proof (eqb_rank x y Hx Hy) as He.
  unfold Float.leb, SFleb. unfold Float.ltb, SFltb in Hl.
  unfold Float.eqb, SFeqb in He. unfold rank_lt in *.
  destruct (rank x) as [[a1 a2] a3]. destruct (rank y) as [[b1 b2] b3].
  cbn [fst snd] in *.
  destruct (SFcompare x y) as [[] |] eqn:E.
  - assert (H : (a1, a2, a3) = (b1, b2, b3)) by now apply He.
    inversion H. split; [lia | reflexivity].
  - assert (H : a1 < b1 \/ a1 = b1 /\ (a2 < b2 \/ a2 = b2 /\ a3 < b3))
      by now apply Hl.
    split; [lia | reflexivity].
  - split; [discriminate|]. intros H. exfalso.
    assert (N1 : ~ (a1 < b1 \/ a1 = b1 /\ (a2 < b2 \/ a2 = b2 /\ a3 < b3))).
    { intros K. apply Hl in K. discriminate. }
    assert (N2 : (a1, a2, a3) <> (b1, b2, b3)).
    { intros K. apply He in K. discriminate. }
    assert (a1 = b1 /\ a2 = b2 /\ a3 = b3) as [-> [-> ->]] by lia.
    now apply N2.
  - exfalso. destruct x, y; discriminate.
Qed.

End FloatOrder.

(** ** Sorting the (weight, joint) tuples *)

Section SortTuples.

Lemma tuple_lt_rank (a b : float * Z) :
  weight_not_nan a -> weight_not_nan b ->
  (tuple_lt a b = true <->
   rank_lt (rank (fst a)) (rank (fst b))
   \/ (rank (fst a) = rank (fst b) /\ snd a < snd b)).
Proof.
  intros Ha Hb. unfold tuple_lt.
  pose proof (eqb_rank (fst a) (fst b) Ha Hb) as He.
  pose proof (ltb_rank (fst a) (fst b) Ha Hb) as Hl.
  unfold rank_lt in *.
  destruct (rank (fst a)) as [[a1 a2] a3].
  destruct (rank (fst b)) as [[b1 b2] b3]. cbn [fst snd] in *.
  destruct (Float.eqb (fst a) (fst b)) eqn:E; cbn [negb].
  - assert (K : (a1, a2, a3) = (b1, b2, b3)) by now apply He.
    inversion K; subst.
    destruct (snd a =? snd b) eqn:F; cbn [negb].
    + apply Z.eqb_eq in F. split; [discriminate | lia].
    + apply Z.eqb_neq in F. rewrite Z.ltb_lt. split; [tauto | lia].
  - assert (K : (a1, a2, a3) <> (b1, b2, b3)).
    { intros K. apply He in K. discriminate. }
    rewrite Hl. split; [tauto|]. intros [H | [H _]]; [exact H | congruence].
Qed.

Ltac rank_facts :=
  repeat match goal with
  | H : tuple_lt ?a ?b = true |- _ =>
      apply tuple_lt_rank in H; [|assumption|assumption]
  | H : tuple_lt ?a ?b = false |- _ =>
      apply not_true_iff_false in H;
      rewrite tuple_lt_rank in H by assumption
  | |- tuple_lt ?a ?b = false =>
      apply not_true_iff_false; rewrite tuple_lt_rank by assumption
  end;
  unfold rank_lt in *;
  repeat match goal with
  | |- context [rank ?x] =>
      let r1 := fresh "r" in let r2 := fresh "r" in let r3 := fresh "r" in
      destruct (rank x) as [[r1 r2] r3]
  | H : context [rank ?x] |- _ =>
      let r1 := fresh "r" in let r2 := fresh "r" in let r3 := fresh "r" in
      destruct (rank x) as [[r1 r2] r3]
  end;
  cbn [fst snd] in *.

Lemma tuple_lt_asym (a b : float * Z) :
  weight_not_nan a -> weight_not_nan b ->
  tuple_lt a b = true -> tuple_lt b a = false.
Proof.
  intros Ha Hb H. rank_facts. rewrite ?pair_equal_spec in *. lia.
Qed.

Lemma tuple_le_trans (a b c : float * Z) :
  weight_not_nan a -> weight_not_nan b -> weight_not_nan c ->
  tuple_lt b a = false -> tuple_lt c b = false -> tuple_lt c a = false.
Proof.
  intros Ha Hb Hc H1 H2. rank_facts. rewrite ?pair_equal_spec in *. lia.
Qed.

(** Between numbers, "not less in the tuple order" gives the order of the
    weights. *)
Lemma tuple_not_lt_weight_ge (a b : float * Z) :
  weight_not_nan a -> weight_not_nan b ->
  tuple_lt a b = false -> weight_ge a b.
Proof.
  intros Ha Hb H. unfold weight_ge. apply leb_rank; [assumption..|].
  rank_facts. rewrite ?pair_equal_spec in *. lia.
Qed.

Lemma insert_sorted_perm (x : float * Z) (l : list (float * Z)) :
  Permutation (insert_sorted x l) (x :: l).
Proof.
  induction l as [| y l IH]; cbn [insert_sorted]; [reflexivity|].
  destruct (tuple_lt x y); [reflexivity|].
  rewrite IH. apply perm_swap.
Qed.

Lemma sort_ascending_perm (l : list (float * Z)) :
  Permutation (sort_ascending l) l.
Proof.
  unfold sort_ascending.
  assert (G : forall acc, Permutation
                (fold_left (fun acc x => insert_sorted x acc) l acc)
                (l ++ acc)).
  { induction l as [| x l IH]; intros acc; cbn [fold_left app];
      [reflexivity|].
    rewrite IH, insert_sorted_perm. symmetry. apply Permutation_middle. }
  rewrite G. now rewrite app_nil_r.
Qed.

Lemma sort_reverse_perm (l : list (float * Z)) :
  Permutation (sort_reverse l) l.
Proof.
  unfold sort_reverse.
  rewrite <- Permutation_rev, sort_ascending_perm.
  symmetry. apply Permutation_rev.
Qed.

Lemma insert_sorted_sorted (x : float * Z) (l : list (float * Z)) :
  weight_not_nan x -> Forall weight_not_nan l ->
  StronglySorted tuple_le l -> StronglySorted tuple_le (insert_sorted x l).
Proof.
  intros Hx Hl Hs. induction Hs as [| y l Hs IH Hy]; cbn [insert_sorted].
  - constructor; constructor.
  - inversion Hl as [| ? ? Hny Hnl]; subst.
    destruct (tuple_lt x y) eqn:E.
    + constructor; [now constructor|].
      constructor; [now apply tuple_lt_asym|].
      rewrite Forall_forall in Hy, Hnl. apply Forall_forall. intros z Hz.
      apply (tuple_le_trans x y z); auto.
      * now apply tuple_lt_asym.
      * now apply Hy.
    + constructor; [now apply IH|].
      apply (Permutation_Forall (x := x :: l));
        [symmetry; apply insert_sorted_perm|].
      constructor; assumption.
Qed.

Lemma sort_ascending_sorted (l : list (float * Z)) :
  Forall weight_not_nan l -> StronglySorted tuple_le (sort_ascending l).
Proof.
  unfold sort_ascending. intros Hl.
  assert (G : forall acc,
             Forall weight_not_nan acc -> StronglySorted tuple_le acc ->
             StronglySorted tuple_le
               (fold_left (fun acc x => insert_sorted x acc) l acc)).
  { induction Hl as [| x l Hx Hl IH]; intros acc Ha Hs; cbn [fold_left];
      [exact Hs|].
    apply IH.
    - apply (Permutation_Forall (x := x :: acc));
        [symmetry; apply insert_sorted_perm | now constructor].
    - now apply insert_sorted_sorted. }
  apply G; constructor.
Qed.

Lemma StronglySorted_snoc {A : Type} (R : A -> A -> Prop) (l : list A)
    (x : A) :
  StronglySorted R l -> Forall (fun y => R y x) l ->
  StronglySorted R (l ++ [x]).
Proof.
  intros Hs Hx. induction Hs as [| y l Hs IH Hy]; cbn [app].
  - constructor; constructor.
  - inversion Hx; subst. constructor; [now apply IH|].
    apply Forall_app. split; [assumption | now constructor].
Qed.

Lemma StronglySorted_rev {A : Type} (R : A -> A -> Prop) (l : list A) :
  StronglySorted R l -> StronglySorted (fun a b => R b a) (rev l).
Proof.
  intros Hs. induction Hs as [| x l Hs IH Hx]; cbn [rev]; [constructor|].
  apply StronglySorted_snoc; [exact IH|].
  apply Forall_rev. exact Hx.
Qed.

(** [sort(reverse=True)] orders numbers by descending weight. *)
Lemma sort_reverse_descending (l : list (float * Z)) :
  Forall weight_not_nan l -> StronglySorted weight_ge (sort_reverse l).
Proof.
  intros Hl. unfold sort_reverse.
  assert (Hr : Forall weight_not_nan (rev l)) by now apply Forall_rev.
  pose proof (sort_ascending_sorted (rev l) Hr) as Hs.
  apply StronglySorted_rev in Hs.
  assert (Hn : Forall weight_not_nan (rev (sort_ascending (rev l)))).
  { apply Forall_rev.
    apply (Permutation_Forall (x := rev l));
      [symmetry; apply sort_ascending_perm | exact Hr]. }
  revert Hs Hn. generalize (rev (sort_ascending (rev l))). intros m Hs.
  induction Hs as [| x m Hs IH Hx]; intros Hn; [constructor|].
  inversion Hn; subst. constructor; [now apply IH|].
  rewrite Forall_forall in *. intros y Hy.
  apply tuple_not_lt_weight_ge; auto. now apply Hx.
Qed.

End SortTuples.


(** ** Padding, sorting and truncating the weights of a vertex *)

Section ResolveWeights.

Variable env : SkinEnv.

(** What the gathering keeps: weights of the groups that are not below
    epsilon, with a joint that was found. *)
Lemma gather_weights_kept (groups : list VertexGroupElement) r :
  gather_weights env groups = Ok r ->
  Forall (fun p => Float.ltb (fst p) epsilon = false /\ snd p <> -1
                   /\ exists g, In g groups /\ weight g = fst p) (fst r).
Proof.
  revert r. induction groups as [| g groups IH]; intros r H.
  - inversion H. constructor.
  - cbn [gather_weights] in H.
    destruct (group_name env (group g)); [|discriminate]. cbn [Py.bind] in H.
    destruct (joint_id_from_node_name_solver _ _ _) as [s |]; [|discriminate].
    cbn [Py.bind] in H.
    destruct (gather_weights env groups) as [r' |]; [|discriminate].
    cbn [Py.bind] in H. specialize (IH r' eq_refl).
    assert (IH' : Forall (fun p => Float.ltb (fst p) epsilon = false
                                   /\ snd p <> -1
                                   /\ exists g0, In g0 (g :: groups)
                                                 /\ weight g0 = fst p)
                         (fst r')).
    { eapply Forall_impl; [|exact IH].
      intros p [H1 [H2 [g0 [H3 H4]]]]. repeat split; auto.
      exists g0. split; [now right | exact H4]. }
    destruct (fst s =? -1) eqn:E1; [inversion H; exact IH'|].
    destruct (Float.ltb (weight g) epsilon) eqn:E2; [inversion H; exact IH'|].
    inversion H. cbn [fst]. constructor; [|exact IH'].
    cbn [fst snd]. apply Z.eqb_neq in E1. repeat split; auto.
    exists g. split; [now left | reflexivity].
Qed.

Lemma pad_to_4_length (l : list (float * Z)) :
  (4 <= List.length (pad_to_4 l))%nat
  /\ (List.length l <= 4 -> List.length (pad_to_4 l) = 4)%nat
  /\ (4 <= List.length l -> pad_to_4 l = l)%nat.
Proof.
  unfold pad_to_4. rewrite length_app, repeat_length.
  repeat split; try lia.
  intros H. replace (4 - List.length l)%nat with 0%nat by lia.
  cbn [repeat]. apply app_nil_r.
Qed.

Lemma pack_H_length (n : Z) (b : bytes) :
  pack_H n = Ok b -> List.length b = 2%nat.
Proof.
  unfold pack_H. destruct ((0 <=? n) && (n <? 2 ^ 16)); [|discriminate].
  intros H. inversion H. reflexivity.
Qed.

Lemma pack_HHHH_length (l : list Z) (b : bytes) :
  pack_HHHH l = Ok b -> List.length l = 4%nat /\ List.length b = 8%nat.
Proof.
  unfold pack_HHHH.
  destruct l as [| a [| b' [| c [| d [| ? ?]]]]]; try discriminate.
  destruct (pack_H a) eqn:Ea; [|discriminate].
  destruct (pack_H b') eqn:Eb; [|discriminate].
  destruct (pack_H c) eqn:Ec; [|discriminate].
  destruct (pack_H d) eqn:Ed; [|discriminate].
  cbn [Py.bind]. intros H. inversion H.
  apply pack_H_length in Ea, Eb, Ec, Ed.
  rewrite !length_app. split; [reflexivity | lia].
Qed.

Lemma Ok_length (a b : bytes) :
  @Ok bytes a = Ok b -> List.length b = List.length a.
Proof. intros H. injection H as <-. reflexivity. Qed.

Lemma pack_f_length (x : float) (b : bytes) :
  pack_f x = Ok b -> List.length b = 4%nat.
Proof.
  unfold pack_f. destruct x as [s | s | | s m e]; cbn [to_binary32];
    try (intros H; apply Ok_length in H; rewrite le_bytes_length in H;
         exact H).
  destruct (binary_round 24 128 s m e); intros H;
    first [ apply Ok_length in H; rewrite le_bytes_length in H; exact H
          | exfalso; clear - H; congruence ].
Qed.

Lemma pack_floats_length (n : nat) (l : list float) (b : bytes) :
  pack_floats n l = Ok b ->
  List.length l = n /\ List.length b = (4 * n)%nat.
Proof.
  unfold pack_floats. destruct (Nat.eqb (List.length l) n) eqn:E;
    [|discriminate].
  apply Nat.eqb_eq in E. subst n.
  destruct (mapM pack_f l) as [bs |] eqn:Em; [|discriminate].
  cbn [Py.bind]. intros H. inversion H. split; [reflexivity|].
  clear H H1. revert bs Em. induction l as [| x l IH]; intros bs Em.
  - inversion Em. reflexivity.
  - cbn [mapM] in Em. destruct (pack_f x) eqn:Ex; [|discriminate].
    cbn [Py.bind] in Em.
    destruct (mapM pack_f l) as [bs' |]; [|discriminate].
    cbn [Py.bind] in Em. inversion Em.
    cbn [List.concat]. rewrite length_app.
    apply pack_f_length in Ex. rewrite Ex, (IH bs' eq_refl).
    cbn [List.length]. lia.
Qed.

Lemma StronglySorted_split {A : Type} (R : A -> A -> Prop) (l : list A)
    (n : nat) (a b : A) :
  StronglySorted R l -> In a (firstn n l) -> In b (skipn n l) -> R a b.
Proof.
  intros Hs. revert n. induction Hs as [| x l Hs IH Hx]; intros n Ha Hb.
  - destruct n; contradiction.
  - destruct n as [| n]; [contradiction|].
    cbn [firstn skipn] in Ha, Hb. destruct Ha as [<- | Ha].
    + rewrite Forall_forall in Hx. apply Hx.
      rewrite <- (firstn_skipn n l). apply in_or_app. now right.
    + now apply (IH n).
Qed.

(** C6: the pairs kept for a vertex (joint found, weight not below
    epsilon) are padded with (0.0, 0) up to four entries and sorted by
    descending weight; with more than four entries the first four, which
    weigh at least as much as every entry dropped, are kept and the line
    "Joints on vertex id ... are truncated" is printed.  Four entries
    remain in every case, and an exported vertex takes 8 bytes of joints
    and 16 bytes of weights: four components each. *)
Theorem skin_weights_padded_sorted_truncated :
  forall (vert_index : Z) (groups : list VertexGroupElement)
         (pairs : list (float * Z)) (log : list string),
    gather_weights env groups = Ok (pairs, log) ->
    Forall (fun g => is_nan (weight g) = false) groups ->
    let padded := pad_to_4 pairs in
    let sorted := sort_reverse padded in
    Forall (fun p => Float.ltb (fst p) epsilon = false /\ snd p <> -1) pairs
    /\ padded = (pairs ++ repeat (zero, 0) (4 - List.length pairs))%list
    /\ (4 <= List.length padded)%nat
    /\ Permutation sorted padded
    /\ StronglySorted weight_ge sorted
    /\ resolve_weights env vert_index groups
       = Ok (firstn 4 sorted,
             if (4 <? List.length pairs)%nat
             then (log ++ [truncated_message env vert_index])%list
             else log)
    /\ List.length (firstn 4 sorted) = 4%nat
    /\ (forall kept dropped : float * Z,
           In kept (firstn 4 sorted) -> In dropped (skipn 4 sorted) ->
           weight_ge kept dropped)
    /\ (forall (joints_bytes weights_bytes : bytes) (log' : list string),
           skin_vertex env vert_index groups
           = Ok ((joints_bytes, weights_bytes), log') ->
           List.length joints_bytes = 8%nat
           /\ List.length weights_bytes = 16%nat).
Proof.
  intros vert_index groups pairs log Hg Hnan padded sorted.
  pose proof (gather_weights_kept groups _ Hg) as Hkept. cbn [fst] in Hkept.
  destruct (pad_to_4_length pairs) as [Hp4 [Hple Hpge]]. fold padded in Hp4.
  pose proof (sort_reverse_perm padded) as Hperm. fold sorted in Hperm.
  assert (Hlen : List.length sorted = List.length padded)
    by now apply Permutation_length.
  assert (Hnn : Forall weight_not_nan padded).
  { unfold padded, pad_to_4. apply Forall_app. split.
    - eapply Forall_impl; [|exact Hkept].
      intros p [_ [_ [g [Hin Hw]]]]. unfold weight_not_nan. rewrite <- Hw.
      rewrite Forall_forall in Hnan. now apply Hnan.
    - apply Forall_forall. intros p Hin. apply repeat_spec in Hin.
      subst p. reflexivity. }
  pose proof (sort_reverse_descending padded Hnn) as Hsorted.
  fold sorted in Hsorted.
  assert (H4 : List.length (firstn 4 sorted) = 4%nat).
  { rewrite length_firstn. lia. }
  split.
  { eapply Forall_impl; [|exact Hkept]. intros p [H1 [H2 _]]. now split. }
  split; [reflexivity|]. split; [exact Hp4|]. split; [exact Hperm|].
  split; [exact Hsorted|].
  split.
  { unfold resolve_weights. rewrite Hg. cbn [Py.bind fst snd].
    fold padded. fold sorted. rewrite Hlen.
    assert (Hlp : (4 <? List.length padded)%nat
                  = (4 <? List.length pairs)%nat).
    { destruct (Nat.le_gt_cases (List.length pairs) 4) as [Hle | Hgt].
      - fold padded in Hple. rewrite (Hple Hle).
        symmetry. apply Nat.ltb_ge. exact Hle.
      - unfold padded. rewrite Hpge by lia. reflexivity. }
    rewrite Hlp.
    destruct (4 <? List.length pairs)%nat eqn:E; [reflexivity|].
    apply Nat.ltb_ge in E. fold padded in Hple.
    f_equal. f_equal. symmetry.
    apply firstn_all2. rewrite Hlen, (Hple E). lia. }
  split; [exact H4|].
  split.
  { intros kept dropped Hk Hd.
    now apply (StronglySorted_split weight_ge sorted 4). }
  intros joints_bytes weights_bytes log' Hs.
  unfold skin_vertex in Hs.
  destruct (bind_vertex env vert_index groups) as [bv |]; [|discriminate].
  cbn [Py.bind] in Hs.
  destruct (normalize_weights_compatible_with_gl_float _) as [nw |];
    [|discriminate].
  cbn [Py.bind] in Hs.
  destruct (pack_HHHH _) as [jb |] eqn:Ej; [|discriminate].
  cbn [Py.bind] in Hs.
  destruct (pack_floats 4 nw) as [wb |] eqn:Ew; [|discriminate].
  cbn [Py.bind] in Hs. injection Hs as <- <- _.
  apply pack_HHHH_length in Ej. apply pack_floats_length in Ew.
  split; [apply Ej | apply Ew].
Qed.

End ResolveWeights.

Lemma zero_weight_vertex_gets_hips_node_index_witness :
  exists log,
    bind_vertex
      (mkSkinEnv "Body" ["Hips"; "Spine"] [("Hips", 0); ("Spine", 1)]
         [[0; 1]] [("hips", "Hips")] ["Hips"; "Spine"])%string
      7 [mkVertexGroupElement 0 zero; mkVertexGroupElement 1 (dyadic 1 (-60))]
    = Ok (([one; zero; zero; zero], [0; 0; 0; 0]),
          (log ++ [no_weight_message
                     (mkSkinEnv "Body" ["Hips"; "Spine"]
                        [("Hips", 0); ("Spine", 1)] [[0; 1]]
                        [("hips", "Hips")] ["Hips"; "Spine"])%string 7])%list).
Proof.
  destruct (zero_weight_vertex_gets_hips_node_index
              (mkSkinEnv "Body" ["Hips"; "Spine"] [("Hips", 0); ("Spine", 1)]
                 [[0; 1]] [("hips", "Hips")] ["Hips"; "Spine"])%string
              7 [mkVertexGroupElement 0 zero;
                 mkVertexGroupElement 1 (dyadic 1 (-60))]
              "Hips"%string 0) as [log [H _]].
  - discriminate.
  - repeat constructor; cbn; lia.
  - repeat constructor.
  - reflexivity.
  - reflexivity.
  - exists log. exact H.
Defined.

(** C5: the vertex is not bound to the hips on every armature.  The
    fallback writes the position of the hips among the nodes, and the
    joints of a vertex are positions among the joints of the skin, which
    is how [joint_id_from_node_name_solver] computes them for the other
    vertices.  For the bones root > (hips, tail) the nodes are root, hips,
    tail and the joints of the skin are 0, 2, 1 (the loop takes the last
    child first).  A vertex whose weights are all below machine epsilon
    gets the weights [1,0,0,0] and the joints [1,0,0,0], the line is
    printed and the vertex is exported; but joint 1 of the skin is node 2,
    the tail, while a vertex weighted to the hips gets joint 2. *)
Lemma zero_weight_vertex_bound_to_tail :
  let bone_names := ["root"; "hips"; "tail"]%string in
  let roots :=
    [BoneNode "root" [zero; zero; zero]
       [BoneNode "hips" [zero; zero; one] [];
        BoneNode "tail" [zero; one; zero] []]] in
  let data := [("hips", "hips")]%string in
  let node_names := (bone_names ++ ["Body"%string])%list in
  let env :=
    mkSkinEnv "Body" ["hips"; "tail"]%string (enumerate_dic node_names)
      [[0; 2; 1]] data node_names in
  exists r : ArmatureLoop,
    armature_nodes bone_names roots data = Ok r
    /\ map node_name (arm_nodes r)
       = [Some (JStr "root"); Some (JStr "hips"); Some (JStr "tail")]
    /\ arm_skins r = [([0; 2; 1], 0)]
    /\ bind_vertex env 7
         [mkVertexGroupElement 0 zero;
          mkVertexGroupElement 1 (dyadic 1 (-60))]
       = Ok (([one; zero; zero; zero], [1; 0; 0; 0]),
             [no_weight_message env 7])
    /\ (exists joints_bytes weights_bytes,
           skin_vertex env 7
             [mkVertexGroupElement 0 zero;
              mkVertexGroupElement 1 (dyadic 1 (-60))]
           = Ok ((joints_bytes, weights_bytes), [no_weight_message env 7]))
    /\ nth_error [0; 2; 1] 1 = Some 2
    /\ nth_error (map node_name (arm_nodes r)) 2 = Some (Some (JStr "tail"))
    /\ joint_id_from_node_name_solver [[0; 2; 1]] "hips"
         (enumerate_dic node_names) = Ok (2, [])
    /\ bind_vertex env 8 [mkVertexGroupElement 0 one]
       = Ok (([one; zero; zero; zero], [2; 0; 0; 0]), []).
Proof.
  cbv zeta. eexists. split; [vm_compute; reflexivity|].
  cbn [arm_nodes arm_skins].
  split; [reflexivity|]. split; [reflexivity|].
  split; [vm_compute; reflexivity|].
  split; [do 2 eexists; vm_compute; reflexivity|].
  split; [reflexivity|]. split; [reflexivity|].
  split; vm_compute; reflexivity.
Qed.

Lemma skin_weights_padded_sorted_truncated_witness :
  StronglySorted weight_ge
    (sort_reverse
       (pad_to_4 [(of_Z 1, 0); (of_Z 3, 1); (of_Z 2, 2); (of_Z 5, 3);
                  (of_Z 4, 4)])).
Proof.
  apply (skin_weights_padded_sorted_truncated
           (mkSkinEnv "Body" ["a"; "b"; "c"; "d"; "e"]
              [("a", 0); ("b", 1); ("c", 2); ("d", 3); ("e", 4)]
              [[0; 1; 2; 3; 4]] [("hips", "a")]
              ["a"; "b"; "c"; "d"; "e"])%string
           7 [mkVertexGroupElement 0 (of_Z 1); mkVertexGroupElement 1 (of_Z 3);
              mkVertexGroupElement 2 (of_Z 2); mkVertexGroupElement 3 (of_Z 5);
              mkVertexGroupElement 4 (of_Z 4)]
           [(of_Z 1, 0); (of_Z 3, 1); (of_Z 2, 2); (of_Z 5, 3); (of_Z 4, 4)]
           []).
  - reflexivity.
  - repeat constructor.
Defined.

(** ** Deduplication of vertices *)

Section Deduplication.

Lemma eqb_not_nan (x y : float) :
  Float.eqb x y = true -> is_nan x = false /\ is_nan y = false.
Proof.
  unfold Float.eqb, SFeqb. destruct x, y; cbn; intros H;
    try discriminate; split; reflexivity.
Qed.

Lemma float_eqb_sym (x y : float) : Float.eqb x y = Float.eqb y x.
Proof.
  destruct (Float.eqb x y) eqn:E1; destruct (Float.eqb y x) eqn:E2;
    try reflexivity; exfalso.
  - destruct (eqb_not_nan _ _ E1) as [Hx Hy].
    apply (eqb_rank x y Hx Hy) in E1.
    assert (K : Float.eqb y x = true) by now apply eqb_rank.
    congruence.
  - destruct (eqb_not_nan _ _ E2) as [Hy Hx].
    apply (eqb_rank y x Hy Hx) in E2.
    assert (K : Float.eqb x y = true) by now apply eqb_rank.
    congruence.
Qed.

Lemma float_eqb_trans (x y z : float) :
  Float.eqb x y = true -> Float.eqb y z = true -> Float.eqb x z = true.
Proof.
  intros H1 H2.
  destruct (eqb_not_nan _ _ H1) as [Hx Hy].
  destruct (eqb_not_nan _ _ H2) as [_ Hz].
  apply (eqb_rank x y Hx Hy) in H1. apply (eqb_rank y z Hy Hz) in H2.
  apply eqb_rank; congruence.
Qed.

(** On keys of one layout, [==] is symmetric and transitive. *)
Lemma key_eqb_sym (a b : list key_item) :
  key_signature a = key_signature b -> key_eqb a b = key_eqb b a.
Proof.
  revert b. induction a as [| x a IH]; intros [| y b] Hs;
    try reflexivity; try discriminate.
  cbn [key_signature map] in Hs. injection Hs as Hxy Hs.
  cbn [key_eqb]. rewrite (IH b Hs). f_equal.
  destruct x, y; try discriminate; cbn [key_item_eqb].
  - apply float_eqb_sym.
  - apply Z.eqb_sym.
Qed.

Lemma key_eqb_trans (a b c : list key_item) :
  key_signature a = key_signature b -> key_signature b = key_signature c ->
  key_eqb a b = true -> key_eqb b c = true -> key_eqb a c = true.
Proof.
  revert b c. induction a as [| x a IH]; intros [| y b] [| z c] Hab Hbc;
    try reflexivity; try discriminate.
  cbn [key_signature map] in Hab, Hbc.
  injection Hab as Hxy Hab. injection Hbc as Hyz Hbc.
  cbn [key_eqb]. rewrite !andb_true_iff. intros [H1 H2] [H3 H4].
  split; [|now apply (IH b c)].
  destruct x, y, z; try discriminate; cbn [key_item_eqb] in *.
  - now apply (float_eqb_trans x x0 x1).
  - apply Z.eqb_eq in H1, H3. apply Z.eqb_eq. congruence.
Qed.

Lemma get_key_some (dic : list (list key_item * Z)) (k : list key_item)
    (v : Z) :
  Assoc.get key_eqb dic k = Some v ->
  exists k', In (k', v) dic /\ key_eqb k' k = true.
Proof.
  induction dic as [| [k0 v0] dic IH]; cbn [Assoc.get]; [discriminate|].
  destruct (key_eqb k0 k) eqn:E.
  - intros H. injection H as <-. exists k0. split; [now left | exact E].
  - intros H. destruct (IH H) as [k' [Hin Hk]].
    exists k'. split; [now right | exact Hk].
Qed.

Lemma get_key_none (dic : list (list key_item * Z)) (k : list key_item) :
  Assoc.get key_eqb dic k = None ->
  forall e, In e dic -> key_eqb (fst e) k = false.
Proof.
  induction dic as [| [k0 v0] dic IH]; cbn [Assoc.get]; [contradiction|].
  destruct (key_eqb k0 k) eqn:E; [discriminate|].
  intros H e [<- | Hin]; [exact E | now apply IH].
Qed.

Lemma dic_ok_append (sig : list bool) dic next (k : list key_item) :
  dic_ok sig dic next -> key_signature k = sig ->
  Assoc.get key_eqb dic k = None ->
  dic_ok sig (dic ++ [(k, next)]) (next + 1).
Proof.
  intros [Hall Huniq] Hsig Hnone.
  pose proof (get_key_none dic k Hnone) as Hne.
  rewrite Forall_forall in Hall.
  split.
  - apply Forall_app. split.
    + apply Forall_forall. intros e He. destruct (Hall e He).
      split; [auto | lia].
    + constructor; [|constructor]. cbn [fst snd]. split; [auto | lia].
  - intros e1 e2 H1 H2 Hor.
    apply in_app_or in H1, H2.
    destruct H1 as [H1 | [<- | []]]; destruct H2 as [H2 | [<- | []]].
    + now apply Huniq.
    + exfalso. destruct (Hall e1 H1) as [Hs Hlt]. cbn [fst snd] in Hor.
      destruct Hor as [Hor | Hor]; [lia|].
      rewrite (Hne e1 H1) in Hor. discriminate.
    + exfalso. destruct (Hall e2 H2) as [Hs Hlt]. cbn [fst snd] in Hor.
      destruct Hor as [Hor | Hor]; [lia|].
      rewrite key_eqb_sym in Hor by congruence.
      rewrite (Hne e2 H2) in Hor. discriminate.
    + reflexivity.
Qed.

(** The slots handed out agree with the equality of keys: against the
    entries already stored, and between any two corners. *)
Lemma assign_slots_spec (sig : list bool) (keys : list (list key_item)) :
  forall dic next,
    dic_ok sig dic next ->
    Forall (fun k => key_signature k = sig) keys ->
    let slots := assign_slots dic next keys in
    List.length slots = List.length keys
    /\ forall (j : nat) kj sj,
         nth_error keys j = Some kj -> nth_error slots j = Some sj ->
         (forall e, In e dic -> (sj = snd e <-> key_eqb (fst e) kj = true))
         /\ (forall (i : nat) ki si,
                (i < j)%nat -> nth_error keys i = Some ki ->
                nth_error slots i = Some si ->
                (si = sj <-> key_eqb ki kj = true)).
Proof.
  induction keys as [| k keys IH]; intros dic next Hok Hsig slots.
  - split; [reflexivity|]. intros [| j] kj sj H; discriminate.
  - apply Forall_cons_iff in Hsig. destruct Hsig as [Hk Hks].
    pose proof Hok as [Hall Huniq].
    rewrite Forall_forall in Hall.
    assert (Hsigs : forall j kj, nth_error keys j = Some kj ->
                                 key_signature kj = sig).
    { intros j kj Hj. rewrite Forall_forall in Hks. apply Hks.
      eapply nth_error_In; eassumption. }
    unfold slots. cbn [assign_slots].
    destruct (Assoc.get key_eqb dic k) as [v0 |] eqn:Eget.
    + destruct (get_key_some dic k v0 Eget) as [k0 [Hin0 Hk0]].
      destruct (Hall _ Hin0) as [Hs0 _]. cbn [fst] in Hs0.
      assert (Hkk0 : key_eqb k k0 = true).
      { rewrite key_eqb_sym by congruence. exact Hk0. }
      destruct (IH dic next Hok Hks) as [Hlen Hspec].
      split; [cbn [List.length]; now rewrite Hlen|].
      intros [| j] kj sj Hkj Hsj; cbn [nth_error] in Hkj, Hsj.
      * injection Hkj as <-. injection Hsj as <-.
        split; [|intros i ki si Hi; lia].
        intros e He. destruct (Hall e He) as [Hse _]. split.
        -- intros Hv.
           rewrite (Huniq e (k0, v0) He Hin0 (or_introl (eq_sym Hv))).
           exact Hk0.
        -- intros Hek.
           assert (Hee : key_eqb (fst e) k0 = true)
             by (apply (key_eqb_trans (fst e) k k0); congruence).
           rewrite (Huniq e (k0, v0) He Hin0 (or_intror Hee)). reflexivity.
      * destruct (Hspec j kj sj Hkj Hsj) as [Hdic Hprev].
        split; [exact Hdic|].
        pose proof (Hsigs j kj Hkj) as Hsj'.
        intros [| i] ki si Hi Hki Hsi; cbn [nth_error] in Hki, Hsi.
        -- injection Hki as <-. injection Hsi as <-.
           pose proof (Hdic (k0, v0) Hin0) as Hd. cbn [fst snd] in Hd.
           split; intros Hq.
           ++ apply (key_eqb_trans k k0 kj); try congruence.
              apply Hd. congruence.
           ++ symmetry. apply Hd.
              apply (key_eqb_trans k0 k kj); congruence.
        -- apply (Hprev i ki si); [lia | exact Hki | exact Hsi].
    + pose proof (dic_ok_append sig dic next k Hok Hk Eget) as Hok'.
      pose proof (get_key_none dic k Eget) as Hne.
      destruct (IH (dic ++ [(k, next)])%list (next + 1) Hok' Hks)
        as [Hlen Hspec].
      split; [cbn [List.length]; now rewrite Hlen|].
      intros [| j] kj sj Hkj Hsj; cbn [nth_error] in Hkj, Hsj.
      * injection Hkj as <-. injection Hsj as <-.
        split; [|intros i ki si Hi; lia].
        intros e He. destruct (Hall e He) as [_ Hlt].
        rewrite (Hne e He). split; [lia | discriminate].
      * destruct (Hspec j kj sj Hkj Hsj) as [Hdic Hprev].
        split.
        -- intros e He. apply Hdic. apply in_or_app. now left.
        -- intros [| i] ki si Hi Hki Hsi; cbn [nth_error] in Hki, Hsi.
           ++ injection Hki as <-. injection Hsi as <-.
              assert (Hin : In (k, next) (dic ++ [(k, next)])%list)
                by (apply in_or_app; right; now left).
              pose proof (Hdic (k, next) Hin) as Hd. cbn [fst snd] in Hd.
              split; intros Hq; [apply Hd; congruence|].
              symmetry. now apply Hd.
           ++ apply (Hprev i ki si); [lia | exact Hki | exact Hsi].
Qed.

Variable env : MeshEnv.

Lemma mapM_length {A B : Type} (f : A -> result B) (l : list A) (r : list B) :
  mapM f l = Ok r -> List.length r = List.length l.
Proof.
  revert r. induction l as [| x l IH]; intros r H.
  - injection H as <-. reflexivity.
  - cbn [mapM] in H. bind_ok H. bind_ok H. injection H as <-.
    cbn [List.length]. now rewrite (IH _ eq_refl).
Qed.

Lemma key_signature_floats (l : list float) :
  key_signature (map KFloat l) = repeat true (List.length l).
Proof.
  induction l as [| x l IH]; [reflexivity|].
  cbn [map key_signature List.length repeat]. f_equal. exact IH.
Qed.

Lemma key_signature_app (a b : list key_item) :
  key_signature (a ++ b) = (key_signature a ++ key_signature b)%list.
Proof. apply map_app. Qed.

Lemma flat_pairs_length (uvs : list (float * float)) :
  List.length (flat_map (fun uv : float * float => [fst uv; snd uv]) uvs)
  = (2 * List.length uvs)%nat.
Proof.
  induction uvs as [| uv uvs IH]; [reflexivity|].
  cbn [flat_map app List.length]. rewrite IH. lia.
Qed.

Lemma vertex_key_signature (loop : Loop) (k : list key_item) :
  vertex_key env loop = Ok k -> key_signature k = mesh_signature env.
Proof.
  unfold vertex_key. intros H. bind_ok H. injection H as <-.
  unfold uv_list in E. bind_ok E. injection E as <-.
  apply mapM_length in E0. rewrite length_seq in E0.
  rewrite !key_signature_app, !key_signature_floats, flat_pairs_length, E0.
  destruct (loop_normal loop) as [[x y] z]. cbn [vec3_list List.length].
  unfold mesh_signature. rewrite repeat_app, <- app_assoc. reflexivity.
Qed.

Lemma uv_keys_eqb (a b : Loop) (layers : list nat) ua ub
    (ra rb : list key_item) :
  mapM (layer_uv a) layers = Ok ua -> mapM (layer_uv b) layers = Ok ub ->
  key_eqb
    (map KFloat (flat_map (fun uv : float * float => [fst uv; snd uv]) ua)
     ++ ra)
    (map KFloat (flat_map (fun uv : float * float => [fst uv; snd uv]) ub)
     ++ rb)
  = forallb (fun i => match nth_error (loop_uv a) i,
                            nth_error (loop_uv b) i with
                      | Some x, Some y => uv_eqb x y
                      | _, _ => false
                      end) layers
    && key_eqb ra rb.
Proof.
  revert ua ub. induction layers as [| i layers IH]; intros ua ub Ha Hb.
  - injection Ha as <-. injection Hb as <-. reflexivity.
  - cbn [mapM] in Ha, Hb. bind_ok Ha. bind_ok Ha. bind_ok Hb. bind_ok Hb.
    injection Ha as <-. injection Hb as <-.
    cbn [flat_map app map key_eqb key_item_eqb forallb].
    rewrite (IH _ _ eq_refl eq_refl).
    unfold layer_uv in E, E1.
    destruct (nth_error (loop_uv a) i) as [x |]; [|discriminate].
    destruct (nth_error (loop_uv b) i) as [y |]; [|discriminate].
    injection E as ->. injection E1 as ->. unfold uv_eqb.
    now rewrite !andb_assoc.
Qed.

(** Equality of the key tuples is equality of their components. *)
Lemma vertex_key_eqb (a b : Loop) (ka kb : list key_item) :
  vertex_key env a = Ok ka -> vertex_key env b = Ok kb ->
  key_eqb ka kb = same_corner_key env a b.
Proof.
  unfold vertex_key. intros Ha Hb.
  bind_ok Ha. injection Ha as <-. unfold uv_list in E. bind_ok E.
  injection E as <-.
  bind_ok Hb. injection Hb as <-. unfold uv_list in E. bind_ok E.
  injection E as <-.
  rewrite (uv_keys_eqb a b _ _ _ _ _ E0 E1).
  unfold same_corner_key, vec3_eqb.
  destruct (loop_normal a) as [[x1 y1] z1].
  destruct (loop_normal b) as [[x2 y2] z2].
  cbn [vec3_list map app key_eqb key_item_eqb fst snd].
  now rewrite andb_true_r, !andb_assoc.
Qed.

(** What one corner does to the dictionary and the counter. *)
Lemma corner_step_slot (st st' : MeshState) (loop : Loop) (slot : Z) :
  corner_step env st loop = Ok (st', slot) ->
  exists k,
    vertex_key env loop = Ok k
    /\ match Assoc.get key_eqb (unique_vertex_dic st) k with
       | Some v =>
           slot = v /\ unique_vertex_dic st' = unique_vertex_dic st
           /\ unique_vertex_id st' = unique_vertex_id st
       | None =>
           slot = unique_vertex_id st
           /\ unique_vertex_dic st'
              = (unique_vertex_dic st ++ [(k, unique_vertex_id st)])%list
           /\ unique_vertex_id st' = unique_vertex_id st + 1
       end.
Proof.
  unfold corner_step. intros H. bind_ok H. exists a. split; [reflexivity|].
  destruct (Assoc.get key_eqb (unique_vertex_dic st) a) as [v |].
  - bind_ok H. injection H as <- <-. auto.
  - do 9 bind_ok H. injection H as <- <-. auto.
Qed.

(** The loop hands out the slots of [assign_slots]. *)
Lemma corners_loop_slots (loops : list Loop) :
  forall st st' slots,
    corners_loop env st loops = Ok (st', slots) ->
    exists keys,
      mapM (vertex_key env) loops = Ok keys
      /\ slots = assign_slots (unique_vertex_dic st) (unique_vertex_id st)
                   keys.
Proof.
  induction loops as [| loop loops IH]; intros st st' slots H.
  - injection H as <- <-. now exists [].
  - cbn [corners_loop] in H. bind_ok H. bind_ok H. injection H as <- <-.
    destruct a as [st1 slot]. destruct a0 as [st2 slots'].
    destruct (corner_step_slot _ _ _ _ E) as [k [Hk Hget]].
    destruct (IH _ _ _ E0) as [keys [Hkeys ->]].
    exists (k :: keys). cbn [mapM]. rewrite Hk, Hkeys. cbn [Py.bind].
    split; [reflexivity|]. cbn [assign_slots fst snd].
    destruct (Assoc.get key_eqb (unique_vertex_dic st) k) as [v |].
    + destruct Hget as [-> [-> ->]]. reflexivity.
    + destruct Hget as [-> [-> ->]]. reflexivity.
Qed.

Lemma mapM_nth {A B : Type} (f : A -> result B) (l : list A) (r : list B)
    (i : nat) (x : A) :
  mapM f l = Ok r -> nth_error l i = Some x ->
  exists y, f x = Ok y /\ nth_error r i = Some y.
Proof.
  revert r i. induction l as [| a l IH]; intros r i H Hx.
  - destruct i; discriminate.
  - cbn [mapM] in H. bind_ok H. bind_ok H. injection H as <-.
    destruct i as [| i]; cbn [nth_error] in *.
    + injection Hx as <-. eexists. split; [eassumption | reflexivity].
    + now apply (IH _ i).
Qed.

Lemma initial_state_empty (st0 : MeshState) :
  initial_state env = Ok st0 ->
  unique_vertex_dic st0 = [] /\ unique_vertex_id st0 = 0.
Proof.
  unfold initial_state. intros H. bind_ok H. injection H as <-. auto.
Qed.

(** Two corners of one run share a slot exactly when their keys agree. *)
Lemma run_slots_agree (st0 st : MeshState) (loops : list Loop)
    (slots : list Z) :
  initial_state env = Ok st0 ->
  corners_loop env st0 loops = Ok (st, slots) ->
  List.length slots = List.length loops
  /\ forall (i j : nat) ci cj si sj,
       i <> j ->
       nth_error loops i = Some ci -> nth_error loops j = Some cj ->
       nth_error slots i = Some si -> nth_error slots j = Some sj ->
       (si = sj <-> same_corner_key env ci cj = true).
Proof.
  intros Hinit Hrun.
  destruct (initial_state_empty st0 Hinit) as [Hdic Hid].
  destruct (corners_loop_slots loops _ _ _ Hrun) as [keys [Hkeys Hslots]].
  rewrite Hdic, Hid in Hslots.
  assert (Hsig : Forall (fun k => key_signature k = mesh_signature env) keys).
  { apply Forall_forall. intros k Hin.
    destruct (In_nth_error _ _ Hin) as [n Hn].
    assert (Hlen : List.length keys = List.length loops)
      by now apply mapM_length in Hkeys.
    destruct (nth_error loops n) as [c |] eqn:Ec.
    - destruct (mapM_nth _ _ _ _ _ Hkeys Ec) as [k' [Hk' Hn']].
      rewrite Hn in Hn'. injection Hn' as <-.
      now apply (vertex_key_signature c).
    - apply nth_error_None in Ec.
      assert (n < List.length keys)%nat
        by (apply nth_error_Some; congruence).
      lia. }
  assert (Hok : dic_ok (mesh_signature env) [] 0).
  { split; [constructor | intros e1 e2 []]. }
  destruct (assign_slots_spec (mesh_signature env) keys [] 0 Hok Hsig)
    as [Hlen Hspec].
  rewrite <- Hslots in Hlen, Hspec.
  split; [rewrite Hlen; now apply mapM_length in Hkeys|].
  assert (Hlt : forall (i j : nat) ci cj si sj,
             (i < j)%nat ->
             nth_error loops i = Some ci -> nth_error loops j = Some cj ->
             nth_error slots i = Some si -> nth_error slots j = Some sj ->
             (si = sj <-> same_corner_key env ci cj = true)).
  { intros i j ci cj si sj Hij Hci Hcj Hsi Hsj.
    destruct (mapM_nth _ _ _ _ _ Hkeys Hci) as [ki [Hki Hni]].
    destruct (mapM_nth _ _ _ _ _ Hkeys Hcj) as [kj [Hkj Hnj]].
    rewrite <- (vertex_key_eqb ci cj ki kj Hki Hkj).
    destruct (Hspec j kj sj Hnj Hsj) as [_ Hprev].
    now apply (Hprev i ki si). }
  intros i j ci cj si sj Hij Hci Hcj Hsi Hsj.
  destruct (Nat.lt_total i j) as [Hl | [He | Hg]]; [|contradiction|].
  - now apply (Hlt i j).
  - destruct (mapM_nth _ _ _ _ _ Hkeys Hci) as [ki [Hki _]].
    destruct (mapM_nth _ _ _ _ _ Hkeys Hcj) as [kj [Hkj _]].
    rewrite <- (vertex_key_eqb ci cj ki kj Hki Hkj).
    rewrite key_eqb_sym
      by (rewrite (vertex_key_signature ci ki Hki),
                  (vertex_key_signature cj kj Hkj); reflexivity).
    rewrite (vertex_key_eqb cj ci kj ki Hkj Hki).
    split; intros Hq.
    + apply (Hlt j i cj ci sj si); auto.
    + symmetry. apply (Hlt j i cj ci sj si); auto.
Qed.

(** C7: in one export of a mesh, two corners are given the same vertex
    slot exactly when they have the same key, that is equal coordinates in
    every UV layer, equal normals and the same source vertex index; so
    corners that differ in a component of the key get distinct slots.  This
    holds for every order of iteration, hence whether two corners share a
    slot does not depend on the order. *)
Theorem corners_sharing_key_share_slot :
  forall (st0 st : MeshState) (loops : list Loop) (slots : list Z),
    initial_state env = Ok st0 ->
    corners_loop env st0 loops = Ok (st, slots) ->
    List.length slots = List.length loops
    /\ (forall (i j : nat) ci cj si sj,
           i <> j ->
           nth_error loops i = Some ci -> nth_error loops j = Some cj ->
           nth_error slots i = Some si -> nth_error slots j = Some sj ->
           (si = sj <-> same_corner_key env ci cj = true))
    /\ (forall (loops' : list Loop) (st' : MeshState) (slots' : list Z),
           Permutation loops loops' ->
           corners_loop env st0 loops' = Ok (st', slots') ->
           forall (i j i' j' : nat) ci cj si sj si' sj',
             i <> j -> i' <> j' ->
             nth_error loops i = Some ci -> nth_error loops j = Some cj ->
             nth_error loops' i' = Some ci -> nth_error loops' j' = Some cj ->
             nth_error slots i = Some si -> nth_error slots j = Some sj ->
             nth_error slots' i' = Some si' -> nth_error slots' j' = Some sj' ->
             (si = sj <-> si' = sj')).
Proof.
  intros st0 st loops slots Hinit Hrun.
  destruct (run_slots_agree st0 st loops slots Hinit Hrun) as [Hlen Hagree].
  split; [exact Hlen|]. split; [exact Hagree|].
  intros loops' st' slots' _ Hrun' i j i' j' ci cj si sj si' sj'
         Hij Hij' Hci Hcj Hci' Hcj' Hsi Hsj Hsi' Hsj'.
  destruct (run_slots_agree st0 st' loops' slots' Hinit Hrun')
    as [_ Hagree'].
  rewrite (Hagree i j ci cj si sj Hij Hci Hcj Hsi Hsj).
  rewrite (Hagree' i' j' ci cj si' sj' Hij' Hci' Hcj' Hsi' Hsj').
  reflexivity.
Qed.

End Deduplication.

Lemma corners_sharing_key_share_slot_witness :
  let env :=
    mkMeshEnv (mkSkinEnv "Body" [] [] [] [] []) false 1 0 []
      ["Skin"%string] [("Skin"%string, 0)] "0.0" in
  let corner := fun (u : Z) (index : Z) =>
    mkLoop [(of_Z u, of_Z 0)] (of_Z 0, of_Z 0, of_Z 1) index
      (of_Z 1, of_Z 2, of_Z 3) [] [] 0 in
  match initial_state env with
  | Ok st0 =>
      match corners_loop env st0 [corner 0 5; corner 1 5; corner 0 5] with
      | Ok (_, slots) =>
          slots = [0; 1; 0]
          /\ (0 = 0 <-> same_corner_key env (corner 0 5) (corner 0 5) = true)
          /\ (0 = 1 <-> same_corner_key env (corner 0 5) (corner 1 5) = true)
      | Raise _ => False
      end
  | Raise _ => False
  end.
Proof.
  intros env corner.
  destruct (initial_state env) as [st0 |] eqn:E0;
    [|vm_compute in E0; discriminate E0].
  destruct (corners_loop env st0 [corner 0 5; corner 1 5; corner 0 5])
    as [[st slots] |] eqn:E1;
    [|vm_compute in E0; injection E0 as <-;
      vm_compute in E1; discriminate E1].
  pose proof (corners_sharing_key_share_slot env st0 st _ _ E0 E1)
    as [_ [H _]].
  assert (Hs : slots = [0; 1; 0]).
  { clear H. vm_compute in E0. injection E0 as <-. vm_compute in E1.
    now injection E1 as _ <-. }
  subst slots. split; [reflexivity|].
  split.
  - apply (H 0%nat 2%nat); [discriminate | reflexivity..].
  - apply (H 0%nat 1%nat); [discriminate | reflexivity..].
Defined.

(** ** Materials *)

Section MaterialTranslation.

Lemma dict_get_set {V : Type} (d : Dict.t V) (k k' : string) (v : V) :
  Dict.get (Dict.set d k v) k'
  = if String.eqb k' k then Some v else Dict.get d k'.
Proof.
  induction d as [| [k0 v0] d IH]; cbn [Dict.set Dict.get].
  - reflexivity.
  - destruct (String.eqb k k0) eqn:E; cbn [Dict.get].
    + apply String.eqb_eq in E. subst k0.
      destruct (String.eqb k' k); reflexivity.
    + destruct (String.eqb k' k0) eqn:E'.
      * apply String.eqb_eq in E'. subst k0.
        rewrite String.eqb_sym in E. now rewrite E.
      * exact IH.
Qed.

Lemma dict_get_set_other {V : Type} (d : Dict.t V) (k k' : string) (v : V) :
  String.eqb k' k = false -> Dict.get (Dict.set d k v) k' = Dict.get d k'.
Proof. intros H. now rewrite dict_get_set, H. Qed.

Variable gl : GlConstants.
Variable image_id_dic : Dict.t Z.
Variable blender_version_minor : Z.

(** The alpha entries of what [pbr_fallback] returns. *)
Lemma pbr_fallback_alpha st b_mat base_color metalness roughness
    base_color_texture metallic_roughness_texture transparent_method
    transparency_cutoff unlit doublesided pbr st' :
  pbr_fallback image_id_dic st b_mat base_color metalness roughness
    base_color_texture metallic_roughness_texture transparent_method
    transparency_cutoff unlit doublesided = Ok (pbr, st') ->
  Dict.get pbr "alphaMode" = Some (JStr transparent_method)
  /\ Dict.get pbr "alphaCutoff"
     = if String.eqb transparent_method "MASK"
       then Some (cutoff_or_default transparency_cutoff) else None.
Proof.
  unfold pbr_fallback. intros H.
  destruct (_ || _); [discriminate H|].
  destruct (match base_color_texture with Some _ => _ | None => _ end)
    as [r1 |]; cbn [Py.bind] in H; [|discriminate H].
  destruct (match metallic_roughness_texture with Some _ => _ | None => _ end)
    as [r2 |]; cbn [Py.bind] in H; [|discriminate H].
  injection H as <- _.
  rewrite !dict_get_set.
  destruct (String.eqb transparent_method "MASK"), unlit;
    rewrite ?dict_get_set; split; reflexivity.
Qed.

(** Adding a texture entry leaves the alpha entries alone. *)
Lemma pbr_tex_add_alpha (node : ShaderNode) acc names acc' :
  pbr_tex_add gl image_id_dic node acc names = Ok acc' ->
  String.eqb "alphaMode" (fst names) = false ->
  String.eqb "alphaCutoff" (fst names) = false ->
  Dict.get (fst (fst acc')) "alphaMode" = Dict.get (fst (fst acc)) "alphaMode"
  /\ Dict.get (fst (fst acc')) "alphaCutoff"
     = Dict.get (fst (fst acc)) "alphaCutoff".
Proof.
  unfold pbr_tex_add. intros H H1 H2. bind_ok H.
  destruct a as [tex |].
  - bind_ok H. injection H as <-. cbn [fst].
    now rewrite !dict_get_set_other by assumption.
  - injection H as <-. cbn [fst]. now split.
Qed.

Lemma transparency_of_mapping (b_mat : Material) (pbr : Dict.t json) :
  Dict.get pbr "alphaMode" = Some (JStr (fst (transparency_of b_mat))) ->
  Dict.get pbr "alphaCutoff"
  = (if String.eqb (fst (transparency_of b_mat)) "MASK"
     then Some (cutoff_or_default (snd (transparency_of b_mat)))
     else None) ->
  opacity_mapping b_mat pbr.
Proof.
  unfold transparency_of, opacity_mapping.
  destruct (String.eqb (blend_method b_mat) "OPAQUE");
    [cbn; now split|].
  destruct (String.eqb (blend_method b_mat) "CLIP"); cbn; now split.
Qed.

(** C4, amended: for a toon-shaded material and for a generic PBR
    material the core entry follows the opacity mode: OPAQUE gives
    alphaMode OPAQUE without alphaCutoff, CLIP gives MASK with the alpha
    threshold of the material as alphaCutoff, any other mode gives BLEND
    without alphaCutoff.  An unlit-transparent-zwrite material gets BLEND
    without alphaCutoff whatever its opacity mode. *)
Theorem opacity_mode_mapping :
  forall (version : option string) (st : TexState) (b_mat : Material)
         (node : ShaderNode),
    (forall mtoon_dic pbr_dic st',
        make_mtoon_unversioned_extension_dic gl image_id_dic
          blender_version_minor version st b_mat node
        = Ok (mtoon_dic, pbr_dic, st') ->
        opacity_mapping b_mat pbr_dic)
    /\ (forall gltf_dic pbr_dic st' printed,
           make_gltf_mat_dic gl image_id_dic st b_mat node
           = Ok (gltf_dic, pbr_dic, st', printed) ->
           opacity_mapping b_mat pbr_dic)
    /\ (forall zw_dic pbr_dic st',
           make_transzw_mat_dic gl image_id_dic st b_mat node
           = Ok (zw_dic, pbr_dic, st') ->
           Dict.get pbr_dic "alphaMode" = Some (JStr "BLEND")
           /\ Dict.get pbr_dic "alphaCutoff" = None).
Proof.
  intros version st b_mat node. split; [|split].
  - intros mtoon_dic pbr_dic st' H.
    unfold make_mtoon_unversioned_extension_dic in H.
    do 3 bind_ok H.
    destruct (material_props b_mat) as [[[[[[bm sb] db] zw] at_] rq] rt].
    do 2 bind_ok H.
    destruct a3 as [pbr0 st0].
    apply pbr_fallback_alpha in E3. destruct E3 as [Hm Hc].
    destruct version as [v |]; [|discriminate H].
    destruct (String.prefix "1." v).
    + do 2 bind_ok H. destruct a4; try discriminate H.
      injection H as _ <- _. cbn [fst].
      apply transparency_of_mapping;
        rewrite dict_get_set_other by reflexivity; assumption.
    + injection H as _ <- _. cbn [fst].
      now apply transparency_of_mapping.
  - intros gltf_dic pbr_dic st' printed H.
    unfold make_gltf_mat_dic in H.
    do 7 bind_ok H. bind_as H pbr_st Epbr. destruct pbr_st as [pbr0 st0].
    apply pbr_fallback_alpha in Epbr. destruct Epbr as [Hm Hc].
    cbn [foldM] in H. bind_as H added F. bind_as H emissive Eem.
    destruct emissive; try discriminate H. injection H as _ <- _ _.
    bind_as F r1 F1. bind_as F r2 F2. bind_as F r3 F3. injection F as <-.
    apply (pbr_tex_add_alpha node) in F1; [|reflexivity..].
    apply (pbr_tex_add_alpha node) in F2; [|reflexivity..].
    apply (pbr_tex_add_alpha node) in F3; [|reflexivity..].
    cbn [fst snd] in F1.
    destruct F1 as [M1 C1], F2 as [M2 C2], F3 as [M3 C3].
    apply transparency_of_mapping;
      rewrite dict_get_set_other by reflexivity; congruence.
  - intros zw_dic pbr_dic st' H.
    unfold make_transzw_mat_dic in H.
    do 2 bind_ok H. destruct a0 as [[textures vectors] st1].
    bind_ok H. destruct a0 as [pbr0 st0].
    apply pbr_fallback_alpha in E1. injection H as _ <- _. exact E1.
Qed.

End MaterialTranslation.

(** The claim C4 as it is stated fails: an unlit-transparent-zwrite
    material whose opacity mode is CLIP is translated to alphaMode BLEND
    without alphaCutoff, not to MASK with its alpha threshold. *)
Lemma clip_material_without_mask_counterexample :
  let gl := mkGlConstants 9728 9729 10497 33071 in
  let b_mat := mkMaterial "Lens" "CLIP" half true
                 (Some "TRANSPARENT_ZWRITE"%string) (Some [[]]) 1 in
  exists done pbr_dic,
    material_step gl 83 (Some "0.0"%string) [] material_loop_start b_mat
    = Ok done
    /\ glb_material_list done = [JDict pbr_dic]
    /\ blend_method b_mat = "CLIP"%string
    /\ Dict.get pbr_dic "alphaMode" = Some (JStr "BLEND")
    /\ Dict.get pbr_dic "alphaCutoff" = None
    /\ ~ opacity_mapping b_mat pbr_dic.
Proof.
  intros gl b_mat. eexists. eexists.
  split; [vm_compute; reflexivity|].
  split; [reflexivity|]. split; [reflexivity|].
  split; [reflexivity|]. split; [reflexivity|].
  unfold opacity_mapping. cbn. intros [H _]. discriminate H.
Qed.

Lemma opacity_mode_mapping_witness :
  let gl := mkGlConstants 9728 9729 10497 33071 in
  let b_mat := mkMaterial "Face" "CLIP" (dyadic 1 (-2)) true
                 (Some "MToon_unversioned"%string) None 1 in
  let node : ShaderNode :=
    [("DiffuseColor"%string,
      mkSocket (JList [JFloat one; JFloat one; JFloat one; JFloat one]) [])] in
  match make_mtoon_unversioned_extension_dic gl [] 83 (Some "0.0"%string)
          (mkTexState [] [] 0 0) b_mat node with
  | Ok (_, pbr_dic, _) => opacity_mapping b_mat pbr_dic
  | Raise _ => False
  end.
Proof.
  intros gl b_mat node.
  destruct (make_mtoon_unversioned_extension_dic gl [] 83 (Some "0.0"%string)
              (mkTexState [] [] 0 0) b_mat node)
    as [[[mtoon_dic pbr_dic] st'] |] eqn:E;
    [|vm_compute in E; discriminate E].
  exact (proj1 (opacity_mode_mapping gl [] 83 (Some "0.0"%string)
                  (mkTexState [] [] 0 0) b_mat node)
               mtoon_dic pbr_dic st' E).
Defined.

(** ** The stages of the export *)

Section ConvertAborts.

Context {C : Type}.

Variable gl : GlConstants.
Variable blender_version_minor : Z.
Variable image_bins : C -> list (string * Z).
Variable pack_all : C -> Dict.t json * bytes.
Variable json_dumps : Dict.t json -> bytes.
Variable image_to_bin : GlbObj C -> result (GlbObj C).
Variable armature_to_node_and_scenes_dic : GlbObj C -> result (GlbObj C).
Variable mesh_to_bin_and_dic : GlbObj C -> result (GlbObj C).
Variable gltf_meta_to_dic : GlbObj C -> result (GlbObj C).
Variable vrm_meta_to_dic : GlbObj C -> result (GlbObj C).

Lemma foldM_app {A B : Type} (f : B -> A -> result B) (l1 l2 : list A)
    (b : B) :
  foldM f (l1 ++ l2) b = Py.bind (foldM f l1 b) (foldM f l2).
Proof.
  revert b. induction l1 as [| x l1 IH]; intros b; cbn [foldM app Py.bind].
  - reflexivity.
  - destruct (f b x); cbn [Py.bind]; [apply IH | reflexivity].
Qed.

(** A loop raises if its body raises on some element whatever the
    accumulator. *)
Lemma foldM_raises {A B : Type} (f : B -> A -> result B) (l : list A)
    (x : A) :
  In x l -> (forall acc, exists e, f acc x = Raise e) ->
  forall b, exists e, foldM f l b = Raise e.
Proof.
  intros Hin Hx. induction l as [| y l IH]; intros b; [contradiction|].
  cbn [foldM]. destruct Hin as [-> | Hin].
  - destruct (Hx b) as [e ->]. now exists e.
  - destruct (f b y); cbn [Py.bind]; [now apply IH | now eexists].
Qed.

Lemma material_step_unsupported (version : option string)
    (image_id_dic : Dict.t Z) (acc : MaterialLoop) (b_mat : Material)
    (shader : string) :
  vrm_shader b_mat = Some shader -> supported_shader shader = false ->
  material_step gl blender_version_minor version image_id_dic acc b_mat
  = Raise (unsupported_shader shader).
Proof.
  intros Hs Hu. unfold material_step. rewrite Hs. cbn [Py.bind].
  unfold supported_shader in Hu.
  apply orb_false_iff in Hu. destruct Hu as [Hu H3].
  apply orb_false_iff in Hu. destruct Hu as [H1 H2].
  now rewrite H1, H2, H3.
Qed.

(** C8: when a material in use has a shader that is none of the three
    supported kinds, material translation raises, and with it the whole
    conversion: no bytes are returned and nothing is written.  The error
    names the shader when the materials before the offending one are
    translated without error. *)
Theorem unsupported_shader_aborts_conversion :
  forall (self self1 self2 : GlbObj C) (version : string) (b_mat : Material)
         (shader : string),
    image_to_bin
      (mkGlbObj (Some version) (json_dic self) (bin self)
         (glb_bin_collector self) (mesh_materials self) (result_bytes self))
    = Ok self1 ->
    armature_to_node_and_scenes_dic self1 = Ok self2 ->
    In b_mat (used_materials (mesh_materials self2)) ->
    vrm_shader b_mat = Some shader ->
    supported_shader shader = false ->
    let convert :=
      convert_bpy2glb gl blender_version_minor image_bins pack_all json_dumps
        image_to_bin armature_to_node_and_scenes_dic mesh_to_bin_and_dic
        gltf_meta_to_dic vrm_meta_to_dic in
    (exists e,
        material_to_dic gl blender_version_minor image_bins self2 = Raise e
        /\ convert self version = Raise e)
    /\ (forall before after acc,
           used_materials (mesh_materials self2)
           = (before ++ b_mat :: after)%list ->
           foldM (material_step gl blender_version_minor (vrm_version self2)
                    (Dict.update [] (image_bins (glb_bin_collector self2))))
                 before material_loop_start = Ok acc ->
           convert self version = Raise (unsupported_shader shader))
    /\ (forall filepath : string,
           version = "0.0"%string -> String.eqb filepath EmptyString = false ->
           exists e,
             execute gl blender_version_minor image_bins pack_all json_dumps
               image_to_bin armature_to_node_and_scenes_dic
               mesh_to_bin_and_dic gltf_meta_to_dic vrm_meta_to_dic
               filepath (Some self) = Raise e).
Proof.
  intros self self1 self2 version b_mat shader H1 H2 Hin Hs Hu convert.
  assert (Hmat : exists e,
             material_to_dic gl blender_version_minor image_bins self2
             = Raise e).
  { unfold material_to_dic.
    destruct (foldM_raises
                (material_step gl blender_version_minor (vrm_version self2)
                   (Dict.update [] (image_bins (glb_bin_collector self2))))
                _ b_mat Hin
                (fun acc => ex_intro _ _
                   (material_step_unsupported _ _ acc b_mat shader Hs Hu))
                material_loop_start) as [e ->].
    now exists e. }
  assert (Hconv : forall e,
             material_to_dic gl blender_version_minor image_bins self2
             = Raise e -> convert self version = Raise e).
  { intros e He. unfold convert, convert_bpy2glb.
    rewrite H1. cbn [Py.bind]. rewrite H2. cbn [Py.bind].
    rewrite He. reflexivity. }
  split; [|split].
  - destruct Hmat as [e He]. exists e. split; [exact He | now apply Hconv].
  - intros before after acc Hsplit Hbefore. apply Hconv.
    unfold material_to_dic. rewrite Hsplit, foldM_app, Hbefore.
    cbn [Py.bind foldM].
    rewrite (material_step_unsupported _ _ acc b_mat shader Hs Hu).
    reflexivity.
  - intros filepath Hv Hf. destruct Hmat as [e He]. exists e.
    unfold execute. rewrite Hf. subst version.
    fold convert. now rewrite (Hconv e He).
Qed.

End ConvertAborts.

Lemma unsupported_shader_aborts_conversion_witness :
  let gl := mkGlConstants 9728 9729 10497 33071 in
  let ok := fun self : GlbObj unit => Ok self in
  let b_mat := mkMaterial "Hair" "OPAQUE" half true
                 (Some "Principled"%string) None 1 in
  let self := mkGlbObj None [] [] tt [[b_mat]] None in
  convert_bpy2glb gl 83 (fun _ => []) (fun _ => ([], []))
    (fun _ => literal "{}") ok ok ok ok ok self "0.0"
  = Raise (unsupported_shader "Principled").
Proof.
  intros gl ok b_mat self.
  apply (proj1 (proj2 (unsupported_shader_aborts_conversion
                         gl 83 (fun _ => []) (fun _ => ([], []))
                         (fun _ => literal "{}") ok ok ok ok ok
                         self _ _ "0.0"%string b_mat "Principled"%string
                         eq_refl eq_refl (or_introl eq_refl) eq_refl eq_refl))
               [] [] material_loop_start eq_refl eq_refl).
Defined.

(** ** The buffers of a mesh *)

Section MeshBuffers.

Variable env : MeshEnv.

Lemma mapM_Forall {A B : Type} (f : A -> result B) (P : B -> Prop)
    (l : list A) (r : list B) :
  mapM f l = Ok r -> (forall x y, In x l -> f x = Ok y -> P y) -> Forall P r.
Proof.
  revert r. induction l as [| x l IH]; intros r H HP.
  - injection H as <-. constructor.
  - cbn [mapM] in H. bind_as H y Ey. bind_as H r' Er. injection H as <-.
    constructor.
    + apply (HP x); [now left | exact Ey].
    + apply IH; [reflexivity|]. intros x' y' Hin. apply HP. now right.
Qed.

Lemma append_each_lengths (bins chunks : list bytes) (a c : Z) :
  List.length chunks = List.length bins ->
  Forall (fun b => len b = a) bins -> Forall (fun b => len b = c) chunks ->
  List.length (append_each bins chunks) = List.length bins
  /\ Forall (fun b => len b = a + c) (append_each bins chunks).
Proof.
  revert chunks. induction bins as [| b bins IH]; intros [| ch chunks] Hl Hb Hc;
    try discriminate.
  - split; [reflexivity | constructor].
  - cbn [append_each List.length]. injection Hl as Hl.
    inversion Hb as [| ? ? Hb1 Hb2]; subst.
    inversion Hc as [| ? ? Hc1 Hc2]; subst.
    destruct (IH chunks Hl Hb2 Hc2) as [IH1 IH2].
    split; [now rewrite IH1|].
    constructor; [now rewrite len_app | exact IH2].
Qed.

Lemma len_of_length (b : bytes) (n : nat) :
  List.length b = n -> len b = Z.of_nat n.
Proof. intros <-. reflexivity. Qed.

Lemma skin_vertex_lengths (senv : SkinEnv) (vi : Z)
    (groups : list VertexGroupElement) (jb wb : bytes) (log : list string) :
  skin_vertex senv vi groups = Ok ((jb, wb), log) ->
  len jb = 8 /\ len wb = 16.
Proof.
  unfold skin_vertex. intros H.
  bind_as H b Eb. bind_as H nw En. bind_as H j Ej. bind_as H w Ew.
  injection H as <- <- _.
  apply pack_HHHH_length in Ej. apply pack_floats_length in Ew.
  destruct Ej as [_ Ej]. destruct Ew as [_ Ew].
  split; [now apply len_of_length in Ej | now apply len_of_length in Ew].
Qed.

Lemma texcoord_chunks_lengths (loop : Loop) (tex : list bytes) :
  texcoord_chunks env loop = Ok tex ->
  List.length tex = uv_layer_count env /\ Forall (fun b => len b = 8) tex.
Proof.
  unfold texcoord_chunks. intros H. split.
  - apply mapM_length in H. now rewrite length_seq in H.
  - apply (mapM_Forall _ _ _ _ H). intros i b _ Hb.
    bind_as Hb uv Euv. apply pack_floats_length in Hb.
    destruct Hb as [_ Hb]. now apply len_of_length in Hb.
Qed.

Lemma shape_chunk_lengths (st : MeshState) (loop : Loop) (i : nat)
    (pos nb : bytes) (mm : min_max_t) :
  shape_chunk env st loop i = Ok (pos, nb, mm) ->
  len pos = 12
  /\ len nb = (if String.prefix "0." (mesh_vrm_version env) then 12 else 0).
Proof.
  unfold shape_chunk. intros H.
  destruct (nth_error (shape_co loop) i) as [co |]; [|discriminate H].
  destruct (nth_error (shape_min_max_dic st) i) as [m |]; [|discriminate H].
  bind_as H delta Ed. bind_as H mp Emp. bind_as H pb Epb.
  bind_as H nbytes Enb. bind_as H mm' Emm. injection H as <- <- _.
  apply pack_floats_length in Epb. destruct Epb as [_ Epb].
  split; [now apply len_of_length in Epb|].
  destruct (String.prefix "0." (mesh_vrm_version env)).
  - destruct (nth_error (morph_normal_diff_dic env) i) as [diffs |];
      [|discriminate Enb].
    bind_as Enb d Ed'. bind_as Enb n En.
    apply pack_floats_length in Enb. destruct Enb as [_ Enb].
    now apply len_of_length in Enb.
  - injection Enb as <-. reflexivity.
Qed.

(** One pass of the loop keeps the buffers in step with the counter. *)
Lemma corner_step_buffers (st st' : MeshState) (loop : Loop) (slot : Z) :
  buffers_match env st -> corner_step env st loop = Ok (st', slot) ->
  buffers_match env st'.
Proof.
  intros Hinv H. unfold corner_step in H. bind_as H key Ek.
  destruct (Assoc.get key_eqb (unique_vertex_dic st) key) as [v |].
  - bind_as H idx Ei. injection H as <- _. exact Hinv.
  - bind_as H tex Etex. bind_as H shapes Esh. bind_as H skin Esk.
    bind_as H loc El. bind_as H pb Epb. bind_as H mm Emm.
    bind_as H nrm En. bind_as H nb Enb. bind_as H idx Ei.
    injection H as <- _.
    destruct Hinv as (Hp & Hn & Htl & Htx & Hsl & Hsp & Hnl & Hsn & Hj & Hw).
    apply pack_floats_length in Epb, Enb.
    destruct Epb as [_ Epb]. destruct Enb as [_ Enb].
    apply len_of_length in Epb, Enb.
    destruct (texcoord_chunks_lengths _ _ Etex) as [Htexl Htexf].
    assert (Hshl : List.length shapes = shape_count env).
    { apply mapM_length in Esh. now rewrite length_seq in Esh. }
    assert (Hshf : Forall (fun c : bytes * bytes * min_max_t =>
                             len (fst (fst c)) = 12
                             /\ len (snd (fst c))
                                = (if String.prefix "0." (mesh_vrm_version env)
                                   then 12 else 0)) shapes).
    { apply (mapM_Forall _ _ _ _ Esh). intros i [[p n] m] _ Hc.
      exact (shape_chunk_lengths _ _ _ _ _ _ Hc). }
    unfold buffers_match. cbn [unique_vertex_id position_bin normal_bin
      texcoord_bins shape_pos_bin_dic shape_normal_bin_dic joints_bin
      weights_bin].
    rewrite !len_app, Epb, Enb, Hp, Hn, Hj, Hw.
    destruct (append_each_lengths (texcoord_bins st) tex
                (8 * unique_vertex_id st) 8) as [T1 T2];
      [congruence | exact Htx | exact Htexf |].
    destruct (append_each_lengths (shape_pos_bin_dic st)
                (map (fun c : bytes * bytes * min_max_t => fst (fst c)) shapes)
                (12 * unique_vertex_id st) 12) as [P1 P2];
      [rewrite length_map; congruence | exact Hsp
       | apply Forall_map; eapply Forall_impl; [|exact Hshf];
         intros c Hc; exact (proj1 Hc) |].
    destruct (append_each_lengths (shape_normal_bin_dic st)
                (map (fun c : bytes * bytes * min_max_t => snd (fst c)) shapes)
                (if String.prefix "0." (mesh_vrm_version env)
                 then 12 * unique_vertex_id st else 0)
                (if String.prefix "0." (mesh_vrm_version env) then 12 else 0))
      as [N1 N2];
      [rewrite length_map; congruence | exact Hsn
       | apply Forall_map; eapply Forall_impl; [|exact Hshf];
         intros c Hc; exact (proj2 Hc) |].
    assert (Hskin : len (fst (fst skin))
                    = (if is_skin_mesh env then 8 else 0)
                    /\ len (snd (fst skin))
                       = (if is_skin_mesh env then 16 else 0)).
    { destruct (is_skin_mesh env).
      - destruct skin as [[jb wb] log].
        exact (skin_vertex_lengths _ _ _ _ _ _ Esk).
      - injection Esk as <-. split; reflexivity. }
    destruct Hskin as [Hsj Hsw]. rewrite Hsj, Hsw.
    repeat split; try lia; try congruence.
    + eapply Forall_impl; [|exact T2]. intros b Hb. cbv beta in Hb. lia.
    + eapply Forall_impl; [|exact P2]. intros b Hb. cbv beta in Hb. lia.
    + eapply Forall_impl; [|exact N2]. intros b Hb. cbv beta in Hb.
      destruct (String.prefix "0." (mesh_vrm_version env)); lia.
    + destruct (is_skin_mesh env); lia.
    + destruct (is_skin_mesh env); lia.
Qed.

Lemma corners_loop_buffers (loops : list Loop) :
  forall st st' slots,
    buffers_match env st -> corners_loop env st loops = Ok (st', slots) ->
    buffers_match env st'.
Proof.
  induction loops as [| loop loops IH]; intros st st' slots Hinv H.
  - injection H as <- _. exact Hinv.
  - cbn [corners_loop] in H. bind_as H r Er. bind_as H r' Er'.
    injection H as <- _. destruct r as [st1 slot].
    apply (IH st1 (fst r') (snd r')).
    + exact (corner_step_buffers _ _ _ _ Hinv Er).
    + now destruct r'.
Qed.

Lemma Forall_repeat {A : Type} (P : A -> Prop) (x : A) (n : nat) :
  P x -> Forall P (repeat x n).
Proof. intros H. induction n; constructor; assumption. Qed.

Lemma initial_state_buffers (st0 : MeshState) :
  initial_state env = Ok st0 -> buffers_match env st0.
Proof.
  unfold initial_state. intros H. bind_as H ids Ei. injection H as <-.
  unfold buffers_match. cbn [unique_vertex_id position_bin normal_bin
    texcoord_bins shape_pos_bin_dic shape_normal_bin_dic joints_bin
    weights_bin].
  rewrite !repeat_length.
  repeat split; try reflexivity.
  - now apply Forall_repeat.
  - now apply Forall_repeat.
  - apply Forall_repeat.
    now destruct (String.prefix "0." (mesh_vrm_version env)).
  - now destruct (is_skin_mesh env).
  - now destruct (is_skin_mesh env).
Qed.

(** X1: after the loop over the corners of a mesh, every buffer that is
    exported with [unique_vertex_id] as its element count holds exactly
    that many elements: positions and normals 12 bytes each, every UV
    layer 8 bytes, every morph target 12 bytes per position delta (and per
    normal delta in the 0.x schema), and for a skinned mesh 8 bytes of
    joints and 16 bytes of weights per vertex slot. *)
Theorem vertex_buffers_hold_one_element_per_slot :
  forall (st0 st : MeshState) (loops : list Loop) (slots : list Z),
    initial_state env = Ok st0 ->
    corners_loop env st0 loops = Ok (st, slots) ->
    buffers_match env st.
Proof.
  intros st0 st loops slots Hinit Hrun.
  apply (corners_loop_buffers loops st0 st slots); [|exact Hrun].
  now apply initial_state_buffers.
Qed.

(** The slots handed out stay below the counter, and every value the
    counter passes is handed out. *)
Lemma corners_loop_slot_range (loops : list Loop) :
  forall st st' slots,
    corners_loop env st loops = Ok (st', slots) ->
    0 <= unique_vertex_id st ->
    Forall (fun e => 0 <= snd e < unique_vertex_id st) (unique_vertex_dic st) ->
    unique_vertex_id st <= unique_vertex_id st'
    /\ unique_vertex_id st'
       <= unique_vertex_id st + Z.of_nat (List.length loops)
    /\ Forall (fun s => 0 <= s < unique_vertex_id st') slots
    /\ (forall v, unique_vertex_id st <= v < unique_vertex_id st' ->
                  In v slots)
    /\ Forall (fun e => 0 <= snd e < unique_vertex_id st')
              (unique_vertex_dic st').
Proof.
  induction loops as [| loop loops IH]; intros st st' slots H Hn Hd.
  - injection H as <- <-. cbn [List.length].
    repeat split; try lia; [constructor | exact Hd].
  - cbn [corners_loop] in H. bind_as H r Er. bind_as H r' Er'.
    injection H as <- <-. destruct r as [st1 slot]. destruct r' as [st2 slots'].
    cbn [fst snd].
    destruct (corner_step_slot env _ _ _ _ Er) as [k [Hk Hget]].
    assert (Hstep : 0 <= slot < unique_vertex_id st1
                    /\ unique_vertex_id st <= unique_vertex_id st1
                       <= unique_vertex_id st + 1
                    /\ (unique_vertex_id st < unique_vertex_id st1 ->
                        slot = unique_vertex_id st)
                    /\ Forall (fun e => 0 <= snd e < unique_vertex_id st1)
                              (unique_vertex_dic st1)).
    { destruct (Assoc.get key_eqb (unique_vertex_dic st) k) as [v |] eqn:Eg.
      - destruct Hget as [-> [-> ->]].
        destruct (get_key_some _ _ _ Eg) as [k' [Hin _]].
        rewrite Forall_forall in Hd. pose proof (Hd _ Hin) as Hv.
        cbn [snd] in Hv.
        repeat split; try lia. now apply Forall_forall.
      - destruct Hget as [-> [-> ->]].
        repeat split; try lia.
        apply Forall_app. split.
        + eapply Forall_impl; [|exact Hd]. intros e He. cbv beta in He. lia.
        + constructor; [cbn [snd]; lia | constructor]. }
    destruct Hstep as (Hslot & Hid & Hnew & Hd1).
    destruct (IH st1 st2 slots' Er') as (I1 & I2 & I3 & I4 & I5);
      [lia | exact Hd1 |].
    cbn [List.length]. rewrite Nat2Z.inj_succ.
    repeat split; try lia.
    + constructor; [lia | exact I3].
    + intros v Hv.
      destruct (Z.eq_dec v (unique_vertex_id st)) as [-> | Hne].
      * destruct (Z.eq_dec (unique_vertex_id st1) (unique_vertex_id st))
          as [Heq | Hneq].
        -- right. apply I4. lia.
        -- left. apply Hnew. lia.
      * right. apply I4. lia.
    + exact I5.
Qed.

(** X2: every index written for a corner addresses one of the vertex
    slots of the mesh, every slot is addressed by some index, and there
    are at most as many slots as corners. *)
Theorem indices_address_the_vertex_slots :
  forall (st0 st : MeshState) (loops : list Loop) (slots : list Z),
    initial_state env = Ok st0 ->
    corners_loop env st0 loops = Ok (st, slots) ->
    0 <= unique_vertex_id st <= Z.of_nat (List.length loops)
    /\ Forall (fun s => 0 <= s < unique_vertex_id st) slots
    /\ (forall v, 0 <= v < unique_vertex_id st -> In v slots).
Proof.
  intros st0 st loops slots Hinit Hrun.
  destruct (initial_state_empty env st0 Hinit) as [Hd Hn].
  destruct (corners_loop_slot_range loops st0 st slots Hrun)
    as (I1 & I2 & I3 & I4 & _).
  - lia.
  - rewrite Hd. constructor.
  - rewrite Hn in *. repeat split; try lia; [exact I3|].
    intros v Hv. apply I4. lia.
Qed.

(** *** The index buffers *)

Lemma assoc_get_set_Z {V : Type} (d : list (Z * V)) (k k' : Z) (v : V) :
  Assoc.get Z.eqb (Assoc.set Z.eqb d k v) k'
  = if k' =? k then Some v else Assoc.get Z.eqb d k'.
Proof.
  induction d as [| [k0 v0] d IH]; cbn [Assoc.set Assoc.get].
  - rewrite (Z.eqb_sym k k'). now destruct (k' =? k).
  - destruct (k0 =? k) eqn:E; cbn [Assoc.get].
    + apply Z.eqb_eq in E. subst k0. rewrite (Z.eqb_sym k k').
      now destruct (k' =? k).
    + destruct (k0 =? k') eqn:F; [|exact IH].
      apply Z.eqb_eq in F. subst k0. now rewrite E.
Qed.

Lemma assoc_set_keys {V : Type} (d : list (Z * V)) (k : Z) (old v : V) :
  Assoc.get Z.eqb d k = Some old ->
  map fst (Assoc.set Z.eqb d k v) = map fst d.
Proof.
  induction d as [| [k0 v0] d IH]; cbn [Assoc.set Assoc.get]; [discriminate|].
  destruct (k0 =? k) eqn:E; [reflexivity|].
  intros H. cbn [map fst]. now rewrite (IH H).
Qed.

Lemma add_at_get {V : Type} (plus : V -> V -> V) (d d' : list (Z * V))
    (k : Z) (v : V) :
  add_at plus d k v = Ok d' ->
  exists old,
    Assoc.get Z.eqb d k = Some old
    /\ map fst d' = map fst d
    /\ forall k', Assoc.get Z.eqb d' k'
                  = if k' =? k then Some (plus old v)
                    else Assoc.get Z.eqb d k'.
Proof.
  unfold add_at. destruct (Assoc.get Z.eqb d k) as [old |] eqn:E;
    [|discriminate].
  intros H. injection H as <-. exists old.
  split; [reflexivity|]. split; [exact (assoc_set_keys d k old _ E)|].
  intros k'. apply assoc_get_set_Z.
Qed.

(** What a pass of the loop does to the index buffers: the slot goes to
    the end of the buffer of the corner's material, whose count grows
    by one. *)
Lemma corner_step_index (st st' : MeshState) (loop : Loop) (slot : Z) :
  corner_step env st loop = Ok (st', slot) ->
  exists m oldb oldc,
    material_id env loop = Ok m
    /\ 0 <= slot < 2 ^ 32
    /\ Assoc.get Z.eqb (primitive_index_bin_dic st) m = Some oldb
    /\ Assoc.get Z.eqb (primitive_index_vertex_count st) m = Some oldc
    /\ map fst (primitive_index_bin_dic st')
       = map fst (primitive_index_bin_dic st)
    /\ (forall m', Assoc.get Z.eqb (primitive_index_bin_dic st') m'
                   = if m' =? m then Some (oldb ++ le_bytes 4 slot)
                     else Assoc.get Z.eqb (primitive_index_bin_dic st) m')
    /\ (forall m', Assoc.get Z.eqb (primitive_index_vertex_count st') m'
                   = if m' =? m then Some (oldc + 1)
                     else Assoc.get Z.eqb (primitive_index_vertex_count st) m').
Proof.
  assert (P : forall id bins counts,
             push_index env st loop id = Ok (bins, counts) ->
             exists m oldb oldc,
               material_id env loop = Ok m
               /\ 0 <= id < 2 ^ 32
               /\ Assoc.get Z.eqb (primitive_index_bin_dic st) m = Some oldb
               /\ Assoc.get Z.eqb (primitive_index_vertex_count st) m
                  = Some oldc
               /\ map fst bins = map fst (primitive_index_bin_dic st)
               /\ (forall m', Assoc.get Z.eqb bins m'
                     = if m' =? m then Some (oldb ++ le_bytes 4 id)
                       else Assoc.get Z.eqb (primitive_index_bin_dic st) m')
               /\ (forall m', Assoc.get Z.eqb counts m'
                     = if m' =? m then Some (oldc + 1)
                       else Assoc.get Z.eqb
                              (primitive_index_vertex_count st) m')).
  { intros id bins counts H. unfold push_index in H.
    destruct (material_id env loop) as [m |] eqn:Em; [|discriminate H].
    cbn [Py.bind] in H. bind_as H packed Ep. bind_as H bins' Eb.
    bind_as H counts' Ec. injection H as <- <-.
    apply pack_I_ok in Ep. destruct Ep as [Hid ->].
    apply add_at_get in Eb. destruct Eb as (oldb & Hb1 & Hb2 & Hb3).
    apply add_at_get in Ec. destruct Ec as (oldc & Hc1 & _ & Hc3).
    exists m, oldb, oldc. repeat split; try assumption; lia. }
  intros H. unfold corner_step in H. bind_as H key Ek.
  destruct (Assoc.get key_eqb (unique_vertex_dic st) key) as [v |].
  - bind_as H idx Ei. injection H as <- <-. destruct idx as [bins counts].
    exact (P _ _ _ Ei).
  - bind_as H tex Etex. bind_as H shapes Esh. bind_as H skin Esk.
    bind_as H loc El. bind_as H pb Epb. bind_as H mm Emm.
    bind_as H nrm En. bind_as H nb Enb. bind_as H idx Ei.
    injection H as <- <-. destruct idx as [bins counts].
    exact (P _ _ _ Ei).
Qed.

Lemma material_slots_cons (loop : Loop) (loops : list Loop) (slot : Z)
    (slots : list Z) (m0 m : Z) :
  material_id env loop = Ok m0 ->
  material_slots env (loop :: loops) (slot :: slots) m
  = ((if m0 =? m then [slot] else []) ++ material_slots env loops slots m)%list.
Proof.
  intros H. unfold material_slots. cbn [combine filter fst]. rewrite H.
  now destruct (m0 =? m).
Qed.

Lemma corners_loop_index (loops : list Loop) :
  forall st st' slots,
    corners_loop env st loops = Ok (st', slots) ->
    Forall (fun s => 0 <= s < 2 ^ 32) slots
    /\ map fst (primitive_index_bin_dic st')
       = map fst (primitive_index_bin_dic st)
    /\ (forall loop, In loop loops ->
          exists m b, material_id env loop = Ok m
                      /\ Assoc.get Z.eqb (primitive_index_bin_dic st) m
                         = Some b)
    /\ forall m,
         Assoc.get Z.eqb (primitive_index_bin_dic st') m
         = option_map
             (fun b => (b ++ flat_map (le_bytes 4)
                                      (material_slots env loops slots m))%list)
             (Assoc.get Z.eqb (primitive_index_bin_dic st) m)
         /\ Assoc.get Z.eqb (primitive_index_vertex_count st') m
            = option_map
                (fun c => c + Z.of_nat (List.length
                                          (material_slots env loops slots m)))
                (Assoc.get Z.eqb (primitive_index_vertex_count st) m).
Proof.
  induction loops as [| loop loops IH]; intros st st' slots H.
  - injection H as <- <-. split; [constructor|]. split; [reflexivity|].
    split; [intros loop []|]. intros m.
    unfold material_slots. cbn [combine filter map flat_map List.length].
    split.
    + destruct (Assoc.get Z.eqb (primitive_index_bin_dic st) m);
        cbn [option_map]; [now rewrite app_nil_r | reflexivity].
    + destruct (Assoc.get Z.eqb (primitive_index_vertex_count st) m);
        cbn [option_map]; [f_equal; lia | reflexivity].
  - cbn [corners_loop] in H. bind_as H r Er. bind_as H r' Er'.
    injection H as <- <-. destruct r as [st1 slot]. destruct r' as [st2 slots'].
    cbn [fst snd].
    destruct (corner_step_index _ _ _ _ Er)
      as (m0 & oldb & oldc & Hm & Hs & Hb & Hc & Hk & Hbs & Hcs).
    cbn [fst snd] in Er'.
    destruct (IH _ _ _ Er') as (I1 & I2 & I3 & I4).
    split; [constructor; assumption|].
    split; [now rewrite I2|].
    split.
    { intros l [<- | Hin]; [now exists m0, oldb|].
      destruct (I3 l Hin) as (m & b & Hlm & Hlb).
      rewrite Hbs in Hlb. exists m.
      destruct (m =? m0) eqn:E.
      - apply Z.eqb_eq in E. subst m0. now exists oldb.
      - now exists b. }
    intros m. destruct (I4 m) as [J1 J2]. rewrite J1, J2, Hbs, Hcs.
    rewrite (material_slots_cons loop loops slot slots' m0 m Hm).
    rewrite (Z.eqb_sym m m0).
    destruct (m0 =? m) eqn:E.
    + apply Z.eqb_eq in E. subst m0. rewrite Hb, Hc. cbn [option_map].
      rewrite flat_map_app, length_app. cbn [flat_map List.length].
      rewrite app_nil_r, <- app_assoc. split; [reflexivity|]. f_equal. lia.
    + cbn [app]. split; reflexivity.
Qed.

Lemma get_fold_set {V : Type} (x : V) (ids : list Z) :
  forall (d : list (Z * V)) (m : Z),
    Assoc.get Z.eqb (fold_left (fun d k => Assoc.set Z.eqb d k x) ids d) m
    = if existsb (Z.eqb m) ids then Some x else Assoc.get Z.eqb d m.
Proof.
  induction ids as [| k ids IH]; intros d m; cbn [fold_left existsb].
  - reflexivity.
  - rewrite IH, assoc_get_set_Z.
    destruct (existsb (Z.eqb m) ids); [now rewrite orb_true_r|].
    now rewrite orb_false_r.
Qed.

Lemma in_material_slots (loops : list Loop) (slots : list Z) (m s : Z) :
  In s (material_slots env loops slots m) -> In s slots.
Proof.
  unfold material_slots. intros H. apply in_map_iff in H.
  destruct H as [[l s'] [<- H]]. apply filter_In in H. destruct H as [H _].
  exact (in_combine_r _ _ _ _ H).
Qed.

Lemma run_index_buffers :
  forall (st0 st : MeshState) (loops : list Loop) (slots : list Z),
    initial_state env = Ok st0 ->
    corners_loop env st0 loops = Ok (st, slots) ->
    forall (m : Z) (b : bytes),
      Assoc.get Z.eqb (primitive_index_bin_dic st) m = Some b ->
      let written := material_slots env loops slots m in
      b = flat_map (le_bytes 4) written
      /\ Forall (fun s => le_value (le_bytes 4 s) = s) written
      /\ Assoc.get Z.eqb (primitive_index_vertex_count st) m
         = Some (Z.of_nat (List.length written))
      /\ len b = 4 * Z.of_nat (List.length written).
Proof.
  intros st0 st loops slots Hinit Hrun m b Hb written.
  destruct (corners_loop_index loops st0 st slots Hrun) as (Hr & _ & _ & Hi).
  destruct (Hi m) as [H1 H2]. fold written in H1, H2.
  unfold initial_state in Hinit. bind_as Hinit ids Ei. injection Hinit as <-.
  cbn [primitive_index_bin_dic primitive_index_vertex_count] in H1, H2.
  rewrite get_fold_set in H1. rewrite get_fold_set in H2.
  cbn [Assoc.get] in H1, H2.
  rewrite Hb in H1.
  destruct (existsb (Z.eqb m) ids); cbn [option_map] in H1, H2;
    [|discriminate H1].
  injection H1 as H1. cbn [app] in H1.
  assert (Hlen : forall l, len (flat_map (le_bytes 4) l)
                           = 4 * Z.of_nat (List.length l)).
  { induction l as [| s l IHl]; [reflexivity|].
    cbn [flat_map]. rewrite len_app, IHl. unfold len at 1.
    rewrite le_bytes_length. cbn [List.length]. lia. }
  split; [exact H1|]. split.
  - apply Forall_forall. intros s Hs. apply in_material_slots in Hs.
    rewrite Forall_forall in Hr. apply le_value_le_bytes.
    specialize (Hr s Hs). change (256 ^ Z.of_nat 4) with (2 ^ 32). lia.
  - split; [exact H2|]. rewrite H1. apply Hlen.
Qed.

(** X3: the index buffer kept for a material is the list of the slots
    written for the corners of the faces with that material, in the order
    of the corners, each as four little-endian bytes that decode to the
    slot; the count kept beside it is the number of these corners, a
    quarter of the length of the buffer. *)
Theorem index_buffer_lists_the_slots_of_its_material :
  forall (st0 st : MeshState) (loops : list Loop) (slots : list Z),
    initial_state env = Ok st0 ->
    corners_loop env st0 loops = Ok (st, slots) ->
    forall (m : Z) (b : bytes),
      Assoc.get Z.eqb (primitive_index_bin_dic st) m = Some b ->
      let written := material_slots env loops slots m in
      b = flat_map (le_bytes 4) written
      /\ Forall (fun s => le_value (le_bytes 4 s) = s) written
      /\ Assoc.get Z.eqb (primitive_index_vertex_count st) m
         = Some (Z.of_nat (List.length written))
      /\ len b = 4 * Z.of_nat (List.length written).
Proof. exact run_index_buffers. Qed.

(** *** The primitives *)

Lemma in_keys_set {V : Type} (d : list (Z * V)) (k x : Z) (v : V) :
  In x (map fst (Assoc.set Z.eqb d k v)) -> x = k \/ In x (map fst d).
Proof.
  induction d as [| [k0 v0] d IH]; cbn [Assoc.set map fst In].
  - intros [<- | []]. now left.
  - destruct (k0 =? k); cbn [map fst In]; [tauto|].
    intros [<- | H]; [tauto|]. destruct (IH H); tauto.
Qed.

Lemma NoDup_keys_set {V : Type} (d : list (Z * V)) (k : Z) (v : V) :
  NoDup (map fst d) -> NoDup (map fst (Assoc.set Z.eqb d k v)).
Proof.
  induction d as [| [k0 v0] d IH]; cbn [Assoc.set map fst]; intros H.
  - constructor; [intros [] | constructor].
  - inversion H as [| ? ? Hn Hd]; subst.
    destruct (k0 =? k) eqn:E; cbn [map fst]; [now constructor|].
    constructor; [|now apply IH].
    intros Hin. apply in_keys_set in Hin. apply Z.eqb_neq in E.
    destruct Hin; [congruence | contradiction].
Qed.

Lemma NoDup_keys_fold_set {V : Type} (x : V) (ids : list Z) :
  forall d : list (Z * V),
    NoDup (map fst d) ->
    NoDup (map fst (fold_left (fun d k => Assoc.set Z.eqb d k x) ids d)).
Proof.
  induction ids as [| k ids IH]; intros d H; cbn [fold_left]; [exact H|].
  apply IH. now apply NoDup_keys_set.
Qed.

Lemma get_of_in {V : Type} (d : list (Z * V)) (k : Z) (v : V) :
  NoDup (map fst d) -> In (k, v) d -> Assoc.get Z.eqb d k = Some v.
Proof.
  induction d as [| [k0 v0] d IH]; cbn [map fst Assoc.get]; intros Hn Hin.
  - contradiction.
  - inversion Hn as [| ? ? Hk Hd]; subst. destruct Hin as [Heq | Hin].
    + injection Heq as -> ->. now rewrite Z.eqb_refl.
    + destruct (k0 =? k) eqn:E; [|now apply IH].
      apply Z.eqb_eq in E. subst k0. exfalso. apply Hk.
      apply in_map_iff. now exists (k, v).
Qed.

Lemma in_of_get {V : Type} (d : list (Z * V)) (k : Z) (v : V) :
  Assoc.get Z.eqb d k = Some v -> In (k, v) d.
Proof.
  induction d as [| [k0 v0] d IH]; cbn [Assoc.get]; [discriminate|].
  destruct (k0 =? k) eqn:E.
  - apply Z.eqb_eq in E. subst k0. intros H. injection H as <-. now left.
  - intros H. right. now apply IH.
Qed.

Lemma mapM_total {A B : Type} (f : A -> result B) (g : A -> B) (l : list A) :
  (forall x, In x l -> f x = Ok (g x)) -> mapM f l = Ok (map g l).
Proof.
  induction l as [| x l IH]; intros H; cbn [mapM map]; [reflexivity|].
  rewrite (H x) by now left. cbn [Py.bind].
  rewrite IH by (intros y Hy; apply H; now right). reflexivity.
Qed.

Lemma NoDup_keys_filter {V : Type} (keep : Z * V -> bool) (d : list (Z * V)) :
  NoDup (map fst d) -> NoDup (map fst (filter keep d)).
Proof.
  intros Hd. induction d as [| e d IH]; cbn [map filter]; [constructor|].
  cbn [map] in Hd. apply NoDup_cons_iff in Hd. destruct Hd as [Hn Hd].
  destruct (keep e); cbn [map]; [|now apply IH].
  apply NoDup_cons; [|now apply IH].
  intros Hin. apply Hn. apply in_map_iff in Hin.
  destruct Hin as [y [Hy Hin]]. apply filter_In in Hin.
  apply in_map_iff. exists y. tauto.
Qed.

Lemma corners_loop_length (loops : list Loop) :
  forall st st' slots,
    corners_loop env st loops = Ok (st', slots) ->
    List.length slots = List.length loops.
Proof.
  induction loops as [| loop loops IH]; intros st st' slots H.
  - now injection H as _ <-.
  - cbn [corners_loop] in H. bind_as H r Er. bind_as H r' Er'.
    injection H as _ <-. cbn [List.length]. f_equal.
    destruct r' as [st2 slots']. exact (IH _ _ _ Er').
Qed.

Lemma in_combine_of_in {A B : Type} (l : list A) (l' : list B) (x : A) :
  In x l -> List.length l' = List.length l -> exists y, In (x, y) (combine l l').
Proof.
  revert l'. induction l as [| a l IH]; intros [| b l'] Hin Hl;
    try contradiction; try discriminate.
  injection Hl as Hl. destruct Hin as [-> | Hin].
  - exists b. now left.
  - destruct (IH l' Hin Hl) as [y Hy]. exists y. now right.
Qed.

(** X4: the index accessors made after the loop.  One is made for each
    material that some corner uses and for no other; its bytes are the
    slots of these corners, and the count passed with them is their
    number, which is positive.  Building them never fails. *)
Theorem primitives_cover_the_used_materials :
  forall (st0 st : MeshState) (loops : list Loop) (slots : list Z),
    initial_state env = Ok st0 ->
    corners_loop env st0 loops = Ok (st, slots) ->
    exists prims : list (Z * bytes * Z),
      primitive_glbs_dic st = Ok prims
      /\ Forall (fun p : Z * bytes * Z =>
                   let written :=
                     material_slots env loops slots (fst (fst p)) in
                   written <> []
                   /\ snd (fst p) = flat_map (le_bytes 4) written
                   /\ snd p = Z.of_nat (List.length written))
                prims
      /\ NoDup (map (fun p : Z * bytes * Z => fst (fst p)) prims)
      /\ forall (loop : Loop) (m : Z),
           In loop loops -> material_id env loop = Ok m ->
           In m (map (fun p : Z * bytes * Z => fst (fst p)) prims).
Proof.
  intros st0 st loops slots Hinit Hrun.
  pose proof (run_index_buffers st0 st loops slots Hinit Hrun) as Hidx.
  destruct (corners_loop_index loops st0 st slots Hrun) as (_ & Hkeys & Hdom & Hi).
  assert (Hnd : NoDup (map fst (primitive_index_bin_dic st))).
  { rewrite Hkeys. unfold initial_state in Hinit. bind_as Hinit ids Ei.
    injection Hinit as <-. cbn [primitive_index_bin_dic].
    apply NoDup_keys_fold_set. constructor. }
  set (g := fun e : Z * bytes =>
              (fst e, snd e,
               Z.of_nat (List.length
                           (material_slots env loops slots (fst e))))).
  set (kept := filter (fun e : Z * bytes =>
                         match snd e with [] => false | _ => true end)
                      (primitive_index_bin_dic st)).
  exists (map g kept).
  assert (Hkept : forall e, In e kept ->
            snd e <> []
            /\ Assoc.get Z.eqb (primitive_index_bin_dic st) (fst e)
               = Some (snd e)).
  { intros [m b] He. apply filter_In in He. destruct He as [Hin Hne].
    cbn [fst snd] in *. split; [now destruct b|].
    now apply get_of_in. }
  split.
  { unfold primitive_glbs_dic. fold kept. apply mapM_total.
    intros e He. destruct (Hkept e He) as [_ Hg].
    destruct (Hidx _ _ Hg) as (_ & _ & Hc & _). now rewrite Hc. }
  split.
  { apply Forall_map. apply Forall_forall. intros e He.
    destruct (Hkept e He) as [Hne Hg].
    destruct (Hidx _ _ Hg) as (Hb & _ & _ & _).
    unfold g. cbn [fst snd]. split; [|split; [exact Hb | reflexivity]].
    intros Hw. rewrite Hw in Hb. now apply Hne. }
  split.
  { rewrite map_map. unfold g. cbn [fst]. unfold kept.
    now apply NoDup_keys_filter. }
  intros loop m Hin Hm.
  destruct (in_combine_of_in loops slots loop Hin
              (corners_loop_length _ _ _ _ Hrun)) as [s Hs].
  assert (Hw : In s (material_slots env loops slots m)).
  { unfold material_slots. apply in_map_iff. exists (loop, s).
    split; [reflexivity|]. apply filter_In. split; [exact Hs|].
    cbn [fst]. rewrite Hm. apply Z.eqb_refl. }
  destruct (Hdom loop Hin) as (m' & b0 & Hm' & Hb0).
  assert (m' = m) by congruence. subst m'.
  destruct (Hi m) as [Hget _]. rewrite Hb0 in Hget. cbn [option_map] in Hget.
  rewrite map_map. apply in_map_iff.
  exists (m, (b0 ++ flat_map (le_bytes 4)
                      (material_slots env loops slots m))%list).
  split; [reflexivity|]. unfold kept. apply filter_In.
  split; [now apply in_of_get|]. cbn [snd].
  destruct (material_slots env loops slots m) as [| s' w]; [contradiction|].
  cbn [flat_map le_bytes]. now destruct b0.
Qed.

(** *** The bounds of the positions *)

Lemma leb_not_nan (x y : float) :
  Float.leb x y = true -> is_nan x = false /\ is_nan y = false.
Proof.
  unfold Float.leb, SFleb. destruct x, y; cbn [SFcompare is_nan]; intros H;
    try discriminate; split; reflexivity.
Qed.

Lemma leb_trans (x y z : float) :
  Float.leb x y = true -> Float.leb y z = true -> Float.leb x z = true.
Proof.
  intros H1 H2.
  destruct (leb_not_nan _ _ H1) as [Hx Hy].
  destruct (leb_not_nan _ _ H2) as [_ Hz].
  apply (proj1 (leb_rank x y Hx Hy)) in H1.
  apply (proj1 (leb_rank y z Hy Hz)) in H2.
  apply (proj2 (leb_rank x z Hx Hz)).
  unfold rank_lt in *.
  destruct (rank x) as [[a1 a2] a3]. destruct (rank y) as [[b1 b2] b3].
  destruct (rank z) as [[c1 c2] c3]. cbn [fst snd] in *. lia.
Qed.

Lemma leb_refl (x : float) : is_nan x = false -> Float.leb x x = true.
Proof.
  intros Hx. apply (proj2 (leb_rank x x Hx Hx)). unfold rank_lt.
  destruct (rank x) as [[a1 a2] a3]. cbn [fst snd]. lia.
Qed.

Lemma ltb_leb (x y : float) : Float.ltb x y = true -> Float.leb x y = true.
Proof.
  unfold Float.ltb, Float.leb, SFltb, SFleb.
  now destruct (SFcompare x y) as [[] |].
Qed.

Lemma not_ltb_leb (x y : float) :
  is_nan x = false -> is_nan y = false ->
  Float.ltb x y = false -> Float.leb y x = true.
Proof.
  intros Hx Hy H. apply (proj2 (leb_rank y x Hy Hx)). intros K.
  apply (proj2 (ltb_rank x y Hx Hy)) in K. congruence.
Qed.

(** The new lower bound of a coordinate. *)
Lemma lower_bound_step (p m : float) :
  is_nan m = false ->
  let m' := if Float.ltb p m then p else m in
  is_nan m' = false /\ Float.leb m' m = true
  /\ (is_nan p = false -> Float.leb m' p = true).
Proof.
  intros Hm. cbv zeta. destruct (Float.ltb p m) eqn:E.
  - pose proof (ltb_leb _ _ E) as L.
    destruct (leb_not_nan _ _ L) as [Hp _].
    repeat split; [exact Hp | exact L | intros _; now apply leb_refl].
  - repeat split; [exact Hm | now apply leb_refl |].
    intros Hp. now apply not_ltb_leb.
Qed.

(** The new upper bound of a coordinate. *)
Lemma upper_bound_step (p m : float) :
  is_nan m = false ->
  let m' := if Float.gtb p m then p else m in
  is_nan m' = false /\ Float.leb m m' = true
  /\ (is_nan p = false -> Float.leb p m' = true).
Proof.
  intros Hm. cbv zeta. change (Float.gtb p m) with (Float.ltb m p).
  destruct (Float.ltb m p) eqn:E.
  - pose proof (ltb_leb _ _ E) as L.
    destruct (leb_not_nan _ _ L) as [_ Hp].
    repeat split; [exact Hp | exact L | intros _; now apply leb_refl].
  - repeat split; [exact Hm | now apply leb_refl |].
    intros Hp. now apply not_ltb_leb.
Qed.

Lemma list_of_length_3 {A : Type} (l : list A) :
  List.length l = 3%nat -> exists a b c, l = [a; b; c].
Proof.
  destruct l as [| a [| b [| c [| d l]]]]; try discriminate.
  intros _. now exists a, b, c.
Qed.

(** [min_max] widens the box just enough to take the point in. *)
Lemma min_max_bounds (minmax minmax' : min_max_t) (position : list float) :
  min_max minmax position = Ok minmax' ->
  List.length position = 3%nat -> box_ok minmax ->
  box_ok minmax' /\ box_widens minmax minmax'
  /\ (Forall (fun x => is_nan x = false) position ->
      within_bounds minmax' position).
Proof.
  intros H Hp (Hl1 & Hl2 & Hn1 & Hn2). destruct minmax as [lo hi].
  cbn [fst snd] in *.
  destruct (list_of_length_3 _ Hp) as (p0 & p1 & p2 & ->).
  destruct (list_of_length_3 _ Hl1) as (l0 & l1 & l2 & ->).
  destruct (list_of_length_3 _ Hl2) as (h0 & h1 & h2 & ->).
  change (Ok ([if Float.ltb p0 l0 then p0 else l0;
               if Float.ltb p1 l1 then p1 else l1;
               if Float.ltb p2 l2 then p2 else l2],
              [if Float.gtb p0 h0 then p0 else h0;
               if Float.gtb p1 h1 then p1 else h1;
               if Float.gtb p2 h2 then p2 else h2]) = Ok minmax') in H.
  injection H as <-.
  inversion Hn1 as [| ? ? A0 Hn1']; subst.
  inversion Hn1' as [| ? ? A1 Hn1'']; subst.
  inversion Hn1'' as [| ? ? A2 _]; subst.
  inversion Hn2 as [| ? ? B0 Hn2']; subst.
  inversion Hn2' as [| ? ? B1 Hn2'']; subst.
  inversion Hn2'' as [| ? ? B2 _]; subst.
  destruct (lower_bound_step p0 l0 A0) as (L01 & L02 & L03).
  destruct (lower_bound_step p1 l1 A1) as (L11 & L12 & L13).
  destruct (lower_bound_step p2 l2 A2) as (L21 & L22 & L23).
  destruct (upper_bound_step p0 h0 B0) as (U01 & U02 & U03).
  destruct (upper_bound_step p1 h1 B1) as (U11 & U12 & U13).
  destruct (upper_bound_step p2 h2 B2) as (U21 & U22 & U23).
  unfold box_ok, box_widens, within_bounds. cbn [fst snd List.length].
  repeat split; try reflexivity;
    try (repeat constructor; assumption).
  - inversion H as [| ? ? P0 H']; subst. inversion H' as [| ? ? P1 H'']; subst.
    inversion H'' as [| ? ? P2 _]; subst.
    repeat constructor; auto.
  - inversion H as [| ? ? P0 H']; subst. inversion H' as [| ? ? P1 H'']; subst.
    inversion H'' as [| ? ? P2 _]; subst.
    repeat constructor; auto.
Qed.

Lemma Forall2_leb_trans (a b c : list float) :
  Forall2 (fun x y => Float.leb x y = true) a b ->
  Forall2 (fun x y => Float.leb x y = true) b c ->
  Forall2 (fun x y => Float.leb x y = true) a c.
Proof.
  intros H. revert c. induction H as [| x y a b Hxy _ IH]; intros c Hc.
  - inversion Hc. constructor.
  - inversion Hc as [| ? z ? c' Hyz Hc']; subst.
    constructor; [exact (leb_trans _ _ _ Hxy Hyz) | now apply IH].
Qed.

Lemma Forall2_leb_refl (a : list float) :
  Forall (fun x => is_nan x = false) a ->
  Forall2 (fun x y => Float.leb x y = true) a a.
Proof.
  intros H. induction H; constructor; [now apply leb_refl | assumption].
Qed.

Lemma box_widens_refl (a : min_max_t) : box_ok a -> box_widens a a.
Proof.
  intros (_ & _ & H1 & H2). split; now apply Forall2_leb_refl.
Qed.

Lemma box_widens_trans (a b c : min_max_t) :
  box_widens a b -> box_widens b c -> box_widens a c.
Proof.
  intros [H1 H2] [H3 H4]. split.
  - exact (Forall2_leb_trans _ _ _ H3 H1).
  - exact (Forall2_leb_trans _ _ _ H2 H4).
Qed.

Lemma within_bounds_widens (a b : min_max_t) (p : list float) :
  within_bounds a p -> box_widens a b -> within_bounds b p.
Proof.
  intros [H1 H2] [H3 H4]. split.
  - exact (Forall2_leb_trans _ _ _ H3 H1).
  - exact (Forall2_leb_trans _ _ _ H2 H4).
Qed.

Lemma axis_blender_to_glb_length (v p : list float) :
  axis_blender_to_glb v = Ok p -> List.length p = 3%nat.
Proof.
  unfold axis_blender_to_glb. intros H. apply mapM_length in H. exact H.
Qed.

(** What a pass of the loop does to the bounds of the positions. *)
Lemma corner_step_bounds (st st' : MeshState) (loop : Loop) (slot : Z) :
  corner_step env st loop = Ok (st', slot) ->
  box_ok (position_min_max st) ->
  box_ok (position_min_max st')
  /\ box_widens (position_min_max st) (position_min_max st')
  /\ (unique_vertex_id st' <> unique_vertex_id st ->
      forall p, axis_blender_to_glb (vec3_list (vert_co loop)) = Ok p ->
                Forall (fun x => is_nan x = false) p ->
                within_bounds (position_min_max st') p).
Proof.
  intros H Hok. unfold corner_step in H. bind_as H key Ek.
  destruct (Assoc.get key_eqb (unique_vertex_dic st) key) as [v |].
  - bind_as H idx Ei. injection H as <- _. cbn [position_min_max unique_vertex_id].
    split; [exact Hok|]. split; [now apply box_widens_refl|].
    intros K. now contradiction K.
  - bind_as H tex Etex. bind_as H shapes Esh. bind_as H skin Esk.
    bind_as H loc El. bind_as H pb Epb. bind_as H mm Emm.
    bind_as H nrm En. bind_as H nb Enb. bind_as H idx Ei.
    injection H as <- _. cbn [position_min_max unique_vertex_id].
    destruct (min_max_bounds _ _ _ Emm (axis_blender_to_glb_length _ _ El) Hok)
      as (M1 & M2 & M3).
    split; [exact M1|]. split; [exact M2|].
    intros _ p Hp Hnn. assert (p = loc) by congruence. subst p.
    now apply M3.
Qed.

Lemma corner_step_dic_range (st st' : MeshState) (loop : Loop) (slot : Z) :
  corner_step env st loop = Ok (st', slot) ->
  0 <= unique_vertex_id st ->
  Forall (fun e => 0 <= snd e < unique_vertex_id st) (unique_vertex_dic st) ->
  0 <= slot < unique_vertex_id st'
  /\ unique_vertex_id st <= unique_vertex_id st' <= unique_vertex_id st + 1
  /\ (unique_vertex_id st < unique_vertex_id st' ->
      slot = unique_vertex_id st)
  /\ (unique_vertex_id st' = unique_vertex_id st ->
      slot < unique_vertex_id st)
  /\ Forall (fun e => 0 <= snd e < unique_vertex_id st')
            (unique_vertex_dic st').
Proof.
  intros Er Hn Hd.
  destruct (corner_step_slot env _ _ _ _ Er) as [k [Hk Hget]].
  destruct (Assoc.get key_eqb (unique_vertex_dic st) k) as [v |] eqn:Eg.
  - destruct Hget as [-> [-> ->]].
    destruct (get_key_some _ _ _ Eg) as [k' [Hin _]].
    rewrite Forall_forall in Hd. pose proof (Hd _ Hin) as Hv.
    cbn [snd] in Hv.
    repeat split; try lia. now apply Forall_forall.
  - destruct Hget as [-> [-> ->]].
    repeat split; try lia.
    apply Forall_app. split.
    + eapply Forall_impl; [|exact Hd]. intros e He. cbv beta in He. lia.
    + constructor; [cbn [snd]; lia | constructor].
Qed.

Lemma corners_loop_bounds (loops : list Loop) :
  forall st st' slots,
    corners_loop env st loops = Ok (st', slots) ->
    box_ok (position_min_max st) ->
    0 <= unique_vertex_id st ->
    Forall (fun e => 0 <= snd e < unique_vertex_id st) (unique_vertex_dic st) ->
    box_ok (position_min_max st')
    /\ box_widens (position_min_max st) (position_min_max st')
    /\ forall (j : nat) (c : Loop) (s : Z) (p : list float),
         nth_error loops j = Some c -> nth_error slots j = Some s ->
         unique_vertex_id st <= s -> ~ In s (firstn j slots) ->
         axis_blender_to_glb (vec3_list (vert_co c)) = Ok p ->
         Forall (fun x => is_nan x = false) p ->
         within_bounds (position_min_max st') p.
Proof.
  induction loops as [| loop loops IH]; intros st st' slots H Hok Hn Hd.
  - injection H as <- <-. split; [exact Hok|].
    split; [now apply box_widens_refl|].
    intros [| j] c s p Hc; discriminate Hc.
  - cbn [corners_loop] in H. bind_as H r Er. bind_as H r' Er'.
    injection H as <- <-. destruct r as [st1 slot]. destruct r' as [st2 slots'].
    cbn [fst snd] in *.
    destruct (corner_step_bounds _ _ _ _ Er Hok) as (B1 & B2 & B3).
    destruct (corner_step_dic_range _ _ _ _ Er Hn Hd)
      as (R1 & R2 & R3 & R4 & R5).
    destruct (IH _ _ _ Er' B1) as (I1 & I2 & I3); [lia | exact R5 |].
    split; [exact I1|]. split; [exact (box_widens_trans _ _ _ B2 I2)|].
    intros [| j] c s p Hc Hs Hge Hfresh Hp Hnn.
    + injection Hc as <-. injection Hs as <-.
      apply (within_bounds_widens (position_min_max st1)); [|exact I2].
      apply B3; [|exact Hp | exact Hnn].
      intros K. specialize (R4 K). lia.
    + cbn [nth_error] in Hc, Hs. cbn [firstn] in Hfresh.
      apply (I3 j c s p Hc Hs); try assumption.
      * destruct (Z.eq_dec (unique_vertex_id st1) (unique_vertex_id st))
          as [Heq | Hneq]; [lia|].
        assert (slot = unique_vertex_id st) by (apply R3; lia).
        assert (s <> slot) by (intros ->; apply Hfresh; now left).
        lia.
      * intros K. apply Hfresh. now right.
Qed.

(** X5: the bounds kept for the positions of a mesh contain every
    exported position: for the first corner that receives a slot, each
    coordinate of its converted position lies between the lower and the
    upper bound left by the loop, provided the position holds no NaN. *)
Theorem position_bounds_contain_the_vertices :
  forall (st0 st : MeshState) (loops : list Loop) (slots : list Z)
         (j : nat) (c : Loop) (s : Z) (p : list float),
    initial_state env = Ok st0 ->
    corners_loop env st0 loops = Ok (st, slots) ->
    nth_error loops j = Some c -> nth_error slots j = Some s ->
    ~ In s (firstn j slots) ->
    axis_blender_to_glb (vec3_list (vert_co c)) = Ok p ->
    Forall (fun x => is_nan x = false) p ->
    within_bounds (position_min_max st) p.
Proof.
  intros st0 st loops slots j c s p Hinit Hrun Hc Hs Hfresh Hp Hnn.
  destruct (initial_state_empty env st0 Hinit) as [Hd Hn].
  assert (Hok : box_ok (position_min_max st0)).
  { unfold initial_state in Hinit. bind_as Hinit ids Ei.
    injection Hinit as <-. cbn [position_min_max].
    unfold box_ok. cbn [fst snd List.length].
    repeat split; repeat constructor. }
  destruct (corners_loop_slot_range loops st0 st slots Hrun)
    as (_ & _ & Hr & _); [lia | rewrite Hd; constructor |].
  destruct (corners_loop_bounds loops st0 st slots Hrun Hok) as (_ & _ & H);
    [lia | rewrite Hd; constructor |].
  apply (H j c s p Hc Hs); try assumption.
  rewrite Hn. rewrite Forall_forall in Hr.
  apply nth_error_In in Hs. specialize (Hr s Hs). lia.
Qed.

End MeshBuffers.

Lemma vertex_buffers_hold_one_element_per_slot_witness :
  let env :=
    mkMeshEnv (mkSkinEnv "Body" ["Hips"%string] [("Hips"%string, 0)] [[0]]
                 [("hips", "Hips")]%string ["Hips"%string])
      true 1 1 [[[zero; zero; zero]; [zero; zero; zero]]]
      ["Skin"%string] [("Skin"%string, 0)] "0.0" in
  let corner := fun (u : Z) (index : Z) =>
    mkLoop [(of_Z u, of_Z 0)] (of_Z 0, of_Z 0, of_Z 1) index
      (of_Z 1, of_Z 2, of_Z 3) [mkVertexGroupElement 0 one]
      [(of_Z 1, of_Z 2, of_Z 4)] 0 in
  match initial_state env with
  | Ok st0 =>
      match corners_loop env st0 [corner 0 0; corner 1 1; corner 0 0] with
      | Ok (st, _) => unique_vertex_id st = 2 /\ buffers_match env st
      | Raise _ => False
      end
  | Raise _ => False
  end.
Proof.
  intros env corner.
  destruct (initial_state env) as [st0 |] eqn:E0;
    [|vm_compute in E0; discriminate E0].
  destruct (corners_loop env st0 [corner 0 0; corner 1 1; corner 0 0])
    as [[st slots] |] eqn:E1;
    [|vm_compute in E0; injection E0 as <-;
      vm_compute in E1; discriminate E1].
  split.
  - vm_compute in E0. injection E0 as <-. vm_compute in E1.
    now injection E1 as <- _.
  - exact (vertex_buffers_hold_one_element_per_slot env st0 st _ _ E0 E1).
Defined.

Lemma indices_address_the_vertex_slots_witness :
  let env :=
    mkMeshEnv (mkSkinEnv "Body" [] [] [] [] []) false 1 0 []
      ["Skin"%string] [("Skin"%string, 0)] "0.0" in
  let corner := fun (u : Z) (index : Z) =>
    mkLoop [(of_Z u, of_Z 0)] (of_Z 0, of_Z 0, of_Z 1) index
      (of_Z 1, of_Z 2, of_Z 3) [] [] 0 in
  match initial_state env with
  | Ok st0 =>
      match corners_loop env st0 [corner 0 5; corner 1 5; corner 0 5] with
      | Ok (st, slots) =>
          0 <= unique_vertex_id st <= 3
          /\ Forall (fun s => 0 <= s < unique_vertex_id st) slots
      | Raise _ => False
      end
  | Raise _ => False
  end.
Proof.
  intros env corner.
  destruct (initial_state env) as [st0 |] eqn:E0;
    [|vm_compute in E0; discriminate E0].
  destruct (corners_loop env st0 [corner 0 5; corner 1 5; corner 0 5])
    as [[st slots] |] eqn:E1;
    [|vm_compute in E0; injection E0 as <-;
      vm_compute in E1; discriminate E1].
  destruct (indices_address_the_vertex_slots env st0 st _ _ E0 E1)
    as (H1 & H2 & _).
  split; [exact H1 | exact H2].
Defined.

Lemma index_buffer_lists_the_slots_of_its_material_witness :
  let env :=
    mkMeshEnv (mkSkinEnv "Body" [] [] [] [] []) false 1 0 []
      ["Skin"; "Hair"]%string [("Skin"%string, 0); ("Hair"%string, 1)] "0.0" in
  let corner := fun (u : Z) (index : Z) (material : Z) =>
    mkLoop [(of_Z u, of_Z 0)] (of_Z 0, of_Z 0, of_Z 1) index
      (of_Z 1, of_Z 2, of_Z 3) [] [] material in
  let loops := [corner 0 5 0; corner 1 5 1; corner 0 5 1] in
  match initial_state env with
  | Ok st0 =>
      match corners_loop env st0 loops with
      | Ok (st, slots) =>
          material_slots env loops slots 1 = [1; 0]
          /\ Assoc.get Z.eqb (primitive_index_bin_dic st) 1
             = Some (flat_map (le_bytes 4) (material_slots env loops slots 1))
      | Raise _ => False
      end
  | Raise _ => False
  end.
Proof.
  intros env corner loops.
  destruct (initial_state env) as [st0 |] eqn:E0;
    [|vm_compute in E0; discriminate E0].
  destruct (corners_loop env st0 loops) as [[st slots] |] eqn:E1;
    [|vm_compute in E0; injection E0 as <-;
      vm_compute in E1; discriminate E1].
  assert (Hs : slots = [0; 1; 0]).
  { vm_compute in E0. injection E0 as <-. vm_compute in E1.
    now injection E1 as _ <-. }
  split; [now rewrite Hs|].
  destruct (Assoc.get Z.eqb (primitive_index_bin_dic st) 1) as [b |] eqn:Eb.
  - destruct (index_buffer_lists_the_slots_of_its_material env st0 st _ _
                E0 E1 1 b Eb) as [-> _].
    reflexivity.
  - exfalso. vm_compute in E0. injection E0 as <-. vm_compute in E1.
    injection E1 as <- _. discriminate Eb.
Defined.

Lemma primitives_cover_the_used_materials_witness :
  let env :=
    mkMeshEnv (mkSkinEnv "Body" [] [] [] [] []) false 1 0 []
      ["Skin"; "Hair"]%string [("Skin"%string, 0); ("Hair"%string, 1)] "0.0" in
  let corner := fun (u : Z) (index : Z) =>
    mkLoop [(of_Z u, of_Z 0)] (of_Z 0, of_Z 0, of_Z 1) index
      (of_Z 1, of_Z 2, of_Z 3) [] [] 1 in
  match initial_state env with
  | Ok st0 =>
      match corners_loop env st0 [corner 0 5; corner 1 5; corner 0 5] with
      | Ok (st, slots) =>
          exists prims,
            primitive_glbs_dic st = Ok prims
            /\ NoDup (map (fun p : Z * bytes * Z => fst (fst p)) prims)
            /\ In 1 (map (fun p : Z * bytes * Z => fst (fst p)) prims)
      | Raise _ => False
      end
  | Raise _ => False
  end.
Proof.
  intros env corner.
  destruct (initial_state env) as [st0 |] eqn:E0;
    [|vm_compute in E0; discriminate E0].
  destruct (corners_loop env st0 [corner 0 5; corner 1 5; corner 0 5])
    as [[st slots] |] eqn:E1;
    [|vm_compute in E0; injection E0 as <-;
      vm_compute in E1; discriminate E1].
  destruct (primitives_cover_the_used_materials env st0 st _ _ E0 E1)
    as (prims & H1 & _ & H3 & H4).
  exists prims. split; [exact H1|]. split; [exact H3|].
  apply (H4 (corner 0 5)); [now left | reflexivity].
Defined.

Lemma position_bounds_contain_the_vertices_witness :
  let env :=
    mkMeshEnv (mkSkinEnv "Body" [] [] [] [] []) false 1 0 []
      ["Skin"%string] [("Skin"%string, 0)] "0.0" in
  let corner := fun (u : Z) (index : Z) (x : Z) =>
    mkLoop [(of_Z u, of_Z 0)] (of_Z 0, of_Z 0, of_Z 1) index
      (of_Z x, of_Z 2, of_Z 3) [] [] 0 in
  match initial_state env with
  | Ok st0 =>
      match corners_loop env st0 [corner 0 5 1; corner 1 6 (-4)] with
      | Ok (st, _) =>
          within_bounds (position_min_max st) [of_Z 4; of_Z 3; of_Z 2]
      | Raise _ => False
      end
  | Raise _ => False
  end.
Proof.
  intros env corner.
  destruct (initial_state env) as [st0 |] eqn:E0;
    [|vm_compute in E0; discriminate E0].
  destruct (corners_loop env st0 [corner 0 5 1; corner 1 6 (-4)])
    as [[st slots] |] eqn:E1;
    [|vm_compute in E0; injection E0 as <-;
      vm_compute in E1; discriminate E1].
  assert (Hs : slots = [0; 1]).
  { vm_compute in E0. injection E0 as <-. vm_compute in E1.
    now injection E1 as _ <-. }
  apply (position_bounds_contain_the_vertices env st0 st _ slots 1%nat
           (corner 1 6 (-4)) 1 _ E0 E1).
  - reflexivity.
  - now rewrite Hs.
  - rewrite Hs. cbn [firstn In]. intros [K | []]. discriminate K.
  - reflexivity.
  - repeat constructor.
Defined.

(** ** The table of textures and samplers *)

Section TextureTable.

Lemma pair_eqb_spec (a b : Z * Z) : pair_eqb a b = true <-> a = b.
Proof.
  unfold pair_eqb. destruct a as [a1 a2], b as [b1 b2]. cbn [fst snd].
  rewrite andb_true_iff, !Z.eqb_eq. split.
  - intros [-> ->]. reflexivity.
  - intros H. injection H as -> ->. auto.
Qed.

Lemma pair_eqb_refl (a : Z * Z) : pair_eqb a a = true.
Proof. now apply pair_eqb_spec. Qed.

Lemma pair_get_in (d : list (Z * Z * Z)) (k : Z * Z) (v : Z) :
  Assoc.get pair_eqb d k = Some v -> In (k, v) d.
Proof.
  induction d as [| [k0 v0] d IH]; cbn [Assoc.get]; [discriminate|].
  destruct (pair_eqb k0 k) eqn:E.
  - apply pair_eqb_spec in E. subst k0. intros H. injection H as <-. now left.
  - intros H. right. now apply IH.
Qed.

Lemma pair_get_none (d : list (Z * Z * Z)) (k : Z * Z) :
  Assoc.get pair_eqb d k = None -> ~ In k (map fst d).
Proof.
  induction d as [| [k0 v0] d IH]; cbn [Assoc.get map fst In]; [tauto|].
  destruct (pair_eqb k0 k) eqn:E; [discriminate|].
  intros H [K | K]; [|now apply IH].
  subst k0. rewrite pair_eqb_refl in E. discriminate E.
Qed.

Lemma pair_in_get (d : list (Z * Z * Z)) (k : Z * Z) (v : Z) :
  NoDup (map fst d) -> In (k, v) d -> Assoc.get pair_eqb d k = Some v.
Proof.
  induction d as [| [k0 v0] d IH]; cbn [map fst Assoc.get]; intros Hn Hin.
  - contradiction.
  - inversion Hn as [| ? ? Hk Hd]; subst. destruct Hin as [Heq | Hin].
    + injection Heq as -> ->. now rewrite pair_eqb_refl.
    + destruct (pair_eqb k0 k) eqn:E; [|now apply IH].
      apply pair_eqb_spec in E. subst k0. exfalso. apply Hk.
      apply in_map_iff. now exists (k, v).
Qed.

Lemma pair_set_new (d : list (Z * Z * Z)) (k : Z * Z) (v : Z) :
  Assoc.get pair_eqb d k = None ->
  Assoc.set pair_eqb d k v = (d ++ [(k, v)])%list.
Proof.
  induction d as [| [k0 v0] d IH]; cbn [Assoc.get Assoc.set app];
    [reflexivity|].
  destruct (pair_eqb k0 k); [discriminate|].
  intros H. now rewrite (IH H).
Qed.

Lemma numbered_nil : numbered [].
Proof.
  split; [constructor|]. intros [| i] e H; discriminate H.
Qed.

Lemma numbered_snoc (d : list (Z * Z * Z)) (k : Z * Z) :
  numbered d -> Assoc.get pair_eqb d k = None ->
  numbered (d ++ [(k, Z.of_nat (List.length d))]).
Proof.
  intros [Hn Hi] Hg. split.
  - rewrite map_app. cbn [map fst].
    apply NoDup_app; [exact Hn | repeat constructor; intros [] |].
    intros x Hx [<- | []]. exact (pair_get_none _ _ Hg Hx).
  - intros i e He.
    destruct (Nat.lt_ge_cases i (List.length d)) as [Hlt | Hge].
    + rewrite nth_error_app1 in He by exact Hlt. now apply Hi.
    + rewrite nth_error_app2 in He by exact Hge.
      destruct (i - List.length d)%nat as [| n] eqn:En.
      * injection He as <-. cbn [snd]. f_equal. lia.
      * destruct n; discriminate He.
Qed.

Lemma numbered_nth (d : list (Z * Z * Z)) (k : Z * Z) (v : Z) :
  numbered d -> In (k, v) d ->
  0 <= v < Z.of_nat (List.length d)
  /\ nth_error d (Z.to_nat v) = Some (k, v).
Proof.
  intros [_ Hi] Hin. apply In_nth_error in Hin. destruct Hin as [i Hnth].
  pose proof (Hi i _ Hnth) as Hv. cbn [snd] in Hv. subst v.
  rewrite Nat2Z.id. split; [|exact Hnth].
  assert (i < List.length d)%nat by (apply nth_error_Some; congruence).
  lia.
Qed.

Lemma numbered_key_of_value (d : list (Z * Z * Z)) (k1 k2 : Z * Z) (v : Z) :
  numbered d -> In (k1, v) d -> In (k2, v) d -> k1 = k2.
Proof.
  intros Hd H1 H2.
  destruct (numbered_nth d k1 v Hd H1) as [_ N1].
  destruct (numbered_nth d k2 v Hd H2) as [_ N2]. congruence.
Qed.

Lemma numbered_value_of_key (d : list (Z * Z * Z)) (k : Z * Z) (v1 v2 : Z) :
  numbered d -> In (k, v1) d -> In (k, v2) d -> v1 = v2.
Proof.
  intros [Hn _] H1 H2.
  pose proof (pair_in_get d k v1 Hn H1). pose proof (pair_in_get d k v2 Hn H2).
  congruence.
Qed.

(** What [add_texture] returns and leaves behind. *)
Lemma add_texture_spec (ids : Dict.t Z) (st st' : TexState)
    (name : string) (wrap filter t : Z) :
  tex_ok st -> add_texture ids st (name, wrap, filter) = Ok (t, st') ->
  tex_ok st' /\ tex_extends st st'
  /\ exists image_id sampler,
       Dict.get ids name = Some image_id
       /\ In ((wrap, filter), sampler) (sampler_dic st')
       /\ In ((image_id, sampler), t) (texture_dic st')
       /\ (In (wrap, filter) (map fst (sampler_dic st)) ->
           In (image_id, sampler) (map fst (texture_dic st)) -> st' = st).
Proof.
  intros (Hs & Ht & Hsc & Htc) H. unfold add_texture in H.
  cbn [fst snd] in H.
  set (st1 := match Assoc.get pair_eqb (sampler_dic st) (wrap, filter) with
              | Some _ => st
              | None =>
                  mkTexState
                    (Assoc.set pair_eqb (sampler_dic st) (wrap, filter)
                       (sampler_count st))
                    (texture_dic st) (sampler_count st + 1) (texture_count st)
              end) in H.
  assert (H1 : tex_ok st1 /\ tex_extends st st1
               /\ (In (wrap, filter) (map fst (sampler_dic st)) -> st1 = st)
               /\ exists sampler,
                    Assoc.get pair_eqb (sampler_dic st1) (wrap, filter)
                    = Some sampler).
  { subst st1.
    destruct (Assoc.get pair_eqb (sampler_dic st) (wrap, filter))
      as [s0 |] eqn:Eg.
    - split; [exact (conj Hs (conj Ht (conj Hsc Htc)))|].
      split; [split; exists []; now rewrite app_nil_r|].
      split; [reflexivity | now exists s0].
    - rewrite (pair_set_new _ _ _ Eg), Hsc.
      split; [|split; [|split]].
      + unfold tex_ok.
        cbn [sampler_dic texture_dic sampler_count texture_count].
        split; [now apply numbered_snoc|]. split; [exact Ht|].
        split; [|exact Htc]. rewrite length_app. cbn [List.length]. lia.
      + split; cbn [sampler_dic texture_dic]; [now eexists|].
        exists []. now rewrite app_nil_r.
      + intros K. exfalso. exact (pair_get_none _ _ Eg K).
      + exists (Z.of_nat (List.length (sampler_dic st))).
        cbn [sampler_dic]. apply pair_in_get.
        * apply (proj1 (numbered_snoc _ _ Hs Eg)).
        * apply in_or_app. right. now left. }
  clearbody st1. destruct H1 as (Hok1 & Hext1 & Hsame1 & sampler & Hsam).
  destruct (Dict.getitem ids name) as [image_id |] eqn:Eid; [|discriminate H].
  cbn [Py.bind] in H. rewrite Hsam in H.
  unfold Dict.getitem in Eid.
  destruct (Dict.get ids name) as [i0 |] eqn:Eget; [|discriminate Eid].
  injection Eid as ->.
  destruct Hok1 as (Hs1 & Ht1 & Hsc1 & Htc1).
  set (st2 := match Assoc.get pair_eqb (texture_dic st1) (image_id, sampler)
              with
              | Some _ => st1
              | None =>
                  mkTexState (sampler_dic st1)
                    (Assoc.set pair_eqb (texture_dic st1) (image_id, sampler)
                       (texture_count st1))
                    (sampler_count st1) (texture_count st1 + 1)
              end) in H.
  assert (H2 : tex_ok st2 /\ tex_extends st1 st2
               /\ (In (image_id, sampler) (map fst (texture_dic st1)) ->
                   st2 = st1)
               /\ exists t0,
                    Assoc.get pair_eqb (texture_dic st2) (image_id, sampler)
                    = Some t0).
  { subst st2.
    destruct (Assoc.get pair_eqb (texture_dic st1) (image_id, sampler))
      as [t0 |] eqn:Eg.
    - split; [exact (conj Hs1 (conj Ht1 (conj Hsc1 Htc1)))|].
      split; [split; exists []; now rewrite app_nil_r|].
      split; [reflexivity | now exists t0].
    - rewrite (pair_set_new _ _ _ Eg), Htc1.
      split; [|split; [|split]].
      + unfold tex_ok.
        cbn [sampler_dic texture_dic sampler_count texture_count].
        split; [exact Hs1|]. split; [now apply numbered_snoc|].
        split; [exact Hsc1|]. rewrite length_app. cbn [List.length]. lia.
      + split; cbn [sampler_dic texture_dic]; [|now eexists].
        exists []. now rewrite app_nil_r.
      + intros K. exfalso. exact (pair_get_none _ _ Eg K).
      + exists (Z.of_nat (List.length (texture_dic st1))).
        cbn [texture_dic]. apply pair_in_get.
        * apply (proj1 (numbered_snoc _ _ Ht1 Eg)).
        * apply in_or_app. right. now left. }
  clearbody st2. destruct H2 as (Hok2 & Hext2 & Hsame2 & t0 & Htex).
  rewrite Htex in H. injection H as <- <-.
  split; [exact Hok2|]. split.
  { destruct Hext1 as [[l1 E1] [l2 E2]]. destruct Hext2 as [[l3 E3] [l4 E4]].
    split.
    - exists (l1 ++ l3)%list. rewrite E3, E1. now rewrite app_assoc.
    - exists (l2 ++ l4)%list. rewrite E4, E2. now rewrite app_assoc. }
  exists image_id, sampler. split; [reflexivity|].
  split.
  { destruct Hext2 as [[l3 E3] _]. rewrite E3. apply in_or_app. left.
    now apply pair_get_in. }
  split; [now apply pair_get_in|].
  intros K1 K2. rewrite (Hsame1 K1) in Hsame2. exact (Hsame2 K2).
Qed.

Lemma tex_extends_in (st st' : TexState) :
  tex_extends st st' ->
  (forall e, In e (sampler_dic st) -> In e (sampler_dic st'))
  /\ (forall e, In e (texture_dic st) -> In e (texture_dic st')).
Proof.
  intros [[l1 E1] [l2 E2]]. rewrite E1, E2.
  split; intros e He; apply in_or_app; now left.
Qed.

(** X6: the number that [add_texture] returns for an image and a sampling
    mode is the position, in the [textures] list written at the end, of
    the entry that names this image and a sampler, and that sampler is the
    entry of the [samplers] list with this wrap and filter; this stays
    true whatever is added to the two tables afterwards.  The tables stay
    consistent and only grow. *)
Theorem texture_index_names_its_entry :
  forall (ids : Dict.t Z) (st st' : TexState) (name : string)
         (wrap filter t : Z),
    tex_ok st -> add_texture ids st (name, wrap, filter) = Ok (t, st') ->
    tex_ok st' /\ tex_extends st st'
    /\ 0 <= t < texture_count st'
    /\ exists image_id sampler,
         Dict.get ids name = Some image_id
         /\ forall (st'' : TexState) (json_dic : Dict.t json),
              tex_ok st'' -> tex_extends st' st'' ->
              let d := apply_texture_and_sampler_to_dic st'' json_dic in
              json_item d "textures" t
              = Some (JDict [("sampler", JInt sampler);
                             ("source", JInt image_id)]%string)
              /\ json_item d "samplers" sampler
                 = Some (JDict [("magFilter", JInt filter);
                                ("minFilter", JInt filter);
                                ("wrapS", JInt wrap);
                                ("wrapT", JInt wrap)]%string).
Proof.
  intros ids st st' name wrap filter t Hok H.
  destruct (add_texture_spec ids st st' name wrap filter t Hok H)
    as (Hok' & Hext & image_id & sampler & Hid & Hsam & Htex & _).
  split; [exact Hok'|]. split; [exact Hext|].
  split.
  { destruct Hok' as (_ & Ht' & _ & Htc').
    destruct (numbered_nth _ _ _ Ht' Htex) as [Hr _]. lia. }
  exists image_id, sampler. split; [exact Hid|].
  intros st'' json_dic (Hs2 & Ht2 & Hsc2 & Htc2) Hext2 d.
  destruct (tex_extends_in _ _ Hext2) as [Hins Hint].
  destruct (numbered_nth _ _ _ Hs2 (Hins _ Hsam)) as [Rs Ns].
  destruct (numbered_nth _ _ _ Ht2 (Hint _ Htex)) as [Rt Nt].
  subst d. unfold apply_texture_and_sampler_to_dic, json_item.
  replace (0 <? sampler_count st'') with true
    by (symmetry; apply Z.ltb_lt; lia).
  replace (0 <? texture_count st'') with true
    by (symmetry; apply Z.ltb_lt; lia).
  rewrite !dict_get_set. cbn [String.eqb Ascii.eqb Bool.eqb].
  replace (t <? 0) with false by (symmetry; apply Z.ltb_ge; lia).
  replace (sampler <? 0) with false by (symmetry; apply Z.ltb_ge; lia).
  split.
  - rewrite (map_nth_error _ _ _ Nt). reflexivity.
  - rewrite (map_nth_error _ _ _ Ns). reflexivity.
Qed.

(** X7: two requests made one after the other receive the same texture
    number exactly when they name images with the same image id and ask
    for the same wrap and filter; a request that repeats the one before
    leaves the tables as they are. *)
Theorem texture_requests_share_a_number_iff_equal :
  forall (ids : Dict.t Z) (st st1 st2 : TexState) (a b : texture_ref)
         (t1 t2 : Z),
    tex_ok st ->
    add_texture ids st a = Ok (t1, st1) ->
    add_texture ids st1 b = Ok (t2, st2) ->
    (t1 = t2 <->
     Dict.get ids (fst (fst a)) = Dict.get ids (fst (fst b))
     /\ snd (fst a) = snd (fst b) /\ snd a = snd b)
    /\ (t1 = t2 -> st2 = st1).
Proof.
  intros ids st st1 st2 [[n1 w1] f1] [[n2 w2] f2] t1 t2 Hok Ha Hb.
  cbn [fst snd].
  destruct (add_texture_spec ids st st1 n1 w1 f1 t1 Hok Ha)
    as (Hok1 & _ & i1 & s1 & Hi1 & Hs1 & Ht1 & _).
  destruct (add_texture_spec ids st1 st2 n2 w2 f2 t2 Hok1 Hb)
    as (Hok2 & Hext & i2 & s2 & Hi2 & Hs2 & Ht2 & Hsame).
  destruct (tex_extends_in _ _ Hext) as [Hins Hint].
  destruct Hok2 as (Ns & Nt & _ & _).
  assert (Hiff : t1 = t2 <-> i1 = i2 /\ w1 = w2 /\ f1 = f2).
  { split.
    - intros <-.
      pose proof (numbered_key_of_value _ _ _ _ Nt (Hint _ Ht1) Ht2) as K.
      injection K as <- <-.
      pose proof (numbered_key_of_value _ _ _ _ Ns (Hins _ Hs1) Hs2) as K.
      injection K as <- <-. auto.
    - intros (<- & <- & <-).
      pose proof (numbered_value_of_key _ _ _ _ Ns (Hins _ Hs1) Hs2) as <-.
      exact (numbered_value_of_key _ _ _ _ Nt (Hint _ Ht1) Ht2). }
  split.
  - rewrite Hiff, Hi1, Hi2. split.
    + intros (<- & <- & <-). auto.
    + intros (K & <- & <-). injection K as <-. auto.
  - intros Heq. apply Hiff in Heq. destruct Heq as (<- & <- & <-).
    pose proof (numbered_value_of_key _ _ _ _ Ns (Hins _ Hs1) Hs2) as <-.
    apply Hsame.
    + apply in_map_iff. now exists ((w1, f1), s1).
    + apply in_map_iff. now exists ((i1, s1), t1).
Qed.

End TextureTable.

Lemma texture_index_names_its_entry_witness :
  let ids : Dict.t Z := [("face.png", 4); ("hair.png", 7)]%string in
  let st := mkTexState [] [] 0 0 in
  match add_texture ids st ("hair.png"%string, 10497, 9729) with
  | Ok (t, st') =>
      t = 0
      /\ json_item (apply_texture_and_sampler_to_dic st' []) "textures" t
         = Some (JDict [("sampler", JInt 0); ("source", JInt 7)]%string)
  | Raise _ => False
  end.
Proof.
  intros ids st.
  destruct (add_texture ids st ("hair.png"%string, 10497, 9729))
    as [[t st'] |] eqn:E; [|vm_compute in E; discriminate E].
  assert (Hok : tex_ok st).
  { repeat split; try apply numbered_nil. }
  destruct (texture_index_names_its_entry ids st st' _ _ _ t Hok E)
    as (Hok' & _ & _ & image_id & sampler & Hid & H).
  destruct (H st' [] Hok') as [H1 _].
  { split; exists []; now rewrite app_nil_r. }
  assert (t = 0 /\ image_id = 7).
  { vm_compute in E. injection E as <- _. vm_compute in Hid.
    injection Hid as <-. auto. }
  destruct H0 as [-> ->]. split; [reflexivity|].
  rewrite H1. f_equal. f_equal.
  vm_compute in E. injection E as <-. vm_compute in H1.
  now injection H1 as <-.
Defined.

Lemma texture_requests_share_a_number_iff_equal_witness :
  let ids : Dict.t Z := [("face.png", 4); ("hair.png", 7)]%string in
  let st := mkTexState [] [] 0 0 in
  match add_texture ids st ("hair.png"%string, 10497, 9729) with
  | Ok (t1, st1) =>
      match add_texture ids st1 ("hair.png"%string, 10497, 9729) with
      | Ok (t2, st2) => t1 = t2 /\ st2 = st1
      | Raise _ => False
      end
  | Raise _ => False
  end.
Proof.
  intros ids st.
  destruct (add_texture ids st ("hair.png"%string, 10497, 9729))
    as [[t1 st1] |] eqn:E1; [|vm_compute in E1; discriminate E1].
  destruct (add_texture ids st1 ("hair.png"%string, 10497, 9729))
    as [[t2 st2] |] eqn:E2;
    [|vm_compute in E1; injection E1 as <- <-;
      vm_compute in E2; discriminate E2].
  assert (Hok : tex_ok st).
  { repeat split; try apply numbered_nil. }
  destruct (texture_requests_share_a_number_iff_equal ids st st1 st2 _ _
              t1 t2 Hok E1 E2) as [H1 H2].
  assert (Heq : t1 = t2) by (apply H1; auto).
  split; [exact Heq | exact (H2 Heq)].
Defined.

(** ** The list of materials *)

Section MaterialList.

Lemma used_materials_fold (l : list Material) :
  forall acc : list Material,
    NoDup (map mat_id acc) ->
    let used :=
      fold_left
        (fun used mat =>
           if existsb (fun m => mat_id m =? mat_id mat) used
           then used else (used ++ [mat])%list)
        l acc in
    NoDup (map mat_id used)
    /\ (forall m, In m used -> In m acc \/ In m l)
    /\ (forall m, In m acc \/ In m l ->
                  In (mat_id m) (map mat_id used)).
Proof.
  induction l as [| mat l IH]; intros acc Hn; cbn [fold_left].
  - split; [exact Hn|]. split; [tauto|].
    intros m [H | []]. now apply in_map.
  - destruct (existsb (fun m => mat_id m =? mat_id mat) acc) eqn:E.
    + destruct (IH acc Hn) as (I1 & I2 & I3).
      split; [exact I1|]. split.
      * intros m Hm. destruct (I2 m Hm); [now left | right; now right].
      * intros m [Hm | [<- | Hm]]; [apply I3; now left | | apply I3; now right].
        apply existsb_exists in E. destruct E as [m' [Hm' Hid]].
        apply Z.eqb_eq in Hid. rewrite <- Hid.
        apply I3. now left.
    + assert (Hn' : NoDup (map mat_id (acc ++ [mat]))).
      { rewrite map_app. cbn [map].
        apply NoDup_app; [exact Hn | repeat constructor; intros [] |].
        intros x Hx [<- | []]. apply in_map_iff in Hx.
        destruct Hx as [m' [Hid Hm']].
        assert (K : existsb (fun m => mat_id m =? mat_id mat) acc = true).
        { apply existsb_exists. exists m'. split; [exact Hm'|].
          now apply Z.eqb_eq. }
        congruence. }
      destruct (IH (acc ++ [mat])%list Hn') as (I1 & I2 & I3).
      split; [exact I1|]. split.
      * intros m Hm. destruct (I2 m Hm) as [K | K]; [|right; now right].
        apply in_app_or in K. destruct K as [K | [<- | []]];
          [now left | right; now left].
      * intros m [Hm | [<- | Hm]]; apply I3;
          [left; apply in_or_app; now left
          | left; apply in_or_app; right; now left
          | now right].
Qed.

(** X8: the materials that are exported are the material objects of the
    exported meshes, each listed once.  No two entries are the same
    object, every entry is a material of some mesh, and every material
    object of a mesh has its entry: two objects are both listed also
    when they have the same name, since the test compares the objects.
    When an object is read the same wherever it occurs, every material
    of a mesh is itself an entry. *)
Theorem used_materials_lists_each_material_once :
  forall meshes : list (list Material),
    NoDup (map mat_id (used_materials meshes))
    /\ (forall m, In m (used_materials meshes) -> In m (List.concat meshes))
    /\ (forall m, In m (List.concat meshes) ->
                  In (mat_id m) (map mat_id (used_materials meshes)))
    /\ ((forall a b, In a (List.concat meshes) -> In b (List.concat meshes) ->
                     mat_id a = mat_id b -> a = b) ->
        forall m, In m (List.concat meshes) -> In m (used_materials meshes)).
Proof.
  intros meshes.
  destruct (used_materials_fold (List.concat meshes) [] (NoDup_nil _))
    as (H1 & H2 & H3).
  assert (H2' : forall m, In m (used_materials meshes) ->
                          In m (List.concat meshes)).
  { intros m Hm. destruct (H2 m Hm) as [[] | K]. exact K. }
  split; [exact H1|]. split; [exact H2'|]. split.
  - intros m Hm. apply H3. now right.
  - intros Hsame m Hm.
    assert (Hid : In (mat_id m) (map mat_id (used_materials meshes)))
      by (apply H3; now right).
    apply in_map_iff in Hid. destruct Hid as (m' & Hid & Hm').
    rewrite <- (Hsame m' m (H2' m' Hm') Hm Hid). exact Hm'.
Qed.

Variable gl : GlConstants.
Variable blender_version_minor : Z.

Lemma pbr_fallback_name (ids : Dict.t Z) st b_mat base_color metalness
    roughness base_color_texture metallic_roughness_texture
    transparent_method transparency_cutoff unlit doublesided pbr st' :
  pbr_fallback ids st b_mat base_color metalness roughness
    base_color_texture metallic_roughness_texture transparent_method
    transparency_cutoff unlit doublesided = Ok (pbr, st') ->
  Dict.get pbr "name" = Some (JStr (mat_name b_mat)).
Proof.
  unfold pbr_fallback. intros H.
  destruct (_ || _); [discriminate H|].
  destruct (match base_color_texture with Some _ => _ | None => _ end)
    as [r1 |]; cbn [Py.bind] in H; [|discriminate H].
  destruct (match metallic_roughness_texture with Some _ => _ | None => _ end)
    as [r2 |]; cbn [Py.bind] in H; [|discriminate H].
  injection H as <- _.
  rewrite dict_get_set_other by reflexivity.
  destruct (String.eqb transparent_method "MASK"), unlit;
    rewrite ?dict_get_set_other by reflexivity; reflexivity.
Qed.

Lemma pbr_tex_add_name (ids : Dict.t Z) (node : ShaderNode) acc names acc' :
  pbr_tex_add gl ids node acc names = Ok acc' ->
  String.eqb "name" (fst names) = false ->
  Dict.get (fst (fst acc')) "name" = Dict.get (fst (fst acc)) "name".
Proof.
  unfold pbr_tex_add. intros H H1. bind_ok H.
  destruct a as [tex |].
  - bind_ok H. injection H as <-. cbn [fst].
    now rewrite dict_get_set_other by assumption.
  - injection H as <-. reflexivity.
Qed.

(** Both entries made for a material carry its name. *)
Lemma material_step_names (version : option string) (ids : Dict.t Z)
    (acc acc' : MaterialLoop) (b_mat : Material) :
  material_step gl blender_version_minor version ids acc b_mat = Ok acc' ->
  exists pbr props,
    glb_material_list acc' = (glb_material_list acc ++ [pbr])%list
    /\ vrm_material_props_list acc'
       = (vrm_material_props_list acc ++ [props])%list
    /\ json_name pbr = Some (JStr (mat_name b_mat))
    /\ json_name props = Some (JStr (mat_name b_mat)).
Proof.
  unfold material_step. intros H. bind_as H shader Es.
  destruct (String.eqb shader "MToon_unversioned").
  { bind_as H node En. bind_as H r Er. injection H as <-.
    destruct r as [[mtoon_dic pbr_dic] st'].
    exists (JDict pbr_dic), (JDict mtoon_dic). cbn [glb_material_list
      vrm_material_props_list fst snd json_name].
    split; [reflexivity|]. split; [reflexivity|].
    unfold make_mtoon_unversioned_extension_dic in Er.
    do 3 bind_ok Er.
    destruct (material_props b_mat) as [[[[[[bm sb] db] zw] at_] rq] rt].
    do 2 bind_ok Er.
    destruct a3 as [pbr0 st0].
    apply pbr_fallback_name in E3.
    destruct version as [v |]; [|discriminate Er].
    destruct (String.prefix "1." v).
    - do 2 bind_ok Er. destruct a4; try discriminate Er.
      injection Er as <- <- _. cbn [fst].
      rewrite dict_get_set_other by reflexivity. now split.
    - injection Er as <- <- _. now split. }
  destruct (String.eqb shader "GLTF").
  { bind_as H node En. bind_as H r Er. injection H as <-.
    destruct r as [[[gltf_dic pbr_dic] st'] printed].
    exists (JDict pbr_dic), (JDict gltf_dic). cbn [glb_material_list
      vrm_material_props_list fst snd json_name].
    split; [reflexivity|]. split; [reflexivity|].
    unfold make_gltf_mat_dic in Er.
    do 7 bind_ok Er. bind_as Er pbr_st Epbr. destruct pbr_st as [pbr0 st0].
    apply pbr_fallback_name in Epbr.
    cbn [foldM] in Er. bind_as Er added F. bind_as Er emissive Eem.
    destruct emissive; try discriminate Er. injection Er as <- <- _ _.
    bind_as F r1 F1. bind_as F r2 F2. bind_as F r3 F3. injection F as <-.
    apply (pbr_tex_add_name ids node) in F1; [|reflexivity].
    apply (pbr_tex_add_name ids node) in F2; [|reflexivity].
    apply (pbr_tex_add_name ids node) in F3; [|reflexivity].
    cbn [fst snd] in F1.
    split; [|reflexivity].
    rewrite dict_get_set_other by reflexivity. congruence. }
  destruct (String.eqb shader "TRANSPARENT_ZWRITE"); [|discriminate H].
  bind_as H node En. bind_as H r Er. injection H as <-.
  destruct r as [[zw_dic pbr_dic] st'].
  exists (JDict pbr_dic), (JDict zw_dic). cbn [glb_material_list
    vrm_material_props_list fst snd json_name].
  split; [reflexivity|]. split; [reflexivity|].
  unfold make_transzw_mat_dic in Er.
  do 2 bind_ok Er. destruct a0 as [[textures vectors] st1].
  bind_ok Er. destruct a0 as [pbr0 st0].
  apply pbr_fallback_name in E1. injection Er as <- <- _. now split.
Qed.

Lemma material_loop_names (version : option string) (ids : Dict.t Z)
    (mats : list Material) :
  forall acc done,
    foldM (material_step gl blender_version_minor version ids) mats acc
    = Ok done ->
    map json_name (glb_material_list done)
    = (map json_name (glb_material_list acc)
       ++ map (fun m => Some (JStr (mat_name m))) mats)%list
    /\ map json_name (vrm_material_props_list done)
       = (map json_name (vrm_material_props_list acc)
          ++ map (fun m => Some (JStr (mat_name m))) mats)%list.
Proof.
  induction mats as [| b_mat mats IH]; intros acc done H.
  - injection H as <-. cbn [map]. now rewrite !app_nil_r.
  - cbn [foldM] in H. bind_as H acc1 E1.
    destruct (material_step_names _ _ _ _ _ E1)
      as (pbr & props & L1 & L2 & N1 & N2).
    destruct (IH _ _ H) as [I1 I2]. rewrite I1, I2, L1, L2, !map_app.
    cbn [map]. rewrite N1, N2, <- !app_assoc. split; reflexivity.
Qed.

(** X9: the [materials] list written by [material_to_dic] has one entry
    for each used material, in the same order and under the material's
    name, so that the position of an entry is the position of its
    material among the used materials; in the 0.x schema the
    [materialProperties] list is aligned with it in the same way. *)
Theorem material_entries_follow_used_materials :
  forall (C : Type) (image_bins : C -> list (string * Z))
         (self self' : GlbObj C),
    material_to_dic gl blender_version_minor image_bins self = Ok self' ->
    let names := map (fun m => Some (JStr (mat_name m)))
                     (used_materials (mesh_materials self)) in
    (exists materials,
        Dict.get (json_dic self') "materials" = Some (JList materials)
        /\ map json_name materials = names)
    /\ (forall v, vrm_version self = Some v -> String.prefix "0." v = true ->
          exists props,
            Dict.get (json_dic self') "extensions"
            = Some (JDict [("VRM",
                            JDict [("materialProperties", JList props)])]%string)
            /\ map json_name props = names).
Proof.
  intros C image_bins self self' H names.
  unfold material_to_dic in H. bind_as H done Ed.
  destruct (material_loop_names _ _ _ _ _ Ed) as [N1 N2].
  cbn [material_loop_start glb_material_list vrm_material_props_list map app]
    in N1, N2.
  destruct (vrm_version self) as [v |]; [|discriminate H].
  injection H as <-. cbn [json_dic]. split.
  - exists (glb_material_list done). split; [|exact N1].
    destruct (String.prefix "0." v).
    + rewrite dict_get_set_other by reflexivity. rewrite dict_get_set.
      reflexivity.
    + rewrite dict_get_set. reflexivity.
  - intros v' Hv Hp. injection Hv as <-. rewrite Hp.
    exists (vrm_material_props_list done). split; [|exact N2].
    rewrite dict_get_set. reflexivity.
Qed.

End MaterialList.

Lemma material_entries_follow_used_materials_witness :
  let gl := mkGlConstants 9728 9729 10497 33071 in
  let lens := mkMaterial "Lens" "CLIP" half true
                (Some "TRANSPARENT_ZWRITE"%string) (Some [[]]) 1 in
  let self := mkGlbObj (Some "0.0"%string) [] [] tt [[lens]; [lens]] None in
  match material_to_dic gl 83 (fun _ : unit => []) self with
  | Ok self' =>
      exists materials,
        Dict.get (json_dic self') "materials" = Some (JList materials)
        /\ map json_name materials = [Some (JStr "Lens")]
  | Raise _ => False
  end.
Proof.
  intros gl lens self.
  destruct (material_to_dic gl 83 (fun _ : unit => []) self)
    as [self' |] eqn:E; [|vm_compute in E; discriminate E].
  exact (proj1 (material_entries_follow_used_materials gl 83 unit _ self self'
                  E)).
Defined.

(** ** The inputs a shader node must have *)

Section ShaderInputs.

Variable gl : GlConstants.
Variable image_id_dic : Dict.t Z.
Variable blender_version_minor : Z.

Lemma pbr_fallback_none st b_mat base_color metalness roughness
    base_color_texture metallic_roughness_texture transparent_method
    transparency_cutoff unlit doublesided :
  base_color = JNull \/ metalness = JNull \/ roughness = JNull ->
  pbr_fallback image_id_dic st b_mat base_color metalness roughness
    base_color_texture metallic_roughness_texture transparent_method
    transparency_cutoff unlit doublesided = Raise RuntimeError.
Proof.
  intros H. unfold pbr_fallback. cbv zeta beta.
  destruct H as [-> | [-> | ->]].
  - reflexivity.
  - destruct base_color; reflexivity.
  - destruct base_color, metalness; reflexivity.
Qed.

(** X10: a material of the GLTF kind is translated only if its shader node
    has the inputs [base_Color], [metallic], [roughness], [unlit] and
    [emissive_color]; when one of them is missing the translation raises
    and nothing is exported. *)
Theorem gltf_material_needs_its_inputs :
  forall (st : TexState) (b_mat : Material) (node : ShaderNode)
         (r : Dict.t json * Dict.t json * TexState * list string),
    make_gltf_mat_dic gl image_id_dic st b_mat node = Ok r ->
    Forall (fun socket => Dict.get node socket <> None)
      ["base_Color"; "metallic"; "roughness"; "unlit"; "emissive_color"]%string.
Proof.
  intros st b_mat node r H. unfold make_gltf_mat_dic in H.
  bind_as H base Eb. bind_as H metal Em. bind_as H rough Er.
  bind_as H bct E1. bind_as H mrt E2. bind_as H uv Eu. bind_as H unlit Eun.
  bind_as H pbr Ep. bind_as H added F. bind_as H emissive Ee.
  destruct emissive; try discriminate H. clear H F.
  repeat constructor; intros K.
  - unfold get_rgba_val in Eb. rewrite K in Eb. injection Eb as <-.
    rewrite pbr_fallback_none in Ep by auto. discriminate Ep.
  - unfold get_float_value in Em. rewrite K in Em. injection Em as <-.
    rewrite pbr_fallback_none in Ep by auto. discriminate Ep.
  - unfold get_float_value in Er. rewrite K in Er. injection Er as <-.
    rewrite pbr_fallback_none in Ep by auto. discriminate Ep.
  - unfold get_float_value in Eu. rewrite K in Eu. injection Eu as <-.
    discriminate Eun.
  - unfold get_rgba_val in Ee. rewrite K in Ee. discriminate Ee.
Qed.

Lemma vector_table_color :
  forall kv, In kv MaterialMtoon.vector_props_exchange_dic ->
             String.eqb "_Color" (fst kv) = true ->
             snd kv = "DiffuseColor"%string.
Proof.
  assert (H : forallb (fun kv : string * string =>
                         implb (String.eqb "_Color" (fst kv))
                               (String.eqb (snd kv) "DiffuseColor"))
                      MaterialMtoon.vector_props_exchange_dic = true)
    by (vm_compute; reflexivity).
  rewrite forallb_forall in H. intros kv Hin Hk.
  specialize (H kv Hin). rewrite Hk in H. now apply String.eqb_eq.
Qed.

Lemma texture_table_color :
  forall kv, In kv MaterialMtoon.texture_kind_exchange_dic ->
             String.eqb "_Color" (fst kv) = false.
Proof.
  assert (H : forallb (fun kv : string * string =>
                         negb (String.eqb "_Color" (fst kv)))
                      MaterialMtoon.texture_kind_exchange_dic = true)
    by (vm_compute; reflexivity).
  rewrite forallb_forall in H. intros kv Hin.
  specialize (H kv Hin). now apply negb_true_iff.
Qed.

Lemma vector_props_color (node : ShaderNode) (l : list (string * string)) :
  Dict.get node "DiffuseColor" = None ->
  (forall kv, In kv l -> String.eqb "_Color" (fst kv) = true ->
              snd kv = "DiffuseColor"%string) ->
  forall acc acc',
    foldM (vector_props_step node) l acc = Ok acc' ->
    Dict.get acc "_Color" = None -> Dict.get acc' "_Color" = None.
Proof.
  intros Hn. induction l as [| kv l IH]; intros Htab acc acc' H Hacc.
  - now injection H as <-.
  - cbn [foldM] in H. bind_as H acc1 E1.
    apply (IH (fun kv' Hin => Htab kv' (or_intror Hin)) acc1 acc' H).
    unfold vector_props_step in E1.
    destruct (existsb (String.eqb (snd kv)) vec_props);
      [|now injection E1 as <-].
    bind_as E1 val Ev.
    destruct (String.eqb "_Color" (fst kv)) eqn:Ek.
    + rewrite (Htab kv (or_introl eq_refl) Ek) in Ev.
      unfold get_rgba_val in Ev. rewrite Hn in Ev. injection Ev as <-.
      now injection E1 as <-.
    + destruct val; injection E1 as <-; try exact Hacc;
        now rewrite dict_get_set_other by exact Ek.
Qed.

Lemma texture_props_color (node : ShaderNode) (l : list (string * string)) :
  (forall kv, In kv l -> String.eqb "_Color" (fst kv) = false) ->
  forall acc acc',
    foldM (texture_props_step gl image_id_dic blender_version_minor node)
          l acc = Ok acc' ->
    Dict.get (mtoon_vector_dic acc') "_Color"
    = Dict.get (mtoon_vector_dic acc) "_Color".
Proof.
  induction l as [| kv l IH]; intros Htab acc acc' H.
  - now injection H as <-.
  - cbn [foldM] in H. bind_as H acc1 E1.
    rewrite (IH (fun kv' Hin => Htab kv' (or_intror Hin)) acc1 acc' H).
    pose proof (Htab kv (or_introl eq_refl)) as Hk.
    unfold texture_props_step in E1. bind_as E1 tex Et.
    destruct tex as [t |]; [|now injection E1 as <-].
    bind_as E1 added Ea.
    destruct (String.eqb (snd kv) "MainTexture").
    + bind_as E1 socket Es. bind_as E1 from_node Ef. bind_as E1 tr Etr.
      injection E1 as <-. cbn [mtoon_vector_dic].
      now rewrite !dict_get_set_other by exact Hk.
    + destruct (String.eqb (snd kv) "NomalmapTexture");
        injection E1 as <-; cbn [mtoon_vector_dic];
        now rewrite dict_get_set_other by exact Hk.
Qed.

(** X11: a toon-shaded material is translated only if its shader node has
    the input [DiffuseColor]: without it no [_Color] entry is made and
    reading the base colour raises. *)
Theorem mtoon_material_needs_a_diffuse_color :
  forall (version : option string) (st : TexState) (b_mat : Material)
         (node : ShaderNode) (r : Dict.t json * Dict.t json * TexState),
    make_mtoon_unversioned_extension_dic gl image_id_dic
      blender_version_minor version st b_mat node = Ok r ->
    Dict.get node "DiffuseColor" <> None.
Proof.
  intros version st b_mat node r H K.
  unfold make_mtoon_unversioned_extension_dic in H.
  bind_as H fl Ef. bind_as H vectors Ev. bind_as H tloop Et.
  destruct (material_props b_mat) as [[[[[[bm sb] db] zw] at_] rq] rt].
  bind_as H base Eb. clear H.
  apply (vector_props_color node _ K vector_table_color) in Ev;
    [|reflexivity].
  apply (texture_props_color node _ texture_table_color) in Et.
  cbn [mtoon_vector_dic] in Et.
  unfold Dict.getitem in Eb. rewrite Et, Ev in Eb. discriminate Eb.
Qed.

End ShaderInputs.

Lemma gltf_material_needs_its_inputs_witness :
  let gl := mkGlConstants 9728 9729 10497 33071 in
  let b_mat := mkMaterial "Body" "OPAQUE" half true (Some "GLTF"%string) None 1 in
  let white := JList [JFloat one; JFloat one; JFloat one; JFloat one] in
  let node : ShaderNode :=
    [("base_Color", mkSocket white []);
     ("metallic", mkSocket (JFloat zero) []);
     ("roughness", mkSocket (JFloat half) []);
     ("unlit", mkSocket (JFloat zero) []);
     ("emissive_color", mkSocket white [])]%string in
  match make_gltf_mat_dic gl [] (mkTexState [] [] 0 0) b_mat node with
  | Ok _ => Dict.get node "roughness" <> None
  | Raise _ => False
  end.
Proof.
  intros gl b_mat white node.
  destruct (make_gltf_mat_dic gl [] (mkTexState [] [] 0 0) b_mat node)
    as [r |] eqn:E; [|vm_compute in E; discriminate E].
  pose proof (gltf_material_needs_its_inputs gl [] _ _ _ _ E) as H.
  inversion H as [| ? ? _ Ha]. inversion Ha as [| ? ? _ Hb].
  inversion Hb as [| ? ? Hc _]. exact Hc.
Defined.

Lemma mtoon_material_needs_a_diffuse_color_witness :
  let gl := mkGlConstants 9728 9729 10497 33071 in
  let b_mat := mkMaterial "Face" "CLIP" (dyadic 1 (-2)) true
                 (Some "MToon_unversioned"%string) None 1 in
  let node : ShaderNode :=
    [("DiffuseColor"%string,
      mkSocket (JList [JFloat one; JFloat one; JFloat one; JFloat one]) [])] in
  match make_mtoon_unversioned_extension_dic gl [] 83 (Some "0.0"%string)
          (mkTexState [] [] 0 0) b_mat node with
  | Ok _ => Dict.get node "DiffuseColor" <> None
  | Raise _ => False
  end.
Proof.
  intros gl b_mat node.
  destruct (make_mtoon_unversioned_extension_dic gl [] 83 (Some "0.0"%string)
              (mkTexState [] [] 0 0) b_mat node)
    as [r |] eqn:E; [|vm_compute in E; discriminate E].
  exact (mtoon_material_needs_a_diffuse_color gl [] 83 _ _ _ _ _ E).
Defined.

(** ** The property blocks of a toon-shaded material *)

Section ToonProperties.

Variable gl : GlConstants.
Variable image_id_dic : Dict.t Z.
Variable blender_version_minor : Z.

Lemma mt_properties_cull (b_mat : Material)
    (floats vectors textures props : Dict.t json) :
  mt_properties b_mat floats vectors textures = Ok props ->
  Dict.get props "cullMode"
  = Some (if use_backface_culling b_mat
          then JBool (match Dict.get floats "_CullMode" with
                      | Some (JStr c) => String.eqb c "back"
                      | _ => false
                      end)
          else JStr "off").
Proof.
  unfold mt_properties. intros H. bind_as H entries E. injection H as <-.
  remember (skipn 3 mt_prop_entries) as tail eqn:Etail.
  change mt_prop_entries
    with (firstn 3 mt_prop_entries ++ skipn 3 mt_prop_entries)%list in E.
  rewrite <- Etail in E. clear Etail.
  cbn [firstn mt_prop_entries app mapM fst snd mt_value Py.bind] in E.
  bind_as E ys1 E1. injection E as <-.
  bind_as E1 ys2 E2. injection E1 as <-.
  bind_as E2 y E3. bind_as E2 ys3 E4. injection E2 as <-.
  destruct (use_backface_culling b_mat); cbn [Py.bind] in E3;
    injection E3 as <-; reflexivity.
Qed.

(** X12: in the 1.x schema the [cullMode] written for a toon-shaded
    material is the boolean [false] when the material culls back faces
    and the string [off] when it does not; it is never the string
    [back], because the stored cull mode is the number 2, which is
    compared with that string. *)
Theorem mtoon_cull_mode_is_never_back :
  forall (v : string) (st st' : TexState) (b_mat : Material)
         (node : ShaderNode) (mtoon_dic pbr_dic : Dict.t json),
    make_mtoon_unversioned_extension_dic gl image_id_dic
      blender_version_minor (Some v) st b_mat node
    = Ok (mtoon_dic, pbr_dic, st') ->
    String.prefix "1." v = true ->
    exists ext props,
      Dict.get pbr_dic "extensions" = Some (JDict ext)
      /\ Dict.get ext "VRMC_materials_mtoon"
         = Some (JDict [("properties", JDict props)]%string)
      /\ Dict.get props "cullMode"
         = Some (if use_backface_culling b_mat
                 then JBool false else JStr "off").
Proof.
  intros v st st' b_mat node mtoon_dic pbr_dic H Hv.
  unfold make_mtoon_unversioned_extension_dic in H.
  bind_as H fl Ef. bind_as H vectors Ev. bind_as H tloop Et.
  destruct (material_props b_mat) as [[[[[[bm sb] db] zw] at_] rq] rt].
  bind_as H base Eb. bind_as H pbr Ep. rewrite Hv in H.
  bind_as H props Epr. bind_as H extensions Ex.
  destruct extensions as [| | | | | | ext]; try discriminate H.
  injection H as _ <- _.
  exists (Dict.set ext "VRMC_materials_mtoon"
            (JDict [("properties", JDict props)]%string)), props.
  split; [now rewrite dict_get_set|]. split; [now rewrite dict_get_set|].
  rewrite (mt_properties_cull _ _ _ _ _ Epr).
  rewrite !dict_get_set. cbn [String.eqb Ascii.eqb Bool.eqb].
  reflexivity.
Qed.

(** The outline modes stay in range through the loop over the float
    properties, and the entries stored for them are these modes. *)
Lemma float_props_modes (node : ShaderNode)
    (l : list (string * option string)) :
  forall acc acc',
    foldM (float_props_step node) l acc = Ok acc' ->
    let ok := fun a : Dict.t json * Z * Z =>
      0 <= snd (fst a) <= 2 /\ 0 <= snd a <= 1
      /\ (forall x, Dict.get (fst (fst a)) "_OutlineWidthMode" = Some x ->
                    x = JInt (snd (fst a)))
      /\ (forall x, Dict.get (fst (fst a)) "_OutlineColorMode" = Some x ->
                    x = JInt (snd a)) in
    ok acc -> ok acc'.
Proof.
  induction l as [| kv l IH]; intros acc acc' H ok Hacc.
  - now injection H as <-.
  - cbn [foldM] in H. bind_as H acc1 E1. apply (IH acc1 acc' H).
    clear IH H. destruct Hacc as (Hm & Hc & Hw & Hk).
    unfold float_props_step in E1.
    destruct (snd kv) as [prop |]; [|injection E1 as <-; now repeat split].
    bind_as E1 val Ev.
    assert (G : forall d : Dict.t json,
              d = Dict.set (fst (fst acc)) (fst kv) val ->
              (r1 <- (if String.eqb (fst kv) "_OutlineWidthMode"
                      then r <- json_round val ;;
                           Ok (Dict.set d (fst kv)
                                 (JInt (Z.min (Z.max r 0) 2)),
                               Z.min (Z.max r 0) 2)
                      else Ok (d, snd (fst acc))) ;;
               r2 <- (if String.eqb (fst kv) "_OutlineColorMode"
                      then r <- json_round val ;;
                           Ok (Dict.set (fst r1) (fst kv)
                                 (JInt (Z.min (Z.max r 0) 1)),
                               Z.min (Z.max r 0) 1)
                      else Ok (fst r1, snd acc)) ;;
               Ok (fst r2, snd r1, snd r2)) = Ok acc1 ->
              0 <= snd (fst acc1) <= 2 /\ 0 <= snd acc1 <= 1
              /\ (forall x, Dict.get (fst (fst acc1)) "_OutlineWidthMode"
                            = Some x -> x = JInt (snd (fst acc1)))
              /\ (forall x, Dict.get (fst (fst acc1)) "_OutlineColorMode"
                            = Some x -> x = JInt (snd acc1))).
    { intros d Hd G.
      destruct (String.eqb (fst kv) "_OutlineWidthMode") eqn:Ew.
      - apply String.eqb_eq in Ew. rewrite Ew in *.
        bind_as G r1 G1. bind_as G1 r Er. injection G1 as <-.
        cbn [String.eqb Ascii.eqb Bool.eqb] in G. cbn [Py.bind fst snd] in G.
        injection G as <-. cbn [fst snd].
        split; [lia|]. split; [exact Hc|]. split.
        + intros x Hx. rewrite dict_get_set in Hx.
          cbn [String.eqb Ascii.eqb Bool.eqb] in Hx. congruence.
        + intros x Hx. rewrite Hd in Hx.
          rewrite !dict_get_set_other in Hx by reflexivity. now apply Hk.
      - cbn [Py.bind fst snd] in G.
        destruct (String.eqb (fst kv) "_OutlineColorMode") eqn:Ec.
        + apply String.eqb_eq in Ec. rewrite Ec in *.
          bind_as G r2 G2. bind_as G2 r Er. injection G2 as <-.
          injection G as <-. cbn [fst snd].
          split; [exact Hm|]. split; [lia|]. split.
          * intros x Hx. rewrite Hd in Hx.
            rewrite !dict_get_set_other in Hx by reflexivity. now apply Hw.
          * intros x Hx. rewrite dict_get_set in Hx.
            cbn [String.eqb Ascii.eqb Bool.eqb] in Hx. congruence.
        + injection G as <-. cbn [fst snd]. rewrite Hd.
          rewrite String.eqb_sym in Ew, Ec.
          split; [exact Hm|]. split; [exact Hc|]. split.
          * intros x Hx. rewrite dict_get_set_other in Hx by exact Ew.
            now apply Hw.
          * intros x Hx. rewrite dict_get_set_other in Hx by exact Ec.
            now apply Hk. }
    destruct val; try (injection E1 as <-; now repeat split);
      exact (G _ eq_refl E1).
Qed.

Lemma outline_keywords_spec (m c : Z) :
  0 <= m <= 2 -> 0 <= c <= 1 ->
  let k := outline_keywords m c in
  Dict.mem k "MTOON_OUTLINE_WIDTH_WORLD" = (m =? 1)
  /\ Dict.mem k "MTOON_OUTLINE_WIDTH_SCREEN" = (m =? 2)
  /\ Dict.mem k "MTOON_OUTLINE_COLOR_FIXED" = (1 <=? m) && (c =? 0)
  /\ Dict.mem k "MTOON_OUTLINE_COLOR_MIXED" = (1 <=? m) && (c =? 1).
Proof.
  intros Hm Hc.
  assert (Em : m = 0 \/ m = 1 \/ m = 2) by lia.
  assert (Ec : c = 0 \/ c = 1) by lia.
  destruct Em as [-> | [-> | ->]]; destruct Ec as [-> | ->];
    repeat split; reflexivity.
Qed.

Lemma dict_mem_set_other {V : Type} (d : Dict.t V) (k k' : string) (v : V) :
  String.eqb k' k = false -> Dict.mem (Dict.set d k v) k' = Dict.mem d k'.
Proof.
  intros H. unfold Dict.mem. now rewrite dict_get_set_other by exact H.
Qed.

(** X13: the outline settings of a toon-shaded material.  The two outline
    modes stored among the float properties are whole numbers, the width
    mode in 0..2 and the colour mode in 0..1 whatever the shader node
    holds, and the keywords follow them: the world-width keyword is set
    exactly for width mode 1, the screen-width keyword exactly for width
    mode 2 (so never both), and with an outline exactly one of the two
    colour keywords is set, the fixed one for colour mode 0. *)
Theorem mtoon_outline_modes_are_clamped :
  forall (version : option string) (st st' : TexState) (b_mat : Material)
         (node : ShaderNode) (mtoon_dic pbr_dic : Dict.t json),
    make_mtoon_unversioned_extension_dic gl image_id_dic
      blender_version_minor version st b_mat node
    = Ok (mtoon_dic, pbr_dic, st') ->
    exists (m c : Z) (floats keywords : Dict.t json),
      0 <= m <= 2 /\ 0 <= c <= 1
      /\ Dict.get mtoon_dic "floatProperties" = Some (JDict floats)
      /\ Dict.get mtoon_dic "keywordMap" = Some (JDict keywords)
      /\ (forall x, Dict.get floats "_OutlineWidthMode" = Some x ->
                    x = JInt m)
      /\ (forall x, Dict.get floats "_OutlineColorMode" = Some x ->
                    x = JInt c)
      /\ Dict.mem keywords "MTOON_OUTLINE_WIDTH_WORLD" = (m =? 1)
      /\ Dict.mem keywords "MTOON_OUTLINE_WIDTH_SCREEN" = (m =? 2)
      /\ Dict.mem keywords "MTOON_OUTLINE_COLOR_FIXED"
         = (1 <=? m) && (c =? 0)
      /\ Dict.mem keywords "MTOON_OUTLINE_COLOR_MIXED"
         = (1 <=? m) && (c =? 1).
Proof.
  intros version st st' b_mat node mtoon_dic pbr_dic H.
  unfold make_mtoon_unversioned_extension_dic in H.
  bind_as H fl Ef. bind_as H vectors Ev. bind_as H tloop Et.
  apply float_props_modes in Ef;
    [|cbn [fst snd]; repeat split; try lia; intros x K; discriminate K].
  cbv zeta beta in Ef. destruct Ef as (Hm & Hc & Hw & Hk).
  destruct (outline_keywords_spec _ _ Hm Hc) as (K1 & K2 & K3 & K4).
  exists (snd (fst fl)), (snd fl).
  destruct (material_props b_mat) as [[[[[[bm sb] db] zw] at_] rq] rt].
  bind_as H base Eb. bind_as H pbr Ep.
  assert (G : forall d : Dict.t json,
            Dict.get d "floatProperties"
            = Some (JDict
                (Dict.set (Dict.set (Dict.set (Dict.set
                   (if String.eqb (blend_method b_mat) "CLIP"
                    then Dict.set (Dict.set (Dict.set (Dict.set (Dict.set
                           (fst (fst fl)) "_BlendMode" (JInt bm))
                           "_SrcBlend" (JInt sb)) "_DstBlend" (JInt db))
                           "_ZWrite" (JInt zw)) "_Cutoff"
                           (JFloat (alpha_threshold b_mat))
                    else Dict.set (Dict.set (Dict.set (Dict.set
                           (fst (fst fl)) "_BlendMode" (JInt bm))
                           "_SrcBlend" (JInt sb)) "_DstBlend" (JInt db))
                           "_ZWrite" (JInt zw))
                   "_MToonVersion" (JInt MaterialMtoon.version))
                   "_CullMode"
                   (JInt (if use_backface_culling b_mat then 2 else 0)))
                   "_OutlineCullMode" (JInt 1)) "_DebugMode" (JInt 0))) ->
            Dict.get d "keywordMap"
            = Some (JDict
                (if use_normalmap tloop
                 then Dict.set (Dict.set (Dict.set (Dict.set (Dict.set
                        (if at_
                         then Dict.set
                                (outline_keywords (snd (fst fl)) (snd fl))
                                "_ALPHATEST_ON" (JBool at_)
                         else outline_keywords (snd (fst fl)) (snd fl))
                        "_ALPHABLEND_ON"
                        (JBool (negb (String.eqb (blend_method b_mat) "OPAQUE"
                                || String.eqb (blend_method b_mat) "CLIP"))))
                        "_ALPHAPREMULTIPLY_ON" (JBool false))
                        "MTOON_DEBUG_NORMAL" (JBool false))
                        "MTOON_DEBUG_LITSHADERATE" (JBool false))
                        "_NORMALMAP" (JBool true)
                 else Dict.set (Dict.set (Dict.set (Dict.set
                        (if at_
                         then Dict.set
                                (outline_keywords (snd (fst fl)) (snd fl))
                                "_ALPHATEST_ON" (JBool at_)
                         else outline_keywords (snd (fst fl)) (snd fl))
                        "_ALPHABLEND_ON"
                        (JBool (negb (String.eqb (blend_method b_mat) "OPAQUE"
                                || String.eqb (blend_method b_mat) "CLIP"))))
                        "_ALPHAPREMULTIPLY_ON" (JBool false))
                        "MTOON_DEBUG_NORMAL" (JBool false))
                        "MTOON_DEBUG_LITSHADERATE" (JBool false))) ->
            exists floats keywords : Dict.t json,
              0 <= snd (fst fl) <= 2 /\ 0 <= snd fl <= 1
              /\ Dict.get d "floatProperties" = Some (JDict floats)
              /\ Dict.get d "keywordMap" = Some (JDict keywords)
              /\ (forall x, Dict.get floats "_OutlineWidthMode" = Some x ->
                            x = JInt (snd (fst fl)))
              /\ (forall x, Dict.get floats "_OutlineColorMode" = Some x ->
                            x = JInt (snd fl))
              /\ Dict.mem keywords "MTOON_OUTLINE_WIDTH_WORLD"
                 = (snd (fst fl) =? 1)
              /\ Dict.mem keywords "MTOON_OUTLINE_WIDTH_SCREEN"
                 = (snd (fst fl) =? 2)
              /\ Dict.mem keywords "MTOON_OUTLINE_COLOR_FIXED"
                 = (1 <=? snd (fst fl)) && (snd fl =? 0)
              /\ Dict.mem keywords "MTOON_OUTLINE_COLOR_MIXED"
                 = (1 <=? snd (fst fl)) && (snd fl =? 1)).
  { intros d Hf Hkw. eexists. eexists.
    split; [exact Hm|]. split; [exact Hc|].
    split; [exact Hf|]. split; [exact Hkw|].
    split.
    { intros x Hx. apply Hw.
      destruct (String.eqb (blend_method b_mat) "CLIP");
        rewrite !dict_get_set_other in Hx by reflexivity; exact Hx. }
    split.
    { intros x Hx. apply Hk.
      destruct (String.eqb (blend_method b_mat) "CLIP");
        rewrite !dict_get_set_other in Hx by reflexivity; exact Hx. }
    rewrite <- K1, <- K2, <- K3, <- K4.
    destruct (use_normalmap tloop), at_;
      rewrite !dict_mem_set_other by reflexivity; repeat split. }
  destruct version as [v |]; [|discriminate H].
  destruct (String.prefix "1." v).
  - bind_as H props Epr. bind_as H extensions Ex.
    destruct extensions; try discriminate H.
    injection H as <- _ _. apply G; reflexivity.
  - injection H as <- _ _. apply G; reflexivity.
Qed.

End ToonProperties.

Lemma mtoon_cull_mode_is_never_back_witness :
  let gl := mkGlConstants 9728 9729 10497 33071 in
  let b_mat := mkMaterial "Face" "OPAQUE" half true
                 (Some "MToon_unversioned"%string) None 1 in
  let node : ShaderNode :=
    [("DiffuseColor"%string,
      mkSocket (JList [JFloat one; JFloat one; JFloat one; JFloat one]) [])] in
  match make_mtoon_unversioned_extension_dic gl [] 83 (Some "1.0"%string)
          (mkTexState [] [] 0 0) b_mat node with
  | Ok (_, pbr_dic, _) =>
      exists ext props,
        Dict.get pbr_dic "extensions" = Some (JDict ext)
        /\ Dict.get ext "VRMC_materials_mtoon"
           = Some (JDict [("properties", JDict props)]%string)
        /\ Dict.get props "cullMode" = Some (JBool false)
  | Raise _ => False
  end.
Proof.
  intros gl b_mat node.
  destruct (make_mtoon_unversioned_extension_dic gl [] 83 (Some "1.0"%string)
              (mkTexState [] [] 0 0) b_mat node)
    as [[[mtoon_dic pbr_dic] st'] |] eqn:E; [|vm_compute in E; discriminate E].
  exact (mtoon_cull_mode_is_never_back gl [] 83 _ _ _ _ _ _ _ E eq_refl).
Defined.

Lemma mtoon_outline_modes_are_clamped_witness :
  let gl := mkGlConstants 9728 9729 10497 33071 in
  let b_mat := mkMaterial "Face" "OPAQUE" half true
                 (Some "MToon_unversioned"%string) None 1 in
  let node : ShaderNode :=
    [("DiffuseColor",
      mkSocket (JList [JFloat one; JFloat one; JFloat one; JFloat one]) []);
     ("OutlineWidthMode", mkSocket (JFloat (of_Z 7)) [])]%string in
  match make_mtoon_unversioned_extension_dic gl [] 83 (Some "0.0"%string)
          (mkTexState [] [] 0 0) b_mat node with
  | Ok (mtoon_dic, _, _) =>
      exists floats,
        Dict.get mtoon_dic "floatProperties" = Some (JDict floats)
        /\ Dict.get floats "_OutlineWidthMode" = Some (JInt 2)
  | Raise _ => False
  end.
Proof.
  intros gl b_mat node.
  destruct (make_mtoon_unversioned_extension_dic gl [] 83 (Some "0.0"%string)
              (mkTexState [] [] 0 0) b_mat node)
    as [[[mtoon_dic pbr_dic] st'] |] eqn:E; [|vm_compute in E; discriminate E].
  destruct (mtoon_outline_modes_are_clamped gl [] 83 _ _ _ _ _ _ _ E)
    as (m & c & floats & keywords & Hm & _ & Hf & _ & Hw & _).
  exists floats. split; [exact Hf|].
  vm_compute in E. injection E as <- _ _. cbn in Hf. injection Hf as <-.
  reflexivity.
Defined.

(** ** Rounding to binary32 *)

Section Binary32.

(** The number of binary digits of a whole number. *)
Lemma digits_log2 (p : positive) :
  Zpos (digits2_pos p) = Z.log2 (Zpos p) + 1.
Proof.
  destruct p as [p | p |]; cbn [digits2_pos Z.log2]; [| |reflexivity];
    rewrite Pos2Z.inj_succ; unfold Z.succ; f_equal; f_equal;
    induction p as [p IH | p IH |]; cbn [digits2_pos Pos.size];
    now rewrite ?IH.
Qed.

Lemma Zdigits2_log2 (m : Z) : 0 < m -> Zdigits2 m = Z.log2 m + 1.
Proof.
  destruct m as [| p | p]; try lia. intros _. apply digits_log2.
Qed.

Lemma Zdigits2_succ (m : Z) :
  0 <= m ->
  Zdigits2 (m + 1) = Zdigits2 m \/ Zdigits2 (m + 1) = Zdigits2 m + 1.
Proof.
  intros H. destruct (Z.eq_dec m 0) as [-> | Hm]; [right; reflexivity|].
  rewrite !Zdigits2_log2 by lia.
  destruct (Z.log2_succ_or m) as [E | E]; unfold Z.succ in E; lia.
Qed.

Lemma Zdigits2_shift (m n : Z) :
  0 < m -> 0 <= n ->
  (0 < m / 2 ^ n /\ Zdigits2 (m / 2 ^ n) = Zdigits2 m - n)
  \/ (m / 2 ^ n = 0 /\ Zdigits2 m <= n).
Proof.
  intros Hm Hn. pose proof (Z.log2_spec m Hm) as [Hlo Hhi].
  pose proof (Z.log2_nonneg m) as Hl.
  rewrite (Zdigits2_log2 m Hm).
  destruct (Z_le_gt_dec n (Z.log2 m)) as [Hle | Hgt].
  - left.
    assert (Hpos : 0 < m / 2 ^ n).
    { apply Z.div_str_pos. split; [apply Z.pow_pos_nonneg; lia|].
      etransitivity; [|exact Hlo]. apply Z.pow_le_mono_r; lia. }
    split; [exact Hpos|]. rewrite (Zdigits2_log2 _ Hpos).
    rewrite <- Z.shiftr_div_pow2 by exact Hn.
    rewrite Z.log2_shiftr by exact Hm. lia.
  - right. split; [|lia]. apply Z.div_small. split; [lia|].
    eapply Z.lt_le_trans; [exact Hhi|]. apply Z.pow_le_mono_r; lia.
Qed.

(** Shifting to the right divides. *)
Lemma shr_1_m (mrs : shr_record) :
  0 <= shr_m mrs -> shr_m (shr_1 mrs) = shr_m mrs / 2.
Proof.
  destruct mrs as [m r s]. cbn [shr_m]. intros H.
  destruct m as [| [p | p |] | p]; cbn [shr_1 shr_m]; try lia;
    try reflexivity.
  - apply (Z.div_unique_pos _ 2 _ 1); lia.
  - apply (Z.div_unique_pos _ 2 _ 0); lia.
Qed.

Lemma pow2_xO (n : positive) : 2 ^ Zpos n~0 = 2 ^ Zpos n * 2 ^ Zpos n.
Proof.
  replace (Zpos n~0) with (Zpos n + Zpos n) by lia.
  apply Z.pow_add_r; lia.
Qed.

Lemma pow2_xI (n : positive) :
  2 ^ Zpos n~1 = 2 * (2 ^ Zpos n * 2 ^ Zpos n).
Proof.
  replace (Zpos n~1) with (1 + (Zpos n + Zpos n)) by lia.
  rewrite !Z.pow_add_r by lia. reflexivity.
Qed.

Lemma iter_shr_m (n : positive) :
  forall mrs : shr_record,
    0 <= shr_m mrs ->
    shr_m (iter_pos shr_1 n mrs) = shr_m mrs / 2 ^ Zpos n.
Proof.
  assert (Hdiv : forall a b : Z, 0 <= a -> 0 < b -> 0 <= a / b)
    by (intros; apply Z.div_pos; lia).
  induction n as [n IH | n IH |]; intros mrs H; cbn [iter_pos].
  - assert (Hp : 0 < 2 ^ Zpos n) by (apply Z.pow_pos_nonneg; lia).
    assert (H1 : 0 <= shr_m (shr_1 mrs))
      by (rewrite shr_1_m by exact H; apply Hdiv; lia).
    assert (H2 : 0 <= shr_m (iter_pos shr_1 n (shr_1 mrs)))
      by (rewrite IH by exact H1; apply Hdiv; [exact H1 | exact Hp]).
    rewrite IH by exact H2. rewrite IH by exact H1.
    rewrite shr_1_m by exact H. rewrite pow2_xI.
    rewrite !Z.div_div by nia. f_equal; ring.
  - assert (Hp : 0 < 2 ^ Zpos n) by (apply Z.pow_pos_nonneg; lia).
    assert (H1 : 0 <= shr_m (iter_pos shr_1 n mrs))
      by (rewrite IH by exact H; apply Hdiv; [exact H | exact Hp]).
    rewrite IH by exact H1. rewrite IH by exact H.
    rewrite pow2_xO. rewrite !Z.div_div by nia. reflexivity.
  - rewrite shr_1_m by exact H. reflexivity.
Qed.

Lemma shr_record_of_loc_m (m : Z) (l : location) :
  shr_m (shr_record_of_loc m l) = m.
Proof. now destruct l as [| []]. Qed.

Lemma round_nearest_even_step (m : Z) (l : location) :
  round_nearest_even m l = m \/ round_nearest_even m l = m + 1.
Proof.
  destruct l as [| []]; cbn [round_nearest_even]; auto.
  destruct (Z.even m); auto.
Qed.

(** The first shift of the rounding leaves a mantissa in canonical form,
    or nothing at the least exponent. *)
Lemma first_shift_canonical (mx ex : Z) (lx : location)
    (mrs : shr_record) (e1 : Z) :
  0 < mx -> ex <= fexp 24 128 (Zdigits2 mx + ex) ->
  shr_fexp 24 128 mx ex lx = (mrs, e1) ->
  0 <= shr_m mrs /\ fexp 24 128 (Zdigits2 (shr_m mrs) + e1) = e1.
Proof.
  intros Hm He. unfold shr_fexp, shr.
  destruct (fexp 24 128 (Zdigits2 mx + ex) - ex) as [| p | p] eqn:En;
    intros H; injection H as <- <-.
  - rewrite shr_record_of_loc_m. split; lia.
  - rewrite iter_shr_m by (rewrite shr_record_of_loc_m; lia).
    rewrite shr_record_of_loc_m.
    destruct (Zdigits2_shift mx (Zpos p) Hm ltac:(lia)) as [[Hp Hd] | [Hz Hd]].
    + split; [lia|]. rewrite Hd.
      replace (Zdigits2 mx - Zpos p + (ex + Zpos p))
        with (Zdigits2 mx + ex) by lia.
      lia.
    + rewrite Hz. split; [lia|]. cbn [Zdigits2].
      unfold fexp, emin in *. lia.
  - lia.
Qed.

(** What the rounding to binary32 returns is in the canonical form of
    binary32. *)
Lemma round_aux_canonical (s : bool) (mx ex : Z) (lx : location)
    (s' : bool) (m' : positive) (e' : Z) :
  0 < mx -> ex <= fexp 24 128 (Zdigits2 mx + ex) ->
  binary_round_aux 24 128 s mx ex lx = S754_finite s' m' e' ->
  s' = s /\ bounded 24 128 m' e' = true.
Proof.
  intros Hm He. unfold binary_round_aux.
  destruct (shr_fexp 24 128 mx ex lx) as [mrs e1] eqn:E1.
  destruct (first_shift_canonical _ _ _ _ _ Hm He E1) as [H0 Hc].
  set (m2 := round_nearest_even (shr_m mrs) (loc_of_shr_record mrs)).
  assert (Hm2 : 0 <= m2
                /\ (Zdigits2 m2 = Zdigits2 (shr_m mrs)
                    \/ Zdigits2 m2 = Zdigits2 (shr_m mrs) + 1)).
  { subst m2.
    destruct (round_nearest_even_step (shr_m mrs) (loc_of_shr_record mrs))
      as [-> | ->]; [split; [lia | now left]|].
    split; [lia|]. now apply Zdigits2_succ. }
  destruct Hm2 as [Hpos Hd].
  unfold shr_fexp, shr. cbn [shr_record_of_loc].
  destruct (fexp 24 128 (Zdigits2 m2 + e1) - e1) as [| p | p] eqn:En.
  - cbn [shr_m]. destruct m2 as [| q | q] eqn:Eq; try discriminate.
    destruct (e1 <=? 128 - 24) eqn:El; [|discriminate].
    intros H. injection H as <- <- <-. split; [reflexivity|].
    unfold bounded, canonical_mantissa. rewrite El.
    cbn [Zdigits2] in En. apply andb_true_intro. split; [|reflexivity].
    apply Z.eqb_eq. lia.
  - assert (Hp : p = 1%positive).
    { unfold fexp, emin in *. lia. }
    subst p. cbn [iter_pos].
    rewrite (shr_1_m (Build_shr_record m2 false false)) by exact Hpos.
    cbn [shr_m].
    destruct (m2 / 2) as [| q | q] eqn:Eq; try discriminate.
    destruct (e1 + 1 <=? 128 - 24) eqn:El; [|discriminate].
    intros H. injection H as <- <- <-. split; [reflexivity|].
    unfold bounded, canonical_mantissa. rewrite El.
    apply andb_true_intro. split; [|reflexivity]. apply Z.eqb_eq.
    assert (Hm2 : 0 < m2).
    { destruct (Z.eq_dec m2 0) as [K | K]; [|lia].
      rewrite K in Eq. discriminate Eq. }
    destruct (Zdigits2_shift m2 1 Hm2 ltac:(lia)) as [[_ Hs] | [Hz _]].
    + change (2 ^ 1) with 2 in Hs. rewrite Eq in Hs.
      cbn [Zdigits2] in Hs. rewrite Hs.
      replace (Zdigits2 m2 - 1 + (e1 + 1)) with (Zdigits2 m2 + e1) by lia.
      lia.
    + change (2 ^ 1) with 2 in Hz. rewrite Eq in Hz. discriminate Hz.
  - exfalso. unfold fexp, emin in *. lia.
Qed.

(** Shifting to the left multiplies, and adds digits. *)
Lemma digits_iter_xO (m d : positive) :
  Zpos (digits2_pos (Pos.iter xO m d)) = Zpos (digits2_pos m) + Zpos d.
Proof.
  induction d as [| d IH] using Pos.peano_ind.
  - cbn [Pos.iter digits2_pos]. lia.
  - rewrite Pos.iter_succ. cbn [digits2_pos]. lia.
Qed.

Lemma iter_shr_xO (d : positive) :
  forall q : positive,
    iter_pos shr_1 d (Build_shr_record (Zpos (Pos.iter xO q d)) false false)
    = Build_shr_record (Zpos q) false false.
Proof.
  induction d as [d IH | d IH |]; intros q; cbn [iter_pos].
  - replace (d~1)%positive with (Pos.succ (d + d)) by lia.
    rewrite Pos.iter_succ. cbn [shr_1 orb].
    rewrite Pos.iter_add. now rewrite !IH.
  - replace (d~0)%positive with (d + d)%positive by lia.
    rewrite Pos.iter_add. now rewrite !IH.
  - reflexivity.
Qed.

(** Rounding a mantissa that is in canonical form and in range changes
    nothing. *)
Lemma round_aux_exact (p emx : Z) (s : bool) (m : positive) (e : Z) :
  fexp p emx (Zpos (digits2_pos m) + e) = e -> e <= emx - p ->
  binary_round_aux p emx s (Zpos m) e loc_Exact = S754_finite s m e.
Proof.
  intros Hc He. unfold binary_round_aux, shr_fexp.
  cbn [Zdigits2 shr_record_of_loc]. rewrite Hc, Z.sub_diag.
  cbn [shr shr_m loc_of_shr_record round_nearest_even Zdigits2].
  rewrite Hc, Z.sub_diag. cbn [shr shr_m].
  apply Z.leb_le in He. now rewrite He.
Qed.

Lemma binary_round_canonical (s : bool) (m : positive) (e : Z)
    (s' : bool) (m' : positive) (e' : Z) :
  binary_round 24 128 s m e = S754_finite s' m' e' ->
  s' = s /\ bounded 24 128 m' e' = true.
Proof.
  unfold binary_round, shl_align.
  destruct (fexp 24 128 (Zpos (digits2_pos m) + e) - e) as [| d | d] eqn:E;
    apply round_aux_canonical; try lia; cbn [Zdigits2]; try lia.
  rewrite digits_iter_xO.
  replace (Zpos (digits2_pos m) + Zpos d
           + fexp 24 128 (Zpos (digits2_pos m) + e))
    with (Zpos (digits2_pos m) + e) by lia.
  lia.
Qed.

(** A binary32 value is widened exactly, and rounding the widened value
    gives it back. *)
Lemma widen_exact (s : bool) (m : positive) (e : Z) :
  bounded 24 128 m e = true ->
  exists d : positive,
    binary_round 53 1024 s m e = S754_finite s (Pos.iter xO m d) (e - Zpos d).
Proof.
  unfold bounded, canonical_mantissa. intros H.
  apply andb_prop in H. destruct H as [Hc He].
  apply Z.eqb_eq in Hc. apply Z.leb_le in He.
  unfold binary_round, shl_align.
  destruct (fexp 53 1024 (Zpos (digits2_pos m) + e) - e) as [| d | d] eqn:E;
    try (exfalso; unfold fexp, emin in *; lia).
  exists d.
  replace (fexp 53 1024 (Zpos (digits2_pos m) + e)) with (e - Zpos d) by lia.
  apply round_aux_exact.
  - rewrite digits_iter_xO.
    replace (Zpos (digits2_pos m) + Zpos d + (e - Zpos d))
      with (Zpos (digits2_pos m) + e) by lia.
    lia.
  - lia.
Qed.

Lemma narrow_widened (s : bool) (m d : positive) (e : Z) :
  bounded 24 128 m e = true ->
  binary_round 24 128 s (Pos.iter xO m d) (e - Zpos d) = S754_finite s m e.
Proof.
  unfold bounded, canonical_mantissa. intros H.
  apply andb_prop in H. destruct H as [Hc He].
  apply Z.eqb_eq in Hc.
  assert (Hf : fexp 24 128 (Zpos (digits2_pos (Pos.iter xO m d))
                            + (e - Zpos d)) = e).
  { rewrite digits_iter_xO.
    replace (Zpos (digits2_pos m) + Zpos d + (e - Zpos d))
      with (Zpos (digits2_pos m) + e) by lia.
    exact Hc. }
  unfold binary_round, shl_align. rewrite Hf.
  replace (e - (e - Zpos d)) with (Zpos d) by lia.
  unfold binary_round_aux, shr_fexp. cbn [Zdigits2 shr_record_of_loc].
  rewrite Hf. replace (e - (e - Zpos d)) with (Zpos d) by lia.
  cbn [shr]. rewrite iter_shr_xO.
  cbn [shr_m loc_of_shr_record round_nearest_even Zdigits2].
  replace (e - Zpos d + Zpos d) with e by lia.
  rewrite Hc, Z.sub_diag. cbn [shr shr_m]. now rewrite He.
Qed.

Lemma shr_nonneg (mrs : shr_record) (e n : Z) :
  0 <= shr_m mrs -> 0 <= shr_m (fst (shr mrs e n)).
Proof.
  intros H. unfold shr. destruct n as [| p | p]; cbn [fst]; try exact H.
  rewrite iter_shr_m by exact H. apply Z.div_pos; [exact H|].
  apply Z.pow_pos_nonneg; lia.
Qed.

(** The rounding of a positive mantissa is never NaN. *)
Lemma round_aux_not_nan (p emx : Z) (s : bool) (mx ex : Z) (lx : location) :
  0 <= mx -> binary_round_aux p emx s mx ex lx <> S754_nan.
Proof.
  intros Hm. unfold binary_round_aux, shr_fexp.
  pose proof (shr_nonneg (shr_record_of_loc mx lx) ex
                (fexp p emx (Zdigits2 mx + ex) - ex)) as H1.
  rewrite shr_record_of_loc_m in H1. specialize (H1 Hm).
  destruct (shr (shr_record_of_loc mx lx) ex
              (fexp p emx (Zdigits2 mx + ex) - ex)) as [mrs e1].
  cbn [fst] in H1.
  set (m2 := round_nearest_even (shr_m mrs) (loc_of_shr_record mrs)).
  assert (H2 : 0 <= m2).
  { subst m2.
    destruct (round_nearest_even_step (shr_m mrs) (loc_of_shr_record mrs))
      as [-> | ->]; lia. }
  pose proof (shr_nonneg (shr_record_of_loc m2 loc_Exact) e1
                (fexp p emx (Zdigits2 m2 + e1) - e1)) as H3.
  rewrite shr_record_of_loc_m in H3. specialize (H3 H2).
  destruct (shr (shr_record_of_loc m2 loc_Exact) e1
              (fexp p emx (Zdigits2 m2 + e1) - e1)) as [mrs2 e2].
  cbn [fst] in H3.
  destruct (shr_m mrs2) as [| q | q]; [discriminate | | lia].
  destruct (e2 <=? emx - p); discriminate.
Qed.

Lemma binary_round_not_nan (p emx : Z) (s : bool) (m : positive) (e : Z) :
  binary_round p emx s m e <> S754_nan.
Proof.
  unfold binary_round.
  destruct (shl_align m e (fexp p emx (Zpos (digits2_pos m) + e)))
    as [mz ez].
  apply round_aux_not_nan. lia.
Qed.

(** The value that comes back from the four bytes is the nearest
    binary32 value; it is finite when the float is, and it is a binary32
    value: rounding it again changes nothing. *)
Lemma round_trip_nearest (x r : float) :
  round_trip_f32 x = Ok r ->
  r = nearest_binary32 x
  /\ (is_finite x = true -> is_finite r = true)
  /\ nearest_binary32 r = r.
Proof.
  unfold round_trip_f32, nearest_binary32, to_binary32, of_binary32.
  destruct x as [sx | sx | | s m e]; intros H; try (injection H as <-; auto).
  pose proof (binary_round_not_nan 24 128 s m e) as Hnan.
  destruct (binary_round 24 128 s m e) as [sy | sy | | s' m' e'] eqn:E;
    try discriminate H; try (now elim Hnan);
    injection H as <-; try (repeat split; reflexivity).
  destruct (binary_round_canonical _ _ _ _ _ _ E) as [-> Hb].
  destruct (widen_exact s m' e' Hb) as [d Hw].
  unfold prec, emax. rewrite Hw. split; [reflexivity|].
  split; [reflexivity|].
  rewrite (narrow_widened s m' d e' Hb). exact Hw.
Qed.

End Binary32.

(** ** More on the weights, the getter and the conversion of axes *)

Section NormalizeError.

Lemma ltb_trans (x y z : float) :
  Float.ltb x y = true -> Float.ltb y z = true -> Float.ltb x z = true.
Proof.
  intros H1 H2.
  destruct (leb_not_nan _ _ (ltb_leb _ _ H1)) as [Hx Hy].
  destruct (leb_not_nan _ _ (ltb_leb _ _ H2)) as [_ Hz].
  apply (proj1 (ltb_rank x y Hx Hy)) in H1.
  apply (proj1 (ltb_rank y z Hy Hz)) in H2.
  apply (proj2 (ltb_rank x z Hx Hz)).
  unfold rank_lt in *.
  destruct (rank x) as [[a1 a2] a3]. destruct (rank y) as [[b1 b2] b3].
  destruct (rank z) as [[c1 c2] c3]. cbn [fst snd] in *. lia.
Qed.

Lemma to_gl_float_length (array4 r : list float) :
  to_gl_float array4 = Ok r ->
  List.length array4 = 4%nat /\ List.length r = 4%nat.
Proof.
  unfold to_gl_float.
  destruct array4 as [| a [| b [| c [| d [| e l]]]]]; try discriminate.
  intros H. bind_as H a' Ea. bind_as H b' Eb. bind_as H c' Ec.
  bind_as H d' Ed. injection H as <-. split; reflexivity.
Qed.

(** What [to_gl_float] returns: each value rounded to the nearest
    binary32 value; none of them has left the range of binary32. *)
Lemma to_gl_float_nearest (array4 r : list float) :
  to_gl_float array4 = Ok r ->
  r = map nearest_binary32 array4
  /\ Forall (fun w => is_finite w = true ->
                      is_finite (nearest_binary32 w) = true) array4
  /\ map nearest_binary32 r = r.
Proof.
  unfold to_gl_float.
  destruct array4 as [| a [| b [| c [| d [| e l]]]]]; try discriminate.
  intros H. bind_as H a' Ea. bind_as H b' Eb. bind_as H c' Ec.
  bind_as H d' Ed. injection H as <-.
  destruct (round_trip_nearest _ _ Ea) as (Ha1 & Ha2 & Ha3).
  destruct (round_trip_nearest _ _ Eb) as (Hb1 & Hb2 & Hb3).
  destruct (round_trip_nearest _ _ Ec) as (Hc1 & Hc2 & Hc3).
  destruct (round_trip_nearest _ _ Ed) as (Hd1 & Hd2 & Hd3).
  cbn [map]. split; [congruence|]. split.
  - repeat constructor; intros K; [rewrite <- Ha1 | rewrite <- Hb1
                                   | rewrite <- Hc1 | rewrite <- Hd1]; auto.
  - congruence.
Qed.

(** A round that goes on replaces the weights by four binary32 values
    whose sum is strictly nearer to one. *)
Lemma normalize_step_improves (weights next_weights : list float) :
  normalize_step weights = Ok (Some next_weights) ->
  List.length next_weights = 4%nat
  /\ map nearest_binary32 next_weights = next_weights
  /\ exists error next_error,
       sum_error weights = Ok error
       /\ sum_error next_weights = Ok next_error
       /\ Float.leb epsilon error = true
       /\ Float.ltb next_error error = true.
Proof.
  unfold normalize_step. intros H.
  bind_as H quotients Equ. bind_as H nw En. bind_as H s Es. bind_as H s' Es'.
  destruct (Float.geb (Float.abs (Float.sub one s)) epsilon
            && Float.gtb (Float.abs (Float.sub one s))
                         (Float.abs (Float.sub one s'))) eqn:E;
    [|discriminate H].
  injection H as <-. apply andb_prop in E. destruct E as [E1 E2].
  split; [exact (proj2 (to_gl_float_length _ _ En))|].
  split; [exact (proj2 (proj2 (to_gl_float_nearest _ _ En)))|].
  exists (Float.abs (Float.sub one s)), (Float.abs (Float.sub one s')).
  unfold sum_error. rewrite Es, Es'. cbn [Py.bind]. auto.
Qed.

Lemma normalize_loop_improves (rounds : nat) :
  forall weights result : list float,
    normalize_loop rounds weights = Ok result ->
    result = weights
    \/ (List.length result = 4%nat
        /\ map nearest_binary32 result = result
        /\ exists error final_error,
             sum_error weights = Ok error
             /\ sum_error result = Ok final_error
             /\ Float.leb epsilon error = true
             /\ Float.ltb final_error error = true).
Proof.
  induction rounds as [| rounds IH]; intros weights result H.
  - injection H as <-. now left.
  - cbn [normalize_loop] in H. bind_as H r Er.
    destruct r as [next_weights |]; [|injection H as <-; now left].
    destruct (normalize_step_improves _ _ Er)
      as (Hl & Hb & error & next_error & He & Hn & Hge & Hlt).
    right.
    destruct (IH _ _ H) as [-> | (Hl' & Hb' & e1 & e2 & H1 & H2 & _ & H4)].
    + split; [exact Hl|]. split; [exact Hb|]. now exists error, next_error.
    + split; [exact Hl'|]. split; [exact Hb'|]. exists error, e2.
      assert (e1 = next_error) by congruence. subst e1.
      repeat split; try assumption. exact (ltb_trans _ _ _ H4 Hlt).
Qed.

(** X14: what the normalisation of weights returns.  Either the sum of
    the weights is within epsilon of one and they are returned as they
    are, or there are four weights, none of them leaves the range of
    binary32 when it is rounded, and the result is a list of four
    binary32 values (rounding them again changes nothing) that is the
    weights rounded to the nearest binary32 values or has a sum strictly
    nearer to one than these: the loop never accepts a round that does
    not reduce the error. *)
Theorem normalize_weights_never_increases_the_error :
  forall weights result : list float,
    normalize_weights_compatible_with_gl_float weights = Ok result ->
    (Float.ltb (Float.abs (Float.sub (Float.sum weights) one)) epsilon = true
     /\ result = weights)
    \/ (Float.ltb (Float.abs (Float.sub (Float.sum weights) one)) epsilon
        = false
        /\ List.length weights = 4%nat /\ List.length result = 4%nat
        /\ Forall (fun w => is_finite w = true ->
                            is_finite (nearest_binary32 w) = true) weights
        /\ map nearest_binary32 result = result
        /\ (result = map nearest_binary32 weights
            \/ exists error final_error,
                 sum_error (map nearest_binary32 weights) = Ok error
                 /\ sum_error result = Ok final_error
                 /\ Float.ltb final_error error = true)).
Proof.
  intros weights result H.
  unfold normalize_weights_compatible_with_gl_float in H.
  destruct (Float.ltb (Float.abs (Float.sub (Float.sum weights) one)) epsilon).
  - injection H as <-. now left.
  - right. split; [reflexivity|]. bind_as H rounded Er.
    destruct (to_gl_float_length _ _ Er) as [L1 L2].
    destruct (to_gl_float_nearest _ _ Er) as (-> & Hfin & Hidem).
    split; [exact L1|].
    destruct (normalize_loop_improves _ _ _ H)
      as [-> | (Hl & Hb & e1 & e2 & H1 & H2 & _ & H4)].
    + split; [exact L2|]. split; [exact Hfin|]. split; [exact Hidem|].
      now left.
    + split; [exact Hl|]. split; [exact Hfin|]. split; [exact Hb|].
      right. now exists e1, e2.
Qed.

End NormalizeError.

Lemma normalize_weights_never_increases_the_error_witness :
  match normalize_weights_compatible_with_gl_float
          [of_Z 1; of_Z 3; of_Z 0; of_Z 0] with
  | Ok result =>
      List.length result = 4%nat /\ map nearest_binary32 result = result
  | Raise _ => False
  end.
Proof.
  destruct (normalize_weights_compatible_with_gl_float
              [of_Z 1; of_Z 3; of_Z 0; of_Z 0]) as [result |] eqn:E;
    [|vm_compute in E; discriminate E].
  destruct (normalize_weights_never_increases_the_error _ _ E)
    as [[H _] | (_ & _ & H1 & _ & H2 & _)]; [|now split].
  vm_compute in H. discriminate H.
Defined.

(** ** The getter on nested dictionaries *)

Section NestedDictionaries.

(** X15: on a path of one or more string keys [nested_json_value_getter]
    never raises: it returns the value reached by looking up the keys one
    after the other, and the default as soon as a step is not a
    dictionary or lacks the key. *)
Theorem nested_getter_follows_string_keys :
  forall (path : list string) (j default : json),
    path <> [] ->
    nested_json_value_getter j (map AStr path) default
    = Ok (match lookup_path j path with
          | Some v => v
          | None => default
          end).
Proof.
  induction path as [| s path IH]; intros j default Hp; [contradiction|].
  cbn [map nested_json_value_getter lookup_path].
  destruct j as [| b | z | x | t | l | d]; try reflexivity.
  unfold Dict.mem, Dict.getitem.
  destruct (Dict.get d s) as [v |] eqn:Eg; [|reflexivity].
  destruct path as [| s' path']; [reflexivity|].
  cbn [map Py.bind]. apply (IH v default). discriminate.
Qed.

End NestedDictionaries.

Lemma nested_getter_follows_string_keys_witness :
  nested_json_value_getter
    (JDict [("extensions",
             JDict [("VRM", JDict [("specVersion", JStr "0.0")])])]%string)
    (map AStr ["extensions"; "VRM"; "specVersion"]%string) JNull
  = Ok (JStr "0.0").
Proof.
  rewrite nested_getter_follows_string_keys by discriminate. reflexivity.
Defined.

(** ** The conversion of axes, twice *)

Section AxisTwice.

Lemma valid_neg (x : float) : Float.valid (Float.neg x) = Float.valid x.
Proof. now destruct x as [[] | [] | | [] m e]. Qed.

Lemma neg_neg (x : float) : Float.neg (Float.neg x) = x.
Proof. now destruct x as [[] | [] | | [] m e]. Qed.

(** X16: the conversion of axes is its own inverse: converting the
    converted vector gives back the vector, for every vector of floats. *)
Theorem axis_conversion_is_an_involution :
  forall x y z : float,
    Float.valid x = true -> Float.valid y = true -> Float.valid z = true ->
    exists v, axis_blender_to_glb [x; y; z] = Ok v
              /\ axis_blender_to_glb v = Ok [x; y; z].
Proof.
  intros x y z Hx Hy Hz. exists [Float.neg x; z; y].
  rewrite !axis_blender_to_glb_products.
  rewrite (mul_minus_one x Hx), (mul_one y Hy), (mul_one z Hz).
  split; [reflexivity|].
  rewrite mul_minus_one by now rewrite valid_neg.
  now rewrite neg_neg.
Qed.

End AxisTwice.

Lemma axis_conversion_is_an_involution_witness :
  exists v, axis_blender_to_glb [of_Z 1; of_Z 2; of_Z 3] = Ok v
            /\ axis_blender_to_glb v = Ok [of_Z 1; of_Z 2; of_Z 3].
Proof.
  apply axis_conversion_is_an_involution; reflexivity.
Defined.

(** ** The joint of a node *)

Section JointSolver.

Lemma list_index_some (l : list Z) (x i : Z) :
  list_index l x = Some i ->
  0 <= i < Z.of_nat (List.length l)
  /\ nth_error l (Z.to_nat i) = Some x
  /\ ~ In x (firstn (Z.to_nat i) l).
Proof.
  revert i. induction l as [| y l IH]; intros i H; [discriminate H|].
  cbn [list_index] in H. destruct (y =? x) eqn:E.
  - injection H as <-. apply Z.eqb_eq in E. subst y.
    cbn [List.length]. repeat split; try lia. intros [].
  - destruct (list_index l x) as [j |]; [|discriminate H].
    injection H as <-. destruct (IH j eq_refl) as (I1 & I2 & I3).
    cbn [List.length]. rewrite Nat2Z.inj_succ.
    replace (Z.to_nat (Z.succ j)) with (S (Z.to_nat j)) by lia.
    repeat split; try lia; [exact I2|].
    cbn [firstn]. intros [K | K]; [|now apply I3].
    apply Z.eqb_neq in E. now apply E.
Qed.

Lemma list_index_none (l : list Z) (x : Z) :
  list_index l x = None -> ~ In x l.
Proof.
  induction l as [| y l IH]; intros H; [intros []|].
  cbn [list_index] in H. destruct (y =? x) eqn:E; [discriminate H|].
  destruct (list_index l x); [discriminate H|].
  intros [K | K]; [|now apply IH].
  apply Z.eqb_neq in E. now apply E.
Qed.

(** X17: the joint found for a node name.  A result other than -1 is the
    first position, in the joints of the first skin, of the node that the
    name stands for; the result is -1, with the line about the bone
    printed, exactly when the name is unknown or its node is not a joint
    of that skin. *)
Theorem joint_id_is_the_position_of_the_node :
  forall (skins : list (list Z)) (node_name : string)
         (node_id_dic : Dict.t Z) (joint_id : Z) (printed : list string),
    joint_id_from_node_name_solver skins node_name node_id_dic
    = Ok (joint_id, printed) ->
    (joint_id = -1
     /\ printed = [(node_name ++ " bone may be not exist")%string]
     /\ (Dict.get node_id_dic node_name = None
         \/ exists node_id joints rest,
              Dict.get node_id_dic node_name = Some node_id
              /\ skins = joints :: rest /\ ~ In node_id joints))
    \/ (0 <= joint_id /\ printed = []
        /\ exists node_id joints rest,
             Dict.get node_id_dic node_name = Some node_id
             /\ skins = joints :: rest
             /\ nth_error joints (Z.to_nat joint_id) = Some node_id
             /\ ~ In node_id (firstn (Z.to_nat joint_id) joints)).
Proof.
  intros skins node_name node_id_dic joint_id printed H.
  unfold joint_id_from_node_name_solver in H.
  destruct (Dict.get node_id_dic node_name) as [node_id |].
  - destruct skins as [| joints rest]; [discriminate H|].
    destruct (list_index joints node_id) as [i |] eqn:Ei.
    + injection H as <- <-. right.
      destruct (list_index_some _ _ _ Ei) as (I1 & I2 & I3).
      split; [lia|]. split; [reflexivity|].
      now exists node_id, joints, rest.
    + injection H as <- <-. left. split; [reflexivity|].
      split; [reflexivity|]. right. exists node_id, joints, rest.
      repeat split. now apply list_index_none.
  - injection H as <- <-. left. repeat split. now left.
Qed.

End JointSolver.

Lemma joint_id_is_the_position_of_the_node_witness :
  joint_id_from_node_name_solver [[4; 7; 9]] "Spine"
    [("Hips", 4); ("Spine", 7)]%string = Ok (1, [])
  /\ nth_error [4; 7; 9] (Z.to_nat 1) = Some 7.
Proof.
  destruct (joint_id_from_node_name_solver [[4; 7; 9]] "Spine"
              [("Hips", 4); ("Spine", 7)]%string) as [[i log] |] eqn:E;
    [|vm_compute in E; discriminate E].
  destruct (joint_id_is_the_position_of_the_node _ _ _ _ _ E)
    as [(H & _) | (_ & _ & node_id & joints & rest & Hn & Hs & Hj & _)].
  - vm_compute in E. injection E as E _. rewrite H in E. discriminate E.
  - vm_compute in E. injection E as <- <-. split; reflexivity.
Defined.

(** ** Names and indices *)

Section NameIndices.

Lemma enumerate_from_some (names : list string) :
  forall (i : Z) (d : Dict.t Z) (n : string) (v : Z),
    Dict.get (enumerate_from i names d) n = Some v ->
    (exists k : nat,
        nth_error names k = Some n /\ v = i + Z.of_nat k
        /\ ~ In n (skipn (S k) names))
    \/ (~ In n names /\ Dict.get d n = Some v).
Proof.
  induction names as [| m names IH]; intros i d n v H.
  - right. split; [intros [] | exact H].
  - cbn [enumerate_from] in H.
    destruct (IH _ _ _ _ H) as [(k & Hk & Hv & Hl) | [Hn Hg]].
    + left. exists (S k). cbn [nth_error skipn].
      split; [exact Hk|]. split; [lia | exact Hl].
    + rewrite dict_get_set in Hg. destruct (String.eqb n m) eqn:E.
      * apply String.eqb_eq in E. subst m. injection Hg as <-.
        left. exists 0%nat. cbn [nth_error skipn].
        split; [reflexivity|]. split; [lia | exact Hn].
      * right. split; [|exact Hg]. intros [K | K]; [|now apply Hn].
        subst m. rewrite String.eqb_refl in E. discriminate E.
Qed.

Lemma enumerate_from_none (names : list string) :
  forall (i : Z) (d : Dict.t Z) (n : string),
    Dict.get (enumerate_from i names d) n = None ->
    ~ In n names /\ Dict.get d n = None.
Proof.
  induction names as [| m names IH]; intros i d n H.
  - split; [intros [] | exact H].
  - cbn [enumerate_from] in H. destruct (IH _ _ _ H) as [Hn Hg].
    rewrite dict_get_set in Hg. destruct (String.eqb n m) eqn:E;
      [discriminate Hg|].
    split; [|exact Hg]. intros [K | K]; [|now apply Hn].
    subst m. rewrite String.eqb_refl in E. discriminate E.
Qed.

Lemma enumerate_dic_some (names : list string) (n : string) (i : Z) :
  Dict.get (enumerate_dic names) n = Some i ->
  0 <= i /\ nth_error names (Z.to_nat i) = Some n
  /\ ~ In n (skipn (S (Z.to_nat i)) names).
Proof.
  intros H. destruct (enumerate_from_some _ _ _ _ _ H)
    as [(k & Hk & -> & Hl) | [_ K]]; [|discriminate K].
  rewrite Z.add_0_l, Nat2Z.id. split; [lia|]. now split.
Qed.

(** X18: the dictionaries from names to indices that the export builds
    by enumeration ([bone_id_dic], [mat_id_dic], [node_id_dic],
    [node_name_id_dic]).  The index stored for a name is a position at
    which the list has this name, the last such position, and a name that
    is not in the list has no entry; when no name occurs twice, every
    position is the index stored for its name. *)
Theorem enumerate_dic_gives_the_last_position :
  forall names : list string,
    (forall n : string,
        match Dict.get (enumerate_dic names) n with
        | Some i =>
            0 <= i /\ nth_error names (Z.to_nat i) = Some n
            /\ ~ In n (skipn (S (Z.to_nat i)) names)
        | None => ~ In n names
        end)
    /\ (NoDup names ->
        forall (k : nat) (n : string),
          nth_error names k = Some n ->
          Dict.get (enumerate_dic names) n = Some (Z.of_nat k)).
Proof.
  intros names. split.
  - intros n. destruct (Dict.get (enumerate_dic names) n) as [i |] eqn:E.
    + now apply enumerate_dic_some.
    + exact (proj1 (enumerate_from_none _ _ _ _ E)).
  - intros Hnd k n Hk.
    destruct (Dict.get (enumerate_dic names) n) as [i |] eqn:E.
    + destruct (enumerate_dic_some _ _ _ E) as (Hi & Hn & _).
      f_equal. rewrite NoDup_nth_error in Hnd.
      assert (Hlt : (k < List.length names)%nat)
        by (apply nth_error_Some; congruence).
      rewrite (Hnd k (Z.to_nat i) Hlt) by congruence. lia.
    + exfalso. apply (proj1 (enumerate_from_none _ _ _ _ E)).
      exact (nth_error_In _ _ Hk).
Qed.

Lemma human_bone_node_some (data : Dict.t string) (node_names : list string)
    (humanbone : string) (node : Z) :
  human_bone_node data (enumerate_dic node_names) humanbone = Some node ->
  exists name,
    Dict.get data humanbone = Some name /\ name <> EmptyString
    /\ 0 <= node /\ nth_error node_names (Z.to_nat node) = Some name.
Proof.
  unfold human_bone_node. intros H.
  destruct (Dict.get data humanbone) as [name |]; [|discriminate H].
  destruct (String.eqb name EmptyString) eqn:E; [discriminate H|].
  exists name. split; [reflexivity|].
  split; [intros ->; discriminate E|].
  destruct (enumerate_dic_some _ _ _ H) as (H1 & H2 & _). now split.
Qed.

Lemma vrm1_fold (data : Dict.t string) (ids : Dict.t Z) (l : list string) :
  forall (d : Dict.t json) (humanbone : string),
    Dict.get
      (fold_left
         (fun d humanbone =>
            match human_bone_node data ids humanbone with
            | Some node =>
                Dict.set d humanbone (JDict [("node", JInt node)]%string)
            | None => d
            end) l d) humanbone
    = match (if existsb (String.eqb humanbone) l
             then human_bone_node data ids humanbone else None) with
      | Some node => Some (JDict [("node", JInt node)]%string)
      | None => Dict.get d humanbone
      end.
Proof.
  induction l as [| b l IH]; intros d humanbone; cbn [fold_left existsb].
  - reflexivity.
  - rewrite IH. destruct (String.eqb humanbone b) eqn:E; cbn [orb].
    + apply String.eqb_eq in E. subst b.
      destruct (human_bone_node data ids humanbone) as [node |].
      * destruct (existsb (String.eqb humanbone) l); [reflexivity|].
        rewrite dict_get_set, String.eqb_refl. reflexivity.
      * now destruct (existsb (String.eqb humanbone) l).
    + destruct (existsb (String.eqb humanbone) l);
        [destruct (human_bone_node data ids humanbone); [reflexivity|]|];
        (destruct (human_bone_node data ids b);
         [now rewrite dict_get_set_other by exact E | reflexivity]).
Qed.

Lemma enumerate_dic_last (names : list string) (n : string) (k : nat) :
  nth_error names k = Some n -> ~ In n (skipn (S k) names) ->
  Dict.get (enumerate_dic names) n = Some (Z.of_nat k).
Proof.
  intros Hk Hlast.
  assert (Later : forall i j : nat,
             (i < j)%nat -> nth_error names j = Some n ->
             In n (skipn (S i) names)).
  { intros i j Hlt Hj. apply (nth_error_In _ (j - S i)).
    rewrite nth_error_skipn. now replace (S i + (j - S i))%nat with j by lia. }
  destruct (Dict.get (enumerate_dic names) n) as [i |] eqn:E.
  - destruct (enumerate_dic_some _ _ _ E) as (Hi & Hn & Hl).
    f_equal.
    destruct (Nat.lt_trichotomy (Z.to_nat i) k) as [Hlt | [Heq | Hgt]].
    + elim Hl. exact (Later _ _ Hlt Hk).
    + lia.
    + elim Hlast. exact (Later _ _ Hgt Hn).
  - exfalso. apply (proj1 (enumerate_from_none _ _ _ _ E)).
    exact (nth_error_In _ _ Hk).
Qed.

(** The test of the loop, said without the dictionary. *)
Lemma human_bone_node_names_node (data : Dict.t string)
    (node_names : list string) (humanbone : string) (node : Z) :
  human_bone_node data (enumerate_dic node_names) humanbone = Some node
  <-> names_node data node_names humanbone node.
Proof.
  unfold human_bone_node, names_node. split.
  - intros H.
    destruct (Dict.get data humanbone) as [name |]; [|discriminate H].
    destruct (String.eqb name EmptyString) eqn:E; [discriminate H|].
    exists name. split; [reflexivity|].
    split; [intros ->; discriminate E|].
    exact (enumerate_dic_some _ _ _ H).
  - intros (name & Hd & Hne & H0 & Hn & Hl). rewrite Hd.
    apply String.eqb_neq in Hne. rewrite Hne.
    rewrite (enumerate_dic_last _ _ _ Hn Hl). f_equal. lia.
Qed.

Lemma names_node_exists (data : Dict.t string) (node_names : list string)
    (humanbone : string) :
  (exists node, names_node data node_names humanbone node)
  <-> exists name,
        Dict.get data humanbone = Some name /\ name <> EmptyString
        /\ In name node_names.
Proof.
  split.
  - intros (node & name & Hd & Hne & _ & Hn & _). exists name.
    split; [exact Hd|]. split; [exact Hne|]. exact (nth_error_In _ _ Hn).
  - intros (name & Hd & Hne & Hin).
    destruct (Dict.get (enumerate_dic node_names) name) as [i |] eqn:E.
    + exists i, name. split; [exact Hd|]. split; [exact Hne|].
      exact (enumerate_dic_some _ _ _ E).
    + elim (proj1 (enumerate_from_none _ _ _ _ E)). exact Hin.
Qed.

(** X19: the humanoid bones written to the document.  In the 0.x schema
    the list has an entry for a humanoid bone exactly when the armature
    names a bone for it, the name is not empty and a node has that name;
    in the 1.x schema the dictionary has a key for exactly the same
    bones.  The node written is the last position at which the nodes
    have the name that the armature gives for the bone; a bone whose
    name is empty or matches no node is left out. *)
Theorem human_bones_point_at_their_nodes :
  forall (data : Dict.t string) (node_names : list string),
    let table := (HumanBones.requires ++ HumanBones.defines)%list in
    (forall entry : json,
        In entry (vrm0_human_bones data node_names) <->
        exists humanbone node,
          In humanbone table /\ names_node data node_names humanbone node
          /\ entry = JDict [("bone", JStr humanbone); ("node", JInt node);
                            ("useDefaultValues", JBool true)]%string)
    /\ (forall humanbone : string,
          (exists node,
              In (JDict [("bone", JStr humanbone); ("node", JInt node);
                         ("useDefaultValues", JBool true)]%string)
                 (vrm0_human_bones data node_names))
          <-> In humanbone table
              /\ exists name,
                   Dict.get data humanbone = Some name
                   /\ name <> EmptyString /\ In name node_names)
    /\ (forall humanbone : string,
          match Dict.get (vrm1_human_bones data node_names) humanbone with
          | Some value =>
              In humanbone table
              /\ exists node,
                   names_node data node_names humanbone node
                   /\ value = JDict [("node", JInt node)]%string
          | None =>
              ~ (In humanbone table
                 /\ exists name,
                      Dict.get data humanbone = Some name
                      /\ name <> EmptyString /\ In name node_names)
          end).
Proof.
  intros data node_names table.
  assert (H0 : forall entry : json,
             In entry (vrm0_human_bones data node_names) <->
             exists humanbone node,
               In humanbone table
               /\ names_node data node_names humanbone node
               /\ entry = JDict [("bone", JStr humanbone);
                                 ("node", JInt node);
                                 ("useDefaultValues", JBool true)]%string).
  { intros entry. unfold vrm0_human_bones. rewrite in_flat_map.
    fold table. split.
    - intros (humanbone & Hin & He).
      destruct (human_bone_node data (enumerate_dic node_names) humanbone)
        as [node |] eqn:Ef; [|contradiction].
      destruct He as [<- | []]. exists humanbone, node.
      split; [exact Hin|]. split; [|reflexivity].
      now apply human_bone_node_names_node.
    - intros (humanbone & node & Hin & Hf & ->).
      exists humanbone. split; [exact Hin|].
      apply human_bone_node_names_node in Hf. rewrite Hf. now left. }
  split; [exact H0|]. split.
  - intros humanbone. split.
    + intros (node & Hin). apply H0 in Hin.
      destruct Hin as (hb & node' & Hhb & Hn & He).
      injection He as <- <-. split; [exact Hhb|].
      apply names_node_exists. now exists node.
    + intros (Hhb & Hname). apply names_node_exists in Hname.
      destruct Hname as (node & Hn). exists node. apply H0.
      now exists humanbone, node.
  - intros humanbone. unfold vrm1_human_bones. rewrite vrm1_fold.
    fold table.
    destruct (existsb (String.eqb humanbone) table) eqn:Et.
    + assert (Hin : In humanbone table).
      { apply existsb_exists in Et. destruct Et as (x & Hx & E).
        apply String.eqb_eq in E. now subst x. }
      destruct (human_bone_node data (enumerate_dic node_names) humanbone)
        as [node |] eqn:Ef.
      * split; [exact Hin|]. exists node. split; [|reflexivity].
        now apply human_bone_node_names_node.
      * cbn [Dict.get]. intros (_ & Hname).
        apply names_node_exists in Hname. destruct Hname as (node & Hn).
        apply human_bone_node_names_node in Hn. congruence.
    + cbn [Dict.get]. intros (Hin & _).
      assert (K : existsb (String.eqb humanbone) table = true).
      { apply existsb_exists. exists humanbone. split; [exact Hin|].
        apply String.eqb_refl. }
      congruence.
Qed.

End NameIndices.

(** ** The comparison of a float with a whole number *)

Section MixedComparison.

Lemma float_geb_Z_zero (x : float) :
  float_geb_Z x 0 = Float.leb zero x.
Proof.
  destruct x as [s | [] | | [] m e]; try reflexivity.
  - change (Float.leb zero (S754_finite true m e)) with false.
    unfold float_geb_Z. cbn [cond_Zopp].
    destruct (0 <=? e) eqn:E; apply Z.leb_gt; [|lia].
    apply Z.leb_le in E.
    assert (0 < 2 ^ e) by (apply Z.pow_pos_nonneg; lia). nia.
  - change (Float.leb zero (S754_finite false m e)) with true.
    unfold float_geb_Z. cbn [cond_Zopp].
    destruct (0 <=? e) eqn:E; apply Z.leb_le; [|lia].
    apply Z.leb_le in E.
    assert (0 < 2 ^ e) by (apply Z.pow_pos_nonneg; lia). nia.
Qed.

(** [high >= x] for a float in canonical form and the whole number that
    the float [S754_finite false my ey] stands for. *)
Lemma Z_geb_float_leb (high : Z) (my : positive) (ey : Z) (x : float) :
  0 < high -> -1074 <= ey < 0 -> high * 2 ^ (- ey) = Zpos my ->
  2 ^ 52 <= Zpos my < 2 ^ 53 ->
  Float.valid x = true ->
  Z_geb_float high x = Float.leb x (S754_finite false my ey).
Proof.
  intros Hhigh Hey Hmy Hrange Hv.
  destruct x as [s | [] | | [] m e]; try reflexivity.
  - cbn [Z_geb_float]. change (Float.leb _ _) with true.
    apply Z.leb_le. lia.
  - change (Float.leb _ _) with true. unfold Z_geb_float. cbn [cond_Zopp].
    destruct (0 <=? e) eqn:E; apply Z.leb_le.
    + apply Z.leb_le in E.
      assert (0 < 2 ^ e) by (apply Z.pow_pos_nonneg; lia). nia.
    + assert (0 < 2 ^ (- e)) by (apply Z.pow_pos_nonneg; lia). nia.
  - unfold Float.valid, valid_binary, bounded, canonical_mantissa in Hv.
    apply andb_prop in Hv. destruct Hv as [Hc He].
    apply Z.eqb_eq in Hc. apply Z.leb_le in He.
    pose proof (Z.log2_spec (Zpos m) ltac:(lia)) as [Hlo Hhi].
    pose proof (digits_log2 m) as Hd.
    unfold Float.leb, SFleb, SFcompare. unfold Z_geb_float.
    cbn [cond_Zopp].
    assert (Hm53 : Zpos m < 2 ^ 53).
    { eapply Z.lt_le_trans; [exact Hhi|]. apply Z.pow_le_mono_r; [lia|].
      unfold fexp, emin, prec, emax in Hc. lia. }
    destruct (Z.compare_spec e ey) as [Heq | Hlt | Hgt].
    + subst e. replace (0 <=? ey) with false by (symmetry; apply Z.leb_gt; lia).
      rewrite Hmy. rewrite Pos.compare_cont_spec. cbn [Pos.switch_Eq].
      destruct (Pos.compare_spec m my) as [K | K | K].
      * apply Z.leb_le. lia.
      * apply Z.leb_le. lia.
      * apply Z.leb_gt. lia.
    + replace (0 <=? e) with false by (symmetry; apply Z.leb_gt; lia).
      apply Z.leb_le.
      replace (- e) with (- ey + (ey - e)) by lia.
      rewrite Z.pow_add_r by lia. rewrite Z.mul_assoc, Hmy.
      assert (2 ^ 1 <= 2 ^ (ey - e)) by (apply Z.pow_le_mono_r; lia).
      change (2 ^ 1) with 2 in *. change (2 ^ 53) with (2 * 2 ^ 52) in Hm53.
      nia.
    + assert (Hm52 : 2 ^ 52 <= Zpos m).
      { etransitivity; [|exact Hlo]. apply Z.pow_le_mono_r; [lia|].
        unfold fexp, emin, prec, emax in Hc. lia. }
      assert (Hh : high * 2 ^ (- ey - 1) < 2 ^ 52).
      { assert (K : 2 ^ (- ey) = 2 * 2 ^ (- ey - 1)).
        { replace (- ey) with (1 + (- ey - 1)) at 1 by lia.
          rewrite Z.pow_add_r by lia. reflexivity. }
        rewrite K in Hmy. destruct Hrange as [_ Hr].
        change (2 ^ 53) with 9007199254740992 in Hr.
        change (2 ^ 52) with 4503599627370496.
        set (X := 2 ^ (- ey - 1)) in *. nia. }
      assert (Hp : 0 < 2 ^ (- ey - 1)) by (apply Z.pow_pos_nonneg; lia).
      destruct (0 <=? e) eqn:E; apply Z.leb_gt.
      * apply Z.leb_le in E.
        assert (1 <= 2 ^ e).
        { change 1 with (2 ^ 0). apply Z.pow_le_mono_r; lia. }
        nia.
      * apply Z.leb_gt in E.
        assert (2 ^ (- e) <= 2 ^ (- ey - 1))
          by (apply Z.pow_le_mono_r; lia).
        assert (0 < 2 ^ (- e)) by (apply Z.pow_pos_nonneg; lia).
        nia.
Qed.

Lemma Z_geb_float_one (x : float) :
  Float.valid x = true -> Z_geb_float 1 x = Float.leb x (of_Z 1).
Proof.
  intros Hv. apply (Z_geb_float_leb 1 4503599627370496 (-52) x);
    [lia | lia | reflexivity | split; [discriminate | reflexivity]
    | exact Hv].
Qed.

Lemma Z_geb_float_hundred (x : float) :
  Float.valid x = true -> Z_geb_float 100 x = Float.leb x (of_Z 100).
Proof.
  intros Hv. apply (Z_geb_float_leb 100 7036874417766400 (-46) x);
    [lia | lia | reflexivity | split; [discriminate | reflexivity]
    | exact Hv].
Qed.

End MixedComparison.

(** ** The weight of a blend shape bind *)

Section BindWeight.

(** What [clamp] returns, case by case. *)
Lemma clamp_cases (value : json) (high : Z) :
  0 <= high ->
  (exists z, value = JInt z) \/ (exists x, value = JFloat x) ->
  exists above below : bool,
    int_ge_json high value = Ok above
    /\ json_ge_int value 0 = Ok below
    /\ clamp 0 value high
       = Ok (if above then if below then value else JInt 0 else JInt high,
             negb (above && below))
    /\ int_ge_json high
         (if above then if below then value else JInt 0 else JInt high)
       = Ok true
    /\ json_ge_int
         (if above then if below then value else JInt 0 else JInt high) 0
       = Ok true.
Proof.
  intros Hhigh Hv.
  assert (Hh : (0 <=? high) = true) by (apply Z.leb_le; lia).
  destruct Hv as [[z ->] | [x ->]].
  - exists (z <=? high), (0 <=? z). unfold clamp.
    cbn [int_ge_json json_ge_int Py.bind].
    destruct (z <=? high) eqn:E1; [destruct (0 <=? z) eqn:E2|];
      cbn [Py.bind andb negb int_ge_json json_ge_int];
      rewrite ?E1, ?E2, ?Hh, ?Z.leb_refl; repeat split; reflexivity.
  - exists (Z_geb_float high x), (float_geb_Z x 0). unfold clamp.
    cbn [int_ge_json json_ge_int Py.bind].
    destruct (Z_geb_float high x) eqn:E1;
      [destruct (float_geb_Z x 0) eqn:E2|];
      cbn [Py.bind andb negb int_ge_json json_ge_int];
      rewrite ?E1, ?E2, ?Hh, ?Z.leb_refl; repeat split; reflexivity.
Qed.

(** X20: the weight written for a blend shape bind is always within the
    range of the schema, 0 to 100 in 0.x (where the weight is first
    multiplied by 100) and 0 to 1 otherwise, for every number read,
    also an infinity or NaN.  A value in the range is written unchanged
    without a warning; a value above the range, or one that cannot be
    compared (NaN), is replaced by the upper bound and a value below by
    0, as whole numbers, and the warning is printed.  For a whole number
    this is max(0, min(high, value)); for a float there is no warning
    exactly when 0 <= value <= high in the order of the floats.  Clamping
    what was written changes nothing. *)
Theorem bind_weight_stays_in_range :
  forall (version : string) (weight : json),
    (exists z, weight = JInt z) \/ (exists x, weight = JFloat x) ->
    let high := if String.prefix "0." version then 100 else 1 in
    exists (value written : json) (warned above below : bool),
      (if String.prefix "0." version
       then json_times_100 weight = Ok value
       else value = weight)
      /\ bind_weight version weight = Ok (written, warned)
      /\ int_ge_json high value = Ok above
      /\ json_ge_int value 0 = Ok below
      /\ written
         = (if above then if below then value else JInt 0 else JInt high)
      /\ warned = negb (above && below)
      /\ int_ge_json high written = Ok true
      /\ json_ge_int written 0 = Ok true
      /\ clamp 0 written high = Ok (written, false)
      /\ (forall z : Z,
             value = JInt z ->
             written = JInt (Z.max 0 (Z.min high z))
             /\ (warned = false <-> 0 <= z <= high))
      /\ (forall x : float,
             value = JFloat x ->
             (is_nan x = true -> written = JInt high /\ warned = true)
             /\ (x = S754_infinity false ->
                 written = JInt high /\ warned = true)
             /\ (x = S754_infinity true ->
                 written = JInt 0 /\ warned = true)
             /\ (is_zero x = true -> written = value /\ warned = false)
             /\ (Float.valid x = true ->
                 (warned = false
                  <-> Float.leb zero x = true
                      /\ Float.leb x (of_Z high) = true))).
Proof.
  intros version weight Hw high.
  assert (Hv : exists value,
             (if String.prefix "0." version
              then json_times_100 weight = Ok value
              else value = weight)
             /\ ((exists z, value = JInt z) \/ (exists x, value = JFloat x))
             /\ bind_weight version weight = clamp 0 value high).
  { unfold bind_weight. subst high.
    destruct (String.prefix "0." version).
    - destruct Hw as [[z ->] | [x ->]]; eexists;
        (split; [reflexivity|]); (split; [|reflexivity]);
        [left | right]; eexists; reflexivity.
    - exists weight. now repeat split. }
  destruct Hv as (value & Hval & Hnum & Hb).
  assert (Hhigh : 0 <= high) by (subst high; destruct (String.prefix _ _); lia).
  destruct (clamp_cases value high Hhigh Hnum)
    as (above & below & Ha & Hbl & Hc & Hin1 & Hin2).
  exists value,
    (if above then if below then value else JInt 0 else JInt high),
    (negb (above && below)), above, below.
  split; [exact Hval|]. split; [now rewrite Hb|].
  split; [exact Ha|]. split; [exact Hbl|].
  split; [reflexivity|]. split; [reflexivity|].
  split; [exact Hin1|]. split; [exact Hin2|]. split.
  { unfold clamp. rewrite Hin1. cbn [Py.bind]. rewrite Hin2.
    reflexivity. }
  split.
  - intros z ->. cbn [int_ge_json json_ge_int] in Ha, Hbl.
    injection Ha as <-. injection Hbl as <-.
    destruct (z <=? high) eqn:E1; [destruct (0 <=? z) eqn:E2|];
      cbn [andb negb].
    + apply Z.leb_le in E1, E2. split; [f_equal; lia|].
      split; [lia | reflexivity].
    + apply Z.leb_le in E1. apply Z.leb_gt in E2.
      split; [f_equal; lia|]. split; [discriminate | lia].
    + apply Z.leb_gt in E1. split; [f_equal; lia|].
      split; [discriminate | lia].
  - intros x ->. cbn [int_ge_json json_ge_int] in Ha, Hbl.
    injection Ha as <-. injection Hbl as <-.
    assert (Hh : (0 <=? high) = true) by (apply Z.leb_le; lia).
    split; [|split; [|split; [|split]]].
    + destruct x; try discriminate. intros _. now split.
    + intros ->. now split.
    + intros ->. now split.
    + destruct x; try discriminate. intros _.
      cbn [Z_geb_float float_geb_Z]. rewrite Hh. now split.
    + intros Hvalid. rewrite float_geb_Z_zero.
      assert (Hcmp : Z_geb_float high x = Float.leb x (of_Z high)).
      { subst high. destruct (String.prefix "0." version);
          [now apply Z_geb_float_hundred | now apply Z_geb_float_one]. }
      rewrite Hcmp.
      destruct (Float.leb x (of_Z high)), (Float.leb zero x);
        cbn [andb negb]; intuition discriminate.
Qed.

End BindWeight.

Lemma bind_weight_stays_in_range_witness :
  exists (written : json) (warned : bool),
    bind_weight "1.0" (JFloat half) = Ok (written, warned)
    /\ written = JFloat half /\ warned = false.
Proof.
  destruct (bind_weight_stays_in_range "1.0" (JFloat half))
    as (value & written & warned & above & below
        & H1 & H2 & H3 & H4 & H5 & H6 & _); [right; now eexists|].
  exists written, warned. split; [exact H2|].
  change (value = JFloat half) in H1. subst value.
  vm_compute in H3. injection H3 as <-.
  vm_compute in H4. injection H4 as <-.
  split; [exact H5 | exact H6].
Defined.

(** ** The offset of a collider *)

Section ColliderOffset.

(** X21: the offset of a spring bone collider.  With d the place of the
    empty minus the place of the armature minus the head of its bone,
    the 1.x schema stores the converted vector (-dx, dz, dy) and the
    0.x schema stores x = -dx, y = dz and z = -dy: it negates the z of
    the converted vector once more. *)
Theorem collider_offset_components :
  forall (version : string) (wx wy wz ax ay az hx hy hz : float),
    let dx := Float.sub (Float.sub wx ax) hx in
    let dy := Float.sub (Float.sub wy ay) hy in
    let dz := Float.sub (Float.sub wz az) hz in
    Float.valid dx = true -> Float.valid dy = true -> Float.valid dz = true ->
    collider_offset version [wx; wy; wz] [ax; ay; az] [hx; hy; hz]
    = Ok (if String.prefix "0." version
          then JDict [("x", JFloat (Float.neg dx)); ("y", JFloat dz);
                      ("z", JFloat (Float.neg dy))]%string
          else json_floats [Float.neg dx; dz; dy]).
Proof.
  intros version wx wy wz ax ay az hx hy hz dx dy dz Hx Hy Hz.
  unfold collider_offset.
  change (mapM _ [0; 1; 2]) with (@Ok (list float) [dx; dy; dz]).
  cbn [Py.bind]. rewrite axis_blender_to_glb_products.
  rewrite (mul_minus_one dx Hx), (mul_one dy Hy), (mul_one dz Hz).
  cbn [Py.bind]. rewrite (mul_minus_one dy Hy).
  now destruct (String.prefix "0." version).
Qed.

End ColliderOffset.

Lemma collider_offset_components_witness :
  collider_offset "0.0" [of_Z 5; of_Z 7; of_Z 9] [of_Z 1; of_Z 1; of_Z 1]
    [of_Z 1; of_Z 2; of_Z 3]
  = Ok (JDict [("x", JFloat (of_Z (-3))); ("y", JFloat (of_Z 5));
               ("z", JFloat (of_Z (-4)))]%string).
Proof.
  rewrite collider_offset_components by reflexivity. reflexivity.
Defined.

(** ** The differences of the normals of a shape key *)

Section MorphNormals.

Lemma string_get_in {V : Type} (d : Dict.t V) (k : string) (v : V) :
  Dict.get d k = Some v -> In (k, v) d.
Proof.
  induction d as [| [k0 v0] d IH]; cbn [Dict.get]; [discriminate|].
  destruct (String.eqb k k0) eqn:E.
  - apply String.eqb_eq in E. subst k0. intros H. injection H as <-. now left.
  - intros H. right. now apply IH.
Qed.

Lemma string_keys_set {V : Type} (d : Dict.t V) (k x : string) (v : V) :
  In x (map fst (Dict.set d k v)) -> x = k \/ In x (map fst d).
Proof.
  induction d as [| [k0 v0] d IH]; cbn [Dict.set map fst In].
  - intros [<- | []]. now left.
  - destruct (String.eqb k k0) eqn:E; cbn [map fst In]; [tauto|].
    intros [<- | H]; [tauto|]. destruct (IH H); tauto.
Qed.

Lemma string_keys_unique_set {V : Type} (d : Dict.t V) (k : string) (v : V) :
  NoDup (map fst d) -> NoDup (map fst (Dict.set d k v)).
Proof.
  induction d as [| [k0 v0] d IH]; cbn [Dict.set map fst]; intros H.
  - constructor; [intros [] | constructor].
  - inversion H as [| ? ? Hn Hd]; subst.
    destruct (String.eqb k k0) eqn:E; cbn [map fst]; [now constructor|].
    constructor; [|now apply IH].
    intros Hin. apply string_keys_set in Hin.
    destruct Hin as [-> | Hin]; [|contradiction].
    rewrite String.eqb_refl in E. discriminate E.
Qed.

Lemma string_keys_unique_update {V : Type} (other : Dict.t V) :
  forall d : Dict.t V,
    NoDup (map fst d) -> NoDup (map fst (Dict.update d other)).
Proof.
  unfold Dict.update.
  induction other as [| kv other IH]; intros d H; cbn [fold_left];
    [exact H|].
  apply IH. now apply string_keys_unique_set.
Qed.

Lemma getitem_ok {V : Type} (d : Dict.t V) (k : string) (v : V) :
  Dict.getitem d k = Ok v -> Dict.get d k = Some v.
Proof.
  unfold Dict.getitem. destruct (Dict.get d k); [|discriminate].
  intros H. now injection H as ->.
Qed.

(** The loop over the shape keys, on a dictionary whose keys differ. *)
Lemma morph_loop (base_dic : Dict.t (list float)) (reference : string)
    (l : list (string * list float)) :
  NoDup (map fst l) ->
  forall acc r,
    foldM (fun morph_normal_diff_dic (kv : string * list float) =>
             if String.eqb (fst kv) reference
             then Ok morph_normal_diff_dic
             else
               base <- Dict.getitem base_dic reference ;;
               let values :=
                 map (fun p : vec3 * vec3 =>
                        let '((m0, m1, m2), (b0, b1, b2)) := p in
                        [Float.sub m0 b0; Float.sub m1 b1; Float.sub m2 b2])
                     (combine (triples (snd kv)) (triples base)) in
               Ok (Dict.set morph_normal_diff_dic (fst kv) values))
          l acc = Ok r ->
    forall name : string,
      (forall v, In (name, v) l -> name <> reference ->
         exists base,
           Dict.get base_dic reference = Some base
           /\ Dict.get r name
              = Some (map (fun p : vec3 * vec3 =>
                             let '((m0, m1, m2), (b0, b1, b2)) := p in
                             [Float.sub m0 b0; Float.sub m1 b1;
                              Float.sub m2 b2])
                          (combine (triples v) (triples base))))
      /\ (~ In name (map fst l) \/ name = reference ->
          Dict.get r name = Dict.get acc name).
Proof.
  induction l as [| [k v0] l IH]; intros Hnd acc r H name.
  - injection H as <-. split; [intros v []| reflexivity].
  - cbn [map fst] in Hnd. apply NoDup_cons_iff in Hnd.
    destruct Hnd as [Hk Hnd].
    cbn [foldM fst snd] in H. bind_as H acc1 E1.
    destruct (IH Hnd acc1 r H name) as [I1 I2]. clear IH H.
    destruct (String.eqb k reference) eqn:Ek.
    + injection E1 as <-. apply String.eqb_eq in Ek. subst k. split.
      * intros v [Heq | Hin] Hne; [injection Heq as -> _; contradiction|].
        now apply I1.
      * intros [Hn | ->].
        -- apply I2. left. intros K. apply Hn. now right.
        -- apply I2. now right.
    + bind_as E1 base Eb. injection E1 as <-.
      apply getitem_ok in Eb. split.
      * intros v [Heq | Hin] Hne.
        -- injection Heq as -> ->. exists base. split; [exact Eb|].
           rewrite I2 by (left; exact Hk).
           rewrite dict_get_set, String.eqb_refl. reflexivity.
        -- now apply I1.
      * intros Hc.
        assert (Hc' : ~ In name (map fst l) \/ name = reference).
        { destruct Hc as [Hn | ->]; [left | now right].
          intros K. apply Hn. now right. }
        rewrite I2 by exact Hc'.
        apply dict_get_set_other. destruct Hc as [Hn | ->].
        -- destruct (String.eqb name k) eqn:E; [|reflexivity].
           apply String.eqb_eq in E. subst k. exfalso. apply Hn. now left.
        -- rewrite String.eqb_sym. exact Ek.
Qed.

Lemma triples_nth (v : list float) :
  forall (j : nat) (a b c : float),
    nth_error (triples v) j = Some (a, b, c) <->
    nth_error v (3 * j) = Some a /\ nth_error v (3 * j + 1) = Some b
    /\ nth_error v (3 * j + 2) = Some c.
Proof.
  assert (G : forall (n : nat) (v : list float),
             (List.length v <= n)%nat ->
             forall (j : nat) (a b c : float),
               nth_error (triples v) j = Some (a, b, c) <->
               nth_error v (3 * j) = Some a
               /\ nth_error v (3 * j + 1) = Some b
               /\ nth_error v (3 * j + 2) = Some c).
  { induction n as [| n IHn]; intros w Hw j a b c.
    - destruct w; [|cbn [List.length] in Hw; lia].
      cbn [triples]. rewrite !nth_error_nil. split; [discriminate|].
      intros [K _]. discriminate K.
    - destruct w as [| x [| y [| z w]]].
      + cbn [triples]. rewrite !nth_error_nil. split; [discriminate|].
        intros [K _]. discriminate K.
      + cbn [triples]. rewrite nth_error_nil. split; [discriminate|].
        intros (_ & K & _). replace (3 * j + 1)%nat with (S (3 * j)) in K by lia.
        cbn [nth_error] in K. rewrite nth_error_nil in K. discriminate K.
      + cbn [triples]. rewrite nth_error_nil. split; [discriminate|].
        intros (_ & _ & K).
        replace (3 * j + 2)%nat with (S (S (3 * j))) in K by lia.
        cbn [nth_error] in K. rewrite nth_error_nil in K. discriminate K.
      + cbn [triples]. destruct j as [| j].
        * change (3 * 0)%nat with 0%nat. change (0 + 1)%nat with 1%nat.
          change (0 + 2)%nat with 2%nat. cbn [nth_error]. split.
          -- intros H. injection H as -> -> ->. auto.
          -- intros (H1 & H2 & H3). injection H1 as ->. injection H2 as ->.
             injection H3 as ->. reflexivity.
        * cbn [nth_error].
          replace (3 * S j)%nat with (S (S (S (3 * j)))) by lia.
          replace (S (S (S (3 * j))) + 1)%nat with (S (S (S (3 * j + 1))))
            by lia.
          replace (S (S (S (3 * j))) + 2)%nat with (S (S (S (3 * j + 2))))
            by lia.
          cbn [nth_error]. apply IHn. cbn [List.length] in Hw. lia. }
  exact (G (List.length v) v (Nat.le_refl _)).
Qed.

Lemma nth_error_pairs (p q : list vec3) :
  forall (j : nat) (x y : vec3),
    nth_error (combine p q) j = Some (x, y) <->
    nth_error p j = Some x /\ nth_error q j = Some y.
Proof.
  revert q. induction p as [| a p IH]; intros [| b q] [| j] x y;
    cbn [combine nth_error]; try (split; [discriminate | intros [K1 K2]; discriminate]).
  - split.
    + intros H. injection H as -> ->. auto.
    + intros [H1 H2]. injection H1 as ->. injection H2 as ->. reflexivity.
  - apply IH.
Qed.

(** X22: the differences of normals used for the morph targets of the 0.x
    schema.  The result has no entry for the reference key; for every
    other shape key it lists, vertex by vertex, the normal of the key
    minus the normal of the reference key, component by component, so
    that entry j belongs to vertex j; a vertex has an entry when both
    keys hold its three components. *)
Theorem morph_normal_differences_are_per_vertex :
  forall (key_blocks : list (string * list float)) (reference : string)
         (r : Dict.t (list (list float))),
    fetch_morph_vertex_normal_difference key_blocks reference = Ok r ->
    Dict.get r reference = None
    /\ forall (name : string) (normals : list float),
         Dict.get (Dict.update [] key_blocks) name = Some normals ->
         name <> reference ->
         exists (base : list float) (values : list (list float)),
           Dict.get (Dict.update [] key_blocks) reference = Some base
           /\ Dict.get r name = Some values
           /\ forall (j : nat) (d : list float),
                nth_error values j = Some d <->
                exists m0 m1 m2 b0 b1 b2,
                  nth_error normals (3 * j) = Some m0
                  /\ nth_error normals (3 * j + 1) = Some m1
                  /\ nth_error normals (3 * j + 2) = Some m2
                  /\ nth_error base (3 * j) = Some b0
                  /\ nth_error base (3 * j + 1) = Some b1
                  /\ nth_error base (3 * j + 2) = Some b2
                  /\ d = [Float.sub m0 b0; Float.sub m1 b1; Float.sub m2 b2].
Proof.
  intros key_blocks reference r H.
  unfold fetch_morph_vertex_normal_difference in H.
  assert (Hnd : NoDup (map fst (Dict.update [] key_blocks)))
    by (apply string_keys_unique_update; constructor).
  pose proof (morph_loop _ reference _ Hnd [] r H) as L.
  split.
  - destruct (L reference) as [_ L2]. rewrite L2 by now right. reflexivity.
  - intros name normals Hg Hne.
    destruct (L name) as [L1 _].
    destruct (L1 normals (string_get_in _ _ _ Hg) Hne) as (base & Hb & Hr).
    exists base. eexists. split; [exact Hb|]. split; [exact Hr|].
    intros j d. split.
    + intros Hd. rewrite nth_error_map in Hd.
      destruct (nth_error (combine (triples normals) (triples base)) j)
        as [[[[m0 m1] m2] [[b0 b1] b2]] |] eqn:Ec; [|discriminate Hd].
      cbn [option_map] in Hd. injection Hd as <-.
      apply nth_error_pairs in Ec. destruct Ec as [Hm Hbb].
      apply triples_nth in Hm. apply triples_nth in Hbb.
      destruct Hm as (M0 & M1 & M2). destruct Hbb as (B0 & B1 & B2).
      exists m0, m1, m2, b0, b1, b2. repeat split; assumption.
    + intros (m0 & m1 & m2 & b0 & b1 & b2 & M0 & M1 & M2 & B0 & B1 & B2 & ->).
      assert (Hm : nth_error (triples normals) j = Some (m0, m1, m2))
        by now apply triples_nth.
      assert (Hbb : nth_error (triples base) j = Some (b0, b1, b2))
        by now apply triples_nth.
      rewrite nth_error_map.
      rewrite (proj2 (nth_error_pairs _ _ j _ _) (conj Hm Hbb)).
      reflexivity.
Qed.

End MorphNormals.

Lemma morph_normal_differences_are_per_vertex_witness :
  match fetch_morph_vertex_normal_difference
          [("Basis", [of_Z 0; of_Z 0; of_Z 1; of_Z 1; of_Z 0; of_Z 0]);
           ("Smile", [of_Z 0; of_Z 1; of_Z 1; of_Z 1; of_Z 0; of_Z 2])]%string
          "Basis" with
  | Ok r =>
      Dict.get r "Basis" = None
      /\ Dict.get r "Smile"
         = Some [[of_Z 0; of_Z 1; of_Z 0]; [of_Z 0; of_Z 0; of_Z 2]]
  | Raise _ => False
  end.
Proof.
  destruct (fetch_morph_vertex_normal_difference
              [("Basis", [of_Z 0; of_Z 0; of_Z 1; of_Z 1; of_Z 0; of_Z 0]);
               ("Smile", [of_Z 0; of_Z 1; of_Z 1; of_Z 1; of_Z 0; of_Z 2])]%string
              "Basis") as [r |] eqn:E; [|vm_compute in E; discriminate E].
  split.
  - exact (proj1 (morph_normal_differences_are_per_vertex _ _ _ E)).
  - vm_compute in E. now injection E as <-.
Defined.

(** ** The nodes and skins of the armature *)

Section ArmatureWalk.

Variable bone_id_dic : Dict.t Z.
Variable names : list string.

Lemma tree_size_children (n : string) (h : list float) (cs : list BoneTree) :
  tree_size (BoneNode n h cs) = S (forest_size cs).
Proof.
  reflexivity.
Qed.

Lemma forest_size_app (a b : list BoneTree) :
  forest_size (a ++ b) = (forest_size a + forest_size b)%nat.
Proof.
  induction a as [| t a IH]; [reflexivity|].
  cbn [app forest_size fold_right]. fold (forest_size (a ++ b)).
  fold (forest_size a). rewrite IH. lia.
Qed.

Lemma visit_children (n : string) (h : list float) (cs : list BoneTree) :
  visit (BoneNode n h cs) = n :: flat_map visit (rev cs).
Proof.
  cbn [visit]. f_equal.
  induction cs as [| c cs IH]; [reflexivity|].
  cbn [rev]. rewrite flat_map_app, IH. cbn [flat_map].
  now rewrite app_nil_r.
Qed.

Lemma pop_nil {A : Type} (l : list A) : pop l = None -> l = [].
Proof.
  unfold pop. destruct (rev l) as [| x r] eqn:E; [|discriminate].
  intros _. apply (f_equal (@rev A)) in E. now rewrite rev_involutive in E.
Qed.

Lemma pop_last {A : Type} (l r : list A) (x : A) :
  pop l = Some (x, r) -> l = (r ++ [x])%list.
Proof.
  unfold pop. destruct (rev l) as [| y t] eqn:E; [discriminate|].
  intros H. injection H as -> <-.
  apply (f_equal (@rev A)) in E. rewrite rev_involutive in E.
  now rewrite E.
Qed.

(** What [bone_to_node] writes: the name of the bone, and under
    ["children"] the indices that the dictionary has for its children. *)
Lemma bone_to_node_entries (b : Bone) (node : Dict.t json) :
  bone_to_node bone_id_dic b = Ok node ->
  Dict.get node "name" = Some (JStr (bone_name b))
  /\ exists ids,
       mapM (fun ch => Dict.getitem bone_id_dic ch) (bone_children b) = Ok ids
       /\ node_children node = map JInt ids.
Proof.
  unfold bone_to_node. intros H.
  bind_as H relative Er. bind_as H translation Et. bind_as H children Ec.
  destruct children as [| c cs]; injection H as <-.
  - split; [reflexivity|]. exists []. split; [reflexivity|]. reflexivity.
  - split; [reflexivity|]. exists (c :: cs). split; reflexivity.
Qed.

(** The loop over the bones below a root comes to every bone that is on
    its list or below one, each once, in the order of [visit]. *)
Lemma walk_children_visits (fuel : nat) :
  forall (stack : list (Bone * BoneTree)) (acc r : SkinLoop),
    (forest_size (map snd stack) <= fuel)%nat ->
    walk_children fuel bone_id_dic names stack acc = Ok r ->
    let visited := flat_map visit (rev (map snd stack)) in
    exists (new_nodes : list (Dict.t json)) (ids : list Z),
      loop_nodes r = (loop_nodes acc ++ new_nodes)%list
      /\ loop_joints r = (loop_joints acc ++ ids)%list
      /\ Forall2 (fun node n =>
                    exists b, bone_to_node bone_id_dic b = Ok node
                              /\ bone_name b = n)
                 new_nodes visited
      /\ Forall2 (fun id n => Dict.get bone_id_dic n = Some id) ids visited
      /\ loop_has_human_bone r
         = (loop_has_human_bone acc
            || existsb (fun n => existsb (String.eqb n) names) visited).
Proof.
  induction fuel as [| fuel IH]; intros stack acc r Hf H visited.
  - cbn [walk_children] in H. destruct (pop stack) as [[entry rest] |] eqn:Ep.
    + exfalso. apply pop_last in Ep. subst stack.
      rewrite map_app, forest_size_app in Hf. cbn [map forest_size fold_right] in Hf.
      destruct (snd entry) as [n h cs]. rewrite tree_size_children in Hf. lia.
    + apply pop_nil in Ep. subst stack. injection H as <-.
      exists [], []. subst visited. cbn [map rev flat_map existsb].
      rewrite !app_nil_r, orb_false_r. repeat split; constructor.
  - cbn [walk_children] in H. destruct (pop stack) as [[entry rest] |] eqn:Ep.
    + apply pop_last in Ep. subst stack.
      destruct entry as [parent child]. cbn [fst snd] in H.
      bind_as H node En. bind_as H joint Ej.
      destruct child as [n h cs].
      rewrite map_app, forest_size_app in Hf.
      cbn [map snd forest_size fold_right] in Hf.
      rewrite tree_size_children in Hf.
      apply IH in H.
      2:{ rewrite map_app, forest_size_app. unfold child_entries.
          rewrite map_map. cbn [snd tree_children]. rewrite map_id. lia. }
      destruct H as (new_nodes & ids & H1 & H2 & H3 & H4 & H5).
      cbn [loop_nodes loop_joints loop_has_human_bone] in H1, H2, H5.
      assert (Hv : visited
                   = (n :: flat_map visit
                             (rev (map snd
                                     (rest ++ child_entries
                                        (tree_bone (Some parent)
                                           (BoneNode n h cs))
                                        (BoneNode n h cs)))))%list).
      { subst visited. rewrite !map_app, !rev_app_distr.
        cbn [map snd rev app flat_map]. rewrite visit_children.
        unfold child_entries. rewrite map_map. cbn [snd tree_children].
        rewrite map_id, flat_map_app. reflexivity. }
      rewrite Hv.
      exists (node :: new_nodes), (joint :: ids).
      split; [now rewrite H1, <- app_assoc|].
      split; [now rewrite H2, <- app_assoc|].
      split.
      { constructor; [|exact H3].
        exists (tree_bone (Some parent) (BoneNode n h cs)). now split. }
      split.
      { constructor; [|exact H4]. now apply getitem_ok in Ej. }
      rewrite H5. cbn [existsb bone_name tree_bone tree_name].
      destruct (existsb (String.eqb n) names); cbn [orb];
        [now rewrite orb_true_r | reflexivity].
    + apply pop_nil in Ep. subst stack. injection H as <-.
      exists [], []. subst visited. cbn [map rev flat_map existsb].
      rewrite !app_nil_r, orb_false_r. repeat split; constructor.
Qed.

(** The bound on the passes of the loop is never reached: more fuel
    changes nothing. *)
Lemma walk_children_fuel (fuel : nat) :
  forall (fuel' : nat) (stack : list (Bone * BoneTree)) (acc : SkinLoop),
    (forest_size (map snd stack) <= fuel)%nat ->
    (forest_size (map snd stack) <= fuel')%nat ->
    walk_children fuel bone_id_dic names stack acc
    = walk_children fuel' bone_id_dic names stack acc.
Proof.
  induction fuel as [| fuel IH]; intros fuel' stack acc Hf Hf'.
  - destruct (pop stack) as [[entry rest] |] eqn:Ep.
    + exfalso. apply pop_last in Ep. subst stack.
      rewrite map_app, forest_size_app in Hf.
      cbn [map forest_size fold_right] in Hf.
      destruct (snd entry) as [n h cs]. rewrite tree_size_children in Hf. lia.
    + destruct fuel'; cbn [walk_children]; now rewrite Ep.
  - destruct (pop stack) as [[entry rest] |] eqn:Ep.
    + assert (Hs := Ep). apply pop_last in Hs. subst stack.
      rewrite map_app, forest_size_app in Hf, Hf'.
      cbn [map forest_size fold_right] in Hf, Hf'.
      destruct entry as [parent [n h cs]]. cbn [snd] in Hf, Hf'.
      rewrite tree_size_children in Hf, Hf'.
      destruct fuel' as [| fuel']; [lia|].
      cbn [walk_children]. rewrite Ep. cbn [fst snd].
      destruct (bone_to_node bone_id_dic
                  (tree_bone (Some parent) (BoneNode n h cs)));
        cbn [Py.bind]; [|reflexivity].
      destruct (Dict.getitem bone_id_dic
                  (bone_name (tree_bone (Some parent) (BoneNode n h cs))));
        cbn [Py.bind]; [|reflexivity].
      apply IH; rewrite map_app, forest_size_app; unfold child_entries;
        rewrite map_map; cbn [snd tree_children]; rewrite map_id; lia.
    + destruct fuel'; cbn [walk_children]; now rewrite Ep.
Qed.

End ArmatureWalk.

(** ** The sort of the nodes by the index of their bones *)

Section KeyedSort.

Context {A : Type}.

Lemma insert_keyed_perm (x : Z * A) (l : list (Z * A)) :
  Permutation (insert_keyed x l) (x :: l).
Proof.
  induction l as [| y l IH]; cbn [insert_keyed]; [reflexivity|].
  destruct (fst x <? fst y); [reflexivity|].
  etransitivity; [apply perm_skip, IH | apply perm_swap].
Qed.

Lemma sort_keyed_from (l : list (Z * A)) :
  forall done : list (Z * A),
    Permutation (fold_left (fun acc x => insert_keyed x acc) l done)
                (done ++ l).
Proof.
  induction l as [| x l IH]; intros done; cbn [fold_left].
  - now rewrite app_nil_r.
  - etransitivity; [apply IH|].
    etransitivity; [apply Permutation_app_tail, insert_keyed_perm|].
    cbn [app]. apply Permutation_middle.
Qed.

Lemma sort_keyed_perm (l : list (Z * A)) : Permutation (sort_keyed l) l.
Proof. exact (sort_keyed_from l []). Qed.

Lemma insert_keyed_sorted (x : Z * A) (l : list (Z * A)) :
  StronglySorted (fun a b => fst a <= fst b) l ->
  StronglySorted (fun a b => fst a <= fst b) (insert_keyed x l).
Proof.
  induction l as [| y l IH]; intros H; cbn [insert_keyed].
  - repeat constructor.
  - inversion H as [| ? ? Hs Hf]; subst. destruct (fst x <? fst y) eqn:E.
    + apply Z.ltb_lt in E. constructor; [exact H|].
      constructor; [lia|]. eapply Forall_impl; [|exact Hf].
      cbn beta. intros; lia.
    + apply Z.ltb_ge in E. constructor; [now apply IH|].
      apply (Permutation_Forall (Permutation_sym (insert_keyed_perm x l))).
      constructor; [exact E | exact Hf].
Qed.

Lemma sort_keyed_sorted (l : list (Z * A)) :
  StronglySorted (fun a b => fst a <= fst b) (sort_keyed l).
Proof.
  unfold sort_keyed.
  assert (G : forall done,
             StronglySorted (fun a b : Z * A => fst a <= fst b) done ->
             StronglySorted (fun a b : Z * A => fst a <= fst b)
               (fold_left (fun acc x => insert_keyed x acc) l done)).
  { induction l as [| x l IH]; intros done Hd; cbn [fold_left];
      [exact Hd|]. apply IH. now apply insert_keyed_sorted. }
  apply G. constructor.
Qed.

End KeyedSort.

(** Two lists of indices in strictly ascending order with the same items
    are the same list. *)
Lemma ascending_indices_unique (l : list Z) :
  forall l' : list Z,
    StronglySorted Z.lt l -> StronglySorted Z.lt l' -> Permutation l l' ->
    l = l'.
Proof.
  induction l as [| a l IH]; intros l' Hs Hs' Hp.
  - now apply Permutation_nil in Hp.
  - destruct l' as [| b l'];
      [apply Permutation_sym, Permutation_nil in Hp; discriminate|].
    inversion Hs as [| ? ? Hs1 Hf1]; subst.
    inversion Hs' as [| ? ? Hs2 Hf2]; subst.
    assert (Hab : a = b).
    { assert (Ha : In a (b :: l'))
        by (eapply Permutation_in; [exact Hp | now left]).
      assert (Hb : In b (a :: l))
        by (eapply Permutation_in; [symmetry; exact Hp | now left]).
      destruct Ha as [Ha | Ha]; [now symmetry|].
      destruct Hb as [Hb | Hb]; [exact Hb|].
      rewrite Forall_forall in Hf1, Hf2.
      specialize (Hf1 _ Hb). specialize (Hf2 _ Ha). lia. }
    subst b. f_equal. apply IH; [assumption | assumption |].
    now apply Permutation_cons_inv in Hp.
Qed.

Lemma ascending_without_repeats (l : list Z) :
  StronglySorted Z.le l -> NoDup l -> StronglySorted Z.lt l.
Proof.
  induction 1 as [| a l Hs IH Hf]; intros Hn; constructor.
  - inversion Hn; subst. now apply IH.
  - inversion Hn as [| ? ? Hna Hn']; subst.
    rewrite Forall_forall in *. intros x Hx. specialize (Hf x Hx).
    assert (a <> x) by (intros ->; now apply Hna). lia.
Qed.

Lemma positions_ascending (n start : nat) :
  StronglySorted Z.lt (map Z.of_nat (seq start n)).
Proof.
  revert start. induction n as [| n IH]; intros start; cbn [seq map];
    constructor; [apply IH|].
  rewrite Forall_forall. intros x Hx. apply in_map_iff in Hx.
  destruct Hx as (k & <- & Hk). apply in_seq in Hk. lia.
Qed.

(** ** The loop over the roots of the armature *)

Section ArmatureNodes.

Variable bone_id_dic : Dict.t Z.
Variable names : list string.

Lemma visit_heads_children (n : string) (h : list float)
    (cs : list BoneTree) :
  visit_heads (BoneNode n h cs) = h :: flat_map visit_heads (rev cs).
Proof.
  cbn [visit_heads]. f_equal.
  induction cs as [| c cs IH]; [reflexivity|].
  cbn [rev]. rewrite flat_map_app, IH. cbn [flat_map].
  now rewrite app_nil_r.
Qed.

Lemma child_entries_trees (b : Bone) (t : BoneTree) :
  map snd (child_entries b t) = tree_children t.
Proof.
  unfold child_entries. rewrite map_map. cbn [snd]. apply map_id.
Qed.

Lemma node_key_of_bone (b : Bone) (node : Dict.t json) :
  bone_to_node bone_id_dic b = Ok node ->
  node_key bone_id_dic node = Dict.getitem bone_id_dic (bone_name b).
Proof.
  intros H. apply bone_to_node_entries in H. destruct H as [Hn _].
  unfold node_key. now rewrite Hn.
Qed.

(** The keys computed for the sort are the indices of the bones. *)
Lemma node_keys_pairs (nodes : list (Dict.t json)) :
  forall keys : list Z,
    mapM (node_key bone_id_dic) nodes = Ok keys ->
    Forall (fun node => exists b, bone_to_node bone_id_dic b = Ok node)
           nodes ->
    Forall (node_of_bone bone_id_dic) (combine keys nodes)
    /\ map snd (combine keys nodes) = nodes.
Proof.
  induction nodes as [| node nodes IH]; intros keys H Hb.
  - injection H as <-. split; [constructor | reflexivity].
  - cbn [mapM] in H.
    destruct (node_key bone_id_dic node) as [k |] eqn:Ek;
      cbn [Py.bind] in H; [|discriminate H].
    destruct (mapM (node_key bone_id_dic) nodes) as [ks |];
      cbn [Py.bind] in H; [|discriminate H].
    injection H as <-.
    inversion Hb as [| ? ? [b Hb1] Hb2]; subst.
    destruct (IH ks eq_refl Hb2) as [I1 I2].
    cbn [combine map snd]. split; [|now rewrite I2].
    constructor; [|exact I1]. exists b. cbn [fst snd].
    split; [exact Hb1|].
    rewrite (node_key_of_bone _ _ Hb1) in Ek. now apply getitem_ok.
Qed.

Lemma names_of_nodes (nodes : list (Dict.t json)) (visited : list string) :
  Forall2 (fun node n =>
             exists b, bone_to_node bone_id_dic b = Ok node
                       /\ bone_name b = n)
          nodes visited ->
  map node_name nodes = map (fun n => Some (JStr n)) visited.
Proof.
  induction 1 as [| node n nodes visited (b & Hb & <-) _ IH];
    [reflexivity|].
  cbn [map]. rewrite IH. f_equal.
  exact (proj1 (bone_to_node_entries _ _ _ Hb)).
Qed.

(** A pass of the loop over the roots, taken apart. *)
Lemma root_step_parts (acc acc' : ArmatureLoop) (root : BoneTree) :
  root_step bone_id_dic names acc root = Ok acc' ->
  exists (root_id : Z) (new_nodes : list (Dict.t json)) (ids keys : list Z),
    Dict.get bone_id_dic (tree_name root) = Some root_id
    /\ Forall2 (fun node n =>
                  exists b, bone_to_node bone_id_dic b = Ok node
                            /\ bone_name b = n)
               new_nodes (visit root)
    /\ Forall2 (fun id n => Dict.get bone_id_dic n = Some id)
               (root_id :: ids) (visit root)
    /\ mapM (node_key bone_id_dic) (arm_nodes acc ++ new_nodes) = Ok keys
    /\ arm_nodes acc'
       = map snd (sort_keyed (combine keys (arm_nodes acc ++ new_nodes)))
    /\ arm_scene acc' = (arm_scene acc ++ [root_id])%list
    /\ arm_skins acc'
       = if has_human_bone names root
         then (arm_skins acc ++ [(root_id :: ids, root_id)])%list
         else arm_skins acc.
Proof.
  unfold root_step. intros H.
  bind_as H root_id Er. bind_as H node En. bind_as H walked Ew.
  bind_as H keys Ek. injection H as <-.
  apply walk_children_visits in Ew;
    [|rewrite child_entries_trees; apply Nat.le_refl].
  destruct Ew as (new_nodes & ids & H1 & H2 & H3 & H4 & H5).
  cbn [loop_nodes loop_joints loop_has_human_bone] in H1, H2, H5.
  rewrite child_entries_trees in H3, H4, H5.
  destruct root as [n h cs].
  cbn [tree_bone tree_name bone_name tree_children] in *.
  exists root_id, (node :: new_nodes), ids, keys.
  cbn [arm_nodes arm_scene arm_skins]. rewrite visit_children.
  apply getitem_ok in Er.
  split; [exact Er|].
  split.
  { constructor; [|exact H3].
    exists (mkBone n h None (map tree_name cs)). now split. }
  split; [constructor; [exact Er | exact H4]|].
  rewrite H1, <- app_assoc in Ek. cbn [app] in Ek.
  split; [exact Ek|].
  split; [now rewrite H1, <- app_assoc|].
  split; [reflexivity|].
  rewrite H5, H2. unfold has_human_bone. rewrite visit_children.
  cbn [existsb app]. reflexivity.
Qed.

Lemma nodes_of_keyed (visited : list string) (nodes : list (Dict.t json)) :
  nodes_sorted bone_id_dic visited nodes ->
  Forall (fun node => exists b, bone_to_node bone_id_dic b = Ok node) nodes
  /\ Permutation (map node_name nodes)
                 (map (fun n => Some (JStr n)) visited).
Proof.
  intros (keyed & -> & _ & Hb & Hp). split.
  - apply Forall_map. eapply Forall_impl; [|exact Hb].
    intros p (b & Hb1 & _). now exists b.
  - now rewrite map_map.
Qed.

(** The nodes stay sorted, and the pass adds those of the bones of the
    root. *)
Lemma root_step_nodes (acc acc' : ArmatureLoop) (root : BoneTree)
    (visited : list string) :
  nodes_sorted bone_id_dic visited (arm_nodes acc) ->
  root_step bone_id_dic names acc root = Ok acc' ->
  nodes_sorted bone_id_dic (visited ++ visit root) (arm_nodes acc').
Proof.
  intros Hacc H. apply root_step_parts in H.
  destruct H as (root_id & new_nodes & ids & keys & _ & Hn & _ & Hk & Ha & _).
  destruct (nodes_of_keyed _ _ Hacc) as [Hb Hp].
  assert (Hall : Forall (fun node => exists b,
                             bone_to_node bone_id_dic b = Ok node)
                        (arm_nodes acc ++ new_nodes)).
  { apply Forall_app. split; [exact Hb|].
    clear - Hn. induction Hn as [| node n l l' (b & Hb & _) _ IH];
      constructor; [now exists b | exact IH]. }
  destruct (node_keys_pairs _ _ Hk Hall) as [Hc Hs].
  exists (sort_keyed (combine keys (arm_nodes acc ++ new_nodes))).
  split; [exact Ha|]. split; [apply sort_keyed_sorted|]. split.
  - apply (Permutation_Forall (Permutation_sym (sort_keyed_perm _))).
    exact Hc.
  - etransitivity;
      [apply Permutation_map, sort_keyed_perm|].
    rewrite <- (map_map snd node_name), Hs, !map_app.
    apply Permutation_app; [exact Hp|].
    rewrite (names_of_nodes _ _ Hn). reflexivity.
Qed.

Lemma armature_fold_nodes (roots : list BoneTree) :
  forall (acc r : ArmatureLoop) (visited : list string),
    foldM (root_step bone_id_dic names) roots acc = Ok r ->
    nodes_sorted bone_id_dic visited (arm_nodes acc) ->
    nodes_sorted bone_id_dic (visited ++ flat_map visit roots) (arm_nodes r).
Proof.
  induction roots as [| root roots IH]; intros acc r visited H Hacc.
  - injection H as <-. cbn [flat_map]. now rewrite app_nil_r.
  - cbn [foldM] in H.
    destruct (root_step bone_id_dic names acc root) as [acc' |] eqn:Es;
      cbn [Py.bind] in H; [|discriminate H].
    cbn [flat_map]. rewrite app_assoc.
    apply (IH acc' r); [exact H|].
    now apply (root_step_nodes acc).
Qed.

(** The scene and the skins after the loop. *)
Lemma armature_fold_skins (roots : list BoneTree) :
  forall acc r : ArmatureLoop,
    foldM (root_step bone_id_dic names) roots acc = Ok r ->
    exists (scene : list Z) (skins : list (list Z * Z)),
      arm_scene r = (arm_scene acc ++ scene)%list
      /\ arm_skins r = (arm_skins acc ++ skins)%list
      /\ Forall2 (fun id root =>
                    Dict.get bone_id_dic (tree_name root) = Some id)
                 scene roots
      /\ Forall2 (fun skin root =>
                    Dict.get bone_id_dic (tree_name root) = Some (snd skin)
                    /\ hd_error (fst skin) = Some (snd skin)
                    /\ Forall2 (fun j n => Dict.get bone_id_dic n = Some j)
                               (fst skin) (visit root))
                 skins (filter (has_human_bone names) roots).
Proof.
  induction roots as [| root roots IH]; intros acc r H.
  - injection H as <-. exists [], []. rewrite !app_nil_r.
    repeat split; constructor.
  - cbn [foldM] in H.
    destruct (root_step bone_id_dic names acc root) as [acc' |] eqn:Es;
      cbn [Py.bind] in H; [|discriminate H].
    apply IH in H. destruct H as (scene & skins & H1 & H2 & H3 & H4).
    apply root_step_parts in Es.
    destruct Es as (root_id & new_nodes & ids & keys
                    & Hr & _ & Hi & _ & _ & Hsc & Hsk).
    cbn [filter]. destruct (has_human_bone names root).
    + exists (root_id :: scene), ((root_id :: ids, root_id) :: skins).
      split; [now rewrite H1, Hsc, <- app_assoc|].
      split; [now rewrite H2, Hsk, <- app_assoc|].
      split; [constructor; [exact Hr | exact H3]|].
      constructor; [|exact H4]. cbn [fst snd hd_error]. now repeat split.
    + exists (root_id :: scene), skins.
      split; [now rewrite H1, Hsc, <- app_assoc|].
      split; [now rewrite H2, Hsk|].
      split; [constructor; [exact Hr | exact H3] | exact H4].
Qed.

(** *** The loop does not raise on a well-formed armature *)

Lemma getitems_ok (cs : list string) :
  Forall (fun ch => Dict.get bone_id_dic ch <> None) cs ->
  exists ids, mapM (fun ch => Dict.getitem bone_id_dic ch) cs = Ok ids.
Proof.
  induction 1 as [| ch cs Hc _ [ids IH]]; [now exists []|].
  cbn [mapM]. unfold Dict.getitem at 1.
  destruct (Dict.get bone_id_dic ch) as [i |]; [|now elim Hc].
  cbn [Py.bind]. rewrite IH. cbn [Py.bind]. now exists (i :: ids).
Qed.

Lemma bone_to_node_ok (b : Bone) :
  List.length (bone_head_local b) = 3%nat ->
  match bone_parent b with
  | Some p => List.length (bone_head_local p) = 3%nat
  | None => True
  end ->
  Forall (fun ch => Dict.get bone_id_dic ch <> None) (bone_children b) ->
  exists node, bone_to_node bone_id_dic b = Ok node.
Proof.
  destruct b as [n h p cs]. cbn [bone_head_local bone_parent bone_children].
  intros Hh Hp Hc.
  destruct h as [| x [| y [| z [| ? ?]]]]; try discriminate Hh.
  assert (Hpar : exists u v w,
             match p with
             | Some q => bone_head_local q
             | None => [zero; zero; zero]
             end = [u; v; w]).
  { destruct p as [q |]; [|now exists zero, zero, zero].
    destruct (bone_head_local q) as [| u [| v [| w [| ? ?]]]];
      try discriminate Hp.
    now exists u, v, w. }
  destruct Hpar as (u & v & w & Hpar).
  destruct (getitems_ok cs Hc) as [ids Hids].
  unfold bone_to_node.
  cbn [bone_head_local bone_parent bone_children bone_name].
  rewrite Hpar.
  change (mapM (fun i => h <- Py.getitem [x; y; z] i ;;
                         p <- Py.getitem [u; v; w] i ;;
                         Ok (Float.sub h p)) [0; 1; 2])
    with (Ok [Float.sub x u; Float.sub y v; Float.sub z w]).
  cbn [Py.bind]. rewrite axis_blender_to_glb_products. cbn [Py.bind].
  rewrite Hids. cbn [Py.bind]. destruct ids; eexists; reflexivity.
Qed.

Lemma visit_forall (P : string -> Prop) (n : string) (h : list float)
    (cs : list BoneTree) :
  Forall P (visit (BoneNode n h cs)) ->
  P n /\ Forall (fun c => Forall P (visit c)) cs.
Proof.
  rewrite visit_children. intros H. inversion H as [| ? ? Hn Hr]; subst.
  split; [exact Hn|]. apply Forall_flat_map in Hr.
  apply Forall_rev in Hr. now rewrite rev_involutive in Hr.
Qed.

Lemma visit_heads_forall (P : list float -> Prop) (n : string)
    (h : list float) (cs : list BoneTree) :
  Forall P (visit_heads (BoneNode n h cs)) ->
  P h /\ Forall (fun c => Forall P (visit_heads c)) cs.
Proof.
  rewrite visit_heads_children. intros H.
  inversion H as [| ? ? Hn Hr]; subst.
  split; [exact Hn|]. apply Forall_flat_map in Hr.
  apply Forall_rev in Hr. now rewrite rev_involutive in Hr.
Qed.

Lemma visit_first (P : string -> Prop) (t : BoneTree) :
  Forall P (visit t) -> P (tree_name t).
Proof.
  destruct t as [n h cs]. rewrite visit_children. intros H.
  now inversion H.
Qed.

Lemma walk_children_ok (fuel : nat) :
  forall (stack : list (Bone * BoneTree)) (acc : SkinLoop),
    (forest_size (map snd stack) <= fuel)%nat ->
    Forall (fun e =>
              List.length (bone_head_local (fst e)) = 3%nat
              /\ Forall (fun n => Dict.get bone_id_dic n <> None)
                        (visit (snd e))
              /\ Forall (fun h => List.length h = 3%nat)
                        (visit_heads (snd e)))
           stack ->
    exists r, walk_children fuel bone_id_dic names stack acc = Ok r.
Proof.
  induction fuel as [| fuel IH]; intros stack acc Hf Hs.
  - cbn [walk_children]. destruct (pop stack) as [[entry rest] |] eqn:Ep;
      [|now exists acc].
    exfalso. apply pop_last in Ep. subst stack.
    rewrite map_app, forest_size_app in Hf.
    cbn [map forest_size fold_right] in Hf.
    destruct (snd entry) as [n h cs]. rewrite tree_size_children in Hf. lia.
  - cbn [walk_children]. destruct (pop stack) as [[entry rest] |] eqn:Ep;
      [|now exists acc].
    apply pop_last in Ep. subst stack.
    apply Forall_app in Hs. destruct Hs as [Hrest Hentry].
    inversion Hentry as [| ? ? (Hp & Hn & Hh) _]; subst. clear Hentry.
    destruct entry as [parent [n h cs]]. cbn [fst snd] in *.
    rewrite map_app, forest_size_app in Hf.
    cbn [map snd forest_size fold_right] in Hf.
    rewrite tree_size_children in Hf.
    apply visit_forall in Hn. destruct Hn as [Hn Hcs].
    apply visit_heads_forall in Hh. destruct Hh as [Hh Hhs].
    destruct (bone_to_node_ok (tree_bone (Some parent) (BoneNode n h cs)))
      as [node En].
    { exact Hh. }
    { exact Hp. }
    { cbn [tree_bone bone_children tree_children]. apply Forall_map.
      eapply Forall_impl; [|exact Hcs]. intros c Hc.
      now apply visit_first in Hc. }
    rewrite En. cbn [Py.bind tree_bone bone_name tree_name].
    unfold Dict.getitem.
    destruct (Dict.get bone_id_dic n) as [joint |]; [|now elim Hn].
    cbn [Py.bind]. apply IH.
    + rewrite map_app, forest_size_app, child_entries_trees.
      cbn [tree_children]. lia.
    + apply Forall_app. split; [exact Hrest|].
      unfold child_entries. apply Forall_map. cbn [tree_children fst snd].
      rewrite Forall_forall in Hcs, Hhs |- *. intros c Hc.
      cbn [bone_head_local]. split; [exact Hh|]. split; auto.
Qed.

Lemma node_keys_ok (nodes : list (Dict.t json)) :
  Forall (fun node => exists b,
              bone_to_node bone_id_dic b = Ok node
              /\ Dict.get bone_id_dic (bone_name b) <> None) nodes ->
  exists keys, mapM (node_key bone_id_dic) nodes = Ok keys.
Proof.
  induction 1 as [| node nodes (b & Hb & Hk) _ [keys IH]];
    [now exists []|].
  cbn [mapM]. rewrite (node_key_of_bone _ _ Hb). unfold Dict.getitem.
  destruct (Dict.get bone_id_dic (bone_name b)) as [k |]; [|now elim Hk].
  cbn [Py.bind]. rewrite IH. cbn [Py.bind]. now exists (k :: keys).
Qed.

Lemma root_step_ok (acc : ArmatureLoop) (root : BoneTree)
    (visited : list string) :
  nodes_sorted bone_id_dic visited (arm_nodes acc) ->
  Forall (fun n => Dict.get bone_id_dic n <> None) (visit root) ->
  Forall (fun h => List.length h = 3%nat) (visit_heads root) ->
  exists acc', root_step bone_id_dic names acc root = Ok acc'.
Proof.
  intros (keyed & Hnodes & _ & Hb & _) Hn Hh.
  destruct root as [n h cs].
  assert (Hn' := Hn). assert (Hh' := Hh).
  apply visit_forall in Hn'. destruct Hn' as [Hn0 Hcs].
  apply visit_heads_forall in Hh'. destruct Hh' as [Hh0 Hhs].
  unfold root_step. cbn [tree_bone tree_name tree_head tree_children bone_name].
  unfold Dict.getitem at 1.
  destruct (Dict.get bone_id_dic n) as [root_id |] eqn:Er; [|now elim Hn0].
  cbn [Py.bind].
  destruct (bone_to_node_ok (mkBone n h None (map tree_name cs)))
    as [node En].
  { exact Hh0. }
  { exact I. }
  { cbn [bone_children]. apply Forall_map.
    eapply Forall_impl; [|exact Hcs]. intros c Hc.
    now apply visit_first in Hc. }
  change (tree_bone None (BoneNode n h cs))
    with (mkBone n h None (map tree_name cs)).
  rewrite En. cbn [Py.bind].
  destruct (walk_children_ok (forest_size cs)
              (child_entries (mkBone n h None (map tree_name cs))
                 (BoneNode n h cs))
              (mkSkinLoop (arm_nodes acc ++ [node]) [root_id]
                 (existsb (String.eqb n) names))) as [walked Ew].
  { rewrite child_entries_trees. apply Nat.le_refl. }
  { unfold child_entries. apply Forall_map. cbn [tree_children fst snd].
    rewrite Forall_forall in Hcs, Hhs |- *. intros c Hc.
    cbn [bone_head_local]. split; [exact Hh0|]. split; auto. }
  rewrite Ew. cbn [Py.bind].
  apply walk_children_visits in Ew;
    [|rewrite child_entries_trees; apply Nat.le_refl].
  destruct Ew as (new_nodes & ids & H1 & _ & H3 & _).
  cbn [loop_nodes] in H1. rewrite child_entries_trees in H3.
  cbn [tree_children] in H3.
  destruct (node_keys_ok (loop_nodes walked)) as [keys Ek].
  { rewrite H1, Hnodes. apply Forall_app. split; [apply Forall_app; split|].
    - apply Forall_map. eapply Forall_impl; [|exact Hb].
      intros p (b & Hb1 & Hb2). exists b. split; [exact Hb1|].
      now rewrite Hb2.
    - constructor; [|constructor].
      exists (mkBone n h None (map tree_name cs)). split; [exact En|].
      cbn [bone_name]. now rewrite Er.
    - rewrite visit_children in Hn. inversion Hn as [| ? ? _ Hv]; subst.
      clear - H3 Hv. induction H3 as [| nd m l l' (b & Hb & <-) _ IH];
        constructor.
      + exists b. split; [exact Hb|]. now inversion Hv.
      + apply IH. now inversion Hv. }
  rewrite Ek. cbn [Py.bind]. eexists. reflexivity.
Qed.

Lemma armature_fold_ok (roots : list BoneTree) :
  forall (acc : ArmatureLoop) (visited : list string),
    nodes_sorted bone_id_dic visited (arm_nodes acc) ->
    Forall (fun n => Dict.get bone_id_dic n <> None)
           (flat_map visit roots) ->
    Forall (fun h => List.length h = 3%nat) (flat_map visit_heads roots) ->
    exists r, foldM (root_step bone_id_dic names) roots acc = Ok r.
Proof.
  induction roots as [| root roots IH]; intros acc visited Hacc Hn Hh.
  - now exists acc.
  - cbn [flat_map] in Hn, Hh. apply Forall_app in Hn, Hh.
    destruct Hn as [Hn Hns]. destruct Hh as [Hh Hhs].
    destruct (root_step_ok acc root visited Hacc Hn Hh) as [acc' Es].
    cbn [foldM]. rewrite Es. cbn [Py.bind].
    apply (IH acc' (visited ++ visit root)%list); [|exact Hns | exact Hhs].
    now apply (root_step_nodes acc).
Qed.
End ArmatureNodes.

(** ** The indices of the bones as indices of the nodes *)

Section NodeOrder.

Variable bone_names : list string.

Lemma enumerate_dic_in (n : string) :
  In n bone_names -> Dict.get (enumerate_dic bone_names) n <> None.
Proof.
  intros Hin E. now apply (proj1 (enumerate_from_none _ _ _ _ E)).
Qed.

Lemma enumerate_dic_position (k : nat) (n : string) :
  NoDup bone_names -> nth_error bone_names k = Some n ->
  Dict.get (enumerate_dic bone_names) n = Some (Z.of_nat k).
Proof.
  intros Hnd Hk.
  destruct (Dict.get (enumerate_dic bone_names) n) as [i |] eqn:E.
  - destruct (enumerate_dic_some _ _ _ E) as (Hi & Hn & _).
    f_equal. rewrite NoDup_nth_error in Hnd.
    assert (Hlt : (k < List.length bone_names)%nat)
      by (apply nth_error_Some; congruence).
    rewrite (Hnd k (Z.to_nat i) Hlt) by congruence. lia.
  - exfalso. apply (enumerate_dic_in n); [|exact E].
    exact (nth_error_In _ _ Hk).
Qed.

Lemma enumerate_dic_bound (n : string) (i : Z) :
  Dict.get (enumerate_dic bone_names) n = Some i ->
  0 <= i < Z.of_nat (List.length bone_names).
Proof.
  intros H. destruct (enumerate_dic_some _ _ _ H) as (Hi & Hn & _).
  assert (Hlt : (Z.to_nat i < List.length bone_names)%nat)
    by (apply nth_error_Some; congruence).
  lia.
Qed.

(** The index of a name, read off its JSON form; 0 stands for none. *)
Lemma keys_are_positions :
  NoDup bone_names ->
  map (fun n => match Dict.get (enumerate_dic bone_names) n with
                | Some k => k
                | None => 0
                end) bone_names
  = map Z.of_nat (seq 0 (List.length bone_names)).
Proof.
  intros Hnd. apply nth_error_ext. intros i.
  rewrite !nth_error_map, nth_error_seq.
  destruct (nth_error bone_names i) as [n |] eqn:E; cbn [option_map].
  - assert (Hlt : (i < List.length bone_names)%nat)
      by (apply nth_error_Some; congruence).
    apply Nat.ltb_lt in Hlt. rewrite Hlt. cbn [option_map].
    now rewrite (enumerate_dic_position i n Hnd E).
  - apply nth_error_None in E. apply Nat.ltb_ge in E. now rewrite E.
Qed.

Lemma keyed_name (p : Z * Dict.t json) :
  node_of_bone (enumerate_dic bone_names) p ->
  exists n, node_name (snd p) = Some (JStr n)
            /\ Dict.get (enumerate_dic bone_names) n = Some (fst p).
Proof.
  intros (b & Hb & Hk). exists (bone_name b). split; [|exact Hk].
  exact (proj1 (bone_to_node_entries _ _ _ Hb)).
Qed.

Lemma sorted_keys (keyed : list (Z * Dict.t json)) :
  StronglySorted (fun a b => fst a <= fst b) keyed ->
  StronglySorted Z.le (map fst keyed).
Proof.
  induction 1 as [| p l _ IH Hf]; cbn [map]; constructor; [exact IH|].
  apply Forall_map. exact Hf.
Qed.

Lemma ascending_no_repeats (l : list Z) : StronglySorted Z.lt l -> NoDup l.
Proof.
  induction 1 as [| a l _ IH Hf]; constructor; [|exact IH].
  intros Hin. rewrite Forall_forall in Hf. specialize (Hf a Hin). lia.
Qed.

(** After the sort the node of bone i is node i. *)
Lemma sorted_nodes_in_place (visited : list string)
    (nodes : list (Dict.t json)) :
  NoDup bone_names -> Permutation visited bone_names ->
  nodes_sorted (enumerate_dic bone_names) visited nodes ->
  map node_name nodes = map (fun n => Some (JStr n)) bone_names.
Proof.
  intros Hnd Hperm (keyed & -> & Hs & Hb & Hp).
  set (index := fun oj : option json =>
                  match oj with
                  | Some (JStr n) =>
                      match Dict.get (enumerate_dic bone_names) n with
                      | Some k => k
                      | None => 0
                      end
                  | _ => 0
                  end).
  assert (Hkeys : map fst keyed
                  = map index (map (fun p => node_name (snd p)) keyed)).
  { rewrite map_map. apply map_ext_in. intros p Hin.
    rewrite Forall_forall in Hb.
    destruct (keyed_name p (Hb p Hin)) as (n & Hn & Hk).
    unfold index. now rewrite Hn, Hk. }
  assert (Hpk : Permutation (map fst keyed)
                  (map Z.of_nat (seq 0 (List.length bone_names)))).
  { rewrite Hkeys, <- (keys_are_positions Hnd).
    rewrite <- (map_map (fun n => Some (JStr n)) index).
    apply Permutation_map. etransitivity; [exact Hp|].
    now apply Permutation_map. }
  assert (Heq : map fst keyed
                = map Z.of_nat (seq 0 (List.length bone_names))).
  { apply ascending_indices_unique;
      [|apply positions_ascending | exact Hpk].
    apply ascending_without_repeats; [now apply sorted_keys|].
    apply (Permutation_NoDup (Permutation_sym Hpk)).
    apply ascending_no_repeats, positions_ascending. }
  apply nth_error_ext. intros i.
  rewrite map_map, !nth_error_map.
  assert (Hi := f_equal (fun l => nth_error l i) Heq). cbn beta in Hi.
  rewrite !nth_error_map, nth_error_seq in Hi.
  destruct (nth_error keyed i) as [p |] eqn:E; cbn [option_map] in Hi |- *.
  - destruct (i <? List.length bone_names)%nat; [|discriminate Hi].
    cbn [option_map] in Hi. injection Hi as Hi.
    assert (Hin : In p keyed) by exact (nth_error_In _ _ E).
    rewrite Forall_forall in Hb.
    destruct (keyed_name p (Hb p Hin)) as (n & Hn & Hk).
    rewrite Hi in Hk. apply enumerate_dic_some in Hk.
    destruct Hk as (_ & Hk & _). rewrite Nat2Z.id in Hk.
    now rewrite Hk, Hn.
  - destruct (i <? List.length bone_names)%nat eqn:El;
      [discriminate Hi|].
    apply Nat.ltb_ge in El. apply nth_error_None in El. now rewrite El.
Qed.

Lemma node_children_valid (b : Bone) (node : Dict.t json) :
  bone_to_node (enumerate_dic bone_names) b = Ok node ->
  Forall (fun j => exists c, j = JInt c
                             /\ 0 <= c < Z.of_nat (List.length bone_names))
         (node_children node).
Proof.
  intros H. apply bone_to_node_entries in H.
  destruct H as (_ & ids & Hids & ->). apply Forall_map.
  apply (mapM_Forall _ _ _ _ Hids). intros ch c _ Hc.
  exists c. split; [reflexivity|]. apply getitem_ok in Hc.
  now apply (enumerate_dic_bound ch).
Qed.

End NodeOrder.

Lemma human_bone_node_names_in (data : Dict.t string)
    (bone_names : list string) (n : string) :
  In n (human_bone_node_names data bone_names) <->
  exists human_bone,
    In human_bone (HumanBones.requires ++ HumanBones.defines)
    /\ Dict.get data human_bone = Some n
    /\ n <> EmptyString /\ In n bone_names.
Proof.
  unfold human_bone_node_names. rewrite in_flat_map. split.
  - intros (hb & Hhb & Hin). exists hb. split; [exact Hhb|].
    destruct (Dict.get data hb) as [name |]; [|destruct Hin].
    destruct (String.eqb name EmptyString) eqn:E1; [destruct Hin|].
    destruct (existsb (String.eqb name) bone_names) eqn:E2;
      [|destruct Hin].
    destruct Hin as [<- | []]. apply String.eqb_neq in E1.
    apply existsb_exists in E2. destruct E2 as (x & Hx & Ex).
    apply String.eqb_eq in Ex. subst x. auto.
  - intros (hb & Hhb & Hd & Hne & Hin). exists hb. split; [exact Hhb|].
    rewrite Hd. apply String.eqb_neq in Hne. rewrite Hne.
    assert (E : existsb (String.eqb n) bone_names = true).
    { apply existsb_exists. exists n. split; [exact Hin|].
      apply String.eqb_refl. }
    rewrite E. now left.
Qed.

(** X23: the nodes of the armature.  When the bones have distinct names,
    each bone of the armature is a root or below one root exactly once
    and every head has three components, the loop over the roots does
    not raise, and after it node i is the node of bone i of
    [armature.data.bones], whatever the order in which the loop came to
    the bones: the index that [bone_id_dic] has for a bone is the index
    of its node.  The scene lists the indices of the roots in their
    order, and every index under children in a node is the index of a
    node. *)
Theorem armature_nodes_follow_the_bones :
  forall (bone_names : list string) (roots : list BoneTree)
         (data : Dict.t string),
    NoDup bone_names ->
    Permutation (flat_map visit roots) bone_names ->
    Forall (fun h => List.length h = 3%nat) (flat_map visit_heads roots) ->
    exists r : ArmatureLoop,
      armature_nodes bone_names roots data = Ok r
      /\ map node_name (arm_nodes r)
         = map (fun n => Some (JStr n)) bone_names
      /\ Forall2 (fun id root =>
                    0 <= id
                    /\ nth_error bone_names (Z.to_nat id)
                       = Some (tree_name root))
                 (arm_scene r) roots
      /\ Forall (fun node =>
                   Forall (fun j =>
                             exists c, j = JInt c
                                       /\ 0 <= c
                                          < Z.of_nat
                                              (List.length (arm_nodes r)))
                          (node_children node))
                (arm_nodes r).
Proof.
  intros bone_names roots data Hnd Hperm Hheads. unfold armature_nodes.
  set (dic := enumerate_dic bone_names).
  set (names := human_bone_node_names data bone_names).
  assert (Hinit : nodes_sorted dic []
                    (arm_nodes (mkArmatureLoop [] [] []))).
  { exists []. cbn [arm_nodes map]. repeat split; constructor. }
  assert (Hin : Forall (fun n => Dict.get dic n <> None)
                       (flat_map visit roots)).
  { rewrite Forall_forall. intros n Hn. apply enumerate_dic_in.
    exact (Permutation_in _ Hperm Hn). }
  destruct (armature_fold_ok dic names roots _ [] Hinit Hin Hheads)
    as [r Hr].
  exists r. split; [exact Hr|].
  pose proof (armature_fold_nodes dic names roots _ r [] Hr Hinit) as Hs.
  cbn [app] in Hs.
  assert (Hnames : map node_name (arm_nodes r)
                   = map (fun n => Some (JStr n)) bone_names)
    by exact (sorted_nodes_in_place bone_names _ _ Hnd Hperm Hs).
  split; [exact Hnames|]. split.
  - destruct (armature_fold_skins dic names roots _ r Hr)
      as (scene & skins & H1 & _ & H3 & _).
    cbn [arm_scene app] in H1. rewrite H1.
    clear - H3. induction H3 as [| id root l l' H _ IH]; constructor;
      [|exact IH].
    apply enumerate_dic_some in H. tauto.
  - assert (Hlen : List.length (arm_nodes r) = List.length bone_names).
    { apply (f_equal (@List.length _)) in Hnames.
      now rewrite !length_map in Hnames. }
    rewrite Hlen.
    destruct Hs as (keyed & -> & _ & Hb & _). apply Forall_map.
    eapply Forall_impl; [|exact Hb]. intros p (b & Hb1 & _).
    now apply (node_children_valid bone_names b).
Qed.

Lemma armature_nodes_follow_the_bones_witness :
  exists r : ArmatureLoop,
    armature_nodes
      ["hips"; "spine"; "leg"; "prop"]%string
      [BoneNode "hips" [zero; zero; one]
         [BoneNode "spine" [zero; zero; of_Z 2] [];
          BoneNode "leg" [zero; one; one] []];
       BoneNode "prop" [one; zero; zero] []]
      [("hips", "hips")]%string = Ok r
    /\ map node_name (arm_nodes r)
       = map (fun n => Some (JStr n)) ["hips"; "spine"; "leg"; "prop"]%string
    /\ Forall2 (fun id root =>
                  0 <= id
                  /\ nth_error ["hips"; "spine"; "leg"; "prop"]%string
                       (Z.to_nat id)
                     = Some (tree_name root))
               (arm_scene r)
               [BoneNode "hips" [zero; zero; one]
                  [BoneNode "spine" [zero; zero; of_Z 2] [];
                   BoneNode "leg" [zero; one; one] []];
                BoneNode "prop" [one; zero; zero] []]
    /\ Forall (fun node =>
                 Forall (fun j =>
                           exists c, j = JInt c
                                     /\ 0 <= c
                                        < Z.of_nat
                                            (List.length (arm_nodes r)))
                        (node_children node))
              (arm_nodes r).
Proof.
  apply armature_nodes_follow_the_bones.
  - repeat constructor; cbn [In]; intuition discriminate.
  - cbn [flat_map visit app]. apply perm_skip. apply perm_swap.
  - cbn [flat_map visit_heads app]. repeat constructor.
Defined.

(** X24: the skins of the armature.  One skin is made for each root that
    is, or has below it, a bone which a humanoid bone property of the
    armature names, in the order of the roots, and none for the other
    roots.  The joints of a skin are the indices of the bones of the
    root's tree, the root first and then in the order of the loop, and
    its skeleton is the root. *)
Theorem skins_list_the_bones_below_a_root :
  forall (bone_names : list string) (roots : list BoneTree)
         (data : Dict.t string) (r : ArmatureLoop),
    armature_nodes bone_names roots data = Ok r ->
    let names := human_bone_node_names data bone_names in
    Forall2 (fun skin root =>
               hd_error (fst skin) = Some (snd skin)
               /\ Forall2 (fun j n =>
                             0 <= j
                             /\ nth_error bone_names (Z.to_nat j) = Some n)
                          (fst skin) (visit root))
            (arm_skins r) (filter (has_human_bone names) roots)
    /\ forall root : BoneTree,
         has_human_bone names root = true <->
         exists n human_bone : string,
           In n (visit root)
           /\ In human_bone (HumanBones.requires ++ HumanBones.defines)
           /\ Dict.get data human_bone = Some n
           /\ n <> EmptyString /\ In n bone_names.
Proof.
  intros bone_names roots data r H names. split.
  - unfold armature_nodes in H. fold names in H.
    destruct (armature_fold_skins _ _ _ _ _ H)
      as (scene & skins & _ & H2 & _ & H4).
    cbn [arm_skins app] in H2. rewrite H2.
    clear - H4. induction H4 as [| skin root l l' (_ & Hh & Hj) _ IH];
      constructor; [|exact IH].
    split; [exact Hh|].
    clear - Hj. induction Hj as [| j n l l' Hj _ IH]; constructor;
      [|exact IH].
    apply enumerate_dic_some in Hj. tauto.
  - intros root. unfold has_human_bone. rewrite existsb_exists. split.
    + intros (n & Hn & E). apply existsb_exists in E.
      destruct E as (m & Hm & E). apply String.eqb_eq in E. subst m.
      apply human_bone_node_names_in in Hm.
      destruct Hm as (hb & Hhb & Hd & Hne & Hin).
      exists n, hb. auto.
    + intros (n & hb & Hn & Hhb & Hd & Hne & Hin). exists n.
      split; [exact Hn|]. apply existsb_exists. exists n.
      split; [|apply String.eqb_refl].
      apply human_bone_node_names_in. exists hb. auto.
Qed.

Lemma skins_list_the_bones_below_a_root_witness :
  match armature_nodes
          ["hips"; "spine"; "leg"; "prop"]%string
          [BoneNode "hips" [zero; zero; one]
             [BoneNode "spine" [zero; zero; of_Z 2] [];
              BoneNode "leg" [zero; one; one] []];
           BoneNode "prop" [one; zero; zero] []]
          [("spine", "spine")]%string with
  | Ok r =>
      arm_skins r = [([0; 2; 1], 0)]
      /\ Forall2 (fun skin root =>
                    hd_error (fst skin) = Some (snd skin)
                    /\ Forall2 (fun j n =>
                                  0 <= j
                                  /\ nth_error
                                       ["hips"; "spine"; "leg"; "prop"]%string
                                       (Z.to_nat j) = Some n)
                               (fst skin) (visit root))
                 (arm_skins r)
                 [BoneNode "hips" [zero; zero; one]
                    [BoneNode "spine" [zero; zero; of_Z 2] [];
                     BoneNode "leg" [zero; one; one] []]]
  | Raise _ => False
  end.
Proof.
  destruct (armature_nodes
              ["hips"; "spine"; "leg"; "prop"]%string
              [BoneNode "hips" [zero; zero; one]
                 [BoneNode "spine" [zero; zero; of_Z 2] [];
                  BoneNode "leg" [zero; one; one] []];
               BoneNode "prop" [one; zero; zero] []]
              [("spine", "spine")]%string) as [r |] eqn:E;
    [|vm_compute in E; discriminate E].
  split.
  - vm_compute in E. now injection E as <-.
  - exact (proj1 (skins_list_the_bones_below_a_root _ _ _ _ E)).
Defined.

(** ** The inverse bind matrices of a skin *)

Section InverseBind.

Lemma inverse_bind_matrix_length (head : list float) (m : bytes) :
  inverse_bind_matrix head = Ok m -> List.length m = 64%nat.
Proof.
  unfold inverse_bind_matrix. intros H.
  bind_as H p Ep. bind_as H p0 E0. bind_as H p1 E1. bind_as H p2 E2.
  apply pack_floats_length in H. exact (proj2 H).
Qed.

(** The matrix of a head (x, y, z): the identity with the translation
    (x, -z, -y), the converted head negated. *)
Lemma inverse_bind_matrix_entries (x y z : float) :
  Float.valid x = true -> Float.valid y = true -> Float.valid z = true ->
  inverse_bind_matrix [x; y; z]
  = pack_floats 16
      [one; zero; zero; zero;
       zero; one; zero; zero;
       zero; zero; one; zero;
       x; Float.neg z; Float.neg y; one].
Proof.
  intros Hx Hy Hz. unfold inverse_bind_matrix.
  rewrite axis_blender_to_glb_products.
  rewrite (mul_minus_one x Hx), (mul_one y Hy), (mul_one z Hz).
  cbn [Py.bind].
  change (Py.getitem [Float.neg x; z; y] 0) with (Ok (Float.neg x)).
  change (Py.getitem [Float.neg x; z; y] 1) with (Ok z).
  change (Py.getitem [Float.neg x; z; y] 2) with (Ok y).
  cbn [Py.bind]. now rewrite neg_neg.
Qed.

Lemma block_of_matrices (size : nat) (blocks : list bytes) :
  Forall (fun b => List.length b = size) blocks ->
  List.length (List.concat blocks) = (size * List.length blocks)%nat
  /\ forall (j : nat) (b : bytes),
       nth_error blocks j = Some b ->
       firstn size (skipn (size * j) (List.concat blocks)) = b.
Proof.
  induction 1 as [| b0 blocks Hb _ [IHl IH]].
  - split; [cbn; lia|]. intros [| j] b Hj; discriminate Hj.
  - cbn [List.concat List.length]. split.
    + rewrite length_app, IHl, Hb. lia.
    + intros [| j] b Hj; cbn [nth_error] in Hj.
      * injection Hj as <-. rewrite Nat.mul_0_r. cbn [skipn].
        subst size. rewrite firstn_app, Nat.sub_diag, firstn_all.
        cbn [firstn]. apply app_nil_r.
      * rewrite skipn_app, skipn_all2 by (rewrite Hb; lia).
        cbn [app]. rewrite Hb.
        replace (size * S j - size)%nat with (size * j)%nat by lia.
        now apply IH.
Qed.

Lemma skin_matrices_blocks (nodes : list (Dict.t json))
    (roots : list BoneTree) (joints : list Z) :
  forall acc bin : bytes,
    foldM (fun bin node_id =>
             node <- Py.getitem nodes node_id ;;
             bone_name <- match Dict.get node "name" with
                          | Some (JStr n) => Ok n
                          | _ => Raise (KeyError "name")
                          end ;;
             head <- match forest_find bone_name roots with
                     | Some h => Ok h
                     | None => Raise (KeyError bone_name)
                     end ;;
             matrix <- inverse_bind_matrix head ;;
             Ok (bin ++ matrix)%list)
          joints acc = Ok bin ->
    exists blocks : list bytes,
      bin = (acc ++ List.concat blocks)%list
      /\ Forall2 (fun id block =>
                    exists node n head,
                      Py.getitem nodes id = Ok node
                      /\ node_name node = Some (JStr n)
                      /\ forest_find n roots = Some head
                      /\ inverse_bind_matrix head = Ok block)
                 joints blocks.
Proof.
  induction joints as [| id joints IH]; intros acc bin H.
  - injection H as <-. exists []. cbn [List.concat].
    rewrite app_nil_r. split; [reflexivity | constructor].
  - cbn [foldM] in H.
    destruct (Py.getitem nodes id) as [node |] eqn:En;
      cbn [Py.bind] in H; [|discriminate H].
    destruct (Dict.get node "name") as [[| | | | n | |] |] eqn:Ename;
      cbn [Py.bind] in H; try discriminate H.
    destruct (forest_find n roots) as [head |] eqn:Eh;
      cbn [Py.bind] in H; [|discriminate H].
    destruct (inverse_bind_matrix head) as [matrix |] eqn:Em;
      cbn [Py.bind] in H; [|discriminate H].
    apply IH in H. destruct H as (blocks & -> & Hb).
    exists (matrix :: blocks). cbn [List.concat].
    split; [now rewrite <- app_assoc|].
    constructor; [|exact Hb]. now exists node, n, head.
Qed.

End InverseBind.

(** X25: the inverse bind matrices of a skin.  The buffer holds one
    matrix of 64 bytes for each joint, in the order of the joints; the
    matrix of a joint is the one made from the head of the bone that has
    the name of the joint's node; and the matrix made from a head
    (x, y, z) is the identity with the translation (x, -z, -y), which
    moves the converted head (-x, z, y) back to the origin. *)
Theorem inverse_bind_matrices_move_heads_to_the_origin :
  forall (nodes : list (Dict.t json)) (roots : list BoneTree)
         (joints : list Z) (bin : bytes),
    skin_invert_matrix_bin nodes roots joints = Ok bin ->
    List.length bin = (64 * List.length joints)%nat
    /\ (forall (j : nat) (id : Z),
           nth_error joints j = Some id ->
           exists (node : Dict.t json) (n : string) (head : list float),
             Py.getitem nodes id = Ok node
             /\ node_name node = Some (JStr n)
             /\ forest_find n roots = Some head
             /\ inverse_bind_matrix head
                = Ok (firstn 64 (skipn (64 * j) bin)))
    /\ (forall x y z : float,
           Float.valid x = true -> Float.valid y = true ->
           Float.valid z = true ->
           inverse_bind_matrix [x; y; z]
           = pack_floats 16
               [one; zero; zero; zero;
                zero; one; zero; zero;
                zero; zero; one; zero;
                x; Float.neg z; Float.neg y; one]).
Proof.
  intros nodes roots joints bin H. unfold skin_invert_matrix_bin in H.
  apply skin_matrices_blocks in H. destruct H as (blocks & -> & Hb).
  cbn [app].
  assert (Hsize : Forall (fun b : bytes => List.length b = 64%nat) blocks).
  { clear - Hb. induction Hb as [| id b l l' (node & n & head & H) _ IH];
      constructor; [|exact IH].
    destruct H as (_ & _ & _ & H).
    exact (inverse_bind_matrix_length _ _ H). }
  destruct (block_of_matrices 64 blocks Hsize) as [Hlen Hblock].
  split; [now rewrite Hlen, (Forall2_length Hb)|].
  split; [|exact inverse_bind_matrix_entries].
  intros j id Hj.
  assert (Hex : exists b, nth_error blocks j = Some b
                          /\ exists node n head,
                               Py.getitem nodes id = Ok node
                               /\ node_name node = Some (JStr n)
                               /\ forest_find n roots = Some head
                               /\ inverse_bind_matrix head = Ok b).
  { clear - Hb Hj. revert j Hj.
    induction Hb as [| i b l l' H _ IH]; intros [| j] Hj;
      try discriminate Hj; cbn [nth_error] in Hj |- *.
    - injection Hj as ->. now exists b.
    - now apply IH. }
  destruct Hex as (b & Hbj & node & n & head & H1 & H2 & H3 & H4).
  exists node, n, head. rewrite (Hblock j b Hbj). auto.
Qed.

Lemma inverse_bind_matrices_move_heads_to_the_origin_witness :
  match skin_invert_matrix_bin
          [[("name", JStr "hips")]; [("name", JStr "spine")]]%string
          [BoneNode "hips" [zero; zero; one]
             [BoneNode "spine" [zero; zero; of_Z 2] []]]
          [0; 1] with
  | Ok bin => List.length bin = 128%nat
  | Raise _ => False
  end.
Proof.
  destruct (skin_invert_matrix_bin
              [[("name", JStr "hips")]; [("name", JStr "spine")]]%string
              [BoneNode "hips" [zero; zero; one]
                 [BoneNode "spine" [zero; zero; of_Z 2] []]]
              [0; 1]) as [bin |] eqn:E;
    [|vm_compute in E; discriminate E].
  exact (proj1 (inverse_bind_matrices_move_heads_to_the_origin _ _ _ _ E)).
Defined.
